(** * LOOPAVGER: flow-volume averaging engine and percent-TLC consolidator

    A shallow embedding of the numerical core of the repository
    (fvavg.py, time_bins.py, volume_bins.py, reader.py, writer.py) and the
    properties of its specification that can be stated over it.

    Numbers.  The Python code computes on floats.  They are embedded as
    exact rationals [Q]: every comparison and every arithmetic operation of
    the source is the corresponding operation of [Q], and a division whose
    divisor is zero raises [ZeroDivisionError] as it does on Python floats.
    Rounding error is therefore outside this model; NaN appears only where
    the source produces it structurally (a standard deviation over fewer
    than two values, a missing spreadsheet cell).  Where a statement is
    about the rounding itself (the way from a volume to its percentage of
    TLC and back), the operations are those of binary64 floats, in the
    module [Binary64].

    Exceptions and mutation.  Python lists are mutated in place and an
    exception leaves the mutations done so far in place.  Code that relies
    on this (the [try]/[except IndexError] blocks of the scanner and of the
    resamplers) is written in a small state-and-exception monad whose
    failures keep the state. *)

From Stdlib Require Import QArith Qminmax Qabs Qround ZArith List Lia Bool.
From Stdlib Require Import String Ascii.
From Stdlib Require DecimalString.
From Stdlib Require Floats.
From Stdlib Require Import Reals Qreals Lra.
Import ListNotations.

Set Implicit Arguments.

(* Rational expressions are marked [%Q] where they occur; counts and
   indices are naturals and integers. *)
Close Scope Q_scope.
Close Scope R_scope.

(* ------------------------------------------------------------------ *)
(** * Python primitives *)
(* ------------------------------------------------------------------ *)

Module Py.

(** The exceptions the embedded code can raise. *)
Inductive exn : Type :=
| IndexError
| ZeroDivisionError
| StatisticsError.

Definition exn_eqb (a b : exn) : bool :=
  match a, b with
  | IndexError, IndexError => true
  | ZeroDivisionError, ZeroDivisionError => true
  | StatisticsError, StatisticsError => true
  | _, _ => false
  end.

(** A computation that returns or raises. *)
Definition result (A : Type) : Type := (exn + A)%type.

Definition ok {A} (x : A) : result A := inr x.
Definition raise {A} (e : exn) : result A := inl e.

Definition rbind {A B} (r : result A) (f : A -> result B) : result B :=
  match r with
  | inl e => inl e
  | inr x => f x
  end.

(** [l[i]] for a Python list: a non-negative index counts from the
    front, a negative one from the back, and only an index outside
    [-len, len) raises [IndexError]. *)
Definition index {A} (l : list A) (i : Z) : result A :=
  let n := Z.of_nat (List.length l) in
  let k := if (i <? 0)%Z then (n + i)%Z else i in
  if (k <? 0)%Z then raise IndexError
  else match nth_error l (Z.to_nat k) with
       | Some x => ok x
       | None => raise IndexError
       end.

(** [del l[0]] and [del l[-1]]. *)
Definition del_first {A} (l : list A) : result (list A) :=
  match l with
  | [] => raise IndexError
  | _ :: t => ok t
  end.

Definition del_last {A} (l : list A) : result (list A) :=
  match l with
  | [] => raise IndexError
  | _ :: _ => ok (removelast l)
  end.

(** Comparisons of the source on rationals. *)
Definition Qltb (a b : Q) : bool := negb (Qle_bool b a).
Definition Qgtb (a b : Q) : bool := Qltb b a.

(** [a / b] on Python numbers. *)
Definition div (a b : Q) : result Q :=
  if Qeq_bool b 0 then raise ZeroDivisionError else ok (a / b)%Q.

(** [sum(l)] and [statistics.mean(l)]. *)
Definition Qsum (l : list Q) : Q := fold_left Qplus l 0%Q.

Definition mean (l : list Q) : result Q :=
  match l with
  | [] => raise StatisticsError
  | _ => ok (Qsum l / inject_Z (Z.of_nat (List.length l)))%Q
  end.

(** [range(a, b)] as the list of its values. *)
Definition range (a b : nat) : list nat := seq a (b - a).

(** ** State with exceptions

    [M S A] runs on a mutable state [S]; when it raises, the state
    reached so far is kept, as the in-place mutations of Python are. *)
Definition M (S A : Type) : Type := S -> S * result A.

Definition ret {S A} (x : A) : M S A := fun s => (s, ok x).

Definition bind {S A B} (c : M S A) (f : A -> M S B) : M S B :=
  fun s =>
    match c s with
    | (s', inr x) => f x s'
    | (s', inl e) => (s', inl e)
    end.

Definition lift {S A} (r : result A) : M S A := fun s => (s, r).

Definition modify {S} (f : S -> S) : M S unit := fun s => (f s, ok tt).

Definition get {S} : M S S := fun s => (s, ok s).

(** [try: c  except e: h] *)
Definition try_except {S A} (c : M S A) (e : exn) (h : M S A) : M S A :=
  fun s =>
    match c s with
    | (s', inl e') => if exn_eqb e e' then h s' else (s', inl e')
    | r => r
    end.

(** [for x in xs: body x] *)
Fixpoint for_each {S A} (xs : list A) (body : A -> M S unit) : M S unit :=
  match xs with
  | [] => ret tt
  | x :: xs' => bind (body x) (fun _ => for_each xs' body)
  end.

(** [for x in xs: body x], where the body may [break]: it returns [true]
    to leave the loop. *)
Fixpoint for_break {S A} (xs : list A) (body : A -> M S bool) : M S unit :=
  match xs with
  | [] => ret tt
  | x :: xs' =>
      bind (body x) (fun stop => if stop then ret tt else for_break xs' body)
  end.

End Py.

Declare Scope py_scope.
Delimit Scope py_scope with py.
Notation "x <- c ;; k" := (Py.bind c (fun x => k))
  (at level 61, c at next level, right associativity) : py_scope.
Notation "c ;;; k" := (Py.bind c (fun _ => k))
  (at level 61, right associativity) : py_scope.
Notation "x <~ r ;; k" := (Py.rbind r (fun x => k))
  (at level 61, r at next level, right associativity) : py_scope.

(* ------------------------------------------------------------------ *)
(** * fvavg.py: the zero-crossing detector and the trimmer *)
(* ------------------------------------------------------------------ *)

Module FVAvg.
Import Py.
Local Open Scope py_scope.

(** The local variables of [find_zero_flow_points] that the loop
    mutates. *)
Record zeroed : Type := mkZeroed {
  zeroed_time_list : list Q;
  zeroed_vol_list : list Q;
  zeroed_flow_list : list Q;
  phase_indexes : nat;
  phase_indexes_list : list nat
}.

Definition zeroed_init : zeroed := mkZeroed [] [] [] 0 [].

Definition append_time (x : Q) : M zeroed unit :=
  modify (fun s => mkZeroed (zeroed_time_list s ++ [x]) (zeroed_vol_list s)
                     (zeroed_flow_list s) (phase_indexes s)
                     (phase_indexes_list s)).

Definition append_vol (x : Q) : M zeroed unit :=
  modify (fun s => mkZeroed (zeroed_time_list s) (zeroed_vol_list s ++ [x])
                     (zeroed_flow_list s) (phase_indexes s)
                     (phase_indexes_list s)).

Definition append_flow (x : Q) : M zeroed unit :=
  modify (fun s => mkZeroed (zeroed_time_list s) (zeroed_vol_list s)
                     (zeroed_flow_list s ++ [x]) (phase_indexes s)
                     (phase_indexes_list s)).

(** [phase_indexes = phase_indexes + 1] *)
Definition phase_incr : M zeroed unit :=
  modify (fun s => mkZeroed (zeroed_time_list s) (zeroed_vol_list s)
                     (zeroed_flow_list s) (phase_indexes s + 1)
                     (phase_indexes_list s)).

(** [phase_indexes = phase_indexes + 2;
     phase_indexes_list.append(phase_indexes); phase_indexes = 1] *)
Definition phase_close : M zeroed unit :=
  modify (fun s => mkZeroed (zeroed_time_list s) (zeroed_vol_list s)
                     (zeroed_flow_list s) 1
                     (phase_indexes_list s ++ [phase_indexes s + 2])).

Section Scan.
Variables time_raw_list vol_raw_list flow_raw_list : list Q.

(** The forward check: [counter] after
    [for j in range(1, 31): if flow_raw_list[i + 1 + j] ?? 0: counter += 1],
    where [??] is [>] or [<]. *)
Definition forward_count (test : Q -> bool) (i : nat) : result nat :=
  fold_left
    (fun acc j =>
       counter <~ acc ;;
       f <~ index flow_raw_list (Z.of_nat i + 1 + Z.of_nat j) ;;
       ok (if test f then counter + 1 else counter))
    (range 1 31) (ok 0).

(** The backward check: [back_track] after
    [for j in range(41, 61): try: back_track = flow_raw_list[i - j] + back_track
     except IndexError: pass], then divided by 20. *)
Definition back_track_sum (i : nat) : Q :=
  fold_left
    (fun back_track j =>
       match index flow_raw_list (Z.of_nat i - Z.of_nat j) with
       | inr f => (f + back_track)%Q
       | inl _ => back_track
       end)
    (range 41 61) 0%Q.

Definition back_track (i : nat) : Q := (back_track_sum i / 20)%Q.

(** The three appends of an ordinary sample, in the order of the
    source: time, flow, volume. *)
Definition append_sample (i : Z) : M zeroed unit :=
  t <- lift (index time_raw_list i) ;; append_time t ;;;
  f <- lift (index flow_raw_list i) ;; append_flow f ;;;
  v <- lift (index vol_raw_list i) ;; append_vol v.

(** "Standard procedure": append sample [i], extend the phase. *)
Definition standard (i : nat) : M zeroed unit :=
  append_sample (Z.of_nat i) ;;; phase_incr.

(** The branch of a validated crossing.  [nudge v1 v2] is
    [min(v1, v2) - 0.001] or [max(v1, v2) + 0.001]. *)
Definition interpolate (nudge : Q -> Q -> Q) (i : nat) : M zeroed unit :=
  let i := Z.of_nat i in
  append_sample i ;;;
  t1 <- lift (index time_raw_list i) ;;
  t2 <- lift (index time_raw_list (i + 1)) ;;
  v1 <- lift (index vol_raw_list i) ;;
  v2 <- lift (index vol_raw_list (i + 1)) ;;
  f1 <- lift (index flow_raw_list i) ;;
  f2 <- lift (index flow_raw_list (i + 1)) ;;
  slope <- lift (div (f2 - f1) (t2 - t1)) ;;
  dt <- lift (div (0 - f1) slope) ;;
  let interpolated_time := (t1 + dt)%Q in
  append_time interpolated_time ;;;
  append_time interpolated_time ;;;
  let interpolated_volume := nudge v1 v2 in
  append_vol interpolated_volume ;;;
  append_vol interpolated_volume ;;;
  append_flow 0 ;;;
  append_flow 0 ;;;
  phase_close.

Definition nudge_min (v1 v2 : Q) : Q := (Qmin v1 v2 - (1 # 1000))%Q.
Definition nudge_max (v1 v2 : Q) : Q := (Qmax v1 v2 + (1 # 1000))%Q.

(** [a < 0 < b] and [a > 0 > b] are chained comparisons: the second
    operand [flow_raw_list[i + 1]] is read only when the first
    comparison holds. *)
Definition neg_to_pos (i : nat) : result bool :=
  fi <~ index flow_raw_list (Z.of_nat i) ;;
  if Qltb fi 0 then
    fi1 <~ index flow_raw_list (Z.of_nat i + 1) ;; ok (Qltb 0 fi1)
  else ok false.

Definition pos_to_neg (i : nat) : result bool :=
  fi <~ index flow_raw_list (Z.of_nat i) ;;
  if Qgtb fi 0 then
    fi1 <~ index flow_raw_list (Z.of_nat i + 1) ;; ok (Qgtb 0 fi1)
  else ok false.

(** Whether the two checks accept a negative-to-positive, respectively
    positive-to-negative, candidate at [i]. *)
Definition validated_up (i : nat) : result bool :=
  counter <~ forward_count (fun f => Qgtb f 0) i ;;
  ok ((counter =? 30) && Qltb (back_track i) 0).

Definition validated_down (i : nat) : result bool :=
  counter <~ forward_count (fun f => Qltb f 0) i ;;
  ok ((counter =? 30) && Qgtb (back_track i) 0).

(** The body of the [try] block for sample [i]. *)
Definition scan_try (i : nat) : M zeroed unit :=
  up <- lift (neg_to_pos i) ;;
  if up then
    valid <- lift (validated_up i) ;;
    if valid then interpolate nudge_min i else standard i
  else
    down <- lift (pos_to_neg i) ;;
    if down then
      valid <- lift (validated_down i) ;;
      if valid then interpolate nudge_max i else standard i
    else standard i.

(** The [except IndexError] handler: append the last sample. *)
Definition scan_except : M zeroed unit :=
  append_sample (-1) ;;; phase_incr.

Definition scan_step (i : nat) : M zeroed unit :=
  try_except (scan_try i) IndexError scan_except.

Definition scan : M zeroed unit :=
  for_each (range 0 (List.length flow_raw_list)) scan_step.

(** The four lists returned. *)
Definition find_zero_flow_points
  : result (list Q * list Q * list Q * list nat) :=
  match scan zeroed_init with
  | (s, inr _) =>
      ok (zeroed_time_list s, zeroed_vol_list s, zeroed_flow_list s,
          phase_indexes_list s)
  | (_, inl e) => raise e
  end.

End Scan.

(** ** The trimmer *)

(** [delete_row(0, flow, vol, time)] once the head of the flow list has
    been removed: the heads of the volume and time lists follow. *)
Definition delete_row_rest (zv zt : list Q) : result (list Q * list Q) :=
  zv' <~ del_first zv ;;
  zt' <~ del_first zt ;;
  ok (zv', zt').

(** [zeroed_flow_list[0] == 0 and zeroed_flow_list[2] ?? 0]: the second
    operand is read only when the first comparison holds. *)
Definition head_pattern (test : Q -> bool) (zf : list Q) : result bool :=
  f0 <~ index zf 0 ;;
  if Qeq_bool f0 0 then f2 <~ index zf 2 ;; ok (test f2) else ok false.

(** The leading [while True] loop.  Every iteration deletes the head of the
    lists, so the loop is a recursion on the flow list. *)
Fixpoint trim_start (zf zv zt : list Q) (counter_start : Q) {struct zf}
  : result (list Q * list Q * list Q * Q) :=
  found <~ head_pattern (fun f2 => Qltb f2 0) zf ;;
  match zf with
  | [] => raise IndexError
  | _ :: zf' =>
      if found then
        r <~ delete_row_rest zv zt ;;
        ok (zf', fst r, snd r, counter_start)
      else
        bump <~ head_pattern (fun f2 => Qgtb f2 0) zf ;;
        let counter_start :=
          if bump then (counter_start + (1 # 2))%Q else counter_start in
        r <~ delete_row_rest zv zt ;;
        trim_start zf' (fst r) (snd r) counter_start
  end.

(** The trailing loop reads [zeroed_flow_list[-3]] and
    [zeroed_flow_list[-1]] and deletes at index [-1]: on the reversed lists
    these are the indices 2 and 0 and a deletion of the head, which turns
    the loop into a recursion on the reversed flow list. *)
Definition tail_pattern (test : Q -> bool) (rf : list Q) : result bool :=
  f3 <~ index rf 2 ;;
  if Qeq_bool f3 0 then f1 <~ index rf 0 ;; ok (test f1) else ok false.

Definition delete_row_rev (rf rv rt : list Q)
  : result (list Q * list Q * list Q) :=
  rf' <~ del_first rf ;;
  rv' <~ del_first rv ;;
  rt' <~ del_first rt ;;
  ok (rf', rv', rt').

Fixpoint trim_end_rev (rf rv rt : list Q) (counter_end : Q) {struct rf}
  : result (list Q * list Q * list Q * Q) :=
  found <~ tail_pattern (fun f1 => Qltb f1 0) rf ;;
  match rf with
  | [] => raise IndexError
  | _ :: rf' =>
      if found then
        r1 <~ delete_row_rev rf rv rt ;;
        let '(a1, b1, c1) := r1 in
        r2 <~ delete_row_rev a1 b1 c1 ;;
        let '(a2, b2, c2) := r2 in
        r3 <~ delete_row_rev a2 b2 c2 ;;
        let '(a3, b3, c3) := r3 in
        ok (a3, b3, c3, counter_end)
      else
        bump <~ tail_pattern (fun f1 => Qgtb f1 0) rf ;;
        let counter_end :=
          if bump then (counter_end + (1 # 2))%Q else counter_end in
        r <~ delete_row_rest rv rt ;;
        trim_end_rev rf' (fst r) (snd r) counter_end
  end.

Definition trim_end (zf zv zt : list Q) (counter_end : Q)
  : result (list Q * list Q * list Q * Q) :=
  r <~ trim_end_rev (rev zf) (rev zv) (rev zt) counter_end ;;
  let '(rf, rv, rt, c) := r in
  ok (rev rf, rev rv, rev rt, c).

(** "Adjust phase indexes based on counters". *)
Definition drop_leading_phases (counter_start : Q) (phl : list nat)
  : result (list nat) :=
  if Qeq_bool counter_start 1 then del_first phl
  else if Qeq_bool counter_start 2 then
    p <~ del_first phl ;; del_first p
  else ok phl.

Definition drop_trailing_phase (counter_end : Q) (phl : list nat)
  : result (list nat) :=
  if Qeq_bool counter_end 1 then del_last phl else ok phl.

(** The record returned by [trim_excess_data], with the two counters kept
    for the statements about them. *)
Record trimmed : Type := mkTrimmed {
  trimmed_time : list Q;
  trimmed_vol : list Q;
  trimmed_flow : list Q;
  trimmed_phases : list nat;
  number_of_breaths : nat;
  counter_start : Q;
  counter_end : Q
}.

Definition trim_excess_data
  (zeroed_time_list zeroed_vol_list zeroed_flow_list : list Q)
  (phase_indexes_list : list nat) : result trimmed :=
  r1 <~ trim_start zeroed_flow_list zeroed_vol_list zeroed_time_list 1 ;;
  let '(zf, zv, zt, cs) := r1 in
  r2 <~ trim_end zf zv zt 0 ;;
  let '(zf, zv, zt, ce) := r2 in
  phl <~ drop_leading_phases cs phase_indexes_list ;;
  phl <~ drop_trailing_phase ce phl ;;
  ok (mkTrimmed zt zv zf phl (List.length phl / 2) cs ce).

(** The detector followed by the trimmer, as [process_fvavg] chains them. *)
Definition detect_and_trim (time_raw_list vol_raw_list flow_raw_list : list Q)
  : result trimmed :=
  z <~ find_zero_flow_points time_raw_list vol_raw_list flow_raw_list ;;
  let '(zt, zv, zf, phl) := z in
  trim_excess_data zt zv zf phl.

End FVAvg.

(* ------------------------------------------------------------------ *)
(** * Standard deviation as numpy computes it *)
(* ------------------------------------------------------------------ *)

Module Numpy.
Import Py.

(** A float produced by [np.std]: NaN, or the square root of a rational.
    The root is kept symbolic so that the model computes; its real value is
    given by [std_value] further down. *)
Inductive npfloat : Type :=
| NaN
| Root (radicand : Q).

(** [np.std(xs, ddof=ddof)]: the mean is [sum / N], the squared deviations
    are summed and divided by [N - ddof], and a division [0 / 0] (no data,
    or [N = ddof] with all deviations zero) is NaN.  The source calls it
    with [ddof = 1] on [N = number_of_breaths] values. *)
Definition std (ddof : nat) (xs : list Q) : npfloat :=
  let N := List.length xs in
  if N <=? ddof then NaN
  else
    let m := (Qsum xs / inject_Z (Z.of_nat N))%Q in
    let ss := Qsum (map (fun x => ((x - m) * (x - m))%Q) xs) in
    Root (ss / inject_Z (Z.of_nat (N - ddof)))%Q.

End Numpy.

(* ------------------------------------------------------------------ *)
(** * The per-bin aggregation shared by time_bins.py and volume_bins.py *)
(* ------------------------------------------------------------------ *)

Module Aggregate.
Import Py Numpy.
Local Open Scope py_scope.

(** [temp_sem]: the values [arrays[i][j]] for [i in range(number_of_breaths)],
    one array per breath. *)
Fixpoint column (arrays : list (list Q)) (j : nat) : result (list Q) :=
  match arrays with
  | [] => ok []
  | a :: rest =>
      x <~ index a (Z.of_nat j) ;;
      r <~ column rest j ;;
      ok (x :: r)
  end.

(** One of the four blocks of the averaging loop: the total, the sample
    standard deviation [np.std(temp_sem, ddof=1)] and the average
    [Total / number_of_breaths], to which the time-bin volume blocks add
    [Mean_shift] ([shift = Some Mean_shift]) and the others nothing. *)
Definition aggregate_bin (shift : option Q) (number_of_breaths : nat)
  (temp_sem : list Q) : result (Q * npfloat) :=
  let Total := Qsum temp_sem in
  let x := std 1 temp_sem in
  avg <~ div Total (inject_Z (Z.of_nat number_of_breaths)) ;;
  ok (match shift with Some m => (avg + m)%Q | None => avg end, x).

(** The eight lists of averages and deviations. *)
Record averages : Type := mkAverages {
  avg_insp_vol : list Q;
  avg_exp_vol : list Q;
  avg_insp_flow : list Q;
  avg_exp_flow : list Q;
  avg_insp_vol_sem : list npfloat;
  avg_exp_vol_sem : list npfloat;
  avg_insp_flow_sem : list npfloat;
  avg_exp_flow_sem : list npfloat
}.

Definition averages_empty : averages := mkAverages [] [] [] [] [] [] [] [].

Section Loop.
Variable vol_shift : option Q.
Variable number_of_breaths : nat.
Variables insp_vols exp_vols insp_flows exp_flows : list (list Q).

(** The body of [for j in range(intervals + 1)]: inspiration volume,
    expiration volume, inspiration flow, expiration flow. *)
Definition aggregate_row (acc : averages) (j : nat) : result averages :=
  c <~ column insp_vols j ;;
  iv <~ aggregate_bin vol_shift number_of_breaths c ;;
  c <~ column exp_vols j ;;
  ev <~ aggregate_bin vol_shift number_of_breaths c ;;
  c <~ column insp_flows j ;;
  ifl <~ aggregate_bin None number_of_breaths c ;;
  c <~ column exp_flows j ;;
  efl <~ aggregate_bin None number_of_breaths c ;;
  ok (mkAverages
        (avg_insp_vol acc ++ [fst iv]) (avg_exp_vol acc ++ [fst ev])
        (avg_insp_flow acc ++ [fst ifl]) (avg_exp_flow acc ++ [fst efl])
        (avg_insp_vol_sem acc ++ [snd iv]) (avg_exp_vol_sem acc ++ [snd ev])
        (avg_insp_flow_sem acc ++ [snd ifl])
        (avg_exp_flow_sem acc ++ [snd efl])).

Fixpoint aggregate_loop (js : list nat) (acc : averages) : result averages :=
  match js with
  | [] => ok acc
  | j :: js' => a <~ aggregate_row acc j ;; aggregate_loop js' a
  end.

Definition aggregate (intervals : nat) : result averages :=
  aggregate_loop (range 0 (intervals + 1)) averages_empty.

End Loop.

End Aggregate.

(* ------------------------------------------------------------------ *)
(** * time_bins.py *)
(* ------------------------------------------------------------------ *)

Module TimeBins.
Import Py Numpy Aggregate.
Local Open Scope py_scope.

(** One [while phase_limit < phase_indexes_list[0]] loop: it moves [n]
    entries from the front of a list to a new list and raises
    [IndexError] when the list runs out. *)
Fixpoint peel (n : nat) (l : list Q) : result (list Q * list Q) :=
  match n with
  | 0 => ok ([], l)
  | S n' =>
      match l with
      | [] => raise IndexError
      | x :: l' => r <~ peel n' l' ;; ok (x :: fst r, snd r)
      end
  end.

(** The same loop on the time list, which first reads
    [zeroed_time_list[0]] and subtracts it from every entry moved. *)
Definition peel_time (n : nat) (l : list Q) : result (list Q * list Q) :=
  t0 <~ index l 0 ;;
  r <~ peel n l ;;
  ok (map (fun t => (t - t0)%Q) (fst r), snd r).

(** [incr * j for j in range(intervals + 1)] with [incr = total / intervals]. *)
Definition intervals_of (total : Q) (intervals : nat) : result (list Q) :=
  incr <~ div total (inject_Z (Z.of_nat intervals)) ;;
  ok (map (fun j => (incr * inject_Z (Z.of_nat j))%Q) (range 0 (intervals + 1))).

(** The two output lists an interpolation loop appends to. *)
Definition out2 : Type := (list Q * list Q)%type.

Definition push_vol (x : Q) : M out2 unit :=
  modify (fun s => (fst s ++ [x], snd s)).
Definition push_flow (x : Q) : M out2 unit :=
  modify (fun s => (fst s, snd s ++ [x])).

Section Interpolate.
Variables Time Vol Flow : list Q.

(** [Time[l] < tau < Time[l + 1]] (chained) and
    [Time[l] < tau and Time[l + 1] > tau]: both read [Time[l + 1]] only
    when the first comparison holds. *)
Definition bracket (tau : Q) (l : nat) : result bool :=
  tl <~ index Time (Z.of_nat l) ;;
  if Qltb tl tau then
    tl1 <~ index Time (Z.of_nat l + 1) ;; ok (Qltb tau tl1)
  else ok false.

(** The last test of the chain: [tau == Insp_Time[-1]] for inspiration,
    [tau / Exp_Time[-1] == 1] for expiration. *)
Definition is_last_insp (tau : Q) : result bool :=
  t <~ index Time (-1) ;; ok (Qeq_bool tau t).

Definition is_last_exp (tau : Q) : result bool :=
  t <~ index Time (-1) ;;
  q <~ div tau t ;;
  ok (Qeq_bool q 1).

(** The body of [for l in range(len(Time))] for one target [tau]; it
    returns [true] where the source breaks. *)
Definition interp_try (is_last : Q -> result bool) (tau : Q) (l : nat)
  : M out2 bool :=
  if Qeq_bool tau 0 then
    v <- lift (index Vol 0) ;; push_vol v ;;;
    f <- lift (index Flow 0) ;; push_flow f ;;;
    ret true
  else
    b <- lift (bracket tau l) ;;
    if b then
      t1 <- lift (index Time (Z.of_nat l)) ;;
      t2 <- lift (index Time (Z.of_nat l + 1)) ;;
      v1 <- lift (index Vol (Z.of_nat l)) ;;
      v2 <- lift (index Vol (Z.of_nat l + 1)) ;;
      f1 <- lift (index Flow (Z.of_nat l)) ;;
      f2 <- lift (index Flow (Z.of_nat l + 1)) ;;
      sv <- lift (div (v2 - v1) (t2 - t1)) ;;
      let Volume_at_Interval := (v1 + sv * (tau - t1))%Q in
      sf <- lift (div (f2 - f1) (t2 - t1)) ;;
      let Flow_at_Interval := (f1 + sf * (tau - t1))%Q in
      push_vol Volume_at_Interval ;;;
      push_flow Flow_at_Interval ;;;
      ret true
    else
      e <- lift (is_last tau) ;;
      if e then
        v <- lift (index Vol (-1)) ;; push_vol v ;;;
        f <- lift (index Flow (-1)) ;; push_flow f ;;;
        ret true
      else ret false.

(** The [except IndexError] handler appends sample [l] and does not
    break. *)
Definition interp_except (l : nat) : M out2 bool :=
  v <- lift (index Vol (Z.of_nat l)) ;; push_vol v ;;;
  f <- lift (index Flow (Z.of_nat l)) ;; push_flow f ;;;
  ret false.

Definition interp_body (is_last : Q -> result bool) (tau : Q) (l : nat)
  : M out2 bool :=
  try_except (interp_try is_last tau l) IndexError (interp_except l).

(** Both nested loops: for every target, scan the segments. *)
Definition interpolate_all (is_last : Q -> result bool) (targets : list Q)
  : M out2 unit :=
  for_each targets
    (fun tau => for_break (range 0 (List.length Time)) (interp_body is_last tau)).

Definition interpolate (is_last : Q -> result bool) (targets : list Q)
  : result out2 :=
  match interpolate_all is_last targets ([], []) with
  | (s, inr _) => ok s
  | (_, inl e) => raise e
  end.

End Interpolate.

(** The six lists kept for one breath, under the keys of the source
    dictionaries.  A dictionary keyed by ["Breath_0"], ["Breath_1"], ... is
    the list of its entries in that order. *)
Record breath : Type := mkBreath {
  Insp_Time : list Q;
  Insp_Vol : list Q;
  Insp_Flow : list Q;
  Exp_Time : list Q;
  Exp_Vol : list Q;
  Exp_Flow : list Q
}.

(** What one iteration of the first loop of [process_time_bins] produces:
    the original phases, the time-bin arrays and the four scalars. *)
Record resampled : Type := mkResampled {
  original : breath;
  bins : breath;
  Tt_Insp : Q;
  Tt_Exp : Q;
  Vt_Insp : Q;
  Vt_Exp : Q
}.

(** The lists still to be consumed. *)
Definition remaining : Type := (list Q * list Q * list Q * list nat)%type.

(** One iteration: peel the two phases, measure them, build the targets
    and interpolate.  (The reads that can only raise [IndexError] are
    grouped; which of them raises first is not observable.) *)
Definition resample_breath (intervals : nat) (rest : remaining)
  : result (resampled * remaining) :=
  let '(zt, zv, zf, phl) := rest in
  n_insp <~ index phl 0 ;;
  rt <~ peel_time n_insp zt ;;
  rv <~ peel n_insp zv ;;
  rf <~ peel n_insp zf ;;
  let '(insp_time, zt) := rt in
  let '(insp_vol, zv) := rv in
  let '(insp_flow, zf) := rf in
  phl <~ del_first phl ;;
  n_exp <~ index phl 0 ;;
  rt <~ peel_time n_exp zt ;;
  rv <~ peel n_exp zv ;;
  rf <~ peel n_exp zf ;;
  let '(exp_time, zt) := rt in
  let '(exp_vol, zv) := rv in
  let '(exp_flow, zf) := rf in
  phl <~ del_first phl ;;
  tt_insp <~ index insp_time (-1) ;;
  tt_exp <~ index exp_time (-1) ;;
  iv_last <~ index insp_vol (-1) ;;
  iv_first <~ index insp_vol 0 ;;
  let vt_insp := Qabs (iv_last - iv_first) in
  ev_last <~ index exp_vol (-1) ;;
  ev_first <~ index exp_vol 0 ;;
  let vt_exp := Qabs (ev_last - ev_first) in
  insp_time_intervals_tbins <~ intervals_of tt_insp intervals ;;
  exp_time_intervals_tbins <~ intervals_of tt_exp intervals ;;
  i_out <~ interpolate insp_time insp_vol insp_flow (is_last_insp insp_time)
             insp_time_intervals_tbins ;;
  e_out <~ interpolate exp_time exp_vol exp_flow (is_last_exp exp_time)
             exp_time_intervals_tbins ;;
  ok (mkResampled
        (mkBreath insp_time insp_vol insp_flow exp_time exp_vol exp_flow)
        (mkBreath insp_time_intervals_tbins (fst i_out) (snd i_out)
                  exp_time_intervals_tbins (fst e_out) (snd e_out))
        tt_insp tt_exp vt_insp vt_exp,
      (zt, zv, zf, phl)).

(** [for i in range(number_of_breaths)]. *)
Fixpoint resample_all (intervals B : nat) (rest : remaining)
  : result (list resampled) :=
  match B with
  | 0 => ok []
  | S B' =>
      r <~ resample_breath intervals rest ;;
      rs <~ resample_all intervals B' (snd r) ;;
      ok (fst r :: rs)
  end.

(** ** Normalization *)

(** [for j in range(n): l[j] = f(l[j])] *)
Fixpoint update_range (f : Q -> result Q) (n : nat) (l : list Q)
  : result (list Q) :=
  match n with
  | 0 => ok l
  | S n' =>
      match l with
      | [] => raise IndexError
      | x :: l' =>
          y <~ f x ;;
          r <~ update_range f n' l' ;;
          ok (y :: r)
      end
  end.

Definition set_vols (b : breath) (iv ev : list Q) : breath :=
  mkBreath (Insp_Time b) iv (Insp_Flow b) (Exp_Time b) ev (Exp_Flow b).

(** The body of the "Mean shift" loop for one breath: subtract
    [Insp_Vol[-1]] from the inspiration volumes and [Exp_Vol[0]] from the
    expiration volumes, adding both to [Mean_shift]. *)
Definition shift_breath (intervals : nat) (b : breath) (Mean_shift : Q)
  : result (breath * Q) :=
  Subtraction_Value_insp <~ index (Insp_Vol b) (-1) ;;
  let Mean_shift := (Mean_shift + Subtraction_Value_insp)%Q in
  iv <~ update_range (fun x => ok (x - Subtraction_Value_insp)%Q)
          (intervals + 1) (Insp_Vol b) ;;
  Subtraction_Value_exp <~ index (Exp_Vol b) 0 ;;
  let Mean_shift := (Mean_shift + Subtraction_Value_exp)%Q in
  ev <~ update_range (fun x => ok (x - Subtraction_Value_exp)%Q)
          (intervals + 1) (Exp_Vol b) ;;
  ok (set_vols b iv ev, Mean_shift).

Fixpoint shift_all (intervals : nat) (d : list breath) (Mean_shift : Q)
  : result (list breath * Q) :=
  match d with
  | [] => ok ([], Mean_shift)
  | b :: d' =>
      r <~ shift_breath intervals b Mean_shift ;;
      rs <~ shift_all intervals d' (snd r) ;;
      ok (fst r :: fst rs, snd rs)
  end.

(** [l[j] = (l[j] / Vt) * Avg] *)
Definition rescale (Vt Avg : Q) (x : Q) : result Q :=
  q <~ div x Vt ;; ok (q * Avg)%Q.

(** The rescaling loop, breath [i] first among [d]. *)
Fixpoint rescale_all (intervals : nat) (Vt_Insp_list Vt_Exp_list : list Q)
  (Avg_Insp_Vt Avg_Exp_Vt : Q) (i : nat) (d : list breath)
  : result (list breath) :=
  match d with
  | [] => ok []
  | b :: d' =>
      iv <~ update_range
              (fun x => vt <~ index Vt_Insp_list (Z.of_nat i) ;;
                        rescale vt Avg_Insp_Vt x)
              (intervals + 1) (Insp_Vol b) ;;
      ev <~ update_range
              (fun x => vt <~ index Vt_Exp_list (Z.of_nat i) ;;
                        rescale vt Avg_Exp_Vt x)
              (intervals + 1) (Exp_Vol b) ;;
      rs <~ rescale_all intervals Vt_Insp_list Vt_Exp_list
              Avg_Insp_Vt Avg_Exp_Vt (S i) d' ;;
      ok (set_vols b iv ev :: rs)
  end.

Record normalized : Type := mkNormalized {
  shifted : list breath;
  rescaled : list breath;
  Mean_shift : Q;
  Avg_Insp_Vt : Q;
  Avg_Exp_Vt : Q
}.

(** The normalizer: the dictionary [d] holds one entry per breath of
    [range(number_of_breaths)]. *)
Definition normalize (intervals number_of_breaths : nat) (d : list breath)
  (Vt_Insp_list Vt_Exp_list : list Q) : result normalized :=
  r <~ shift_all intervals d 0%Q ;;
  let '(d1, total) := r in
  ms <~ div total (inject_Z (Z.of_nat (number_of_breaths * 2))) ;;
  avg_i <~ mean Vt_Insp_list ;;
  avg_e <~ mean Vt_Exp_list ;;
  d2 <~ rescale_all intervals Vt_Insp_list Vt_Exp_list avg_i avg_e 0 d1 ;;
  ok (mkNormalized d1 d2 ms avg_i avg_e).

(** ** The whole of [process_time_bins] *)

Record time_bins_result : Type := mkTimeBinsResult {
  time_bins_breath_dictionary : list breath;
  original_data_breath_dictionary : list breath;
  time_bin_copy : list breath;
  Vt_Insp_list : list Q;
  Vt_Exp_list : list Q;
  Tt_Insp_list : list Q;
  Tt_Exp_list : list Q;
  tbin_averages : averages;
  tbin_Mean_shift : Q;
  tbin_Avg_Insp_Vt : Q;
  tbin_Avg_Exp_Vt : Q
}.

Definition process_time_bins
  (zeroed_time_list zeroed_vol_list zeroed_flow_list : list Q)
  (phase_indexes_list : list nat) (intervals number_of_breaths : nat)
  : result time_bins_result :=
  rs <~ resample_all intervals number_of_breaths
          (zeroed_time_list, zeroed_vol_list, zeroed_flow_list,
           phase_indexes_list) ;;
  let d := map bins rs in
  let vti := map Vt_Insp rs in
  let vte := map Vt_Exp rs in
  n <~ normalize intervals number_of_breaths d vti vte ;;
  let d' := rescaled n in
  a <~ aggregate (Some (Mean_shift n)) number_of_breaths
         (map Insp_Vol d') (map Exp_Vol d')
         (map Insp_Flow d') (map Exp_Flow d') intervals ;;
  ok (mkTimeBinsResult d' (map original rs) d vti vte
        (map Tt_Insp rs) (map Tt_Exp rs) a
        (Mean_shift n) (Avg_Insp_Vt n) (Avg_Exp_Vt n)).

End TimeBins.

(* ------------------------------------------------------------------ *)
(** * volume_bins.py *)
(* ------------------------------------------------------------------ *)

Module VolumeBins.
Import Py Numpy Aggregate.
Local Open Scope py_scope.

(** The four lists kept per breath in [volume_bins_breath_dictionary]. *)
Record vbreath : Type := mkVBreath {
  Insp_Vol : list Q;
  Insp_Flow : list Q;
  Exp_Vol : list Q;
  Exp_Flow : list Q
}.

(** [Start - incr * j] (inspiration) or [Start + incr * j] (expiration) for
    [j in range(intervals + 1)], with [incr = Vt / intervals]. *)
Definition vol_intervals (step : Q -> Q -> Q) (Start Vt : Q) (intervals : nat)
  : result (list Q) :=
  incr <~ div Vt (inject_Z (Z.of_nat intervals)) ;;
  ok (map (fun j => step Start (incr * inject_Z (Z.of_nat j))%Q)
          (range 0 (intervals + 1))).

Definition push (x : Q) : M (list Q) unit := modify (fun s => s ++ [x]).

Section Interpolate.
Variables Time Vol Flow : list Q.

(** [Vol[l] > A > Vol[l + 1]] for inspiration ([before = Qgtb]) and
    [Vol[l] < A < Vol[l + 1]] for expiration ([before = Qltb]); chained, so
    [Vol[l + 1]] is read only when the first comparison holds. *)
Definition bracket (before : Q -> Q -> bool) (A : Q) (l : nat) : result bool :=
  vl <~ index Vol (Z.of_nat l) ;;
  if before vl A then
    vl1 <~ index Vol (Z.of_nat l + 1) ;; ok (before A vl1)
  else ok false.

(** The body of [for l in range(len(Vol))] for the target volume [A]. *)
Definition interp_try (before : Q -> Q -> bool) (A : Q) (l : nat)
  : M (list Q) bool :=
  v0 <- lift (index Vol 0) ;;
  if Qeq_bool A v0 then
    f <- lift (index Flow 0) ;; push f ;;; ret true
  else
    vl <- lift (index Vol (Z.of_nat l)) ;;
    if Qeq_bool vl A then
      f <- lift (index Flow (Z.of_nat l)) ;; push f ;;; ret true
    else
      vlast <- lift (index Vol (-1)) ;;
      if Qeq_bool A vlast then
        f <- lift (index Flow (-1)) ;; push f ;;; ret true
      else
        b <- lift (bracket before A l) ;;
        if b then
          t1 <- lift (index Time (Z.of_nat l)) ;;
          t2 <- lift (index Time (Z.of_nat l + 1)) ;;
          v1 <- lift (index Vol (Z.of_nat l)) ;;
          v2 <- lift (index Vol (Z.of_nat l + 1)) ;;
          f1 <- lift (index Flow (Z.of_nat l)) ;;
          f2 <- lift (index Flow (Z.of_nat l + 1)) ;;
          sv <- lift (div (v2 - v1) (t2 - t1)) ;;
          dt <- lift (div (A - v1) sv) ;;
          let Time_at_Volume_Interval := (t1 + dt)%Q in
          sf <- lift (div (f2 - f1) (t2 - t1)) ;;
          let Flow_at_Volume_Interval :=
            (f1 + sf * (Time_at_Volume_Interval - t1))%Q in
          push Flow_at_Volume_Interval ;;; ret true
        else ret false.

Definition interp_except (l : nat) : M (list Q) bool :=
  f <- lift (index Flow (Z.of_nat l)) ;; push f ;;; ret false.

Definition interp_body (before : Q -> Q -> bool) (A : Q) (l : nat)
  : M (list Q) bool :=
  try_except (interp_try before A l) IndexError (interp_except l).

Definition interpolate (before : Q -> Q -> bool) (targets : list Q)
  : result (list Q) :=
  match for_each targets
          (fun A => for_break (range 0 (List.length Vol))
                      (interp_body before A)) [] with
  | (s, inr _) => ok s
  | (_, inl e) => raise e
  end.

End Interpolate.

(** The body of the first loop for breath [i]: [o] holds its original
    phases, [vt_insp] and [vt_exp] are [Vt_Insp_list[i]] and
    [Vt_Exp_list[i]]. *)
Definition volume_bins_breath (intervals : nat) (o : TimeBins.breath)
  (vt_insp vt_exp : Q) : result vbreath :=
  let Insp_Time := TimeBins.Insp_Time o in
  let insp_vol := TimeBins.Insp_Vol o in
  let Insp_Flow := TimeBins.Insp_Flow o in
  let Exp_Time := TimeBins.Exp_Time o in
  let Exp_Volume := TimeBins.Exp_Vol o in
  let Exp_Flow := TimeBins.Exp_Flow o in
  Start_Insp_Value <~ index insp_vol 0 ;;
  insp_vol_intervals_vbins <~
    vol_intervals Qminus Start_Insp_Value vt_insp intervals ;;
  Start_Exp_Value <~ index Exp_Volume 0 ;;
  exp_vol_intervals_vbins <~
    vol_intervals Qplus Start_Exp_Value vt_exp intervals ;;
  insp_flow_intervals_vbins <~
    interpolate Insp_Time insp_vol Insp_Flow Qgtb insp_vol_intervals_vbins ;;
  exp_flow_intervals_vbins <~
    interpolate Exp_Time Exp_Volume Exp_Flow Qltb exp_vol_intervals_vbins ;;
  ok (mkVBreath insp_vol_intervals_vbins insp_flow_intervals_vbins
                exp_vol_intervals_vbins exp_flow_intervals_vbins).

Fixpoint volume_bins_all (intervals : nat) (os : list TimeBins.breath)
  (Vt_Insp_list Vt_Exp_list : list Q) (i : nat) : result (list vbreath) :=
  match os with
  | [] => ok []
  | o :: os' =>
      vi <~ index Vt_Insp_list (Z.of_nat i) ;;
      ve <~ index Vt_Exp_list (Z.of_nat i) ;;
      b <~ volume_bins_breath intervals o vi ve ;;
      bs <~ volume_bins_all intervals os' Vt_Insp_list Vt_Exp_list (S i) ;;
      ok (b :: bs)
  end.

Record volume_bins_result : Type := mkVolumeBinsResult {
  volume_bins_breath_dictionary : list vbreath;
  vbin_averages : averages
}.

Definition process_volume_bins (r : TimeBins.time_bins_result)
  (intervals number_of_breaths : nat) : result volume_bins_result :=
  d <~ volume_bins_all intervals
         (TimeBins.original_data_breath_dictionary r)
         (TimeBins.Vt_Insp_list r) (TimeBins.Vt_Exp_list r) 0 ;;
  a <~ aggregate None number_of_breaths
         (map Insp_Vol d) (map Exp_Vol d)
         (map Insp_Flow d) (map Exp_Flow d) intervals ;;
  ok (mkVolumeBinsResult d a).

End VolumeBins.

(* ------------------------------------------------------------------ *)
(** * reader.py, helpers.py and writer.py: the percent-TLC consolidator *)
(* ------------------------------------------------------------------ *)

Module Consolidator.
Import Py.

(** A pandas Series of floats: [None] is NaN (a missing value). *)
Definition series : Type := list (option Q).

(** A cell of an object column: a number, NaN, or the empty string that
    [fillna("")] writes. *)
Inductive cell : Type :=
| Num (q : Q)
| NaNc
| Blank.

(** A DataFrame, and a dict of columns: its columns in order, by name. *)
Definition frame (A : Type) : Type := list (string * list A).

(** ** helpers.py *)

(** [p in s] on strings. *)
Definition contains (p s : string) : bool :=
  match String.index 0 p s with
  | Some _ => true
  | None => false
  end.

Definition lower_ascii (c : ascii) : ascii :=
  let n := nat_of_ascii c in
  if (65 <=? n) && (n <=? 90) then ascii_of_nat (n + 32) else c.

(** [str.lower()] on the ASCII letters. *)
Fixpoint lower (s : string) : string :=
  match s with
  | EmptyString => EmptyString
  | String c s' => String (lower_ascii c) (lower s')
  end.

(** [find_column(df, patterns)]: the first column whose lowercased name
    contains every lowercased pattern. *)
Fixpoint find_column {A} (df : frame A) (patterns : list string)
  : option string :=
  match df with
  | [] => None
  | (col, _) :: rest =>
      if forallb (fun p => contains (lower p) (lower col)) patterns
      then Some col
      else find_column rest patterns
  end.

(** [df[col]]: the first column of that name. *)
Fixpoint get_column {A} (df : frame A) (col : string) : option (list A) :=
  match df with
  | [] => None
  | (c, xs) :: rest =>
      if String.eqb c col then Some xs else get_column rest col
  end.

(** config.py *)
Definition VOL_INSP_PATTERN : list string := ["insp"%string; "vol"%string].
Definition FLOW_INSP_PATTERN : list string := ["insp"%string; "flow"%string].
Definition VOL_EXP_PATTERN : list string := ["exp"%string; "vol"%string].
Definition FLOW_EXP_PATTERN : list string := ["exp"%string; "flow"%string].

(** ** reader.py *)

(** [(series / tlc) * 100], element by element; NaN stays NaN.  (For
    [tlc = 0] pandas yields infinities, which are not represented;
    dialogs.py only lets a [tlc > 0] through.) *)
Definition percent_of_tlc (tlc : Q) (s : series) : series :=
  map (option_map (fun v => (v / tlc * 100)%Q)) s.

Record file_result : Type := mkFileResult {
  insp_vol_percent : series;
  insp_flow : series;
  exp_vol_percent : series;
  exp_flow : series;
  n_rows : nat;
  raw_insp_vol : series;
  raw_exp_vol : series
}.

(** [read_excel_file] once the sheet [df] has been loaded; [None] is the
    failure tuple (a column was not found). *)
Definition read_excel_file (df : frame (option Q)) (tlc : Q)
  : option file_result :=
  match find_column df VOL_INSP_PATTERN, find_column df FLOW_INSP_PATTERN,
        find_column df VOL_EXP_PATTERN, find_column df FLOW_EXP_PATTERN with
  | Some insp_vol_col, Some insp_flow_col, Some exp_vol_col, Some exp_flow_col =>
      match get_column df insp_vol_col, get_column df insp_flow_col,
            get_column df exp_vol_col, get_column df exp_flow_col with
      | Some iv, Some ifl, Some ev, Some efl =>
          let ivp := percent_of_tlc tlc iv in
          let evp := percent_of_tlc tlc ev in
          Some (mkFileResult ivp ifl evp efl
                  (Nat.max (List.length ivp) (List.length evp)) iv ev)
      | _, _, _, _ => None
      end
  | _, _, _, _ => None
  end.

(** ** writer.py *)

(** [round(x, 2)]: to the nearest hundredth, ties to the even one. *)
Definition round_half_even (x : Q) : Z :=
  let f := Qfloor x in
  let r := (x - inject_Z f)%Q in
  match Qcompare r (1 # 2) with
  | Lt => f
  | Gt => (f + 1)%Z
  | Eq => if Z.even f then f else (f + 1)%Z
  end.

Definition round2 (x : Q) : Q :=
  (inject_Z (round_half_even (x * 100)) / 100)%Q.

(** [sum(all_tlc_values) / len(all_tlc_values) if all_tlc_values else 0],
    then [round(avg_tlc, 2)]. *)
Definition mean_tlc (all_tlc_values : list Q) : Q :=
  match all_tlc_values with
  | [] => 0%Q
  | _ => (Qsum all_tlc_values
          / inject_Z (Z.of_nat (List.length all_tlc_values)))%Q
  end.

Definition avg_tlc (all_tlc_values : list Q) : Q :=
  round2 (mean_tlc all_tlc_values).

(** [s.reindex(range(n))]: cut or extend with NaN to [n] rows. *)
Definition reindex (n : nat) (s : series) : series :=
  firstn n s ++ repeat None (n - List.length s).

Definition to_cell (x : option Q) : cell :=
  match x with Some q => Num q | None => NaNc end.

(** [s.fillna("")] *)
Definition fillna_blank (s : series) : list cell :=
  map (fun x => match x with Some q => Num q | None => Blank end) s.

Record file_data : Type := mkFileData {
  subject_id : string;
  tlc : Q;
  fd_insp_vol : series;
  fd_insp_flow : series;
  fd_exp_vol : series;
  fd_exp_flow : series
}.

(** [d[k] = v] on a dict: an existing key keeps its place. *)
Fixpoint dict_set {A} (d : frame A) (k : string) (v : list A) : frame A :=
  match d with
  | [] => [(k, v)]
  | (k', v') :: rest =>
      if String.eqb k' k then (k', v) :: rest
      else (k', v') :: dict_set rest k v
  end.

Fixpoint dict_get {A} (d : list (string * A)) (k : string) : option A :=
  match d with
  | [] => None
  | (k', v) :: rest => if String.eqb k' k then Some v else dict_get rest k
  end.

Definition string_of_nat (n : nat) : string :=
  DecimalString.NilEmpty.string_of_uint (Nat.to_uint n).

(** The two columns one file contributes to [combined_data]. *)
Definition file_columns (max_rows i : nat) (fd : file_data)
  : (string * list cell) * (string * list cell) :=
  let sid := subject_id fd in
  let short_insp := List.length (fd_insp_vol fd) <? max_rows in
  let short_exp := List.length (fd_exp_vol fd) <? max_rows in
  let pad (short : bool) (s : series) : list cell :=
    if short then fillna_blank (reindex max_rows s) else map to_cell s in
  let tag := if String.eqb sid ""%string then string_of_nat (i + 1) else sid in
  ((("Vol % TLC " ++ tag)%string,
    pad short_insp (fd_insp_vol fd) ++ pad short_exp (fd_exp_vol fd)),
   (("Flow " ++ tag)%string,
    pad short_insp (fd_insp_flow fd) ++ pad short_exp (fd_exp_flow fd))).

(** The loop over [enumerate(selected_files)]: the dict [combined_data] and
    the list [all_tlc_values]. *)
Fixpoint collect (selected_files : list string)
  (processed_dfs : list (string * file_data)) (max_rows i : nat)
  (combined_data : frame cell) (all_tlc_values : list Q)
  : frame cell * list Q :=
  match selected_files with
  | [] => (combined_data, all_tlc_values)
  | file_path :: rest =>
      match dict_get processed_dfs file_path with
      | Some fd =>
          let '((vn, vc), (fn, fc)) := file_columns max_rows i fd in
          collect rest processed_dfs max_rows (S i)
            (dict_set (dict_set combined_data vn vc) fn fc)
            (all_tlc_values ++ [tlc fd])
      | None => collect rest processed_dfs max_rows (S i)
                  combined_data all_tlc_values
      end
  end.

(** [pd.DataFrame(dict)]: columns shorter than the longest are extended
    with NaN. *)
Definition data_frame (d : frame cell) : frame cell :=
  let n := fold_right Nat.max 0 (map (fun c => List.length (snd c)) d) in
  map (fun c => (fst c, snd c ++ repeat NaNc (n - List.length (snd c)))) d.

(** [lambda x: (float(x) * avg_tlc / 100) if pd.notnull(x) and x != "" else x] *)
Definition to_absolute (avg_tlc : Q) (x : cell) : cell :=
  match x with
  | Num q => Num (q * avg_tlc / 100)%Q
  | NaNc => NaNc
  | Blank => Blank
  end.

(** [s.replace(pat, rep)] for a non-empty [pat]; [skip] counts the
    characters of a match still to be dropped. *)
Fixpoint replace_from (pat rep : string) (skip : nat) (s : string) : string :=
  match s with
  | EmptyString => EmptyString
  | String c s' =>
      match skip with
      | S k => replace_from pat rep k s'
      | O =>
          if String.prefix pat s
          then (rep ++ replace_from pat rep (String.length pat - 1) s')%string
          else String c (replace_from pat rep 0 s')
      end
  end.

Definition replace (pat rep s : string) : string := replace_from pat rep 0 s.

(** The loop [for col in combined_df.columns] that fills
    [absolute_data]. *)
Fixpoint absolute_loop (avg_tlc : Q) (columns : frame cell)
  (absolute_data : frame cell) : frame cell :=
  match columns with
  | [] => absolute_data
  | (col, xs) :: rest =>
      if contains "Vol % TLC"%string col then
        absolute_loop avg_tlc rest
          (dict_set absolute_data (replace "Vol % TLC"%string "Absolute Vol"%string col)
             (map (to_absolute avg_tlc) xs))
      else if contains "Flow"%string col then
        absolute_loop avg_tlc rest (dict_set absolute_data col xs)
      else absolute_loop avg_tlc rest absolute_data
  end.

(** [pd.concat(padded, axis=1).mean(axis=1, skipna=True)]: row by row, the
    mean of the values present, NaN where none is. *)
Definition row_values (padded : list series) (i : nat) : list Q :=
  flat_map (fun s => match nth_error s i with
                     | Some (Some q) => [q]
                     | _ => []
                     end) padded.

Definition row_mean (padded : list series) (i : nat) : option Q :=
  match row_values padded i with
  | [] => None
  | vs => Some (Qsum vs / inject_Z (Z.of_nat (List.length vs)))%Q
  end.

Definition pad_nan (max_rows : nat) (s : series) : series :=
  if List.length s <? max_rows then reindex max_rows s else s.

Definition mean_rows (all_series : list series) (max_rows : nat) : series :=
  let padded := map (pad_nan max_rows) all_series in
  let n := fold_right Nat.max 0 (map (@List.length _) padded) in
  map (row_mean padded) (seq 0 n).

(** What [create_horizontal_layout_output] writes to the sheets
    "Individual Data", "Absolute Volume Data", "Averages" and
    "Normalized Average Data" (the standard-deviation columns apart). *)
Record layout : Type := mkLayout {
  combined_df : frame cell;
  layout_avg_tlc : Q;
  absolute_df : frame cell;
  average_vol_percent : option (list cell);
  normalized_average_volume : option (list cell)
}.

Definition create_horizontal_layout_output
  (selected_files : list string) (processed_dfs : list (string * file_data))
  (all_insp_vols all_exp_vols : list series) (max_rows : nat) : layout :=
  let '(combined_data, all_tlc_values) :=
    collect selected_files processed_dfs max_rows 0 [] [] in
  let avg := avg_tlc all_tlc_values in
  let combined := data_frame combined_data in
  let absolute := data_frame (absolute_loop avg combined []) in
  let averages :=
    match all_insp_vols, all_exp_vols with
    | _ :: _, _ :: _ =>
        Some (map to_cell (mean_rows all_insp_vols max_rows
                           ++ mean_rows all_exp_vols max_rows))
    | _, _ => None
    end in
  mkLayout combined avg absolute averages
    (option_map (map (to_absolute avg)) averages).

End Consolidator.

(* ------------------------------------------------------------------ *)
(** * Statements in the words of the specification, and recordings *)
(* ------------------------------------------------------------------ *)

Module Spec.
Import Py.

(** The backward check as the specification words it: the sum of the 20
    samples [F[i-60 .. i-41]], a term whose index falls before the start of
    the recording counting for 0, divided by 20. *)
Definition backward_mean (F : list Q) (i : nat) : Q :=
  (Qsum (map (fun j => if i <? j then 0%Q else nth (i - j) F 0%Q)
             (range 41 61)) / 20)%Q.

(** The error kinds of the specification that the trimmer could signal,
    next to the exception the code raises. *)
Inductive error_kind : Type :=
| NoFullBreath
| PythonException (e : exn).

(** How a failure of [trim_excess_data] reaches its caller. *)
Definition signalled {A} (r : result A) : option error_kind :=
  match r with
  | inl e => Some (PythonException e)
  | inr _ => None
  end.

End Spec.

Module Recordings.
Import Py.

(** Sample times [0, 1, ..., n-1]. *)
Definition ramp (n : nat) : list Q :=
  map (fun k => inject_Z (Z.of_nat k)) (seq 0 n).

(** The running sum of the flow, as a volume trace. *)
Fixpoint integrate (acc : Q) (F : list Q) : list Q :=
  match F with
  | [] => []
  | f :: F' => let v := (acc + f)%Q in v :: integrate v F'
  end.

Definition pos (n : nat) : list Q := repeat 1%Q n.
Definition neg (n : nat) : list Q := repeat (-1)%Q n.

(** A sign change at the very first sample, with 20 negative samples
    sixty to forty-one places from the END of a 100-sample recording. *)
Definition wrap_flow : list Q := neg 1 ++ pos 39 ++ neg 20 ++ pos 40.

(** High-frequency chatter: no crossing is validated. *)
Definition chatter_flow : list Q :=
  flat_map (fun _ => [(-1)%Q; 1%Q]) (seq 0 50).

(** Expiration, inspiration, expiration, inspiration: one full breath. *)
Definition one_breath_flow : list Q := pos 61 ++ neg 61 ++ pos 61 ++ neg 32.

(** As [one_breath_flow], but the second expiration dips below zero for
    one sample at its 21st and 41st places, so that neither the crossing
    into it nor any crossing around the dips passes the forward check. *)
Definition dipped_flow : list Q :=
  pos 61 ++ neg 61
  ++ (pos 20 ++ neg 1 ++ pos 19 ++ neg 1 ++ pos 20)
  ++ neg 32.

(** A recording whose first flow sample is exactly zero. *)
Definition zero_start_flow : list Q := [0%Q] ++ pos 60 ++ neg 31.

(** Time-bin bundles for [intervals = 1], given by their two volume
    arrays and tidal volumes (the other fields play no part in the
    normalization). *)
Definition bundle (insp_vol exp_vol : list Q) (vt_insp vt_exp : Q)
  : TimeBins.resampled :=
  TimeBins.mkResampled
    (TimeBins.mkBreath [] [] [] [] [] [])
    (TimeBins.mkBreath [0; 1]%Q insp_vol [0; 0]%Q [0; 1]%Q exp_vol [0; 0]%Q)
    1 1 vt_insp vt_exp.

(** Two breaths with inspiratory tidal volumes 1 and 2, each expiration
    starting where the inspiration ended. *)
Definition two_breaths : list TimeBins.resampled :=
  [bundle [1; 0]%Q [0; 1]%Q 1 1; bundle [3; 1]%Q [1; 3]%Q 2 2].

(** One breath whose expiration starts at volume 3 while its inspiration
    ended at volume 1. *)
Definition gapped_breath : list TimeBins.resampled :=
  [bundle [2; 1]%Q [3; 4]%Q 1 1].

End Recordings.

(* ------------------------------------------------------------------ *)
(** * Predicates used in the statements *)
(* ------------------------------------------------------------------ *)

Module Facts.
Import Py.

(** The three augmented lists are level. *)
Definition balanced (s : FVAvg.zeroed) : Prop :=
  List.length (FVAvg.zeroed_time_list s) = List.length (FVAvg.zeroed_vol_list s) /\
  List.length (FVAvg.zeroed_vol_list s) = List.length (FVAvg.zeroed_flow_list s).

(** Some suffix of the flow list starts with the pattern the leading loop
    of the trimmer waits for: a zero, and a negative flow two places on. *)
Fixpoint finds_start (zf : list Q) : bool :=
  match zf with
  | [] => false
  | f0 :: rest =>
      (Qeq_bool f0 0
       && match nth_error zf 2 with
          | Some f2 => Qltb f2 0
          | None => false
          end)
      || finds_start rest
  end.

(** Some prefix of the flow list ends with the pattern the trailing loop
    waits for: a negative last flow, and a zero two places before it. *)
Fixpoint finds_end_rev (rf : list Q) : bool :=
  match rf with
  | [] => false
  | f1 :: rest =>
      match nth_error rf 2 with
      | Some f3 => (Qeq_bool f3 0 && Qltb f1 0) || finds_end_rev rest
      | None => false
      end
  end.

Definition finds_end (zf : list Q) : bool := finds_end_rev (rev zf).

(** The number of entries the trimmer removes from the phase-length list,
    as its two [if] statements decide it. *)
Definition leading_drops (counter_start : Q) : nat :=
  if Qeq_bool counter_start 1 then 1
  else if Qeq_bool counter_start 2 then 2 else 0.

Definition trailing_drops (counter_end : Q) : nat :=
  if Qeq_bool counter_end 1 then 1 else 0.

(** The real number a float of [np.std] stands for; NaN stands for
    none. *)
Definition std_value (x : Numpy.npfloat) : option R :=
  match x with
  | Numpy.NaN => None
  | Numpy.Root q => Some (sqrt (Q2R q))
  end.

(** Two Series agree value by value. *)
Definition value_eq (x y : option Q) : Prop :=
  match x, y with
  | Some a, Some b => (a == b)%Q
  | None, None => True
  | _, _ => False
  end.

Definition series_eq (s t : Consolidator.series) : Prop := Forall2 value_eq s t.

(** Two lists of rationals agree value by value. *)
Definition Qlist_eq (l l' : list Q) : Prop := Forall2 Qeq l l'.

(** All columns of a frame have [n] rows. *)
Definition uniform {A} (n : nat) (d : Consolidator.frame A) : Prop :=
  Forall (fun c => List.length (snd c) = n) d.

(** Where a column [c] of the absolute-volume sheet comes from: a
    percent-TLC column [col] of the percent sheet [combined], renamed and
    converted cell by cell with the TLC [avg], or a flow column of that
    sheet, copied. *)
Definition from_combined (avg : Q) (combined : Consolidator.frame Consolidator.cell)
  (c : string * list Consolidator.cell) : Prop :=
  (exists col xs,
     In (col, xs) combined /\
     Consolidator.contains "Vol % TLC" col = true /\
     fst c = Consolidator.replace "Vol % TLC" "Absolute Vol" col /\
     snd c = map (Consolidator.to_absolute avg) xs) \/
  (In c combined /\
   Consolidator.contains "Vol % TLC" (fst c) = false /\
   Consolidator.contains "Flow" (fst c) = true).

(** The values of bin [j] across the breaths, their mean with the shift
    a block adds to it, and their sample standard deviation. *)
Definition column_values (arrays : list (list Q)) (j : nat) : list Q :=
  map (fun a => nth j a 0%Q) arrays.

Definition bin_mean (shift : option Q) (B : nat) (arrays : list (list Q))
  (j : nat) : Q :=
  let avg := (Qsum (column_values arrays j) / inject_Z (Z.of_nat B))%Q in
  match shift with
  | Some m => (avg + m)%Q
  | None => avg
  end.

Definition bin_std (arrays : list (list Q)) (j : nat) : Numpy.npfloat :=
  Numpy.std 1 (column_values arrays j).

(** The normalizer, breath by breath: the shift that brings the last
    inspiration bin and the first expiration bin to zero, and the rescaling
    by the breath's tidal volumes [Vt_Insp r] and [Vt_Exp r]. *)
Definition shift_vols (K : nat) (b : TimeBins.breath) : TimeBins.breath :=
  TimeBins.set_vols b
    (map (fun x => (x - nth K (TimeBins.Insp_Vol b) 0)%Q) (TimeBins.Insp_Vol b))
    (map (fun x => (x - nth 0 (TimeBins.Exp_Vol b) 0)%Q) (TimeBins.Exp_Vol b)).

Definition scale_vols (avg_i avg_e : Q) (r : TimeBins.resampled)
  (b : TimeBins.breath) : TimeBins.breath :=
  TimeBins.set_vols b
    (map (fun x => (x / TimeBins.Vt_Insp r * avg_i)%Q) (TimeBins.Insp_Vol b))
    (map (fun x => (x / TimeBins.Vt_Exp r * avg_e)%Q) (TimeBins.Exp_Vol b)).

(** The excursion of a volume array: the distance between its bins 0 and
    [K]. *)
Definition excursion (K : nat) (l : list Q) : Q :=
  Qabs (nth K l 0 - nth 0 l 0)%Q.

(** A resampled breath whose two volume arrays have [K + 1] bins and whose
    tidal volumes are the excursions of these arrays, and not zero. *)
Definition aligned (K : nat) (r : TimeBins.resampled) : Prop :=
  List.length (TimeBins.Insp_Vol (TimeBins.bins r)) = K + 1 /\
  List.length (TimeBins.Exp_Vol (TimeBins.bins r)) = K + 1 /\
  (TimeBins.Vt_Insp r == excursion K (TimeBins.Insp_Vol (TimeBins.bins r)))%Q /\
  (TimeBins.Vt_Exp r == excursion K (TimeBins.Exp_Vol (TimeBins.bins r)))%Q /\
  ~ (TimeBins.Vt_Insp r == 0)%Q /\
  ~ (TimeBins.Vt_Exp r == 0)%Q.

(** The two volumes the shift subtracts, over the breaths. *)
Definition insp_ends (K : nat) (rs : list TimeBins.resampled) : list Q :=
  map (fun r => nth K (TimeBins.Insp_Vol (TimeBins.bins r)) 0%Q) rs.

Definition exp_starts (rs : list TimeBins.resampled) : list Q :=
  map (fun r => nth 0 (TimeBins.Exp_Vol (TimeBins.bins r)) 0%Q) rs.

End Facts.

(* ------------------------------------------------------------------ *)
(** * Notions used in the statements about the detector *)
(* ------------------------------------------------------------------ *)

Module Shape.
Import Py.

(** What one iteration of the detector's loop does to its variables: it
    appends one sample and extends the running phase, ... *)
Definition push1 (t v f : Q) (s : FVAvg.zeroed) : FVAvg.zeroed :=
  FVAvg.mkZeroed (FVAvg.zeroed_time_list s ++ [t])
    (FVAvg.zeroed_vol_list s ++ [v]) (FVAvg.zeroed_flow_list s ++ [f])
    (FVAvg.phase_indexes s + 1) (FVAvg.phase_indexes_list s).

(** ... or it appends a sample and two copies of an interpolated point of
    flow zero, and closes the running phase. *)
Definition push3 (t v f ti vi : Q) (s : FVAvg.zeroed) : FVAvg.zeroed :=
  FVAvg.mkZeroed (FVAvg.zeroed_time_list s ++ [t; ti; ti])
    (FVAvg.zeroed_vol_list s ++ [v; vi; vi])
    (FVAvg.zeroed_flow_list s ++ [f; 0%Q; 0%Q])
    1 (FVAvg.phase_indexes_list s ++ [FVAvg.phase_indexes s + 2]).

(** A sign change between two neighbours, as the two tests of the loop
    read it: [a < 0 < b] or [a > 0 > b]. *)
Definition crossing (a b : Q) : bool :=
  (Qltb a 0 && Qltb 0 b) || (Qgtb a 0 && Qgtb 0 b).

(** No two neighbours of the flow list change sign. *)
Fixpoint no_crossing (F : list Q) : bool :=
  match F with
  | a :: (b :: _) as F' => negb (crossing a b) && no_crossing F'
  | _ => true
  end.

(** The number of entries of the augmented lists up to the end of phase
    [k]: the sum of the first [k + 1] phase lengths. *)
Definition boundary (phl : list nat) (k : nat) : nat :=
  list_sum (firstn (S k) phl).

(** The three lists grow by one entry in an ordinary iteration and by three
    at a validated crossing, which also adds one phase length: after [k]
    iterations they hold [k] entries and two more per phase length. *)
Definition counted (k : nat) (s : FVAvg.zeroed) : Prop :=
  List.length (FVAvg.zeroed_time_list s)
  = k + 2 * List.length (FVAvg.phase_indexes_list s) /\
  List.length (FVAvg.zeroed_vol_list s)
  = k + 2 * List.length (FVAvg.phase_indexes_list s) /\
  List.length (FVAvg.zeroed_flow_list s)
  = k + 2 * List.length (FVAvg.phase_indexes_list s).

(** The phase lengths account for the augmented lists: they and the
    running counter add up to the length of the lists, and at the end of
    every closed phase stand the two copies of an interpolated point. *)
Definition phased (s : FVAvg.zeroed) : Prop :=
  let zt := FVAvg.zeroed_time_list s in
  let zv := FVAvg.zeroed_vol_list s in
  let zf := FVAvg.zeroed_flow_list s in
  let phl := FVAvg.phase_indexes_list s in
  List.length zt = List.length zf /\
  List.length zv = List.length zf /\
  list_sum phl + FVAvg.phase_indexes s = List.length zf /\
  (phl <> [] -> 1 <= FVAvg.phase_indexes s) /\
  forall k, k < List.length phl ->
    2 <= nth k phl 0 /\
    nth_error zf (boundary phl k - 1) = Some 0%Q /\
    nth_error zf (boundary phl k) = Some 0%Q /\
    (exists t, nth_error zt (boundary phl k - 1) = Some t /\
               nth_error zt (boundary phl k) = Some t) /\
    (exists v, nth_error zv (boundary phl k - 1) = Some v /\
               nth_error zv (boundary phl k) = Some v).

(** The pattern the two loops of the trimmer look for at place [k] of the
    flow list: a flow equal to zero and, two places on, a flow that passes
    [test] (negative for the place to cut at, positive for a place to count
    and pass over). *)
Definition zero_then (test : Q -> bool) (zf : list Q) (k : nat) : bool :=
  match nth_error zf k, nth_error zf (k + 2) with
  | Some a, Some b => Qeq_bool a 0 && test b
  | _, _ => false
  end.

Definition falling (zf : list Q) (k : nat) : bool :=
  zero_then (fun f => Qltb f 0) zf k.

Definition rising (zf : list Q) (k : nat) : bool :=
  zero_then (fun f => Qgtb f 0) zf k.

(** The number of places from [lo] up to, not including, [hi] at which
    the flow list shows the rising pattern. *)
Definition rising_between (zf : list Q) (lo hi : nat) : nat :=
  List.length (filter (rising zf) (seq lo (hi - lo))).

(** The original phases [d] of [B] breaths are the volume and flow lists
    cut at the phase lengths: read in order, two phases per breath, they
    give the first entries of the two lists, as many as the first [2 * B]
    phase lengths add up to; every phase has as many times as volumes, and
    its first time is 0. *)
Definition cut_at_phases (zv zf : list Q) (phl : list nat) (B : nat)
  (d : list TimeBins.breath) : Prop :=
  let cut := firstn (2 * B) phl in
  List.length d = B /\ 2 * B <= List.length phl /\
  flat_map (fun b => [List.length (TimeBins.Insp_Vol b);
                      List.length (TimeBins.Exp_Vol b)]) d = cut /\
  flat_map (fun b => TimeBins.Insp_Vol b ++ TimeBins.Exp_Vol b) d
  = firstn (list_sum cut) zv /\
  flat_map (fun b => TimeBins.Insp_Flow b ++ TimeBins.Exp_Flow b) d
  = firstn (list_sum cut) zf /\
  list_sum cut <= List.length zv /\ list_sum cut <= List.length zf /\
  Forall (fun b =>
            List.length (TimeBins.Insp_Time b)
            = List.length (TimeBins.Insp_Vol b) /\
            List.length (TimeBins.Exp_Time b)
            = List.length (TimeBins.Exp_Vol b) /\
            (nth 0 (TimeBins.Insp_Time b) 0 == 0)%Q /\
            (nth 0 (TimeBins.Exp_Time b) 0 == 0)%Q) d.

(** Two entries of a breath dictionary that differ at most in the values
    of their volume arrays. *)
Definition same_but_volumes (b b' : TimeBins.breath) : Prop :=
  TimeBins.Insp_Time b' = TimeBins.Insp_Time b /\
  TimeBins.Insp_Flow b' = TimeBins.Insp_Flow b /\
  TimeBins.Exp_Time b' = TimeBins.Exp_Time b /\
  TimeBins.Exp_Flow b' = TimeBins.Exp_Flow b /\
  List.length (TimeBins.Insp_Vol b') = List.length (TimeBins.Insp_Vol b) /\
  List.length (TimeBins.Exp_Vol b') = List.length (TimeBins.Exp_Vol b).

(** What a run of [process_time_bins] that returned must have met: a
    breath to process, intervals to cut it into, no tidal volume equal to
    zero, and at least [intervals + 1] bins in every array. *)
Definition returned_from (intervals number_of_breaths : nat)
  (r : TimeBins.time_bins_result) : Prop :=
  0 < number_of_breaths /\ 0 < intervals /\
  List.length (TimeBins.time_bin_copy r) = number_of_breaths /\
  List.length (TimeBins.Vt_Insp_list r) = number_of_breaths /\
  List.length (TimeBins.Vt_Exp_list r) = number_of_breaths /\
  Forall (fun v => ~ (v == 0)%Q) (TimeBins.Vt_Insp_list r) /\
  Forall (fun v => ~ (v == 0)%Q) (TimeBins.Vt_Exp_list r) /\
  Forall (fun b =>
            intervals + 1 <= List.length (TimeBins.Insp_Vol b) /\
            intervals + 1 <= List.length (TimeBins.Insp_Flow b) /\
            intervals + 1 <= List.length (TimeBins.Exp_Vol b) /\
            intervals + 1 <= List.length (TimeBins.Exp_Flow b))
         (TimeBins.time_bin_copy r).

(** The sample times of a phase increase strictly. *)
Definition increasing (Time : list Q) : Prop :=
  forall i j, i < j -> j < List.length Time ->
    (nth i Time 0 < nth j Time 0)%Q.

(** The last entry of a list, as [l[-1]] reads it. *)
Definition final (l : list Q) : Q := nth (List.length l - 1) l 0%Q.

(** A target time that the branches of the time-bin interpolation take:
    zero, the last sample time, or a time strictly between two
    neighbouring sample times. *)
Definition reachable (Time : list Q) (tau : Q) : Prop :=
  (tau == 0)%Q \/ (tau == final Time)%Q \/
  exists l, S l < List.length Time /\
            (nth l Time 0 < tau)%Q /\ (tau < nth (S l) Time 0)%Q.

(** The value [y] that the interpolation gives the series [Ys] at the
    target [tau]: the first value at time zero, the last value at the last
    sample time, and between two neighbouring samples the value on the
    straight line through them. *)
Definition sampled (Time Ys : list Q) (tau y : Q) : Prop :=
  ((tau == 0)%Q /\ y = nth 0 Ys 0%Q) \/
  (~ (tau == 0)%Q /\ (tau == final Time)%Q /\ y = final Ys) \/
  exists l, S l < List.length Time /\
            (nth l Time 0 < tau)%Q /\ (tau < nth (S l) Time 0)%Q /\
            y = (nth l Ys 0
                 + (nth (S l) Ys 0 - nth l Ys 0)
                   / (nth (S l) Time 0 - nth l Time 0)
                   * (tau - nth l Time 0))%Q.

End Shape.

(* ------------------------------------------------------------------ *)
(** * fvavg.py: the computation of [process_fvavg] *)
(* ------------------------------------------------------------------ *)

Module Pipeline.
Import Py.
Local Open Scope py_scope.

(** The dictionary [results] that [process_fvavg] returns, the name of the
    output file apart. *)
Record results : Type := mkResults {
  number_of_breaths : nat;
  intervals : nat;
  time_bins_result : TimeBins.time_bins_result;
  volume_bins_result : VolumeBins.volume_bins_result
}.

(** [process_fvavg] from the three columns read from the input sheet to
    the results: detection, trimming, time bins, volume bins.  The sheets
    written on the way have no part in the values computed. *)
Definition process_fvavg (time_raw_list vol_raw_list flow_raw_list : list Q)
  (intervals : nat) : result results :=
  z <~ FVAvg.find_zero_flow_points time_raw_list vol_raw_list flow_raw_list ;;
  let '(zeroed_time_list, zeroed_vol_list, zeroed_flow_list,
        phase_indexes_list) := z in
  t <~ FVAvg.trim_excess_data zeroed_time_list zeroed_vol_list
         zeroed_flow_list phase_indexes_list ;;
  tb <~ TimeBins.process_time_bins (FVAvg.trimmed_time t) (FVAvg.trimmed_vol t)
          (FVAvg.trimmed_flow t) (FVAvg.trimmed_phases t) intervals
          (FVAvg.number_of_breaths t) ;;
  vb <~ VolumeBins.process_volume_bins tb intervals (FVAvg.number_of_breaths t) ;;
  ok (mkResults (FVAvg.number_of_breaths t) intervals tb vb).

End Pipeline.

(* ------------------------------------------------------------------ *)
(** * Notions used in the statements about the inserted points *)
(* ------------------------------------------------------------------ *)

Module Crossings.
Import Py.

(** The time [ti] and the volume [vi] of the point inserted for a
    crossing between the samples [i] and [i + 1] of the recording: the
    time lies strictly between the two sample times, where the straight
    line through the two flow samples is zero; the volume lies 0.001 below
    the two sample volumes where the flow rises through zero, and 0.001
    above them where it falls. *)
Definition put_between (T V F : list Q) (i : nat) (ti vi : Q) : Prop :=
  S i < List.length F /\
  (nth i T 0 < ti)%Q /\ (ti < nth (S i) T 0)%Q /\
  ((ti - nth i T 0) * (nth (S i) F 0 - nth i F 0)
   == (0 - nth i F 0) * (nth (S i) T 0 - nth i T 0))%Q /\
  (((nth i F 0 < 0)%Q /\ (0 < nth (S i) F 0)%Q /\
    vi = (Qmin (nth i V 0) (nth (S i) V 0) - (1 # 1000))%Q) \/
   ((0 < nth i F 0)%Q /\ (nth (S i) F 0 < 0)%Q /\
    vi = (Qmax (nth i V 0) (nth (S i) V 0) + (1 # 1000))%Q)).

(** Every closed phase of the augmented lists ends with a sample of the
    recording and the two copies of the point inserted after it. *)
Definition located (T V F zt zv : list Q) (phl : list nat) : Prop :=
  forall k, k < List.length phl ->
    exists i ti vi,
      nth_error zt (Shape.boundary phl k - 2) = Some (nth i T 0%Q) /\
      nth_error zt (Shape.boundary phl k) = Some ti /\
      nth_error zv (Shape.boundary phl k) = Some vi /\
      put_between T V F i ti vi.

End Crossings.

(* ------------------------------------------------------------------ *)
(** * Notions used in the statements about the trimmer *)
(* ------------------------------------------------------------------ *)

Module Alternation.
Import Py.

(** The direction of the crossing whose second inserted copy stands at
    place [b] of the augmented flow list, as the two loops of the trimmer
    read it from the two samples that follow: [Some false] when both are
    negative (the flow falls through zero), [Some true] when both are
    positive (it rises), [None] otherwise. *)
Definition direction (zf : list Q) (b : nat) : option bool :=
  match nth_error zf (b + 1), nth_error zf (b + 2) with
  | Some x, Some y =>
      if Qltb x 0 && Qltb y 0 then Some false
      else if Qgtb x 0 && Qgtb y 0 then Some true
      else None
  | _, _ => None
  end.

(** Place [j] of the augmented lists holds one of the two copies of an
    inserted point: it is the last place of a closed phase or the place
    after it. *)
Definition inserted (phl : list nat) (j : nat) : bool :=
  existsb (fun k => (j =? Shape.boundary phl k - 1)
                    || (j =? Shape.boundary phl k))
          (seq 0 (List.length phl)).

(** The crossings of the augmented lists alternate: every phase length is
    at least 2, the flow is zero at the inserted points and nowhere else,
    and the crossings have a direction, rising and falling in turn, the
    first one rising when [first_rises] holds. *)
Definition alternating (first_rises : bool) (zf : list Q) (phl : list nat)
  : bool :=
  forallb (fun k => 2 <=? nth k phl 0) (seq 0 (List.length phl))
  && forallb (fun j => Bool.eqb (Qeq_bool (nth j zf 0%Q) 0) (inserted phl j))
             (seq 0 (List.length zf))
  && forallb (fun k => match direction zf (Shape.boundary phl k) with
                       | Some d => Bool.eqb d (xorb first_rises (Nat.odd k))
                       | None => false
                       end)
             (seq 0 (List.length phl)).

(** The phase lengths the trimmer deletes at the front and at the back
    when the crossings alternate: the phase before the first falling
    crossing, which is the first crossing or the second, and the phase
    after the last falling crossing, which is the last crossing or the one
    before. *)
Definition leading (first_rises : bool) : nat :=
  if first_rises then 2 else 1.

Definition trailing (first_rises : bool) (crossings : nat) : nat :=
  if xorb first_rises (Nat.odd (crossings - 1)) then 1 else 0.

(** A recording whose flow changes sign six times, rising first. *)
Definition six_crossings_flow : list Q :=
  Recordings.neg 61 ++ Recordings.pos 61 ++ Recordings.neg 61
  ++ Recordings.pos 61 ++ Recordings.neg 61 ++ Recordings.pos 61
  ++ Recordings.neg 32.

End Alternation.

(* ------------------------------------------------------------------ *)
(** * Notions used in the statements about the volume bins *)
(* ------------------------------------------------------------------ *)

Module VShape.
Import Py.

(** The volumes of a phase move one way: every sample comes [before] the
    later ones, where [before] is the comparison of the interpolation,
    [>] for an inspiration and [<] for an expiration. *)
Definition monotone (before : Q -> Q -> bool) (Vol : list Q) : Prop :=
  forall i j, i < j -> j < List.length Vol ->
    before (nth i Vol 0%Q) (nth j Vol 0%Q) = true.

(** Neighbouring sample times differ. *)
Definition distinct_times (Time : list Q) : Prop :=
  forall l, S l < List.length Time ->
    ~ (nth (S l) Time 0 == nth l Time 0)%Q.

(** A target volume on the way of the phase: not before its first
    volume. *)
Definition from_start (before : Q -> Q -> bool) (Vol : list Q) (A : Q)
  : bool :=
  negb (before A (nth 0 Vol 0%Q)).

(** The flow [y] that the interpolation gives the target volume [A]: the
    flow of the sample whose volume is [A]; between two neighbouring
    samples the flow on the straight line through them, volume against
    flow; and the last flow for a target beyond the last volume. *)
Definition sampled (before : Q -> Q -> bool) (Vol Flow : list Q) (A y : Q)
  : Prop :=
  (exists l, l < List.length Vol /\ (nth l Vol 0 == A)%Q /\
             y = nth l Flow 0%Q) \/
  (exists l, S l < List.length Vol /\
             before (nth l Vol 0%Q) A = true /\
             before A (nth (S l) Vol 0%Q) = true /\
             (y == nth l Flow 0
                   + (nth (S l) Flow 0 - nth l Flow 0)
                     * (A - nth l Vol 0)
                     / (nth (S l) Vol 0 - nth l Vol 0))%Q) \/
  (before (Shape.final Vol) A = true /\ y = Shape.final Flow).

(** A phase on which the interpolation is at home: as many times and
    flows as volumes, at least one sample, volumes that move one way and
    neighbouring times that differ. *)
Definition monotone_phase (before : Q -> Q -> bool) (Time Vol Flow : list Q)
  : Prop :=
  List.length Time = List.length Vol /\
  List.length Flow = List.length Vol /\
  1 <= List.length Vol /\
  monotone before Vol /\ distinct_times Time.

(** A breath both phases of which are so: falling volumes in the
    inspiration, rising volumes in the expiration. *)
Definition monotone_breath (o : TimeBins.breath) : Prop :=
  monotone_phase Qgtb
    (TimeBins.Insp_Time o) (TimeBins.Insp_Vol o) (TimeBins.Insp_Flow o) /\
  monotone_phase Qltb
    (TimeBins.Exp_Time o) (TimeBins.Exp_Vol o) (TimeBins.Exp_Flow o).

(** The volume bins [b] of the breath [o] with the tidal volumes
    [vt_insp] and [vt_exp] are complete: four lists of [intervals + 1]
    entries, target volumes that run from the first volume of the phase to
    that volume less (inspiration) or plus (expiration) the tidal volume,
    and for every target its flow. *)
Definition binned (intervals : nat) (o : TimeBins.breath) (vt_insp vt_exp : Q)
  (b : VolumeBins.vbreath) : Prop :=
  List.length (VolumeBins.Insp_Vol b) = intervals + 1 /\
  List.length (VolumeBins.Insp_Flow b) = intervals + 1 /\
  List.length (VolumeBins.Exp_Vol b) = intervals + 1 /\
  List.length (VolumeBins.Exp_Flow b) = intervals + 1 /\
  (nth 0 (VolumeBins.Insp_Vol b) 0 == nth 0 (TimeBins.Insp_Vol o) 0)%Q /\
  (nth intervals (VolumeBins.Insp_Vol b) 0
   == nth 0 (TimeBins.Insp_Vol o) 0 - vt_insp)%Q /\
  (nth 0 (VolumeBins.Exp_Vol b) 0 == nth 0 (TimeBins.Exp_Vol o) 0)%Q /\
  (nth intervals (VolumeBins.Exp_Vol b) 0
   == nth 0 (TimeBins.Exp_Vol o) 0 + vt_exp)%Q /\
  Forall2 (sampled Qgtb (TimeBins.Insp_Vol o) (TimeBins.Insp_Flow o))
    (VolumeBins.Insp_Vol b) (VolumeBins.Insp_Flow b) /\
  Forall2 (sampled Qltb (TimeBins.Exp_Vol o) (TimeBins.Exp_Flow o))
    (VolumeBins.Exp_Vol b) (VolumeBins.Exp_Flow b).

End VShape.

(* ------------------------------------------------------------------ *)
(** * Notions used in the statements about the consolidator *)
(* ------------------------------------------------------------------ *)

Module Columns.
Import Consolidator.

(** The test of [find_column] on one column name. *)
Definition matches (patterns : list string) (col : string) : bool :=
  forallb (fun p => contains (lower p) (lower col)) patterns.

(** Some column of the sheet passes the test. *)
Definition has_column {A} (df : frame A) (patterns : list string) : bool :=
  existsb (fun c => matches patterns (fst c)) df.

(** Whether [read_excel_file] found its four columns. *)
Definition success (r : option file_result) : bool :=
  match r with
  | Some _ => true
  | None => false
  end.

(** The tag of the two columns of a file in the sheet "Individual Data":
    its subject id, or its place in the selection when it has none. *)
Definition tag (i : nat) (fd : file_data) : string :=
  if String.eqb (subject_id fd) "" then string_of_nat (i + 1)
  else subject_id fd.

(** The files of the selection that were processed, with their places
    from [i] on. *)
Fixpoint processed (selected_files : list string)
  (processed_dfs : list (string * file_data)) (i : nat)
  : list (nat * file_data) :=
  match selected_files with
  | [] => []
  | file_path :: rest =>
      match dict_get processed_dfs file_path with
      | Some fd => (i, fd) :: processed rest processed_dfs (S i)
      | None => processed rest processed_dfs (S i)
      end
  end.

(** The last file of the list with the tag [t]. *)
Fixpoint last_tagged (t : string) (l : list (nat * file_data))
  : option (nat * file_data) :=
  match l with
  | [] => None
  | e :: l' =>
      match last_tagged t l' with
      | Some x => Some x
      | None => if String.eqb (tag (fst e) (snd e)) t then Some e else None
      end
  end.

(** Two cells agree: the same kind of cell, and equal numbers. *)
Definition cell_eq (x y : cell) : Prop :=
  match x, y with
  | Num a, Num b => (a == b)%Q
  | NaNc, NaNc => True
  | Blank, Blank => True
  | _, _ => False
  end.

End Columns.

(* ------------------------------------------------------------------ *)
(** * writer.py: the output of one file *)
(* ------------------------------------------------------------------ *)

Module Separate.
Import Consolidator.

(** [file_path.replace('.xlsx', f'_TLC_percent{subject_suffix}.xlsx')] *)
Definition output_path (file_path subject_suffix : string) : string :=
  replace ".xlsx" ("_TLC_percent" ++ subject_suffix ++ ".xlsx") file_path.

(** [output_df]: the two columns of the sheet "Data"; the shorter one is
    extended with NaN. *)
Definition output_df (insp_vol insp_flow exp_vol exp_flow : series)
  (subject_suffix : string) : frame (option Q) :=
  let vol := insp_vol ++ exp_vol in
  let flow := insp_flow ++ exp_flow in
  let n := Nat.max (List.length vol) (List.length flow) in
  [("Vol % TLC"%string, vol ++ repeat None (n - List.length vol));
   (("Flow" ++ subject_suffix)%string,
    flow ++ repeat None (n - List.length flow))].

(** [create_separate_file_output]: the file written, as its path and the
    sheet "Data" (the TLC note below the data apart).  Whether
    [pd.ExcelWriter(output_path, engine='openpyxl')] takes the path and
    the file can be saved there is for the world outside to tell, as
    [write_ok]: pandas refuses an extension that openpyxl does not write
    (".XLSX" in capitals is one), and the file system can refuse the
    path.  [None] stands for the exception raised then; no file is
    written. *)
Definition create_separate_file_output (write_ok : string -> bool)
  (file_path : string)
  (insp_vol insp_flow exp_vol exp_flow : series) (subject_suffix : string)
  : option (string * frame (option Q)) :=
  let path := output_path file_path subject_suffix in
  if write_ok path
  then Some (path, output_df insp_vol insp_flow exp_vol exp_flow subject_suffix)
  else None.

End Separate.

(* ------------------------------------------------------------------ *)
(** * helpers.py: the subject id in a file name *)
(* ------------------------------------------------------------------ *)

Module SubjectId.

(** The strings of this module are ASCII file names, one character a
    code point below 128.  Python's [re] works on Unicode strings, where
    [\d], [\w] and [\b] also know the digits and letters of other
    scripts; on a name with such a character the search below and the
    code can differ, so the search stands for the code on the names that
    pass [ascii_name] only. *)
Definition is_ascii (c : ascii) : bool := nat_of_ascii c <? 128.

(** [\d] and [\w] on ASCII characters. *)
Definition is_digit (c : ascii) : bool :=
  let n := nat_of_ascii c in (48 <=? n) && (n <=? 57).

Definition is_word (c : ascii) : bool :=
  let n := nat_of_ascii c in
  is_digit c || ((65 <=? n) && (n <=? 90)) || ((97 <=? n) && (n <=? 122))
  || (n =? 95).

(** A neighbour that is a word character; [None] stands for an end of
    the string. *)
Definition word (o : option ascii) : bool :=
  match o with
  | Some c => is_word c
  | None => false
  end.

(** [\b] between two neighbours: exactly one of them is a word
    character. *)
Definition boundary (before after : option ascii) : bool :=
  xorb (word before) (word after).

Definition head (s : string) : option ascii :=
  match s with
  | String c _ => Some c
  | EmptyString => None
  end.

(** The number of digits at the start of [s], up to [n]: what the greedy
    [\d{2,7}] takes first, with [n = 7]. *)
Fixpoint digits (n : nat) (s : string) : nat :=
  match n, s with
  | S n', String c s' => if is_digit c then S (digits n' s') else 0
  | _, _ => 0
  end.

(** The backtracking of [\d{2,7}\b] from [k] digits down to 2: the first
    length after which there is a word boundary. *)
Fixpoint backtrack (k : nat) (s : string) : option string :=
  match k with
  | O => None
  | S k' =>
      if k <? 2 then None
      else if boundary (String.get k' s) (String.get k s)
           then Some (String.substring 0 k s)
           else backtrack k' s
  end.

(** A match of the pattern at the start of [s], [prev] being the
    character before it. *)
Definition match_at (prev : option ascii) (s : string) : option string :=
  if boundary prev (head s) then backtrack (digits 7 s) s else None.

(** [re.search]: the match at the leftmost place that has one. *)
Fixpoint search (prev : option ascii) (s : string) : option string :=
  match match_at prev s with
  | Some m => Some m
  | None =>
      match s with
      | String c s' => search (Some c) s'
      | EmptyString => None
      end
  end.

(** [extract_subject_id] from the base name on (the file name without
    directory and extension). *)
Definition extract_subject_id (base_name : string) : string :=
  match search None base_name with
  | Some m => m
  | None => ""%string
  end.

(** The last character of [s], or [prev] when [s] is empty. *)
Fixpoint last_of (prev : option ascii) (s : string) : option ascii :=
  match s with
  | EmptyString => prev
  | String c s' => last_of (Some c) s'
  end.

(** All characters of a string pass a test. *)
Fixpoint all (f : ascii -> bool) (s : string) : bool :=
  match s with
  | EmptyString => true
  | String c s' => f c && all f s'
  end.

(** A name on which the search stands for the code. *)
Definition ascii_name (base_name : string) : bool := all is_ascii base_name.

End SubjectId.

(* ------------------------------------------------------------------ *)
(** * reader.py and writer.py on binary64 floats *)
(* ------------------------------------------------------------------ *)

Module Binary64.
Import Floats.

(** [(df[vol_col] / tlc) * 100] on one cell, in the arithmetic Python and
    pandas compute with: IEEE 754 binary64, every operation rounded to
    the nearest value, ties to even. *)
Definition percent (vol tlc : float) : float := ((vol / tlc) * 100)%float.

(** [x * tlc / 100], the way back: [float(x) * avg_tlc / 100] of
    writer.py with the TLC of the subject. *)
Definition round_trip (p tlc : float) : float := (p * tlc / 100)%float.

(** The distance between a volume and what the way there and back makes
    of it. *)
Definition round_trip_error (vol tlc : float) : float :=
  PrimFloat.abs (round_trip (percent vol tlc) tlc - vol)%float.

(** The float that the literal [1e-9] denotes. *)
Definition tolerance : float := (1 / 1000000000)%float.

End Binary64.

(* ------------------------------------------------------------------ *)
(** * fvavg.py and reader.py: the sheets of averages and their reading *)
(* ------------------------------------------------------------------ *)

Module Sheets.
Import Consolidator.

(** A workbook: its sheets in order, by name. *)
Definition workbook : Type := list (string * frame (option Q)).

(** config.py *)
Definition DEFAULT_SHEET : string := "Avg Vol Bin Data".

(** The sheet that [read_excel_file] loads: the one called
    [DEFAULT_SHEET] when the workbook has it, the first sheet otherwise. *)
Definition load (wb : workbook) : option (frame (option Q)) :=
  match dict_get wb DEFAULT_SHEET with
  | Some df => Some df
  | None =>
      match wb with
      | (_, df) :: _ => Some df
      | [] => None
      end
  end.

(** [read_excel_file] from the workbook on. *)
Definition read_workbook (wb : workbook) (tlc : Q) : option file_result :=
  match load wb with
  | Some df => read_excel_file df tlc
  | None => None
  end.

(** What pandas reads back from a sheet written with
    [df.to_excel(writer, sheet_name=...)], for columns of [n] rows: the
    index, written without a header and named "Unnamed: 0" on reading,
    then the columns. *)
Definition written (n : nat) (columns : list (string * list Q))
  : frame (option Q) :=
  ("Unnamed: 0"%string, map (fun i => Some (inject_Z (Z.of_nat i))) (seq 0 n))
  :: map (fun c => (fst c, map Some (snd c))) columns.

(** The sheets "Avg Time Bin Data" and "Avg Vol Bin Data" of
    [process_fvavg], from the averages of the time bins and of the volume
    bins (four lists of the same length). *)
Definition avg_sheet (a : Aggregate.averages) : frame (option Q) :=
  written (List.length (Aggregate.avg_insp_vol a))
    [("Avg_Insp_Vol_Graph"%string, Aggregate.avg_insp_vol a);
     ("Avg_Insp_Flow_Graph"%string, Aggregate.avg_insp_flow a);
     ("Avg_Exp_Vol_Graph"%string, Aggregate.avg_exp_vol a);
     ("Avg_Exp_Flow_Graph"%string, Aggregate.avg_exp_flow a)].

End Sheets.

(* ------------------------------------------------------------------ *)
(** * processor.py *)
(* ------------------------------------------------------------------ *)

Module Processor.
Import Consolidator.

(** [os.path.basename] of a POSIX path: what follows its last slash. *)
Fixpoint basename (p : string) : string :=
  match p with
  | EmptyString => EmptyString
  | String c p' =>
      if contains "/" p' then basename p'
      else if Ascii.eqb c "/" then p' else p
  end.

(** config.py *)
Definition OUTPUT_HORIZONTAL : string := "horizontal_layout".

(** [d[k] = v] on a dict: an existing key keeps its place. *)
Fixpoint dict_put {A} (d : list (string * A)) (k : string) (v : A)
  : list (string * A) :=
  match d with
  | [] => [(k, v)]
  | (k', v') :: rest =>
      if String.eqb k' k then (k', v) :: rest
      else (k', v') :: dict_put rest k v
  end.

(** What can be raised: inside the [try] of the loop, the TLC of the
    file is missing from [tlc_values] or the output file of the input
    file cannot be written; after the loop, the consolidated workbook
    cannot be written. *)
Inductive error : Type :=
| KeyError (file_path : string)
| WriteError (output_path : string).

(** An entry of [failed_files]: the file name alone, or the file name
    with the text of an exception. *)
Inductive failure : Type :=
| Plain (filename : string)
| WithError (filename : string) (e : error).

(** The world outside: the sheet that pandas reads from a path ([None]
    when opening or reading the file raises, which [read_excel_file]
    catches), and whether a file can be written at a path. *)
Record world : Type := mkWorld {
  sheet_of : string -> option (frame (option Q));
  write_ok : string -> bool
}.

(** The variables of [process_files], and the files written. *)
Record state : Type := mkState {
  successful_files : list string;
  failed_files : list failure;
  processed_dfs : list (string * file_data);
  all_insp_vols : list series;
  all_insp_flows : list series;
  all_exp_vols : list series;
  all_exp_flows : list series;
  max_rows : nat;
  written : list (string * frame (option Q))
}.

Definition initial : state := mkState [] [] [] [] [] [] [] 0 [].

Definition fail (f : failure) (s : state) : state :=
  mkState (successful_files s) (failed_files s ++ [f]) (processed_dfs s)
    (all_insp_vols s) (all_insp_flows s) (all_exp_vols s) (all_exp_flows s)
    (max_rows s) (written s).

(** [read_excel_file(file_path, tlc, subject_id)] with its [try]. *)
Definition read (w : world) (file_path : string) (tlc : Q)
  : option file_result :=
  match sheet_of w file_path with
  | Some df => read_excel_file df tlc
  | None => None
  end.

(** The statements of the [try] from [successful_files.append] to the
    update of [max_rows]; none of them raises. *)
Definition store (file_path filename subject_id : string) (tlc : Q)
  (r : file_result) (s : state) : state :=
  mkState (successful_files s ++ [filename]) (failed_files s)
    (dict_put (processed_dfs s) file_path
       (mkFileData subject_id tlc (insp_vol_percent r) (insp_flow r)
          (exp_vol_percent r) (exp_flow r)))
    (all_insp_vols s ++ [insp_vol_percent r])
    (all_insp_flows s ++ [insp_flow r])
    (all_exp_vols s ++ [exp_vol_percent r])
    (all_exp_flows s ++ [exp_flow r])
    (Nat.max (max_rows s) (n_rows r)) (written s).

(** [create_separate_file_output] in the world [w]: the file is written,
    or the call raises. *)
Definition write (w : world) (file_path subject_suffix : string)
  (r : file_result) (s : state) : state + error :=
  match Separate.create_separate_file_output (write_ok w) file_path
          (insp_vol_percent r) (insp_flow r) (exp_vol_percent r) (exp_flow r)
          subject_suffix with
  | Some file =>
      inl (mkState (successful_files s) (failed_files s) (processed_dfs s)
             (all_insp_vols s) (all_insp_flows s) (all_exp_vols s)
             (all_exp_flows s) (max_rows s) (written s ++ [file]))
  | None => inr (WriteError (Separate.output_path file_path subject_suffix))
  end.

(** [subject_ids.get(file_path, "")] and
    [f" {subject_id}" if subject_id else ""]. *)
Definition subject_id_of (subject_ids : list (string * string))
  (file_path : string) : string :=
  match dict_get subject_ids file_path with
  | Some id => id
  | None => ""%string
  end.

Definition suffix_of (subject_id : string) : string :=
  if String.eqb subject_id "" then ""%string else (" " ++ subject_id)%string.

(** The body of [for file_path in selected_files]. *)
Definition step (w : world) (tlc_values : list (string * Q))
  (subject_ids : list (string * string)) (output_option : string)
  (s : state) (file_path : string) : state :=
  let filename := basename file_path in
  match dict_get tlc_values file_path with
  | None => fail (WithError filename (KeyError file_path)) s
  | Some tlc =>
      let subject_id := subject_id_of subject_ids file_path in
      let subject_suffix := suffix_of subject_id in
      match read w file_path tlc with
      | Some r =>
          let s1 := store file_path filename subject_id tlc r s in
          if String.eqb output_option OUTPUT_HORIZONTAL then s1
          else match write w file_path subject_suffix r s1 with
               | inl s2 => s2
               | inr e => fail (WithError filename e) s1
               end
      | None => fail (Plain filename) s
      end
  end.

(** The dictionary [result], with the consolidated workbook when it is
    made and the separate files written. *)
Record result : Type := mkResult {
  res_successful_files : list string;
  res_failed_files : list failure;
  res_output_path : string;
  workbook : option layout;
  separate_files : list (string * frame (option Q));
  final : state
}.

(** [process_files].  The call of [create_horizontal_layout_output]
    stands after the loop and outside every [try]: when the workbook
    cannot be written at [output_path] the exception of [pd.ExcelWriter]
    leaves [process_files], which then returns no dictionary ([inr]). *)
Definition process_files (w : world) (selected_files : list string)
  (tlc_values : list (string * Q)) (subject_ids : list (string * string))
  (output_option output_path : string) : result + error :=
  let s := fold_left (step w tlc_values subject_ids output_option)
             selected_files initial in
  if String.eqb output_option OUTPUT_HORIZONTAL then
    match processed_dfs s with
    | _ :: _ =>
        if write_ok w output_path then
          inl (mkResult (successful_files s) (failed_files s) output_path
                 (Some (create_horizontal_layout_output selected_files
                          (processed_dfs s) (all_insp_vols s) (all_exp_vols s)
                          (max_rows s)))
                 (written s) s)
        else inr (WriteError output_path)
    | [] =>
        inl (mkResult (successful_files s) (failed_files s) output_path None
               (written s) s)
    end
  else
    inl (mkResult (successful_files s) (failed_files s) ""%string None
           (written s) s).

(** The entries of [failed_files] that stand for an output file that
    could not be written. *)
Definition write_failures (l : list failure) : nat :=
  List.length (filter (fun f => match f with
                                | WithError _ (WriteError _) => true
                                | _ => false
                                end) l).

(** Every sheet read is a table: its columns have the same number of
    rows. *)
Definition rectangular (w : world) : Prop :=
  forall file_path df, sheet_of w file_path = Some df ->
    exists n, Facts.uniform n df.

(** The four series of a file fit into [m] rows, the two of each phase
    having the same length. *)
Definition fits (m : nat) (fd : file_data) : Prop :=
  List.length (fd_insp_vol fd) <= m /\
  List.length (fd_insp_flow fd) = List.length (fd_insp_vol fd) /\
  List.length (fd_exp_vol fd) <= m /\
  List.length (fd_exp_flow fd) = List.length (fd_exp_vol fd).

End Processor.

(* ------------------------------------------------------------------ *)
(** * Properties *)
(* ------------------------------------------------------------------ *)

(** ** Python lists *)

Section PyFacts.
Import Py.
Context {A : Type}.
Implicit Types (l : list A) (k : nat).

Lemma index_nat l k :
  index l (Z.of_nat k) =
  match nth_error l k with Some x => ok x | None => raise IndexError end.
Proof.
  unfold index.
  destruct (Z.ltb_spec (Z.of_nat k) 0); [lia|].
  destruct (Z.ltb_spec (Z.of_nat k) 0); [lia|].
  now rewrite Nat2Z.id.
Qed.

Lemma index_nat_succ l k :
  index l (Z.of_nat k + 1) =
  match nth_error l (S k) with Some x => ok x | None => raise IndexError end.
Proof.
  replace (Z.of_nat k + 1)%Z with (Z.of_nat (S k)) by lia. apply index_nat.
Qed.

Lemma index_nat_ok l k :
  k < List.length l -> exists x, index l (Z.of_nat k) = ok x.
Proof.
  intros H. rewrite index_nat.
  destruct (nth_error l k) eqn:E; [eauto|].
  apply nth_error_None in E. lia.
Qed.

Lemma index_nat_inv l k x :
  index l (Z.of_nat k) = ok x -> k < List.length l.
Proof.
  rewrite index_nat. destruct (nth_error l k) eqn:E; [|discriminate].
  intros _. apply nth_error_Some. congruence.
Qed.

Lemma index_nat_succ_inv l k x :
  index l (Z.of_nat k + 1) = ok x -> S k < List.length l.
Proof.
  rewrite index_nat_succ. destruct (nth_error l (S k)) eqn:E; [|discriminate].
  intros _. apply nth_error_Some. congruence.
Qed.

Lemma index_last_ok l :
  l <> [] -> exists x, index l (-1) = ok x.
Proof.
  intros H. unfold index.
  assert (0 < List.length l) by (destruct l; [congruence | simpl; lia]).
  cbv zeta. change (-1 <? 0)%Z with true. cbv iota.
  destruct (Z.ltb_spec (Z.of_nat (List.length l) + -1) 0); [lia|].
  destruct (nth_error l (Z.to_nat (Z.of_nat (List.length l) + -1))) eqn:E;
    [eexists; reflexivity|].
  apply nth_error_None in E. lia.
Qed.

End PyFacts.

(** ** The scan of [find_zero_flow_points] *)

Import Py.
Lemma range_below (n : nat) : Forall (fun i => i < n) (range 0 n).
Proof.
  apply Forall_forall. intros i Hi. unfold range in Hi.
  apply in_seq in Hi. lia.
Qed.

Section ScanFacts.
Import Py FVAvg Facts.
Local Open Scope py_scope.
Variables T V F : list Q.
Hypothesis HT : List.length T = List.length F.
Hypothesis HV : List.length V = List.length F.

Lemma index_err {A} (l : list A) k e : index l k = inl e -> e = IndexError.
Proof.
  unfold index. cbv zeta.
  destruct (_ <? 0)%Z; [intros [= <-]; reflexivity|].
  destruct (nth_error _ _); [discriminate | intros [= <-]; reflexivity].
Qed.

Lemma forward_count_err test i e :
  forward_count F test i = inl e -> e = IndexError.
Proof.
  unfold forward_count.
  assert (G : forall js acc,
             (forall e, acc = inl e -> e = IndexError) ->
             forall e,
             fold_left
               (fun acc j =>
                  counter <~ acc ;;
                  f <~ index F (Z.of_nat i + 1 + Z.of_nat j) ;;
                  ok (if test f then counter + 1 else counter)) js acc = inl e ->
             e = IndexError).
  { induction js as [|j js IH]; intros acc Hacc e0; simpl.
    - apply Hacc.
    - apply IH. intros e1. destruct acc as [e2|c]; simpl.
      + intros [= <-]. now apply Hacc.
      + destruct (index F _) eqn:E; simpl; [|discriminate].
        intros [= <-]. eapply index_err; eauto. }
  apply G. discriminate.
Qed.

Lemma neg_to_pos_err i e : neg_to_pos F i = inl e -> e = IndexError.
Proof.
  unfold neg_to_pos, rbind.
  destruct (index F (Z.of_nat i)) eqn:E1; [intros [= <-]; eapply index_err; eauto|].
  destruct (Qltb q 0); [|discriminate].
  destruct (index F (Z.of_nat i + 1)) eqn:E2; [intros [= <-]; eapply index_err; eauto|discriminate].
Qed.

Lemma pos_to_neg_err i e : pos_to_neg F i = inl e -> e = IndexError.
Proof.
  unfold pos_to_neg, rbind.
  destruct (index F (Z.of_nat i)) eqn:E1; [intros [= <-]; eapply index_err; eauto|].
  destruct (Qgtb q 0); [|discriminate].
  destruct (index F (Z.of_nat i + 1)) eqn:E2; [intros [= <-]; eapply index_err; eauto|discriminate].
Qed.

Lemma neg_to_pos_true i : neg_to_pos F i = ok true -> S i < List.length F.
Proof.
  unfold neg_to_pos, rbind.
  destruct (index F (Z.of_nat i)) eqn:E1; [discriminate|].
  destruct (Qltb q 0); [|discriminate].
  destruct (index F (Z.of_nat i + 1)) eqn:E2; [discriminate|].
  intros _. eapply index_nat_succ_inv; eauto.
Qed.

Lemma pos_to_neg_true i : pos_to_neg F i = ok true -> S i < List.length F.
Proof.
  unfold pos_to_neg, rbind.
  destruct (index F (Z.of_nat i)) eqn:E1; [discriminate|].
  destruct (Qgtb q 0); [|discriminate].
  destruct (index F (Z.of_nat i + 1)) eqn:E2; [discriminate|].
  intros _. eapply index_nat_succ_inv; eauto.
Qed.

Lemma validated_up_err i e : validated_up F i = inl e -> e = IndexError.
Proof.
  unfold validated_up, rbind.
  destruct (forward_count _ _ _) eqn:E; [|discriminate].
  intros [= <-]. eapply forward_count_err; eauto.
Qed.

Lemma validated_down_err i e : validated_down F i = inl e -> e = IndexError.
Proof.
  unfold validated_down, rbind.
  destruct (forward_count _ _ _) eqn:E; [|discriminate].
  intros [= <-]. eapply forward_count_err; eauto.
Qed.

(** When the three reads succeed, the sample is appended to the three
    lists. *)
Lemma append_sample_reads k s t f v :
  index T k = ok t -> index F k = ok f -> index V k = ok v ->
  append_sample T V F k s =
  (mkZeroed (zeroed_time_list s ++ [t]) (zeroed_vol_list s ++ [v])
            (zeroed_flow_list s ++ [f]) (phase_indexes s)
            (phase_indexes_list s), ok tt).
Proof.
  intros Ht Hf Hv. unfold append_sample, bind, lift.
  rewrite Ht, Hf, Hv. reflexivity.
Qed.

Lemma balanced_app3 zt zv zf p pl a b c p' pl' :
  balanced (mkZeroed zt zv zf p pl) ->
  List.length a = List.length b -> List.length b = List.length c ->
  balanced (mkZeroed (zt ++ a) (zv ++ b) (zf ++ c) p' pl').
Proof.
  unfold balanced; simpl. intros [H1 H2] H3 H4.
  rewrite !length_app. lia.
Qed.

Lemma standard_runs i s :
  i < List.length F ->
  exists s', standard T V F i s = (s', ok tt) /\ (balanced s -> balanced s').
Proof.
  intros Hi.
  destruct (@index_nat_ok _ T i) as [t Ht]; [lia|].
  destruct (@index_nat_ok _ F i) as [f Hf]; [lia|].
  destruct (@index_nat_ok _ V i) as [v Hv]; [lia|].
  unfold standard, bind. erewrite append_sample_reads by eassumption.
  eexists; split; [reflexivity|].
  destruct s; simpl. intros B. eapply balanced_app3; [eassumption|reflexivity..].
Qed.

Lemma scan_except_runs s :
  F <> [] ->
  exists s', scan_except T V F s = (s', ok tt) /\ (balanced s -> balanced s').
Proof.
  intros Hne.
  assert (T <> []) by (destruct T, F; simpl in *; congruence).
  assert (V <> []) by (destruct V, F; simpl in *; congruence).
  destruct (@index_last_ok _ T) as [t Ht]; [assumption|].
  destruct (@index_last_ok _ F) as [f Hf]; [assumption|].
  destruct (@index_last_ok _ V) as [v Hv]; [assumption|].
  unfold scan_except, bind. erewrite append_sample_reads by eassumption.
  eexists; split; [reflexivity|].
  destruct s; simpl. intros B. eapply balanced_app3; [eassumption|reflexivity..].
Qed.

Lemma interpolate_runs nudge i s :
  S i < List.length F ->
  (exists s', interpolate T V F nudge i s = (s', ok tt) /\
              (balanced s -> balanced s')) \/
  (exists s', interpolate T V F nudge i s = (s', raise ZeroDivisionError)).
Proof.
  intros Hi.
  destruct (@index_nat_ok _ T i) as [t1 Ht1]; [lia|].
  destruct (@index_nat_ok _ F i) as [f1 Hf1]; [lia|].
  destruct (@index_nat_ok _ V i) as [v1 Hv1]; [lia|].
  destruct (@index_nat_ok _ T (S i)) as [t2 Ht2]; [lia|].
  destruct (@index_nat_ok _ F (S i)) as [f2 Hf2]; [lia|].
  destruct (@index_nat_ok _ V (S i)) as [v2 Hv2]; [lia|].
  replace (Z.of_nat (S i)) with (Z.of_nat i + 1)%Z in * by lia.
  unfold interpolate, bind. erewrite append_sample_reads by eassumption.
  unfold lift. rewrite Ht1, Ht2, Hv1, Hv2, Hf1, Hf2.
  unfold div. cbv beta iota delta [ok raise].
  destruct (Qeq_bool (t2 - t1) 0); [right; eexists; reflexivity|].
  cbv beta iota delta [ok raise].
  destruct (Qeq_bool _ 0); [right; eexists; reflexivity|].
  left. eexists; split; [reflexivity|].
  destruct s; simpl. intros B.
  rewrite <- !app_assoc. simpl.
  eapply balanced_app3; [eassumption|reflexivity..].
Qed.

Lemma scan_try_cases i s :
  i < List.length F ->
  (exists s', scan_try T V F i s = (s', ok tt) /\
              (balanced s -> balanced s')) \/
  scan_try T V F i s = (s, raise IndexError) \/
  (exists s', scan_try T V F i s = (s', raise ZeroDivisionError)).
Proof.
  intros Hi. unfold scan_try, bind, lift.
  destruct (neg_to_pos F i) as [e|[|]] eqn:Eup; cbv beta iota.
  - right; left. now rewrite (neg_to_pos_err _ Eup).
  - destruct (validated_up F i) as [e|[|]] eqn:Ev; cbv beta iota.
    + right; left. now rewrite (validated_up_err _ Ev).
    + destruct (interpolate_runs nudge_min s (neg_to_pos_true _ Eup)); auto.
    + left. now apply standard_runs.
  - destruct (pos_to_neg F i) as [e|[|]] eqn:Edown; cbv beta iota.
    + right; left. now rewrite (pos_to_neg_err _ Edown).
    + destruct (validated_down F i) as [e|[|]] eqn:Ev; cbv beta iota.
      * right; left. now rewrite (validated_down_err _ Ev).
      * destruct (interpolate_runs nudge_max s (pos_to_neg_true _ Edown)); auto.
      * left. now apply standard_runs.
    + left. now apply standard_runs.
Qed.

(** One iteration of the scan keeps the three lists level, or stops on a
    division by zero. *)
Lemma scan_step_cases i s :
  i < List.length F ->
  (exists s', scan_step T V F i s = (s', ok tt) /\
              (balanced s -> balanced s')) \/
  (exists s', scan_step T V F i s = (s', raise ZeroDivisionError)).
Proof.
  intros Hi. unfold scan_step, try_except.
  destruct (scan_try_cases s Hi) as [(s1 & E & B)|[E|(s1 & E)]]; rewrite E;
    cbv beta iota delta [ok raise exn_eqb].
  - left. eauto.
  - left.
    apply scan_except_runs. destruct F; simpl in *; [lia | discriminate].
  - right. eexists. reflexivity.
Qed.

Lemma scan_loop_cases js :
  Forall (fun i => i < List.length F) js ->
  forall s,
  (exists s', for_each js (scan_step T V F) s = (s', ok tt) /\
              (balanced s -> balanced s')) \/
  (exists s', for_each js (scan_step T V F) s = (s', raise ZeroDivisionError)).
Proof.
  induction 1 as [|i js Hi _ IH]; intros s; simpl.
  - left. eexists; split; [reflexivity | auto].
  - unfold bind.
    destruct (scan_step_cases s Hi) as [(s1 & E & B)|(s1 & E)]; rewrite E.
    + cbv beta iota delta [ok].
      destruct (IH s1) as [(s2 & E2 & B2)|(s2 & E2)]; rewrite E2.
      * left. eexists; split; [reflexivity | auto].
      * right. eexists; reflexivity.
    + right. eexists; reflexivity.
Qed.

End ScanFacts.

(** ** The scan returns on distinct time stamps *)

Section ScanReturns.
Import Py FVAvg Facts.
Local Open Scope py_scope.
Variables T V F : list Q.
Hypothesis HT : List.length T = List.length F.
Hypothesis HV : List.length V = List.length F.
Hypothesis Hdistinct :
  forall i, S i < List.length T -> ~ (nth i T 0 == nth (S i) T 0)%Q.

Lemma Qltb_lt (a b : Q) : Qltb a b = true -> (a < b)%Q.
Proof.
  unfold Qltb. intros H. apply negb_true_iff in H.
  apply Qnot_le_lt. intros Hle. apply Qle_bool_iff in Hle. congruence.
Qed.

Lemma index_nat_nth (l : list Q) (k : nat) (x : Q) :
  index l (Z.of_nat k) = ok x -> x = nth k l 0%Q.
Proof.
  rewrite index_nat. destruct (nth_error l k) eqn:E; [|discriminate].
  intros [= <-]. now rewrite (nth_error_nth _ _ _ E).
Qed.

(** The two flows of a candidate crossing are different. *)
Lemma neg_to_pos_flows (i : nat) :
  neg_to_pos F i = ok true ->
  S i < List.length F /\ ~ (nth (S i) F 0 - nth i F 0 == 0)%Q.
Proof.
  intros H. split; [now apply (neg_to_pos_true F)|].
  unfold neg_to_pos, rbind in H.
  destruct (index F (Z.of_nat i)) as [|f1] eqn:E1; [discriminate|].
  destruct (Qltb f1 0) eqn:L1; [|discriminate].
  destruct (index F (Z.of_nat i + 1)) as [|f2] eqn:E2; [discriminate|].
  injection H as H.
  replace (Z.of_nat i + 1)%Z with (Z.of_nat (S i)) in E2 by lia.
  apply index_nat_nth in E1, E2. subst f1 f2.
  apply Qltb_lt in L1, H. intros Heq.
  assert (Hlt : (nth i F 0 < nth (S i) F 0)%Q)
    by (eapply Qlt_trans; eassumption).
  apply Qlt_minus_iff in Hlt. unfold Qminus in Heq. rewrite Heq in Hlt.
  now apply Qlt_irrefl in Hlt.
Qed.

Lemma pos_to_neg_flows (i : nat) :
  pos_to_neg F i = ok true ->
  S i < List.length F /\ ~ (nth (S i) F 0 - nth i F 0 == 0)%Q.
Proof.
  intros H. split; [now apply (pos_to_neg_true F)|].
  unfold pos_to_neg, rbind in H.
  destruct (index F (Z.of_nat i)) as [|f1] eqn:E1; [discriminate|].
  destruct (Qgtb f1 0) eqn:L1; [|discriminate].
  destruct (index F (Z.of_nat i + 1)) as [|f2] eqn:E2; [discriminate|].
  injection H as H.
  replace (Z.of_nat i + 1)%Z with (Z.of_nat (S i)) in E2 by lia.
  apply index_nat_nth in E1, E2. subst f1 f2.
  unfold Qgtb in *. apply Qltb_lt in L1, H. intros Heq.
  assert (Hlt : (nth (S i) F 0 < nth i F 0)%Q)
    by (eapply Qlt_trans; eassumption).
  apply Qlt_minus_iff in Hlt.
  assert (Hz : (nth i F 0 + - nth (S i) F 0 == 0)%Q).
  { setoid_replace (nth i F 0 + - nth (S i) F 0)%Q
      with (- (nth (S i) F 0 - nth i F 0))%Q by ring.
    rewrite Heq. reflexivity. }
  rewrite Hz in Hlt. now apply Qlt_irrefl in Hlt.
Qed.

Lemma interpolate_returns (nudge : Q -> Q -> Q) (i : nat) (s : zeroed) :
  S i < List.length F -> ~ (nth (S i) F 0 - nth i F 0 == 0)%Q ->
  exists s', interpolate T V F nudge i s = (s', ok tt).
Proof.
  intros Hi Hf.
  destruct (@interpolate_runs T V F HT HV nudge i s Hi) as [(s' & E & _)|(s' & E)];
    [eauto|].
  exfalso. revert E.
  destruct (@index_nat_ok _ T i) as [t1 Ht1]; [lia|].
  destruct (@index_nat_ok _ F i) as [f1 Hf1]; [lia|].
  destruct (@index_nat_ok _ V i) as [v1 Hv1]; [lia|].
  destruct (@index_nat_ok _ T (S i)) as [t2 Ht2]; [lia|].
  destruct (@index_nat_ok _ F (S i)) as [f2 Hf2]; [lia|].
  destruct (@index_nat_ok _ V (S i)) as [v2 Hv2]; [lia|].
  pose proof (index_nat_nth _ _ Ht1) as Et1.
  pose proof (index_nat_nth _ _ Ht2) as Et2.
  pose proof (index_nat_nth _ _ Hf1) as Ef1.
  pose proof (index_nat_nth _ _ Hf2) as Ef2.
  replace (Z.of_nat (S i)) with (Z.of_nat i + 1)%Z in * by lia.
  unfold interpolate, bind. erewrite append_sample_reads by eassumption.
  unfold lift. rewrite Ht1, Ht2, Hv1, Hv2, Hf1, Hf2.
  unfold div. cbv beta iota delta [ok raise].
  assert (Hdt : ~ (t2 - t1 == 0)%Q).
  { subst t1 t2. intros H. apply (Hdistinct (i:=i)); [lia|].
    symmetry. apply Qplus_inj_r with (z := (- nth i T 0)%Q).
    rewrite Qplus_opp_r. exact H. }
  destruct (Qeq_bool (t2 - t1) 0) eqn:B1.
  { apply Qeq_bool_eq in B1. contradiction. }
  cbv beta iota delta [ok raise].
  destruct (Qeq_bool ((f2 - f1) / (t2 - t1)) 0) eqn:B2.
  { apply Qeq_bool_eq in B2. exfalso. apply Hf. subst f1 f2.
    setoid_replace (nth (S i) F 0 - nth i F 0)%Q
      with ((nth (S i) F 0 - nth i F 0) / (t2 - t1) * (t2 - t1))%Q
      by (field; assumption).
    rewrite B2. ring. }
  discriminate.
Qed.

Lemma scan_try_returns (i : nat) (s : zeroed) :
  i < List.length F ->
  (exists s', scan_try T V F i s = (s', ok tt)) \/
  scan_try T V F i s = (s, raise IndexError).
Proof.
  intros Hi. unfold scan_try, bind, lift.
  destruct (neg_to_pos F i) as [e|[|]] eqn:Eup; cbv beta iota.
  - right. now rewrite (neg_to_pos_err _ _ Eup).
  - destruct (validated_up F i) as [e|[|]] eqn:Ev; cbv beta iota.
    + right. now rewrite (validated_up_err _ _ Ev).
    + left. destruct (neg_to_pos_flows _ Eup). now apply interpolate_returns.
    + left. destruct (@standard_runs T V F HT HV i s Hi) as (s' & E & _). eauto.
  - destruct (pos_to_neg F i) as [e|[|]] eqn:Edown; cbv beta iota.
    + right. now rewrite (pos_to_neg_err _ _ Edown).
    + destruct (validated_down F i) as [e|[|]] eqn:Ev; cbv beta iota.
      * right. now rewrite (validated_down_err _ _ Ev).
      * left. destruct (pos_to_neg_flows _ Edown).
        now apply interpolate_returns.
      * left. destruct (@standard_runs T V F HT HV i s Hi) as (s' & E & _). eauto.
    + left. destruct (@standard_runs T V F HT HV i s Hi) as (s' & E & _). eauto.
Qed.

Lemma scan_step_returns (i : nat) (s : zeroed) :
  i < List.length F -> exists s', scan_step T V F i s = (s', ok tt).
Proof.
  intros Hi. unfold scan_step, try_except.
  destruct (@scan_try_returns i s Hi) as [(s1 & E)|E]; rewrite E;
    cbv beta iota delta [ok raise exn_eqb].
  - eauto.
  - destruct (@scan_except_runs T V F HT HV s) as (s' & E' & _); [|eauto].
    destruct F; simpl in *; [lia | discriminate].
Qed.

Lemma scan_loop_returns (js : list nat) :
  Forall (fun i => i < List.length F) js ->
  forall s, exists s', for_each js (scan_step T V F) s = (s', ok tt).
Proof.
  induction 1 as [|i js Hi _ IH]; intros s; simpl.
  - eexists. reflexivity.
  - unfold bind. destruct (@scan_step_returns i s Hi) as (s1 & E). rewrite E.
    cbv beta iota delta [ok]. apply IH.
Qed.

End ScanReturns.

(** C9.  On raw lists of equal length, the time, volume and flow lists that
    [find_zero_flow_points] returns have equal length: every branch of the
    scan that completes has appended as many entries to each.  The only way
    the scan does not return is a division by zero (two equal time stamps
    at a validated crossing). *)
Theorem find_zero_flow_points_equal_lengths (T V F : list Q) :
  List.length T = List.length F -> List.length V = List.length F ->
  match FVAvg.find_zero_flow_points T V F with
  | inr (zt, zv, zf, _) => List.length zt = List.length zf /\ List.length zv = List.length zf
  | inl e => e = Py.ZeroDivisionError
  end.
Proof.
  intros HT HV. unfold FVAvg.find_zero_flow_points, FVAvg.scan.
  destruct (scan_loop_cases T V F HT HV (range_below (List.length F)) FVAvg.zeroed_init)
    as [(s & E & B)|(s & E)]; rewrite E; cbv beta iota delta [Py.ok Py.raise].
  - destruct B as [B1 B2]; [split; reflexivity|]. split; congruence.
  - reflexivity.
Qed.

Lemma find_zero_flow_points_equal_lengths_witness :
  List.length (Recordings.ramp 100) = List.length Recordings.wrap_flow /\
  List.length (Recordings.integrate 0%Q Recordings.wrap_flow)
    = List.length Recordings.wrap_flow /\
  match FVAvg.find_zero_flow_points (Recordings.ramp 100)
          (Recordings.integrate 0%Q Recordings.wrap_flow)
          Recordings.wrap_flow with
  | inr (zt, zv, zf, _) => List.length zt = List.length zf /\ List.length zv = List.length zf
  | inl e => e = Py.ZeroDivisionError
  end.
Proof.
  split; [reflexivity|]. split; [reflexivity|].
  apply find_zero_flow_points_equal_lengths; reflexivity.
Defined.

(** X1.  On a recording whose three lists have the same length and whose
    consecutive time stamps differ, [find_zero_flow_points] returns its
    four lists: neither the division by [t2 - t1] nor the division by the
    slope of the flow can fail at a sign change. *)
Lemma find_zero_flow_points_returns (T V F : list Q) :
  List.length T = List.length F -> List.length V = List.length F ->
  (forall i, S i < List.length T -> ~ (nth i T 0 == nth (S i) T 0)%Q) ->
  exists zt zv zf phl,
    FVAvg.find_zero_flow_points T V F = Py.ok (zt, zv, zf, phl).
Proof.
  intros HT HV Hd. unfold FVAvg.find_zero_flow_points, FVAvg.scan.
  destruct (@scan_loop_returns T V F HT HV Hd _
              (range_below (List.length F)) FVAvg.zeroed_init) as (s & E).
  rewrite E. cbv beta iota delta [Py.ok]. do 4 eexists. reflexivity.
Qed.

(** ** Sums of rationals *)

Lemma Qsum_acc (l : list Q) (a : Q) : (fold_left Qplus l a == a + Py.Qsum l)%Q.
Proof.
  unfold Py.Qsum. revert a.
  induction l as [|x l IH]; intros a; simpl.
  - ring.
  - rewrite IH. rewrite (IH (0 + x)%Q). ring.
Qed.

Lemma Qsum_cons (x : Q) (l : list Q) : (Py.Qsum (x :: l) == x + Py.Qsum l)%Q.
Proof.
  unfold Py.Qsum at 1. simpl. rewrite Qsum_acc. ring.
Qed.

Lemma Qsum_nil : Py.Qsum [] = 0%Q.
Proof. reflexivity. Qed.

(** ** The backward check of the detector *)

Section BackTrack.
Import Py FVAvg.
Variable F : list Q.

(** An index [i - j] that does not underflow reads sample [i - j]. *)
Lemma index_sub_in_range (i j : nat) :
  j <= i -> i < List.length F ->
  index F (Z.of_nat i - Z.of_nat j) = ok (nth (i - j) F 0%Q).
Proof.
  intros Hj Hi.
  replace (Z.of_nat i - Z.of_nat j)%Z with (Z.of_nat (i - j)) by lia.
  rewrite index_nat.
  destruct (nth_error F (i - j)) eqn:E.
  - now rewrite (nth_error_nth _ _ _ E).
  - apply nth_error_None in E. lia.
Qed.

(** An index [i - j] that underflows by at most the length of the list
    does not raise: it reads from the end of the list. *)
Lemma index_sub_wraps (i j : nat) :
  i < j -> j <= List.length F + i ->
  index F (Z.of_nat i - Z.of_nat j) = ok (nth (List.length F + i - j) F 0%Q).
Proof.
  intros Hj Hi. unfold index. cbv zeta.
  destruct (Z.ltb_spec (Z.of_nat i - Z.of_nat j) 0); [|lia].
  destruct (Z.ltb_spec (Z.of_nat (List.length F) + (Z.of_nat i - Z.of_nat j)) 0); [lia|].
  replace (Z.to_nat _) with (List.length F + i - j) by lia.
  destruct (nth_error F (List.length F + i - j)) eqn:E.
  - now rewrite (nth_error_nth _ _ _ E).
  - apply nth_error_None in E. lia.
Qed.

Lemma back_track_fold (i : nat) (js : list nat) (acc : Q) :
  Forall (fun j => j <= i) js -> i < List.length F ->
  (fold_left
     (fun back_track j =>
        match index F (Z.of_nat i - Z.of_nat j) with
        | inr f => (f + back_track)%Q
        | inl _ => back_track
        end) js acc
   == acc + Qsum (map (fun j => if i <? j then 0%Q else nth (i - j) F 0%Q) js))%Q.
Proof.
  intros Hjs Hi. revert acc.
  induction Hjs as [|j js Hj _ IH]; intros acc; simpl.
  - rewrite Qsum_nil. ring.
  - rewrite (index_sub_in_range Hj Hi), IH, Qsum_cons.
    destruct (Nat.ltb_spec i j); [lia|].
    cbv beta iota delta [ok]. ring.
Qed.

(** Sixty samples or more into the recording, the code computes the mean
    of the specification. *)
Lemma back_track_in_range (i : nat) :
  60 <= i < List.length F ->
  (back_track F i == Spec.backward_mean F i)%Q.
Proof.
  intros [H1 H2]. unfold back_track, back_track_sum, Spec.backward_mean.
  rewrite back_track_fold; [| |assumption].
  - apply Qdiv_comp; [ring | reflexivity].
  - apply Forall_forall. intros j Hj. unfold range in Hj.
    apply in_seq in Hj. lia.
Qed.

End BackTrack.

(** C1.  At the first sample of [wrap_flow] every index [i - j] of the
    backward check underflows.  The specification counts the twenty terms
    as 0, so that the mean is 0 and the crossing is not validated; the code
    reads them from the end of the recording ([flow_raw_list[-41]] to
    [flow_raw_list[-60]]), finds the mean -1 and validates the crossing. *)
Theorem backward_check_reads_from_the_end :
  FVAvg.neg_to_pos Recordings.wrap_flow 0 = Py.ok true /\
  (Spec.backward_mean Recordings.wrap_flow 0 == 0)%Q /\
  (FVAvg.back_track Recordings.wrap_flow 0 == -1)%Q /\
  FVAvg.validated_up Recordings.wrap_flow 0 = Py.ok true /\
  (forall j, In j (Py.range 41 61) ->
     Py.index Recordings.wrap_flow (Z.of_nat 0 - Z.of_nat j)
     = Py.ok (nth (100 - j) Recordings.wrap_flow 0%Q)).
Proof.
  split; [reflexivity|]. split; [reflexivity|]. split; [reflexivity|].
  split; [reflexivity|].
  intros j Hj. unfold Py.range in Hj. apply in_seq in Hj.
  rewrite index_sub_wraps.
  - reflexivity.
  - lia.
  - change (List.length Recordings.wrap_flow) with 100. lia.
Qed.

(** ** The trimmer *)

Section TrimFacts.
Import Py FVAvg Facts.
Local Open Scope py_scope.

Lemma index_cons_0 {A} (x : A) (l : list A) : index (x :: l) 0 = ok x.
Proof. change 0%Z with (Z.of_nat 0). now rewrite index_nat. Qed.

Lemma index_2 {A} (l : list A) :
  index l 2 =
  match nth_error l 2 with Some x => ok x | None => raise IndexError end.
Proof. change 2%Z with (Z.of_nat 2). apply index_nat. Qed.

Lemma head_pattern_cons (test : Q -> bool) (f0 : Q) (zf : list Q) :
  head_pattern test (f0 :: zf) =
  if Qeq_bool f0 0 then
    match nth_error (f0 :: zf) 2 with
    | Some f2 => ok (test f2)
    | None => raise IndexError
    end
  else ok false.
Proof.
  unfold head_pattern. rewrite index_cons_0.
  cbv beta iota delta [rbind ok].
  destruct (Qeq_bool f0 0); [|reflexivity].
  rewrite index_2. now destruct (nth_error _ 2).
Qed.

Lemma trim_start_cons (f0 : Q) (zf zv zt : list Q) (c : Q) :
  trim_start (f0 :: zf) zv zt c =
  (found <~ head_pattern (fun f2 => Qltb f2 0) (f0 :: zf) ;;
   if found then
     r <~ delete_row_rest zv zt ;; ok (zf, fst r, snd r, c)
   else
     bump <~ head_pattern (fun f2 => Qgtb f2 0) (f0 :: zf) ;;
     r <~ delete_row_rest zv zt ;;
     trim_start zf (fst r) (snd r)
       (if bump then (c + (1 # 2))%Q else c)).
Proof. reflexivity. Qed.

Lemma delete_row_rest_err (zv zt : list Q) e :
  delete_row_rest zv zt = inl e -> e = IndexError.
Proof.
  unfold delete_row_rest. destruct zv; simpl; [now intros [= <-]|].
  destruct zt; simpl; [now intros [= <-] | discriminate].
Qed.

(** When no suffix of the flow list shows the pattern, the leading loop
    runs off the list: [IndexError]. *)
Lemma trim_start_exhausted (zf : list Q) :
  finds_start zf = false ->
  forall zv zt c, trim_start zf zv zt c = raise IndexError.
Proof.
  induction zf as [|f0 zf IH]; intros H zv zt c; [reflexivity|].
  cbn [finds_start] in H. apply orb_false_iff in H. destruct H as [H1 H2].
  rewrite trim_start_cons, !head_pattern_cons.
  destruct (Qeq_bool f0 0); cbn [andb] in H1.
  - destruct (nth_error (f0 :: zf) 2) as [f2|]; [|reflexivity].
    rewrite H1. cbv beta iota delta [rbind ok].
    destruct (delete_row_rest zv zt) as [e|r] eqn:E; cbv beta iota delta [rbind].
    + now rewrite (delete_row_rest_err _ _ E).
    + now apply IH.
  - cbv beta iota delta [rbind ok].
    destruct (delete_row_rest zv zt) as [e|r] eqn:E; cbv beta iota delta [rbind].
    + now rewrite (delete_row_rest_err _ _ E).
    + now apply IH.
Qed.

Lemma tail_pattern_cons (test : Q -> bool) (f1 : Q) (rf : list Q) :
  tail_pattern test (f1 :: rf) =
  match nth_error (f1 :: rf) 2 with
  | Some f3 => ok (Qeq_bool f3 0 && test f1)
  | None => raise IndexError
  end.
Proof.
  unfold tail_pattern. rewrite index_2.
  destruct (nth_error _ 2) as [f3|]; [|reflexivity].
  rewrite index_cons_0. cbv beta iota delta [rbind ok].
  now destruct (Qeq_bool f3 0).
Qed.

Lemma trim_end_rev_cons (f1 : Q) (rf rv rt : list Q) (c : Q) :
  trim_end_rev (f1 :: rf) rv rt c =
  (found <~ tail_pattern (fun f => Qltb f 0) (f1 :: rf) ;;
   if found then
     r1 <~ delete_row_rev (f1 :: rf) rv rt ;;
     let '(a1, b1, c1) := r1 in
     r2 <~ delete_row_rev a1 b1 c1 ;;
     let '(a2, b2, c2) := r2 in
     r3 <~ delete_row_rev a2 b2 c2 ;;
     let '(a3, b3, c3) := r3 in
     ok (a3, b3, c3, c)
   else
     bump <~ tail_pattern (fun f => Qgtb f 0) (f1 :: rf) ;;
     r <~ delete_row_rest rv rt ;;
     trim_end_rev rf (fst r) (snd r)
       (if bump then (c + (1 # 2))%Q else c)).
Proof. reflexivity. Qed.

Lemma trim_end_rev_exhausted (rf : list Q) :
  finds_end_rev rf = false ->
  forall rv rt c, trim_end_rev rf rv rt c = raise IndexError.
Proof.
  induction rf as [|f1 rf IH]; intros H rv rt c; [reflexivity|].
  cbn [finds_end_rev] in H.
  rewrite trim_end_rev_cons, !tail_pattern_cons.
  destruct (nth_error (f1 :: rf) 2) as [f3|]; [|reflexivity].
  apply orb_false_iff in H. destruct H as [H1 H2].
  rewrite H1. cbv beta iota delta [rbind ok].
  destruct (delete_row_rest rv rt) as [e|r] eqn:E; cbv beta iota delta [rbind].
  - now rewrite (delete_row_rest_err _ _ E).
  - now apply IH.
Qed.

Lemma trim_end_exhausted (zf : list Q) :
  finds_end zf = false ->
  forall zv zt c, trim_end zf zv zt c = raise IndexError.
Proof.
  intros H zv zt c. unfold trim_end.
  now rewrite (trim_end_rev_exhausted _ H).
Qed.

End TrimFacts.

(** C4, as the code has it.  When the leading loop finds its pattern in no
    suffix of the flow list, or the trailing loop finds its pattern in no
    prefix of what the leading trim left, [trim_excess_data] raises
    [IndexError]; no breath-specific error is signalled. *)
Theorem trim_excess_data_exhausted (zt zv zf : list Q) (phl : list nat) :
  (Facts.finds_start zf = false \/
   exists zf' zv' zt' c,
     FVAvg.trim_start zf zv zt 1 = Py.ok (zf', zv', zt', c) /\
     Facts.finds_end zf' = false) ->
  FVAvg.trim_excess_data zt zv zf phl = Py.raise Py.IndexError /\
  Spec.signalled (FVAvg.trim_excess_data zt zv zf phl)
    = Some (Spec.PythonException Py.IndexError).
Proof.
  intros H.
  assert (E : FVAvg.trim_excess_data zt zv zf phl = Py.raise Py.IndexError).
  { unfold FVAvg.trim_excess_data.
    destruct H as [H|(zf' & zv' & zt' & c & E & H)].
    - now rewrite (trim_start_exhausted _ H).
    - rewrite E. cbv beta iota delta [Py.rbind Py.ok].
      now rewrite (trim_end_exhausted _ H). }
  now rewrite E.
Qed.

Lemma trim_excess_data_exhausted_witness :
  (Facts.finds_start Recordings.chatter_flow = false \/
   exists zf' zv' zt' c,
     FVAvg.trim_start Recordings.chatter_flow
       (Recordings.integrate 0%Q Recordings.chatter_flow)
       (Recordings.ramp 100) 1 = Py.ok (zf', zv', zt', c) /\
     Facts.finds_end zf' = false) /\
  FVAvg.trim_excess_data (Recordings.ramp 100)
    (Recordings.integrate 0%Q Recordings.chatter_flow)
    Recordings.chatter_flow [] = Py.raise Py.IndexError /\
  Spec.signalled
    (FVAvg.trim_excess_data (Recordings.ramp 100)
       (Recordings.integrate 0%Q Recordings.chatter_flow)
       Recordings.chatter_flow [])
    = Some (Spec.PythonException Py.IndexError).
Proof.
  split; [left; reflexivity|].
  apply trim_excess_data_exhausted. left. reflexivity.
Defined.

(** C4, as the specification words it, fails on the chatter recording: no
    crossing is validated (the phase-length list is empty), the leading
    loop exhausts the augmented flow list, and what reaches the caller is
    the [IndexError] of the list access, not a NoFullBreath error. *)
Lemma chatter_is_not_signalled_as_NoFullBreath :
  exists zt zv zf,
    FVAvg.find_zero_flow_points (Recordings.ramp 100)
      (Recordings.integrate 0%Q Recordings.chatter_flow)
      Recordings.chatter_flow
    = Py.ok (zt, zv, zf, []) /\
    Facts.finds_start zf = false /\
    Spec.signalled (FVAvg.trim_excess_data zt zv zf [])
    = Some (Spec.PythonException Py.IndexError) /\
    Spec.signalled (FVAvg.trim_excess_data zt zv zf [])
    <> Some Spec.NoFullBreath.
Proof.
  do 3 eexists.
  split; [vm_compute; reflexivity|]. split; [vm_compute; reflexivity|].
  split; [vm_compute; reflexivity|].
  vm_compute. discriminate.
Qed.

(** ** The phase-length list after trimming *)

Section PhaseFacts.
Import Py FVAvg Facts.

Lemma drop_leading_phases_length (cs : Q) (phl p : list nat) :
  drop_leading_phases cs phl = ok p ->
  leading_drops cs <= List.length phl /\
  p = skipn (leading_drops cs) phl.
Proof.
  unfold drop_leading_phases, leading_drops.
  destruct (Qeq_bool cs 1).
  - destruct phl as [|x phl]; [discriminate|]. intros [= <-].
    simpl. split; [lia | reflexivity].
  - destruct (Qeq_bool cs 2).
    + destruct phl as [|x [|y phl]]; try discriminate. intros [= <-].
      simpl. split; [lia | reflexivity].
    + intros [= <-]. simpl. split; [lia | reflexivity].
Qed.

Lemma drop_trailing_phase_length (ce : Q) (phl p : list nat) :
  drop_trailing_phase ce phl = ok p ->
  trailing_drops ce <= List.length phl /\
  p = firstn (List.length phl - trailing_drops ce) phl.
Proof.
  unfold drop_trailing_phase, trailing_drops.
  destruct (Qeq_bool ce 1).
  - destruct phl as [|x phl]; [discriminate|]. intros H.
    assert (p = removelast (x :: phl)) as ->
      by (unfold del_last, ok in H; congruence).
    split; [simpl; lia|].
    rewrite removelast_firstn_len. f_equal. simpl. lia.
  - intros [= <-]. split; [lia|].
    rewrite Nat.sub_0_r. now rewrite firstn_all.
Qed.

End PhaseFacts.

(** The phase lengths that [trim_excess_data] returns, by its two
    counters: the list has lost [leading_drops counter_start] entries at
    the front and [trailing_drops counter_end] at the back, and the number
    of breaths is half its length, rounded down. *)
Lemma trim_excess_data_phase_count
  (zt zv zf : list Q) (phl : list nat) (t : FVAvg.trimmed) :
  FVAvg.trim_excess_data zt zv zf phl = Py.ok t ->
  let n := List.length (FVAvg.trimmed_phases t) in
  let B := FVAvg.number_of_breaths t in
  n = List.length phl - Facts.leading_drops (FVAvg.counter_start t)
      - Facts.trailing_drops (FVAvg.counter_end t) /\
  B = n / 2 /\
  (n = 2 * B \/ n = 2 * B + 1) /\
  (n = 2 * B <-> Nat.even n = true).
Proof.
  unfold FVAvg.trim_excess_data.
  destruct (FVAvg.trim_start zf zv zt 1) as [e|[[[zf1 zv1] zt1] cs]];
    [discriminate|].
  cbv beta iota delta [Py.rbind].
  destruct (FVAvg.trim_end zf1 zv1 zt1 0) as [e|[[[zf2 zv2] zt2] ce]];
    [discriminate|].
  cbv beta iota.
  destruct (FVAvg.drop_leading_phases cs phl) as [e|p1] eqn:E1;
    [discriminate|].
  destruct (FVAvg.drop_trailing_phase ce p1) as [e|p2] eqn:E2;
    [discriminate|].
  intros [= <-]. cbn [FVAvg.trimmed_phases FVAvg.number_of_breaths
                      FVAvg.counter_start FVAvg.counter_end].
  apply drop_leading_phases_length in E1. destruct E1 as [L1 ->].
  apply drop_trailing_phase_length in E2. destruct E2 as [L2 ->].
  rewrite length_skipn in *.
  set (m := List.length phl - Facts.leading_drops cs) in *.
  rewrite length_firstn, length_skipn. fold m.
  replace (Nat.min (m - Facts.trailing_drops ce) m)
    with (m - Facts.trailing_drops ce) by lia.
  set (n := m - Facts.trailing_drops ce).
  pose proof (Nat.div_mod_eq n 2) as D.
  pose proof (Nat.mod_upper_bound n 2 ltac:(lia)) as U.
  split; [reflexivity|]. split; [reflexivity|].
  change (fst (Nat.divmod n 1 0 1)) with (n / 2).
  split; [lia|].
  rewrite Nat.even_spec. split.
  - intros H. exists (n / 2). lia.
  - intros [k Hk]. rewrite Hk at 2.
    rewrite (Nat.mul_comm 2 k), Nat.div_mul by lia. lia.
Qed.

(** C5, as the specification words it, fails on the dipped recording.  Two
    crossings are validated, both from positive to negative flow; the
    trimmer returns with one phase length left, an odd number, and reports
    no breath. *)
Lemma dipped_recording_leaves_an_odd_phase_count :
  exists zt zv zf p1 p2 t,
    FVAvg.find_zero_flow_points (Recordings.ramp 215)
      (Recordings.integrate 0%Q Recordings.dipped_flow)
      Recordings.dipped_flow = Py.ok (zt, zv, zf, [p1; p2]) /\
    FVAvg.trim_excess_data zt zv zf [p1; p2] = Py.ok t /\
    FVAvg.trimmed_phases t = [p2] /\
    FVAvg.number_of_breaths t = 0 /\
    List.length (FVAvg.trimmed_phases t) <> 2 * FVAvg.number_of_breaths t /\
    Nat.even (List.length (FVAvg.trimmed_phases t)) = false.
Proof.
  do 6 eexists.
  split; [vm_compute; reflexivity|].
  split; [vm_compute; reflexivity|].
  split; [reflexivity|]. split; [reflexivity|].
  split; [simpl; lia | reflexivity].
Qed.

(** C6.  In [zero_start_flow] the first raw sample is exactly zero and the
    third is positive: the leading loop raises [counter_start] to 1.5, the
    chain [if counter_start == 1 ... elif counter_start == 2] matches
    neither, and the phase-length list comes back with its first entry
    still in place. *)
Theorem zero_start_keeps_the_first_phase_length :
  exists zt zv zf t,
    FVAvg.find_zero_flow_points (Recordings.ramp 92)
      (Recordings.integrate 0%Q Recordings.zero_start_flow)
      Recordings.zero_start_flow = Py.ok (zt, zv, zf, [62]) /\
    FVAvg.trim_excess_data zt zv zf [62] = Py.ok t /\
    (FVAvg.counter_start t == 3 # 2)%Q /\
    (FVAvg.counter_end t == 0)%Q /\
    FVAvg.trimmed_phases t = [62] /\
    FVAvg.drop_leading_phases (FVAvg.counter_start t) [62] = Py.ok [62].
Proof.
  do 4 eexists.
  split; [vm_compute; reflexivity|].
  split; [vm_compute; reflexivity|].
  split; [reflexivity|]. split; [reflexivity|].
  split; reflexivity.
Qed.

(** ** The resampling grids *)

Lemma range_length (a b : nat) : List.length (Py.range a b) = b - a.
Proof. unfold Py.range. apply length_seq. Qed.

(** The time targets of a phase are [intervals + 1] in number. *)
Lemma intervals_of_length (total : Q) (intervals : nat) (l : list Q) :
  TimeBins.intervals_of total intervals = Py.ok l ->
  List.length l = intervals + 1.
Proof.
  unfold TimeBins.intervals_of, Py.rbind.
  destruct (Py.div _ _); [discriminate|]. intros [= <-].
  rewrite length_map, range_length. lia.
Qed.

(** So are the volume targets. *)
Lemma vol_intervals_length (step : Q -> Q -> Q) (Start Vt : Q)
  (intervals : nat) (l : list Q) :
  VolumeBins.vol_intervals step Start Vt intervals = Py.ok l ->
  List.length l = intervals + 1.
Proof.
  unfold VolumeBins.vol_intervals, Py.rbind.
  destruct (Py.div _ _); [discriminate|]. intros [= <-].
  rewrite length_map, range_length. lia.
Qed.

(** C2.  On the one-breath recording with the default [intervals = 100]
    the inspiration lasts 61 time units, so the target of bin 50 is 30.5,
    which is the time of the 32nd sample of the phase.  No branch of the
    time-bin interpolation takes a target equal to an interior sample time
    (both comparisons are strict), nothing is appended for that bin, and
    the four interpolated time-bin arrays have 100 entries while the two
    time grids have 101.  The normalization loop then indexes bin 100 and
    [process_time_bins] raises [IndexError]. *)
Theorem one_breath_time_bins_lose_a_bin :
  exists t r rest,
    FVAvg.detect_and_trim (Recordings.ramp 215)
      (Recordings.integrate 0%Q Recordings.one_breath_flow)
      Recordings.one_breath_flow = Py.ok t /\
    FVAvg.number_of_breaths t = 1 /\
    TimeBins.resample_breath 100
      (FVAvg.trimmed_time t, FVAvg.trimmed_vol t, FVAvg.trimmed_flow t,
       FVAvg.trimmed_phases t) = Py.ok (r, rest) /\
    (nth 50 (TimeBins.Insp_Time (TimeBins.bins r)) 0 == 61 # 2)%Q /\
    (nth 31 (TimeBins.Insp_Time (TimeBins.original r)) 0 == 61 # 2)%Q /\
    map (@List.length Q)
      [TimeBins.Insp_Time (TimeBins.bins r); TimeBins.Insp_Vol (TimeBins.bins r);
       TimeBins.Insp_Flow (TimeBins.bins r); TimeBins.Exp_Time (TimeBins.bins r);
       TimeBins.Exp_Vol (TimeBins.bins r); TimeBins.Exp_Flow (TimeBins.bins r)]
    = [101; 100; 100; 101; 100; 100] /\
    TimeBins.process_time_bins (FVAvg.trimmed_time t) (FVAvg.trimmed_vol t)
      (FVAvg.trimmed_flow t) (FVAvg.trimmed_phases t) 100
      (FVAvg.number_of_breaths t) = Py.raise Py.IndexError.
Proof.
  do 3 eexists.
  split; [vm_compute; reflexivity|]. split; [reflexivity|].
  split; [vm_compute; reflexivity|].
  split; [vm_compute; reflexivity|]. split; [vm_compute; reflexivity|].
  split; vm_compute; reflexivity.
Qed.

(** The same defect on the smallest phase that shows it: sample times
    [0, 1, 2] and two intervals. *)
Lemma three_samples_two_intervals :
  TimeBins.interpolate [0; 1; 2]%Q [3; 2; 1]%Q [0; -1; 0]%Q
    (TimeBins.is_last_insp [0; 1; 2]%Q) [0; 1; 2]%Q
  = Py.ok ([3; 1]%Q, [0; 0]%Q).
Proof. reflexivity. Qed.

(** ** The consolidator *)

Section ReaderFacts.
Import Consolidator Facts.

Lemma percent_round_trip (tlc : Q) (s : series) :
  ~ (tlc == 0)%Q ->
  series_eq
    (map (option_map (fun p => (p * tlc / 100)%Q)) (percent_of_tlc tlc s)) s.
Proof.
  intros Htlc. unfold series_eq, percent_of_tlc.
  induction s as [|[v|] s IH]; simpl; constructor; try assumption.
  - simpl. field. assumption.
  - exact I.
Qed.

End ReaderFacts.



(** ** The absolute-volume sheet *)

Section WriterFacts.
Import Consolidator Facts.

Lemma dict_set_in {A} (d : frame A) (k k' : string) (v v' : list A) :
  In (k', v') (dict_set d k v) -> (k', v') = (k, v) \/ In (k', v') d.
Proof.
  induction d as [|[k0 v0] d IH]; simpl.
  - intros [H|[]]. left. now symmetry.
  - destruct (String.eqb_spec k0 k) as [->|Hne]; simpl.
    + intros [H|H]; [left; now symmetry | right; now right].
    + intros [H|H]; [right; now left|].
      destruct (IH H) as [H'|H']; [now left | right; now right].
Qed.

Lemma max_lengths_uniform {A} (n : nat) (d : frame A) :
  uniform n d -> d <> [] ->
  fold_right Nat.max 0 (map (fun c => List.length (snd c)) d) = n.
Proof.
  induction 1 as [|c d Hc Hd IH]; [congruence|]. intros _. simpl.
  destruct d as [|c' d'].
  - simpl. lia.
  - rewrite IH by discriminate. lia.
Qed.

Lemma data_frame_uniform (d : frame cell) :
  uniform (fold_right Nat.max 0 (map (fun c => List.length (snd c)) d))
          (data_frame d).
Proof.
  unfold data_frame, uniform.
  set (n := fold_right Nat.max 0 _).
  assert (G : Forall (fun c => List.length (snd c) <= n) d).
  { subst n. induction d as [|c d IH]; constructor; simpl.
    - apply Nat.le_max_l.
    - eapply Forall_impl; [|exact IH]. simpl. intros a Ha.
      etransitivity; [exact Ha | apply Nat.le_max_r]. }
  apply Forall_map. eapply Forall_impl; [|exact G].
  intros c Hc. simpl. rewrite length_app, repeat_length.
  cbv beta in Hc. lia.
Qed.

Lemma data_frame_id (n : nat) (d : frame cell) :
  uniform n d -> data_frame d = d.
Proof.
  intros U. destruct d as [|c0 d0]; [reflexivity|].
  unfold data_frame.
  rewrite (max_lengths_uniform U) by discriminate.
  rewrite <- (map_id (c0 :: d0)) at 2.
  apply map_ext_in. intros [k v] Hin.
  unfold uniform in U. rewrite Forall_forall in U.
  specialize (U _ Hin). simpl in *. rewrite U, Nat.sub_diag. simpl.
  now rewrite app_nil_r.
Qed.

Lemma dict_set_uniform {A} (n : nat) (d : frame A) (k : string) (v : list A) :
  uniform n d -> List.length v = n -> uniform n (dict_set d k v).
Proof.
  unfold uniform. intros U Hv.
  induction U as [|[k0 v0] d H0 U IH]; simpl.
  - constructor; [assumption | constructor].
  - destruct (String.eqb k0 k); constructor; simpl; assumption.
Qed.

Variable avg : Q.
Variable combined : frame cell.

Lemma absolute_loop_from_combined (n : nat) (columns acc : frame cell) :
  incl columns combined -> uniform n combined ->
  Forall (from_combined avg combined) acc -> uniform n acc ->
  Forall (from_combined avg combined) (absolute_loop avg columns acc) /\
  uniform n (absolute_loop avg columns acc).
Proof.
  intros Hincl Hn. revert acc.
  induction columns as [|[col xs] columns IH]; intros acc Hacc Uacc; simpl.
  - now split.
  - assert (Hin : In (col, xs) combined) by (apply Hincl; now left).
    assert (Hincl' : incl columns combined)
      by (intros c Hc; apply Hincl; now right).
    assert (Hlen : List.length xs = n).
    { unfold uniform in Hn. rewrite Forall_forall in Hn.
      exact (Hn _ Hin). }
    destruct (contains "Vol % TLC" col) eqn:E1.
    + apply IH; [assumption| |].
      * apply Forall_forall. intros [k v] Hk.
        apply dict_set_in in Hk. destruct Hk as [[= -> ->]|Hk].
        -- left. exists col, xs. repeat split; assumption.
        -- rewrite Forall_forall in Hacc. now apply Hacc.
      * apply dict_set_uniform; [assumption|]. now rewrite length_map.
    + destruct (contains "Flow" col) eqn:E2.
      * apply IH; [assumption| |].
        -- apply Forall_forall. intros [k v] Hk.
           apply dict_set_in in Hk. destruct Hk as [[= -> ->]|Hk].
           ++ right. repeat split; assumption.
           ++ rewrite Forall_forall in Hacc. now apply Hacc.
        -- now apply dict_set_uniform.
      * now apply IH.
Qed.

End WriterFacts.

(** The rounding is visible: with TLC values 6, 7 and 7 the mean is 20/3,
    the value used is 6.67, and a cell at 50 percent becomes 3.335 and not
    10/3. *)
Lemma rounded_mean_differs_from_the_mean :
  Consolidator.mean_tlc [6; 7; 7]%Q = (20 # 3)%Q /\
  (Consolidator.avg_tlc [6; 7; 7]%Q == 667 # 100)%Q /\
  (exists y, Consolidator.to_absolute (Consolidator.avg_tlc [6; 7; 7]%Q)
               (Consolidator.Num 50) = Consolidator.Num y /\
             (y == 3335 # 1000)%Q /\
             ~ (y == 50 * Consolidator.mean_tlc [6; 7; 7]%Q / 100)%Q).
Proof.
  split; [reflexivity|]. split; [reflexivity|].
  eexists. split; [reflexivity|]. split; [reflexivity|].
  vm_compute. discriminate.
Qed.

(** ** The aggregation *)

Section AggregateFacts.
Import Py Numpy Aggregate Facts.
Local Open Scope py_scope.

Lemma column_values_ok (arrays : list (list Q)) (j : nat) (col : list Q) :
  column arrays j = ok col -> col = column_values arrays j.
Proof.
  revert col. induction arrays as [|a arrays IH]; intros col; simpl.
  - now intros [= <-].
  - rewrite index_nat. destruct (nth_error a j) as [x|] eqn:E; [|discriminate].
    cbv beta iota delta [rbind ok raise].
    destruct (column arrays j) as [e|r]; [discriminate|].
    intros [= <-]. rewrite (nth_error_nth _ _ _ E). f_equal. now apply IH.
Qed.

Lemma aggregate_bin_ok (shift : option Q) (B : nat) (arrays : list (list Q))
  (j : nat) (col : list Q) (r : Q * npfloat) :
  column arrays j = ok col ->
  aggregate_bin shift B col = ok r ->
  r = (bin_mean shift B arrays j, bin_std arrays j).
Proof.
  intros Hc. apply column_values_ok in Hc. subst col.
  unfold aggregate_bin, div, bin_mean, bin_std.
  destruct (Qeq_bool _ 0); [discriminate|].
  cbv beta iota delta [rbind ok]. now intros [= <-].
Qed.

Variable vol_shift : option Q.
Variable B : nat.
Variables iv ev ifl efl : list (list Q).

(** The averages a run of the loop over the bins [js] adds to [acc]. *)
Lemma aggregate_loop_ok (js : list nat) (acc a : averages) :
  aggregate_loop vol_shift B iv ev ifl efl js acc = ok a ->
  a = mkAverages
        (avg_insp_vol acc ++ map (bin_mean vol_shift B iv) js)
        (avg_exp_vol acc ++ map (bin_mean vol_shift B ev) js)
        (avg_insp_flow acc ++ map (bin_mean None B ifl) js)
        (avg_exp_flow acc ++ map (bin_mean None B efl) js)
        (avg_insp_vol_sem acc ++ map (bin_std iv) js)
        (avg_exp_vol_sem acc ++ map (bin_std ev) js)
        (avg_insp_flow_sem acc ++ map (bin_std ifl) js)
        (avg_exp_flow_sem acc ++ map (bin_std efl) js).
Proof.
  revert acc. induction js as [|j js IH]; intros acc; simpl.
  - intros [= <-]. destruct acc; simpl. now rewrite !app_nil_r.
  - unfold aggregate_row.
    destruct (column iv j) as [e|c1] eqn:C1; [discriminate|].
    cbv beta iota delta [rbind].
    destruct (aggregate_bin vol_shift B c1) as [e|r1] eqn:A1; [discriminate|].
    destruct (column ev j) as [e|c2] eqn:C2; [discriminate|].
    destruct (aggregate_bin vol_shift B c2) as [e|r2] eqn:A2; [discriminate|].
    destruct (column ifl j) as [e|c3] eqn:C3; [discriminate|].
    destruct (aggregate_bin None B c3) as [e|r3] eqn:A3; [discriminate|].
    destruct (column efl j) as [e|c4] eqn:C4; [discriminate|].
    destruct (aggregate_bin None B c4) as [e|r4] eqn:A4; [discriminate|].
    rewrite (@aggregate_bin_ok _ _ _ _ _ _ C1 A1), (@aggregate_bin_ok _ _ _ _ _ _ C2 A2),
      (@aggregate_bin_ok _ _ _ _ _ _ C3 A3), (@aggregate_bin_ok _ _ _ _ _ _ C4 A4).
    cbv beta iota delta [ok]. intros H. apply IH in H. subst a.
    cbn [avg_insp_vol avg_exp_vol avg_insp_flow avg_exp_flow
         avg_insp_vol_sem avg_exp_vol_sem avg_insp_flow_sem avg_exp_flow_sem
         fst snd].
    now rewrite <- !app_assoc.
Qed.

Lemma aggregate_ok (intervals : nat) (a : averages) :
  aggregate vol_shift B iv ev ifl efl intervals = ok a ->
  a = mkAverages
        (map (bin_mean vol_shift B iv) (range 0 (intervals + 1)))
        (map (bin_mean vol_shift B ev) (range 0 (intervals + 1)))
        (map (bin_mean None B ifl) (range 0 (intervals + 1)))
        (map (bin_mean None B efl) (range 0 (intervals + 1)))
        (map (bin_std iv) (range 0 (intervals + 1)))
        (map (bin_std ev) (range 0 (intervals + 1)))
        (map (bin_std ifl) (range 0 (intervals + 1)))
        (map (bin_std efl) (range 0 (intervals + 1))).
Proof.
  unfold aggregate. intros H. now apply aggregate_loop_ok in H.
Qed.

End AggregateFacts.

(** ** The sample standard deviation *)

Section StdFacts.
Import Numpy Facts.

Lemma std_few (xs : list Q) : List.length xs < 2 -> std 1 xs = NaN.
Proof.
  intros H. unfold std.
  destruct (Nat.leb_spec (List.length xs) 1); [reflexivity | lia].
Qed.

Lemma std_two_radicand (a b : Q) :
  exists q, std 1 [a; b] = Root q /\ (q == (a - b) * (a - b) / 2)%Q.
Proof.
  eexists. split; [reflexivity|].
  unfold Py.Qsum. simpl. field.
Qed.

Lemma std_two_value (a b : Q) :
  std_value (std 1 [a; b])
  = Some (Rabs (Q2R a - Q2R b) / sqrt 2)%R.
Proof.
  destruct (std_two_radicand a b) as (q & -> & Hq).
  unfold std_value. f_equal.
  rewrite (Qeq_eqR _ _ Hq).
  rewrite Q2R_div by discriminate.
  rewrite Q2R_mult, Q2R_minus.
  replace (Q2R 2) with 2%R by (unfold Q2R; simpl; lra).
  rewrite sqrt_div_alt by lra.
  f_equal. apply sqrt_Rsqr_abs.
Qed.

End StdFacts.

(** ** The number of breaths in the dictionaries *)

Section DictionaryFacts.
Import Py.
Local Open Scope py_scope.

Lemma resample_all_length (K B : nat) (rest : TimeBins.remaining)
  (rs : list TimeBins.resampled) :
  TimeBins.resample_all K B rest = ok rs -> List.length rs = B.
Proof.
  revert rest rs. induction B as [|B IH]; intros rest rs; simpl.
  - now intros [= <-].
  - destruct (TimeBins.resample_breath K rest) as [e|[r rest']];
      [discriminate|].
    cbv beta iota delta [rbind]. simpl snd.
    destruct (TimeBins.resample_all K B rest') as [e|rs'] eqn:E;
      [discriminate|].
    intros [= <-]. simpl. f_equal. now apply (IH rest').
Qed.

Lemma shift_all_length (K : nat) (d d' : list TimeBins.breath) (ms t : Q) :
  TimeBins.shift_all K d ms = ok (d', t) -> List.length d' = List.length d.
Proof.
  revert d' ms t. induction d as [|b d IH]; intros d' ms t; simpl.
  - now intros [= <- _].
  - destruct (TimeBins.shift_breath K b ms) as [e|[b' ms']]; [discriminate|].
    cbv beta iota delta [rbind]. simpl snd.
    destruct (TimeBins.shift_all K d ms') as [e|[d1 t1]] eqn:E;
      [discriminate|].
    intros [= <- _]. simpl. f_equal. now apply (IH d1 ms' t1).
Qed.

Lemma rescale_all_length (K : nat) (vi ve : list Q) (ai ae : Q) (i : nat)
  (d d' : list TimeBins.breath) :
  TimeBins.rescale_all K vi ve ai ae i d = ok d' ->
  List.length d' = List.length d.
Proof.
  revert i d'. induction d as [|b d IH]; intros i d'; simpl.
  - now intros [= <-].
  - destruct (TimeBins.update_range _ _ (TimeBins.Insp_Vol b)) as [e|x];
      [discriminate|].
    cbv beta iota delta [rbind].
    destruct (TimeBins.update_range _ _ (TimeBins.Exp_Vol b)) as [e|y];
      [discriminate|].
    destruct (TimeBins.rescale_all K vi ve ai ae (S i) d) as [e|d1] eqn:E;
      [discriminate|].
    intros [= <-]. simpl. f_equal. now apply (IH (S i)).
Qed.

Lemma normalize_length (K B : nat) (d : list TimeBins.breath) (vi ve : list Q)
  (n : TimeBins.normalized) :
  TimeBins.normalize K B d vi ve = ok n ->
  List.length (TimeBins.rescaled n) = List.length d.
Proof.
  unfold TimeBins.normalize.
  destruct (TimeBins.shift_all K d 0) as [e|[d1 t]] eqn:E1; [discriminate|].
  cbv beta iota delta [rbind].
  destruct (div t _) as [e|ms]; [discriminate|].
  destruct (mean vi) as [e|ai]; [discriminate|].
  destruct (mean ve) as [e|ae]; [discriminate|].
  destruct (TimeBins.rescale_all K vi ve ai ae 0 d1) as [e|d2] eqn:E2;
    [discriminate|].
  intros [= <-]. simpl.
  rewrite (rescale_all_length _ _ _ _ _ _ _ E2).
  now rewrite (shift_all_length _ _ _ E1).
Qed.

Lemma volume_bins_all_length (K : nat) (os : list TimeBins.breath)
  (vi ve : list Q) (i : nat) (d : list VolumeBins.vbreath) :
  VolumeBins.volume_bins_all K os vi ve i = ok d ->
  List.length d = List.length os.
Proof.
  revert i d. induction os as [|o os IH]; intros i d; simpl.
  - now intros [= <-].
  - destruct (index vi _) as [e|x]; [discriminate|].
    cbv beta iota delta [rbind].
    destruct (index ve _) as [e|y]; [discriminate|].
    destruct (VolumeBins.volume_bins_breath K o x y) as [e|b]; [discriminate|].
    destruct (VolumeBins.volume_bins_all K os vi ve (S i)) as [e|bs] eqn:E;
      [discriminate|].
    intros [= <-]. simpl. f_equal. now apply (IH (S i)).
Qed.

End DictionaryFacts.

(** C7.  After [process_time_bins] and [process_volume_bins] return, every
    entry of the eight lists of averages is the sum of the bin over the
    [B] breaths divided by [B]; [Mean_shift] is added to the two time-bin
    volume averages and to nothing else; every deviation is
    [np.std(..., ddof=1)] of the bin, which is NaN for fewer than two
    values and [|a - b| / sqrt 2] for the two values [a] and [b]. *)
Theorem aggregated_means_and_deviations
  (zt zv zf : list Q) (phl : list nat) (K B : nat)
  (r : TimeBins.time_bins_result) (vr : VolumeBins.volume_bins_result) :
  TimeBins.process_time_bins zt zv zf phl K B = Py.ok r ->
  VolumeBins.process_volume_bins r K B = Py.ok vr ->
  let d := TimeBins.time_bins_breath_dictionary r in
  let v := VolumeBins.volume_bins_breath_dictionary vr in
  let js := Py.range 0 (K + 1) in
  let shift := Some (TimeBins.tbin_Mean_shift r) in
  List.length d = B /\ List.length v = B /\
  TimeBins.tbin_averages r
  = Aggregate.mkAverages
      (map (Facts.bin_mean shift B (map TimeBins.Insp_Vol d)) js)
      (map (Facts.bin_mean shift B (map TimeBins.Exp_Vol d)) js)
      (map (Facts.bin_mean None B (map TimeBins.Insp_Flow d)) js)
      (map (Facts.bin_mean None B (map TimeBins.Exp_Flow d)) js)
      (map (Facts.bin_std (map TimeBins.Insp_Vol d)) js)
      (map (Facts.bin_std (map TimeBins.Exp_Vol d)) js)
      (map (Facts.bin_std (map TimeBins.Insp_Flow d)) js)
      (map (Facts.bin_std (map TimeBins.Exp_Flow d)) js) /\
  VolumeBins.vbin_averages vr
  = Aggregate.mkAverages
      (map (Facts.bin_mean None B (map VolumeBins.Insp_Vol v)) js)
      (map (Facts.bin_mean None B (map VolumeBins.Exp_Vol v)) js)
      (map (Facts.bin_mean None B (map VolumeBins.Insp_Flow v)) js)
      (map (Facts.bin_mean None B (map VolumeBins.Exp_Flow v)) js)
      (map (Facts.bin_std (map VolumeBins.Insp_Vol v)) js)
      (map (Facts.bin_std (map VolumeBins.Exp_Vol v)) js)
      (map (Facts.bin_std (map VolumeBins.Insp_Flow v)) js)
      (map (Facts.bin_std (map VolumeBins.Exp_Flow v)) js) /\
  (forall arrays j m,
     Facts.bin_mean None B arrays j
     = (Py.Qsum (Facts.column_values arrays j) / inject_Z (Z.of_nat B))%Q /\
     Facts.bin_mean (Some m) B arrays j
     = (Py.Qsum (Facts.column_values arrays j) / inject_Z (Z.of_nat B) + m)%Q /\
     List.length (Facts.column_values arrays j) = List.length arrays) /\
  (forall xs, List.length xs < 2 ->
     Numpy.std 1 xs = Numpy.NaN /\ Facts.std_value (Numpy.std 1 xs) = None) /\
  (forall a b,
     Facts.std_value (Numpy.std 1 [a; b])
     = Some (Rabs (Q2R a - Q2R b) / sqrt 2)%R).
Proof.
  intros Ht Hv.
  unfold TimeBins.process_time_bins in Ht.
  destruct (TimeBins.resample_all K B (zt, zv, zf, phl)) as [e|rs] eqn:E1;
    [discriminate|].
  cbv beta iota delta [Py.rbind] in Ht.
  destruct (TimeBins.normalize K B _ _ _) as [e|n] eqn:E2; [discriminate|].
  destruct (Aggregate.aggregate _ _ _ _ _ _ _) as [e|a] eqn:E3;
    [discriminate|].
  injection Ht as <-.
  unfold VolumeBins.process_volume_bins in Hv.
  cbn [TimeBins.original_data_breath_dictionary TimeBins.Vt_Insp_list
       TimeBins.Vt_Exp_list] in Hv.
  destruct (VolumeBins.volume_bins_all K _ _ _ 0) as [e|vd] eqn:E4;
    [discriminate|].
  cbv beta iota delta [Py.rbind] in Hv.
  destruct (Aggregate.aggregate None _ _ _ _ _ _) as [e|va] eqn:E5;
    [discriminate|].
  injection Hv as <-.
  cbn [TimeBins.time_bins_breath_dictionary TimeBins.tbin_averages
       TimeBins.tbin_Mean_shift VolumeBins.volume_bins_breath_dictionary
       VolumeBins.vbin_averages].
  split.
  { rewrite (normalize_length _ _ _ _ _ E2), length_map.
    exact (resample_all_length _ _ _ E1). }
  split.
  { rewrite (volume_bins_all_length _ _ _ _ _ E4), length_map.
    exact (resample_all_length _ _ _ E1). }
  split; [exact (aggregate_ok _ _ _ _ _ _ _ E3)|].
  split; [exact (aggregate_ok _ _ _ _ _ _ _ E5)|].
  split.
  { intros arrays j m. repeat split.
    unfold Facts.column_values. apply length_map. }
  split.
  { intros xs Hxs. rewrite (std_few _ Hxs). split; reflexivity. }
  exact std_two_value.
Qed.

Lemma aggregated_means_and_deviations_witness :
  match TimeBins.process_time_bins
          [0; 1; 2; 2; 3; 4; 4; 5; 6; 6; 7; 8]%Q
          [3; 2; 1; 1; 2; 3; 3; 1; -1; -1; 1; 3]%Q
          [0; -1; 0; 0; 1; 0; 0; -2; 0; 0; 2; 0]%Q
          [3; 3; 3; 3] 3 2 with
  | inr r =>
      match VolumeBins.process_volume_bins r 3 2 with
      | inr vr =>
          List.length (TimeBins.time_bins_breath_dictionary r) = 2 /\
          TimeBins.tbin_averages r
          = Aggregate.mkAverages
              (map (Facts.bin_mean (Some (TimeBins.tbin_Mean_shift r)) 2
                      (map TimeBins.Insp_Vol
                         (TimeBins.time_bins_breath_dictionary r)))
                   (Py.range 0 4))
              (map (Facts.bin_mean (Some (TimeBins.tbin_Mean_shift r)) 2
                      (map TimeBins.Exp_Vol
                         (TimeBins.time_bins_breath_dictionary r)))
                   (Py.range 0 4))
              (map (Facts.bin_mean None 2
                      (map TimeBins.Insp_Flow
                         (TimeBins.time_bins_breath_dictionary r)))
                   (Py.range 0 4))
              (map (Facts.bin_mean None 2
                      (map TimeBins.Exp_Flow
                         (TimeBins.time_bins_breath_dictionary r)))
                   (Py.range 0 4))
              (map (Facts.bin_std
                      (map TimeBins.Insp_Vol
                         (TimeBins.time_bins_breath_dictionary r)))
                   (Py.range 0 4))
              (map (Facts.bin_std
                      (map TimeBins.Exp_Vol
                         (TimeBins.time_bins_breath_dictionary r)))
                   (Py.range 0 4))
              (map (Facts.bin_std
                      (map TimeBins.Insp_Flow
                         (TimeBins.time_bins_breath_dictionary r)))
                   (Py.range 0 4))
              (map (Facts.bin_std
                      (map TimeBins.Exp_Flow
                         (TimeBins.time_bins_breath_dictionary r)))
                   (Py.range 0 4)) /\
          Aggregate.avg_insp_flow (VolumeBins.vbin_averages vr)
          = map (Facts.bin_mean None 2
                   (map VolumeBins.Insp_Flow
                      (VolumeBins.volume_bins_breath_dictionary vr)))
                (Py.range 0 4)
      | inl _ => False
      end
  | inl _ => False
  end.
Proof.
  destruct (TimeBins.process_time_bins _ _ _ _ 3 2) as [e|r] eqn:Et.
  - vm_compute in Et. discriminate.
  - destruct (VolumeBins.process_volume_bins r 3 2) as [e|vr] eqn:Ev.
    + revert Ev. vm_compute in Et. injection Et as <-.
      vm_compute. discriminate.
    + destruct (@aggregated_means_and_deviations _ _ _ _ _ _ _ _ Et Ev)
        as (Hd & _ & Ha & Hva & _).
      split; [exact Hd|]. split; [exact Ha|].
      now rewrite Hva.
Defined.

(** ** The normalizer *)

Section NormalizeFacts.
Import Py TimeBins Facts.
Local Open Scope py_scope.

Lemma index_last_nth (K : nat) (l : list Q) :
  List.length l = K + 1 -> index l (-1) = ok (nth K l 0%Q).
Proof.
  intros H. unfold index. cbv zeta. change (-1 <? 0)%Z with true. cbv iota.
  destruct (Z.ltb_spec (Z.of_nat (List.length l) + -1) 0); [lia|].
  replace (Z.to_nat _) with K by lia.
  destruct (nth_error l K) eqn:E.
  - now rewrite (nth_error_nth _ _ _ E).
  - apply nth_error_None in E. lia.
Qed.

Lemma index_first_nth (K : nat) (l : list Q) :
  List.length l = K + 1 -> index l 0 = ok (nth 0 l 0%Q).
Proof.
  intros H. change 0%Z with (Z.of_nat 0). rewrite index_nat.
  destruct l; [simpl in H; lia | reflexivity].
Qed.

Lemma update_range_map (f : Q -> result Q) (g : Q -> Q) (n : nat) (l : list Q) :
  (forall x, f x = ok (g x)) -> List.length l = n ->
  update_range f n l = ok (map g l).
Proof.
  intros Hf. revert l. induction n as [|n IH]; intros [|x l] H; simpl in *;
    try lia; [reflexivity|].
  rewrite Hf. cbv beta iota delta [rbind ok].
  rewrite IH by lia. reflexivity.
Qed.

Lemma shift_breath_ok (K : nat) (b : breath) (ms : Q) :
  List.length (Insp_Vol b) = K + 1 -> List.length (Exp_Vol b) = K + 1 ->
  shift_breath K b ms
  = ok (shift_vols K b,
        (ms + nth K (Insp_Vol b) 0 + nth 0 (Exp_Vol b) 0)%Q).
Proof.
  intros Hi He. unfold shift_breath.
  rewrite (@index_last_nth K _ Hi). cbv beta iota delta [rbind ok].
  rewrite (@update_range_map _ (fun x => (x - nth K (Insp_Vol b) 0)%Q))
    by (auto; reflexivity).
  cbv beta iota delta [rbind ok].
  rewrite (@index_first_nth K _ He). cbv beta iota delta [rbind ok].
  rewrite (@update_range_map _ (fun x => (x - nth 0 (Exp_Vol b) 0)%Q))
    by (auto; reflexivity).
  reflexivity.
Qed.

(** The total the shift loop accumulates. *)
Lemma shift_all_ok (K : nat) (d : list breath) (ms : Q) :
  Forall (fun b => List.length (Insp_Vol b) = K + 1 /\
                   List.length (Exp_Vol b) = K + 1) d ->
  exists total,
    shift_all K d ms = ok (map (shift_vols K) d, total) /\
    (total == ms + Qsum (map (fun b => nth K (Insp_Vol b) 0%Q) d)
              + Qsum (map (fun b => nth 0 (Exp_Vol b) 0%Q) d))%Q.
Proof.
  intros H. revert ms. induction H as [|b d [Hi He] _ IH]; intros ms; simpl.
  - exists ms. split; [reflexivity|]. rewrite !Qsum_nil. ring.
  - rewrite (@shift_breath_ok K b ms Hi He). cbv beta iota delta [rbind ok].
    cbn [fst snd].
    destruct (IH (ms + nth K (Insp_Vol b) 0 + nth 0 (Exp_Vol b) 0)%Q)
      as (total & -> & Ht).
    exists total. split; [reflexivity|].
    rewrite Ht, !Qsum_cons. ring.
Qed.

Lemma div_ok (a b : Q) : ~ (b == 0)%Q -> div a b = ok (a / b)%Q.
Proof.
  intros H. unfold div. destruct (Qeq_bool b 0) eqn:E; [|reflexivity].
  apply Qeq_bool_eq in E. contradiction.
Qed.

Lemma shift_vols_lengths (K : nat) (b : breath) :
  List.length (Insp_Vol (shift_vols K b)) = List.length (Insp_Vol b) /\
  List.length (Exp_Vol (shift_vols K b)) = List.length (Exp_Vol b).
Proof. unfold shift_vols. simpl. now rewrite !length_map. Qed.

Lemma rescale_all_ok (K : nat) (ai ae : Q)
  (pre suf : list resampled) :
  Forall (aligned K) suf ->
  rescale_all K (map Vt_Insp (pre ++ suf)) (map Vt_Exp (pre ++ suf)) ai ae
    (List.length pre) (map (shift_vols K) (map bins suf))
  = ok (map (fun r => scale_vols ai ae r (shift_vols K (bins r))) suf).
Proof.
  intros H. revert pre.
  induction H as [|r suf (Hi & He & _ & _ & Hvi & Hve) _ IH]; intros pre;
    [reflexivity|].
  assert (Ii : index (map Vt_Insp (pre ++ r :: suf)) (Z.of_nat (List.length pre))
               = ok (Vt_Insp r)).
  { rewrite index_nat, nth_error_map, nth_error_app2, Nat.sub_diag by lia.
    reflexivity. }
  assert (Ie : index (map Vt_Exp (pre ++ r :: suf)) (Z.of_nat (List.length pre))
               = ok (Vt_Exp r)).
  { rewrite index_nat, nth_error_map, nth_error_app2, Nat.sub_diag by lia.
    reflexivity. }
  cbn [map rescale_all].
  destruct (shift_vols_lengths K (bins r)) as [Li Le].
  rewrite (@update_range_map _ (fun x => (x / Vt_Insp r * ai)%Q)).
  2:{ intros x. rewrite Ii. cbv beta iota delta [rbind ok]. unfold rescale.
      now rewrite (@div_ok x _ Hvi). }
  2:{ lia. }
  cbv beta iota delta [rbind ok].
  rewrite (@update_range_map _ (fun x => (x / Vt_Exp r * ae)%Q)).
  2:{ intros x. rewrite Ie. cbv beta iota delta [rbind ok]. unfold rescale.
      now rewrite (@div_ok x _ Hve). }
  2:{ lia. }
  specialize (IH (pre ++ [r])).
  rewrite <- app_assoc, length_app in IH. simpl in IH.
  replace (List.length pre + 1) with (S (List.length pre)) in IH by lia.
  rewrite IH. reflexivity.
Qed.

Lemma nth_map_in (g : Q -> Q) (l : list Q) (k : nat) :
  k < List.length l -> nth k (map g l) 0%Q = g (nth k l 0%Q).
Proof.
  intros H. rewrite (nth_indep _ 0%Q (g 0%Q)) by now rewrite length_map.
  apply map_nth.
Qed.

Lemma shift_vols_zero (K : nat) (b : breath) :
  List.length (Insp_Vol b) = K + 1 -> List.length (Exp_Vol b) = K + 1 ->
  (nth K (Insp_Vol (shift_vols K b)) 0 == 0)%Q /\
  (nth 0 (Exp_Vol (shift_vols K b)) 0 == 0)%Q.
Proof.
  intros Hi He. unfold shift_vols. cbn [set_vols Insp_Vol Exp_Vol].
  rewrite !nth_map_in by lia. split; ring.
Qed.

Lemma Qabs_scaled (a vt avg : Q) :
  (vt == Qabs a)%Q -> ~ (vt == 0)%Q -> (0 <= avg)%Q ->
  (Qabs (a * (/ vt * avg)) == avg)%Q.
Proof.
  intros Hvt Hne Havg.
  assert (Hpos : (0 <= vt)%Q) by (rewrite Hvt; apply Qabs_nonneg).
  rewrite !Qabs_Qmult, Qabs_Qinv, <- Hvt.
  rewrite (Qabs_pos vt Hpos), (Qabs_pos avg Havg).
  field. assumption.
Qed.

Lemma scaled_excursion (K : nat) (ai ae : Q) (r : resampled) :
  aligned K r -> (0 <= ai)%Q -> (0 <= ae)%Q ->
  (excursion K (Insp_Vol (scale_vols ai ae r (shift_vols K (bins r)))) == ai)%Q /\
  (excursion K (Exp_Vol (scale_vols ai ae r (shift_vols K (bins r)))) == ae)%Q.
Proof.
  intros (Hi & He & Hvi & Hve & Hni & Hne) Hai Hae.
  unfold excursion in *. unfold scale_vols, shift_vols.
  cbn [set_vols Insp_Vol Exp_Vol].
  rewrite !nth_map_in by (rewrite ?length_map; lia).
  split.
  - etransitivity; [|exact (@Qabs_scaled _ _ _ Hvi Hni Hai)].
    apply Qabs_wd. field. assumption.
  - etransitivity; [|exact (@Qabs_scaled _ _ _ Hve Hne Hae)].
    apply Qabs_wd. field. assumption.
Qed.

Lemma Qsum_nonneg (l : list Q) :
  Forall (fun x => (0 <= x)%Q) l -> (0 <= Qsum l)%Q.
Proof.
  induction 1 as [|x l Hx _ IH].
  - rewrite Qsum_nil. apply Qle_refl.
  - rewrite Qsum_cons.
    setoid_replace 0%Q with (0 + 0)%Q by ring.
    now apply Qplus_le_compat.
Qed.

Lemma inject_nat_pos (n : nat) : 0 < n -> (0 < inject_Z (Z.of_nat n))%Q.
Proof.
  intros H. change 0%Q with (inject_Z 0). rewrite <- Zlt_Qlt. lia.
Qed.

Lemma mean_nonneg (l : list Q) (m : Q) :
  Forall (fun x => (0 <= x)%Q) l -> mean l = ok m -> (0 <= m)%Q.
Proof.
  intros H. unfold mean. destruct l as [|x l]; [discriminate|].
  intros [= <-].
  apply Qle_shift_div_l.
  - reflexivity.
  - rewrite Qmult_0_l. now apply Qsum_nonneg.
Qed.

End NormalizeFacts.

(** C3, as the code has it.  For at least one breath whose time-bin volume
    arrays have [K + 1] bins and whose tidal volumes are the (non-zero)
    excursions of these arrays, the normalizer returns; it subtracts bin
    [K] from every inspiration array and bin 0 from every expiration array,
    which brings these bins to zero; it rescales so that every inspiration
    excursion is [Avg_Insp_Vt] and every expiration excursion is
    [Avg_Exp_Vt]; [Mean_shift] is the sum of all subtracted volumes
    divided by [2B]; and the mean over the breaths of the bin [K] of the
    inspiration, before normalization, is [Mean_shift] when the expiration
    starts sum up to the inspiration ends (so when every expiration starts
    at the volume at which its inspiration ended). *)
Theorem normalize_aligned_breaths (K : nat) (rs : list TimeBins.resampled) :
  rs <> [] -> Forall (Facts.aligned K) rs ->
  let B := List.length rs in
  exists n,
    TimeBins.normalize K B (map TimeBins.bins rs)
      (map TimeBins.Vt_Insp rs) (map TimeBins.Vt_Exp rs) = Py.ok n /\
    TimeBins.shifted n = map (Facts.shift_vols K) (map TimeBins.bins rs) /\
    Forall (fun b => (nth K (TimeBins.Insp_Vol b) 0 == 0)%Q /\
                     (nth 0 (TimeBins.Exp_Vol b) 0 == 0)%Q)
           (TimeBins.shifted n) /\
    TimeBins.rescaled n
    = map (fun r => Facts.scale_vols (TimeBins.Avg_Insp_Vt n)
                      (TimeBins.Avg_Exp_Vt n) r
                      (Facts.shift_vols K (TimeBins.bins r))) rs /\
    Forall (fun b =>
              (Facts.excursion K (TimeBins.Insp_Vol b)
               == TimeBins.Avg_Insp_Vt n)%Q /\
              (Facts.excursion K (TimeBins.Exp_Vol b)
               == TimeBins.Avg_Exp_Vt n)%Q)
           (TimeBins.rescaled n) /\
    (TimeBins.Avg_Insp_Vt n
     == Py.Qsum (map TimeBins.Vt_Insp rs) / inject_Z (Z.of_nat B))%Q /\
    (TimeBins.Avg_Exp_Vt n
     == Py.Qsum (map TimeBins.Vt_Exp rs) / inject_Z (Z.of_nat B))%Q /\
    (TimeBins.Mean_shift n
     == (Py.Qsum (Facts.insp_ends K rs) + Py.Qsum (Facts.exp_starts rs))
        / inject_Z (Z.of_nat (B * 2)))%Q /\
    ((Py.Qsum (Facts.insp_ends K rs) == Py.Qsum (Facts.exp_starts rs))%Q ->
     (Py.Qsum (Facts.insp_ends K rs) / inject_Z (Z.of_nat B)
      == TimeBins.Mean_shift n)%Q).
Proof.
  intros Hne Hal B.
  assert (HB : 0 < B) by (subst B; destruct rs; [congruence | simpl; lia]).
  assert (Hlen : Forall (fun b => List.length (TimeBins.Insp_Vol b) = K + 1 /\
                                  List.length (TimeBins.Exp_Vol b) = K + 1)
                        (map TimeBins.bins rs)).
  { apply Forall_map. eapply Forall_impl; [|exact Hal].
    intros r (Hi & He & _). now split. }
  destruct (@shift_all_ok K _ 0%Q Hlen) as (total & Es & Ht).
  rewrite !map_map in Ht.
  fold (Facts.insp_ends K rs) in Ht. fold (Facts.exp_starts rs) in Ht.
  assert (H2B : ~ (inject_Z (Z.of_nat (B * 2)) == 0)%Q).
  { intros H. unfold Qeq in H. simpl in H. lia. }
  assert (HBq : ~ (inject_Z (Z.of_nat B) == 0)%Q).
  { intros H. unfold Qeq in H. simpl in H. lia. }
  destruct (Py.mean (map TimeBins.Vt_Insp rs)) as [e|ai] eqn:Ei.
  { destruct rs; [congruence | discriminate]. }
  destruct (Py.mean (map TimeBins.Vt_Exp rs)) as [e|ae] eqn:Ee.
  { destruct rs; [congruence | discriminate]. }
  assert (Hai : (0 <= ai)%Q).
  { apply (@mean_nonneg (map TimeBins.Vt_Insp rs)); [|assumption].
    apply Forall_map. eapply Forall_impl; [|exact Hal].
    intros r (_ & _ & Hv & _). rewrite Hv. apply Qabs_nonneg. }
  assert (Hae : (0 <= ae)%Q).
  { apply (@mean_nonneg (map TimeBins.Vt_Exp rs)); [|assumption].
    apply Forall_map. eapply Forall_impl; [|exact Hal].
    intros r (_ & _ & _ & Hv & _). rewrite Hv. apply Qabs_nonneg. }
  pose proof (@rescale_all_ok K ai ae [] rs Hal) as Er. simpl in Er.
  eexists. split.
  { unfold TimeBins.normalize. rewrite Es.
    cbv beta iota delta [Py.rbind Py.ok].
    rewrite (@div_ok total _ H2B), Ei, Ee.
    cbv beta iota delta [Py.rbind Py.ok].
    rewrite Er. reflexivity. }
  cbn [TimeBins.shifted TimeBins.rescaled TimeBins.Mean_shift
       TimeBins.Avg_Insp_Vt TimeBins.Avg_Exp_Vt].
  split; [reflexivity|]. split.
  { apply Forall_map. eapply Forall_impl; [|exact Hlen].
    intros b [Hi He]. now apply shift_vols_zero. }
  split; [reflexivity|]. split.
  { apply Forall_map. eapply Forall_impl; [|exact Hal].
    intros r Hr. now apply scaled_excursion. }
  split.
  { unfold Py.mean in Ei. destruct rs as [|r0 rs']; [congruence|].
    injection Ei as <-. subst B. now rewrite length_map. }
  split.
  { unfold Py.mean in Ee. destruct rs as [|r0 rs']; [congruence|].
    injection Ee as <-. subst B. now rewrite length_map. }
  split.
  { rewrite Ht. apply Qdiv_comp; [ring | reflexivity]. }
  intros Heq. rewrite Ht, <- Heq.
  rewrite Nat2Z.inj_mul, inject_Z_mult.
  change (inject_Z (Z.of_nat 2)) with 2%Q.
  field. assumption.
Qed.

Lemma normalize_aligned_breaths_witness :
  Recordings.two_breaths <> [] /\
  Forall (Facts.aligned 1) Recordings.two_breaths /\
  exists n,
    TimeBins.normalize 1 2 (map TimeBins.bins Recordings.two_breaths)
      (map TimeBins.Vt_Insp Recordings.two_breaths)
      (map TimeBins.Vt_Exp Recordings.two_breaths) = Py.ok n /\
    Forall (fun b =>
              (Facts.excursion 1 (TimeBins.Insp_Vol b)
               == TimeBins.Avg_Insp_Vt n)%Q /\
              (Facts.excursion 1 (TimeBins.Exp_Vol b)
               == TimeBins.Avg_Exp_Vt n)%Q)
           (TimeBins.rescaled n) /\
    (TimeBins.Avg_Insp_Vt n == 3 # 2)%Q /\
    (Py.Qsum (Facts.insp_ends 1 Recordings.two_breaths)
       / inject_Z (Z.of_nat 2)
     == TimeBins.Mean_shift n)%Q.
Proof.
  assert (Hne : Recordings.two_breaths <> []) by discriminate.
  assert (Hal : Forall (Facts.aligned 1) Recordings.two_breaths).
  { repeat constructor; try reflexivity; discriminate. }
  split; [exact Hne|]. split; [exact Hal|].
  destruct (normalize_aligned_breaths Hne Hal)
    as (n & En & _ & _ & _ & Hex & Hai & _ & _ & Hmean).
  exists n. split; [exact En|]. split; [exact Hex|].
  split; [rewrite Hai; reflexivity|].
  apply Hmean. reflexivity.
Defined.

(** C3, as the specification words it, fails on [gapped_breath]: the
    breath satisfies every premise on the arrays, the inspiration ends at
    volume 1, [Mean_shift] is (1 + 3) / 2 = 2, and the mean of the bins [K]
    of the inspirations is 1. *)
Lemma mean_shift_is_not_the_mean_of_the_inspiration_ends :
  Forall (Facts.aligned 1) Recordings.gapped_breath /\
  exists n,
    TimeBins.normalize 1 1 (map TimeBins.bins Recordings.gapped_breath)
      (map TimeBins.Vt_Insp Recordings.gapped_breath)
      (map TimeBins.Vt_Exp Recordings.gapped_breath) = Py.ok n /\
    (TimeBins.Mean_shift n == 2)%Q /\
    (Py.Qsum (Facts.insp_ends 1 Recordings.gapped_breath)
       / inject_Z (Z.of_nat 1) == 1)%Q /\
    ~ (Py.Qsum (Facts.insp_ends 1 Recordings.gapped_breath)
         / inject_Z (Z.of_nat 1)
       == TimeBins.Mean_shift n)%Q.
Proof.
  split.
  { repeat constructor; try reflexivity; discriminate. }
  eexists. split; [vm_compute; reflexivity|].
  split; [reflexivity|]. split; [reflexivity|].
  vm_compute. discriminate.
Qed.

(* ------------------------------------------------------------------ *)
(** * Further properties of the detector *)
(* ------------------------------------------------------------------ *)

Lemma index_minus1 (l : list Q) :
  l <> [] -> Py.index l (-1) = Py.ok (nth (List.length l - 1) l 0%Q).
Proof.
  intros Hne. unfold Py.index. cbv zeta.
  assert (0 < List.length l) by (destruct l; simpl; [congruence | lia]).
  change (-1 <? 0)%Z with true. cbv iota.
  destruct (Z.ltb_spec (Z.of_nat (List.length l) + -1) 0); [lia|].
  replace (Z.to_nat (Z.of_nat (List.length l) + -1)) with (List.length l - 1) by lia.
  destruct (nth_error l (List.length l - 1)) eqn:E.
  - now rewrite (nth_error_nth _ _ _ E).
  - apply nth_error_None in E. lia.
Qed.

Section ScanShape.
Import Py FVAvg Facts Shape.
Local Open Scope py_scope.
Variables T V F : list Q.
Hypothesis HT : List.length T = List.length F.
Hypothesis HV : List.length V = List.length F.

Lemma index_nth_ok (l : list Q) (k : nat) :
  k < List.length l -> index l (Z.of_nat k) = ok (nth k l 0%Q).
Proof.
  intros Hk. destruct (@index_nat_ok _ l k Hk) as [x Hx].
  now rewrite Hx, (index_nat_nth _ _ Hx).
Qed.

Lemma standard_shape (i : nat) (s : zeroed) :
  i < List.length F ->
  standard T V F i s
  = (push1 (nth i T 0%Q) (nth i V 0%Q) (nth i F 0%Q) s, ok tt).
Proof.
  intros Hi. unfold standard, bind.
  rewrite (@append_sample_reads T V F (Z.of_nat i) s
             (nth i T 0%Q) (nth i F 0%Q) (nth i V 0%Q))
    by (apply index_nth_ok; lia).
  reflexivity.
Qed.

Lemma scan_except_shape (s : zeroed) :
  F <> [] ->
  scan_except T V F s
  = (push1 (nth (List.length F - 1) T 0%Q) (nth (List.length F - 1) V 0%Q)
       (nth (List.length F - 1) F 0%Q) s, ok tt).
Proof.
  intros Hne.
  assert (T <> []) by (destruct T, F; simpl in *; congruence).
  assert (V <> []) by (destruct V, F; simpl in *; congruence).
  unfold scan_except, bind.
  rewrite (@append_sample_reads T V F (-1) s
             (nth (List.length F - 1) T 0%Q) (nth (List.length F - 1) F 0%Q)
             (nth (List.length F - 1) V 0%Q)).
  - reflexivity.
  - rewrite <- HT. now apply index_minus1.
  - now apply index_minus1.
  - rewrite <- HV. now apply index_minus1.
Qed.

Lemma interpolate_shape (nudge : Q -> Q -> Q) (i : nat) (s s' : zeroed) :
  S i < List.length F ->
  interpolate T V F nudge i s = (s', ok tt) ->
  exists ti vi,
    s' = push3 (nth i T 0%Q) (nth i V 0%Q) (nth i F 0%Q) ti vi s.
Proof.
  intros Hi.
  unfold interpolate, bind.
  rewrite (@append_sample_reads T V F (Z.of_nat i) s
             (nth i T 0%Q) (nth i F 0%Q) (nth i V 0%Q))
    by (apply index_nth_ok; lia).
  unfold lift.
  replace (Z.of_nat i + 1)%Z with (Z.of_nat (S i)) by lia.
  rewrite !index_nth_ok by lia.
  unfold div. cbv beta iota delta [ok raise].
  destruct (Qeq_bool _ 0); [discriminate|].
  cbv beta iota delta [ok raise].
  destruct (Qeq_bool _ 0); [discriminate|].
  intros [= <-]. do 2 eexists.
  unfold push3. destruct s; simpl. rewrite <- !app_assoc. reflexivity.
Qed.

Lemma scan_try_shape (i : nat) (s s' : zeroed) :
  i < List.length F ->
  scan_try T V F i s = (s', ok tt) ->
  s' = push1 (nth i T 0%Q) (nth i V 0%Q) (nth i F 0%Q) s \/
  exists ti vi, s' = push3 (nth i T 0%Q) (nth i V 0%Q) (nth i F 0%Q) ti vi s.
Proof.
  intros Hi. unfold scan_try, bind, lift.
  destruct (neg_to_pos F i) as [e|[|]] eqn:Eup; cbv beta iota; [discriminate| |].
  - destruct (validated_up F i) as [e|[|]] eqn:Ev; cbv beta iota; [discriminate| |].
    + intros E. right. eapply interpolate_shape; [|eassumption].
      now apply neg_to_pos_true.
    + rewrite standard_shape by assumption. intros [= <-]. now left.
  - destruct (pos_to_neg F i) as [e|[|]] eqn:Edown; cbv beta iota; [discriminate| |].
    + destruct (validated_down F i) as [e|[|]] eqn:Ev; cbv beta iota; [discriminate| |].
      * intros E. right. eapply interpolate_shape; [|eassumption].
        now apply pos_to_neg_true.
      * rewrite standard_shape by assumption. intros [= <-]. now left.
    + rewrite standard_shape by assumption. intros [= <-]. now left.
Qed.

(** One iteration that completes has appended sample [i], or the last
    sample, or sample [i] with two interpolated points. *)
Lemma scan_step_shape (i : nat) (s s' : zeroed) :
  i < List.length F ->
  scan_step T V F i s = (s', ok tt) ->
  s' = push1 (nth i T 0%Q) (nth i V 0%Q) (nth i F 0%Q) s \/
  s' = push1 (nth (List.length F - 1) T 0%Q) (nth (List.length F - 1) V 0%Q)
         (nth (List.length F - 1) F 0%Q) s \/
  exists ti vi, s' = push3 (nth i T 0%Q) (nth i V 0%Q) (nth i F 0%Q) ti vi s.
Proof.
  intros Hi. unfold scan_step, try_except.
  destruct (@scan_try_cases T V F HT HV i s Hi) as [(s1 & E & _)|[E|(s1 & E)]].
  - rewrite E. intros [= <-].
    destruct (scan_try_shape s Hi E) as [H|H]; auto.
  - rewrite E. cbv beta iota delta [raise exn_eqb].
    rewrite scan_except_shape by (destruct F; simpl in *; [lia | discriminate]).
    intros [= <-]. auto.
  - rewrite E. cbv beta iota delta [raise exn_eqb]. discriminate.
Qed.

(** A property of the loop variables that both kinds of step carry from
    one iteration to the next holds when the scan returns. *)
Lemma scan_loop_invariant (P : nat -> zeroed -> Prop) :
  (forall k s t v f, P k s -> P (S k) (push1 t v f s)) ->
  (forall k s t v f ti vi, P k s -> P (S k) (push3 t v f ti vi s)) ->
  forall js, Forall (fun i => i < List.length F) js ->
  forall k s s',
    P k s -> for_each js (scan_step T V F) s = (s', ok tt) ->
    P (k + List.length js) s'.
Proof.
  intros H1 H3. induction 1 as [|i js Hi _ IH]; intros k s s' HP; simpl.
  - intros [= <-]. now rewrite Nat.add_0_r.
  - unfold bind. destruct (scan_step T V F i s) as [s1 [e|[]]] eqn:E;
      [discriminate|].
    intros E'. replace (k + S (List.length js)) with (S k + List.length js) by lia.
    eapply IH; [|eassumption].
    destruct (scan_step_shape _ Hi E) as [->|[->|(ti & vi & ->)]]; auto.
Qed.

End ScanShape.

Lemma ramp_distinct (n i : nat) :
  S i < List.length (Recordings.ramp n) ->
  ~ (nth i (Recordings.ramp n) 0 == nth (S i) (Recordings.ramp n) 0)%Q.
Proof.
  unfold Recordings.ramp. rewrite length_map, length_seq. intros Hi.
  change 0%Q with (inject_Z (Z.of_nat 0)).
  rewrite !(map_nth (fun k => inject_Z (Z.of_nat k))), !seq_nth by lia.
  unfold Qeq. simpl. lia.
Qed.

Lemma find_zero_flow_points_returns_witness :
  exists zt zv zf phl,
    FVAvg.find_zero_flow_points (Recordings.ramp 215)
      (Recordings.integrate 0%Q Recordings.one_breath_flow)
      Recordings.one_breath_flow = Py.ok (zt, zv, zf, phl).
Proof.
  apply find_zero_flow_points_returns;
    [reflexivity | reflexivity | apply ramp_distinct].
Defined.

(** X2.  Every sample of the recording gives one entry of the augmented
    lists and every validated crossing two more: each returned list has
    [len(flow_raw_list) + 2 * len(phase_indexes_list)] entries. *)
Theorem find_zero_flow_points_length (T V F : list Q) :
  List.length T = List.length F -> List.length V = List.length F ->
  forall zt zv zf phl,
    FVAvg.find_zero_flow_points T V F = Py.ok (zt, zv, zf, phl) ->
    List.length zt = List.length F + 2 * List.length phl /\
    List.length zv = List.length F + 2 * List.length phl /\
    List.length zf = List.length F + 2 * List.length phl.
Proof.
  intros HT HV zt zv zf phl.
  unfold FVAvg.find_zero_flow_points, FVAvg.scan.
  destruct (Py.for_each _ _ _) as [s [e|[]]] eqn:E; [discriminate|].
  intros [= <- <- <- <-].
  pose proof (@scan_loop_invariant T V F HT HV Shape.counted) as I.
  specialize (I ltac:(unfold Shape.counted, Shape.push1; intros; simpl in *;
                      rewrite !length_app; simpl; lia)).
  specialize (I ltac:(unfold Shape.counted, Shape.push3; intros; simpl in *;
                      rewrite !length_app; simpl; lia)).
  assert (I0 : Shape.counted 0 FVAvg.zeroed_init) by (repeat split; reflexivity).
  specialize (I _ (range_below (List.length F)) 0 _ _ I0 E).
  rewrite range_length, Nat.sub_0_r in I. exact I.
Qed.

Lemma find_zero_flow_points_length_witness :
  match FVAvg.find_zero_flow_points (Recordings.ramp 215)
          (Recordings.integrate 0%Q Recordings.one_breath_flow)
          Recordings.one_breath_flow with
  | inr (zt, zv, zf, phl) =>
      List.length zt = 215 + 2 * List.length phl /\
      List.length zv = 215 + 2 * List.length phl /\
      List.length zf = 215 + 2 * List.length phl
  | inl _ => False
  end.
Proof.
  destruct (FVAvg.find_zero_flow_points _ _ _) as [e|[[[zt zv] zf] phl]] eqn:E.
  - vm_compute in E. discriminate.
  - exact (@find_zero_flow_points_length (Recordings.ramp 215)
             (Recordings.integrate 0%Q Recordings.one_breath_flow)
             Recordings.one_breath_flow eq_refl eq_refl zt zv zf phl E).
Defined.

Section PhaseBoundaries.
Import Py FVAvg Facts Shape.

Lemma list_sum_firstn_le (n : nat) (l : list nat) :
  list_sum (firstn n l) <= list_sum l.
Proof.
  revert n. induction l as [|x l IH]; intros [|n]; simpl; try lia.
  specialize (IH n). lia.
Qed.

Lemma boundary_le (phl : list nat) (k : nat) : boundary phl k <= list_sum phl.
Proof. apply list_sum_firstn_le. Qed.

Lemma boundary_app_old (phl : list nat) (x k : nat) :
  k < List.length phl -> boundary (phl ++ [x]) k = boundary phl k.
Proof.
  intros Hk. unfold boundary. rewrite firstn_app.
  replace (S k - List.length phl) with 0 by lia.
  simpl. now rewrite app_nil_r.
Qed.

Lemma boundary_app_new (phl : list nat) (x : nat) :
  boundary (phl ++ [x]) (List.length phl) = list_sum phl + x.
Proof.
  unfold boundary. rewrite firstn_all2 by (rewrite length_app; simpl; lia).
  rewrite list_sum_app. simpl. lia.
Qed.

(** What was established about a closed phase is not disturbed by later
    appends. *)
Lemma phased_old (s : zeroed) (a b c : list Q) (k : nat) :
  phased s -> k < List.length (phase_indexes_list s) ->
  let zt := zeroed_time_list s in
  let zv := zeroed_vol_list s in
  let zf := zeroed_flow_list s in
  let phl := phase_indexes_list s in
  2 <= nth k phl 0 /\
  nth_error (zf ++ c) (boundary phl k - 1) = Some 0%Q /\
  nth_error (zf ++ c) (boundary phl k) = Some 0%Q /\
  (exists t, nth_error (zt ++ a) (boundary phl k - 1) = Some t /\
             nth_error (zt ++ a) (boundary phl k) = Some t) /\
  (exists v, nth_error (zv ++ b) (boundary phl k - 1) = Some v /\
             nth_error (zv ++ b) (boundary phl k) = Some v).
Proof.
  intros (Ht & Hv & Hsum & Hp & Hk) Hlt. cbv zeta.
  destruct (Hk k Hlt) as (H2 & Hf1 & Hf2 & (t & Ht1 & Ht2) & (v & Hv1 & Hv2)).
  assert (Hc : boundary (phase_indexes_list s) k < List.length (zeroed_flow_list s)).
  { apply nth_error_Some. congruence. }
  split; [assumption|].
  rewrite !nth_error_app1 by lia.
  split; [assumption|]. split; [assumption|].
  split; [exists t | exists v]; auto.
Qed.

Lemma phased_push1 (s : zeroed) (t v f : Q) : phased s -> phased (push1 t v f s).
Proof.
  intros H. pose proof H as (Ht & Hv & Hsum & Hp & Hk).
  unfold phased, push1; cbn [zeroed_time_list zeroed_vol_list zeroed_flow_list
                             phase_indexes phase_indexes_list].
  rewrite !length_app. cbn [List.length].
  repeat (split; [lia|]).
  intros k Hlt. exact (@phased_old s [t] [v] [f] k H Hlt).
Qed.

Lemma phased_push3 (s : zeroed) (t v f ti vi : Q) :
  phased s -> phased (push3 t v f ti vi s).
Proof.
  intros H. pose proof H as (Ht & Hv & Hsum & Hp & Hk).
  unfold phased, push3; cbn [zeroed_time_list zeroed_vol_list zeroed_flow_list
                             phase_indexes phase_indexes_list].
  rewrite !length_app, list_sum_app. cbn [List.length list_sum fold_right].
  repeat (split; [lia|]).
  intros k Hlt.
  destruct (Nat.eq_dec k (List.length (phase_indexes_list s))) as [->|Hne].
  - rewrite boundary_app_new, nth_middle.
    replace (list_sum (phase_indexes_list s) + (phase_indexes s + 2))
      with (List.length (zeroed_flow_list s) + 2) by lia.
    replace (List.length (zeroed_flow_list s) + 2 - 1)
      with (List.length (zeroed_flow_list s) + 1) by lia.
    split; [lia|].
    rewrite !nth_error_app2 by lia. rewrite ?Ht, ?Hv.
    replace (List.length (zeroed_flow_list s) + 1 - List.length (zeroed_flow_list s))
      with 1 by lia.
    replace (List.length (zeroed_flow_list s) + 2 - List.length (zeroed_flow_list s))
      with 2 by lia.
    split; [reflexivity|]. split; [reflexivity|].
    split; [exists ti | exists vi]; split; reflexivity.
  - assert (Hlt' : k < List.length (phase_indexes_list s)) by lia.
    rewrite (boundary_app_old _ _ Hlt'), app_nth1 by assumption.
    exact (@phased_old s [t; ti; ti] [v; vi; vi] [f; 0%Q; 0%Q] k H Hlt').
Qed.

End PhaseBoundaries.

(** X3.  The phase lengths that [find_zero_flow_points] returns point at the
    zero-flow points it inserted: each length is at least 2, and the sum of
    the first [k + 1] lengths is the index of the second of two adjacent
    entries of flow 0 that carry the same time and the same volume. *)
Theorem phase_lengths_end_at_the_inserted_zeros (T V F : list Q) :
  List.length T = List.length F -> List.length V = List.length F ->
  forall zt zv zf phl,
    FVAvg.find_zero_flow_points T V F = Py.ok (zt, zv, zf, phl) ->
    forall k, k < List.length phl ->
      2 <= nth k phl 0 /\
      nth_error zf (Shape.boundary phl k - 1) = Some 0%Q /\
      nth_error zf (Shape.boundary phl k) = Some 0%Q /\
      (exists t, nth_error zt (Shape.boundary phl k - 1) = Some t /\
                 nth_error zt (Shape.boundary phl k) = Some t) /\
      (exists v, nth_error zv (Shape.boundary phl k - 1) = Some v /\
                 nth_error zv (Shape.boundary phl k) = Some v).
Proof.
  intros HT HV zt zv zf phl.
  unfold FVAvg.find_zero_flow_points, FVAvg.scan.
  destruct (Py.for_each _ _ _) as [s [e|[]]] eqn:E; [discriminate|].
  intros [= <- <- <- <-].
  assert (I0 : Shape.phased FVAvg.zeroed_init).
  { unfold Shape.phased; simpl. repeat (split; [reflexivity || congruence|]).
    intros k Hk. inversion Hk. }
  pose proof (@scan_loop_invariant T V F HT HV (fun _ => Shape.phased)
                (fun _ s t v f => @phased_push1 s t v f)
                (fun _ s t v f ti vi => @phased_push3 s t v f ti vi)
                _ (range_below (List.length F)) 0 _ _ I0 E) as I.
  cbv beta in I. destruct I as (_ & _ & _ & _ & I). exact I.
Qed.

Lemma phase_lengths_end_at_the_inserted_zeros_witness :
  match FVAvg.find_zero_flow_points (Recordings.ramp 215)
          (Recordings.integrate 0%Q Recordings.one_breath_flow)
          Recordings.one_breath_flow with
  | inr (zt, zv, zf, phl) =>
      1 < List.length phl /\
      2 <= nth 1 phl 0 /\
      nth_error zf (Shape.boundary phl 1 - 1) = Some 0%Q /\
      nth_error zf (Shape.boundary phl 1) = Some 0%Q /\
      (exists t, nth_error zt (Shape.boundary phl 1 - 1) = Some t /\
                 nth_error zt (Shape.boundary phl 1) = Some t) /\
      (exists v, nth_error zv (Shape.boundary phl 1 - 1) = Some v /\
                 nth_error zv (Shape.boundary phl 1) = Some v)
  | inl _ => False
  end.
Proof.
  destruct (FVAvg.find_zero_flow_points _ _ _) as [e|[[[zt zv] zf] phl]] eqn:E.
  - vm_compute in E. discriminate.
  - assert (L : 1 < List.length phl).
    { vm_compute in E. injection E as _ _ _ <-. simpl. lia. }
    split; [exact L|].
    exact (@phase_lengths_end_at_the_inserted_zeros (Recordings.ramp 215)
             (Recordings.integrate 0%Q Recordings.one_breath_flow)
             Recordings.one_breath_flow eq_refl eq_refl zt zv zf phl E 1 L).
Defined.

Section PlainSteps.
Import Py FVAvg Facts Shape.
Local Open Scope py_scope.
Variables T V F : list Q.
Hypothesis HT : List.length T = List.length F.
Hypothesis HV : List.length V = List.length F.

Lemma index_out (l : list Q) (k : nat) :
  List.length l <= k -> index l (Z.of_nat k) = raise IndexError.
Proof.
  clear HT HV.
  intros Hk. rewrite index_nat.
  destruct (nth_error l k) eqn:E; [|reflexivity].
  assert (k < List.length l) by (apply nth_error_Some; congruence). lia.
Qed.

Lemma no_crossing_at (l : list Q) (i : nat) :
  no_crossing l = true -> S i < List.length l ->
  crossing (nth i l 0%Q) (nth (S i) l 0%Q) = false.
Proof.
  clear HT HV.
  revert i. induction l as [|a l IH]; intros i H Hi; [simpl in Hi; lia|].
  destruct l as [|b l]; [simpl in Hi; lia|].
  cbn [no_crossing] in H. apply andb_true_iff in H. destruct H as [H1 H2].
  destruct i as [|i].
  - simpl. now apply negb_true_iff.
  - change (nth (S i) (a :: b :: l) 0%Q) with (nth i (b :: l) 0%Q).
    change (nth (S (S i)) (a :: b :: l) 0%Q) with (nth (S i) (b :: l) 0%Q).
    apply IH; [assumption | simpl in *; lia].
Qed.

(** The two tests of the loop at sample [i], by the place of [i] and the
    sign change after it. *)
Lemma neg_to_pos_value (i : nat) :
  S i < List.length F ->
  neg_to_pos F i
  = ok (Qltb (nth i F 0%Q) 0 && Qltb 0 (nth (S i) F 0%Q)).
Proof.
  clear HT HV.
  intros Hi. unfold neg_to_pos, rbind.
  replace (Z.of_nat i + 1)%Z with (Z.of_nat (S i)) by lia.
  rewrite !index_nth_ok by lia. cbv beta iota delta [ok].
  now destruct (Qltb (nth i F 0%Q) 0).
Qed.

Lemma pos_to_neg_value (i : nat) :
  S i < List.length F ->
  pos_to_neg F i
  = ok (Qgtb (nth i F 0%Q) 0 && Qgtb 0 (nth (S i) F 0%Q)).
Proof.
  clear HT HV.
  intros Hi. unfold pos_to_neg, rbind.
  replace (Z.of_nat i + 1)%Z with (Z.of_nat (S i)) by lia.
  rewrite !index_nth_ok by lia. cbv beta iota delta [ok].
  now destruct (Qgtb (nth i F 0%Q) 0).
Qed.

(** Where no sign change follows sample [i], the iteration appends sample
    [i]; for the last sample it may be the handler that does so. *)
Lemma scan_step_plain (i : nat) (s : zeroed) :
  i < List.length F ->
  (S i < List.length F -> crossing (nth i F 0%Q) (nth (S i) F 0%Q) = false) ->
  scan_step T V F i s
  = (push1 (nth i T 0%Q) (nth i V 0%Q) (nth i F 0%Q) s, ok tt).
Proof.
  intros Hi Hc.
  destruct (Nat.lt_ge_cases (S i) (List.length F)) as [Hs|Hs].
  - specialize (Hc Hs). unfold crossing in Hc.
    apply orb_false_iff in Hc. destruct Hc as [Hup Hdown].
    unfold scan_step, try_except, scan_try, bind, lift.
    rewrite neg_to_pos_value, Hup by assumption. cbv beta iota delta [ok].
    rewrite pos_to_neg_value, Hdown by assumption. cbv beta iota delta [ok].
    now rewrite (@standard_shape T V F HT HV i s Hi).
  - assert (Hlast : i = List.length F - 1) by lia.
    assert (Hne : F <> []) by (destruct F; simpl in *; [lia | discriminate]).
    pose proof (@scan_except_shape T V F HT HV s Hne) as Hex.
    rewrite <- Hlast in Hex.
    unfold scan_step, try_except, scan_try, bind, lift.
    unfold neg_to_pos, pos_to_neg, rbind.
    replace (Z.of_nat i + 1)%Z with (Z.of_nat (S i)) by lia.
    rewrite (index_nth_ok F Hi), (index_out F Hs).
    cbv beta iota delta [raise ok].
    destruct (Qltb (nth i F 0%Q) 0); cbv beta iota delta [raise ok exn_eqb];
      [exact Hex|].
    destruct (Qgtb (nth i F 0%Q) 0); cbv beta iota delta [raise ok exn_eqb];
      [exact Hex|].
    now rewrite (@standard_shape T V F HT HV i s Hi).
Qed.

Lemma firstn_snoc (l : list Q) (a : nat) :
  a < List.length l -> firstn a l ++ [nth a l 0%Q] = firstn (S a) l.
Proof.
  clear HT HV.
  revert a. induction l as [|x l IH]; intros a Ha; [simpl in Ha; lia|].
  destruct a as [|a]; [reflexivity|].
  simpl. f_equal. apply IH. simpl in Ha. lia.
Qed.

Lemma scan_plain (n : nat) :
  no_crossing F = true ->
  forall a, a + n <= List.length F ->
  for_each (seq a n) (scan_step T V F)
    (mkZeroed (firstn a T) (firstn a V) (firstn a F) a [])
  = (mkZeroed (firstn (a + n) T) (firstn (a + n) V) (firstn (a + n) F)
       (a + n) [], ok tt).
Proof.
  intros Hno. induction n as [|n IH]; intros a Ha.
  - simpl. now rewrite Nat.add_0_r.
  - cbn [seq for_each]. unfold bind.
    rewrite scan_step_plain by (try lia; intros; now apply no_crossing_at).
    unfold push1; cbn [zeroed_time_list zeroed_vol_list zeroed_flow_list
                       phase_indexes phase_indexes_list].
    rewrite !firstn_snoc by lia.
    replace (a + 1) with (S a) by lia.
    cbv beta iota delta [ok].
    rewrite IH by lia. now replace (S a + n) with (a + S n) by lia.
Qed.

(** The forward check reads [flow_raw_list[i + 1 + j]] for [j] up to 30:
    within 31 samples of the end it raises. *)
Lemma forward_count_out (test : Q -> bool) (i : nat) :
  List.length F <= i + 31 -> forward_count F test i = raise IndexError.
Proof.
  clear HT HV.
  intros Hi. unfold forward_count.
  assert (G : forall js acc,
            (exists e, acc = inl e) \/
            (exists j, In j js /\ List.length F <= i + 1 + j) ->
            exists e,
              fold_left
                (fun acc j =>
                   counter <~ acc ;;
                   f <~ index F (Z.of_nat i + 1 + Z.of_nat j) ;;
                   ok (if test f then counter + 1 else counter)) js acc
              = inl e).
  { induction js as [|j js IH]; intros acc [[e He]|(j0 & Hin & Hj0)].
    - exists e. now subst.
    - destruct Hin.
    - simpl. apply IH. left. exists e. now subst.
    - simpl. destruct Hin as [->|Hin].
      + apply IH. left. destruct acc as [e|c]; [exists e; reflexivity|].
        cbv beta iota delta [rbind].
        replace (Z.of_nat i + 1 + Z.of_nat j0)%Z with (Z.of_nat (i + 1 + j0)) by lia.
        rewrite (index_out F Hj0). exists IndexError. reflexivity.
      + apply IH. right. exists j0. auto. }
  destruct (G (range 1 31) (ok 0)) as [e He].
  { right. exists 30. split; [|lia]. unfold range. apply in_seq. lia. }
  unfold forward_count in *.
  rewrite He. now rewrite (forward_count_err F test i He).
Qed.

End PlainSteps.

(** X4.  A recording in which no two neighbouring flow samples change sign
    comes back as it is, with no phase length: the detector only adds
    entries at a sign change. *)
Theorem find_zero_flow_points_without_crossing (T V F : list Q) :
  List.length T = List.length F -> List.length V = List.length F ->
  Shape.no_crossing F = true ->
  FVAvg.find_zero_flow_points T V F = Py.ok (T, V, F, []).
Proof.
  intros HT HV Hno. unfold FVAvg.find_zero_flow_points, FVAvg.scan, Py.range.
  rewrite Nat.sub_0_r.
  pose proof (@scan_plain T V F HT HV (List.length F) Hno 0 (Nat.le_refl _)) as E.
  cbn [firstn Nat.add] in E. unfold FVAvg.zeroed_init. rewrite E.
  cbn [FVAvg.zeroed_time_list FVAvg.zeroed_vol_list FVAvg.zeroed_flow_list
       FVAvg.phase_indexes_list].
  assert (ET : firstn (List.length F) T = T)
    by (rewrite <- HT; apply firstn_all).
  assert (EV : firstn (List.length F) V = V)
    by (rewrite <- HV; apply firstn_all).
  now rewrite ET, EV, firstn_all.
Qed.

Lemma find_zero_flow_points_without_crossing_witness :
  FVAvg.find_zero_flow_points [0; 1; 2; 3]%Q [5; 6; 6; 4]%Q [1; 0; 0; -2]%Q
  = Py.ok ([0; 1; 2; 3]%Q, [5; 6; 6; 4]%Q, [1; 0; 0; -2]%Q, []).
Proof.
  apply find_zero_flow_points_without_crossing; reflexivity.
Defined.

(** X5.  A sign change at sample [i] fewer than 31 samples before the end
    of the recording makes the forward check read past the end; the handler
    of the loop then appends a copy of the LAST sample of the recording in
    place of sample [i], and extends the running phase by one. *)
Theorem late_crossing_appends_the_last_sample (T V F : list Q) (i : nat)
  (s : FVAvg.zeroed) :
  List.length T = List.length F -> List.length V = List.length F ->
  S i < List.length F -> List.length F <= i + 31 ->
  Shape.crossing (nth i F 0%Q) (nth (S i) F 0%Q) = true ->
  FVAvg.scan_step T V F i s
  = (Shape.push1 (nth (List.length F - 1) T 0%Q)
       (nth (List.length F - 1) V 0%Q) (nth (List.length F - 1) F 0%Q) s,
     Py.ok tt).
Proof.
  intros HT HV Hi Hlate Hc.
  assert (Hne : F <> []) by (destruct F; simpl in *; [lia | discriminate]).
  pose proof (@scan_except_shape T V F HT HV s Hne) as Hex.
  unfold FVAvg.scan_step, Py.try_except, FVAvg.scan_try, Py.bind, Py.lift.
  rewrite (@neg_to_pos_value F i Hi). cbv beta iota delta [Py.ok].
  unfold Shape.crossing in Hc.
  destruct (Py.Qltb (nth i F 0%Q) 0 && Py.Qltb 0 (nth (S i) F 0%Q)).
  - unfold FVAvg.validated_up. rewrite (@forward_count_out F _ i Hlate).
    cbv beta iota delta [Py.rbind Py.raise Py.exn_eqb]. exact Hex.
  - rewrite (@pos_to_neg_value F i Hi). cbv beta iota delta [Py.ok].
    cbn [orb] in Hc. rewrite Hc.
    unfold FVAvg.validated_down. rewrite (@forward_count_out F _ i Hlate).
    cbv beta iota delta [Py.rbind Py.raise Py.exn_eqb]. exact Hex.
Qed.

Lemma late_crossing_appends_the_last_sample_witness :
  FVAvg.scan_step [0; 1; 2; 3]%Q [5; 6; 7; 8]%Q [-1; 1; 2; 3]%Q 0
    FVAvg.zeroed_init
  = (Shape.push1 3 8 3 FVAvg.zeroed_init, Py.ok tt).
Proof.
  exact (@late_crossing_appends_the_last_sample
           [0; 1; 2; 3]%Q [5; 6; 7; 8]%Q [-1; 1; 2; 3]%Q 0 FVAvg.zeroed_init
           eq_refl eq_refl ltac:(simpl; lia) ltac:(simpl; lia) eq_refl).
Defined.

(* ------------------------------------------------------------------ *)
(** * Further properties of the trimmer *)
(* ------------------------------------------------------------------ *)

Section TrimWindow.
Import Py FVAvg Facts Shape.
Local Open Scope py_scope.

Lemma zero_then_cons (test : Q -> bool) (f0 : Q) (zf : list Q) (j : nat) :
  zero_then test (f0 :: zf) (S j) = zero_then test zf j.
Proof. reflexivity. Qed.

Lemma head_pattern_zero_then (test : Q -> bool) (zf : list Q) (b : bool) :
  head_pattern test zf = ok b -> zero_then test zf 0 = b.
Proof.
  destruct zf as [|f0 zf]; [discriminate|].
  rewrite head_pattern_cons. unfold zero_then.
  change (nth_error (f0 :: zf) 0) with (Some f0).
  change (0 + 2) with 2. cbv beta iota.
  destruct (Qeq_bool f0 0), (nth_error (f0 :: zf) 2);
    cbn [andb]; intros [= <-]; reflexivity.
Qed.

Lemma delete_row_rest_ok (zv zt zv' zt' : list Q) :
  delete_row_rest zv zt = ok (zv', zt') ->
  zv' = skipn 1 zv /\ zt' = skipn 1 zt /\
  1 <= List.length zv /\ 1 <= List.length zt.
Proof.
  unfold delete_row_rest. destruct zv as [|v zv]; [discriminate|].
  destruct zt as [|t zt]; [discriminate|].
  simpl. intros [= <- <-]. repeat split; lia.
Qed.

Lemma rising_between_cons (f0 : Q) (zf : list Q) (k : nat) :
  rising_between (f0 :: zf) 0 (S k)
  = (if rising (f0 :: zf) 0 then 1 else 0) + rising_between zf 0 k.
Proof.
  unfold rising_between. rewrite !Nat.sub_0_r. cbn [seq filter].
  assert (E : List.length (filter (rising (f0 :: zf)) (seq 1 k))
              = List.length (filter (rising zf) (seq 0 k))).
  { rewrite <- seq_shift. generalize (seq 0 k). intros l.
    induction l as [|j l IH]; [reflexivity|].
    cbn [map filter]. change (rising (f0 :: zf) (S j)) with (rising zf j).
    destruct (rising zf j); cbn [List.length]; now rewrite IH. }
  destruct (rising (f0 :: zf) 0); simpl; now rewrite E.
Qed.

(** The leading loop: it cuts after the first place that shows the falling
    pattern, and has added one half to its counter for every place before
    it that shows the rising one. *)
Lemma trim_start_spec (zf : list Q) :
  forall zv zt c zf' zv' zt' c',
    trim_start zf zv zt c = ok (zf', zv', zt', c') ->
    exists k,
      falling zf k = true /\
      (forall j, j < k -> falling zf j = false) /\
      zf' = skipn (S k) zf /\ zv' = skipn (S k) zv /\ zt' = skipn (S k) zt /\
      S k <= List.length zf /\ S k <= List.length zv /\
      S k <= List.length zt /\
      (c' == c + (1 # 2) * inject_Z (Z.of_nat (rising_between zf 0 k)))%Q.
Proof.
  induction zf as [|f0 zf IH]; intros zv zt c zf' zv' zt' c'; [discriminate|].
  rewrite trim_start_cons.
  destruct (head_pattern (fun f2 => Qltb f2 0) (f0 :: zf)) as [e|found] eqn:Ef;
    [discriminate|].
  apply head_pattern_zero_then in Ef. fold (falling (f0 :: zf) 0) in Ef.
  cbv beta iota delta [rbind].
  destruct found.
  - destruct (delete_row_rest zv zt) as [e|[zv1 zt1]] eqn:Ed; [discriminate|].
    apply delete_row_rest_ok in Ed. destruct Ed as (-> & -> & Lv & Lt).
    cbv beta iota delta [rbind ok fst snd]. intros [= <- <- <- <-].
    exists 0. split; [assumption|]. split; [intros j Hj; lia|].
    repeat (split; [reflexivity || (simpl; lia)|]).
    unfold rising_between. simpl. ring.
  - destruct (head_pattern (fun f2 => Qgtb f2 0) (f0 :: zf)) as [e|bump] eqn:Eb;
      [discriminate|].
    apply head_pattern_zero_then in Eb. fold (rising (f0 :: zf) 0) in Eb.
    cbv beta iota delta [rbind].
    destruct (delete_row_rest zv zt) as [e|[zv1 zt1]] eqn:Ed; [discriminate|].
    apply delete_row_rest_ok in Ed. destruct Ed as (-> & -> & Lv & Lt).
    cbv beta iota delta [rbind ok fst snd]. intros E.
    destruct (IH _ _ _ _ _ _ _ E)
      as (k & Hk & Hfirst & -> & -> & -> & L1 & L2 & L3 & Hc).
    exists (S k). unfold falling in *. rewrite zero_then_cons.
    split; [assumption|]. split.
    { intros [|j] Hj; [assumption|]. rewrite zero_then_cons. apply Hfirst. lia. }
    rewrite !skipn_skipn. replace (S k + 1) with (S (S k)) by lia.
    split; [reflexivity|]. split; [reflexivity|]. split; [reflexivity|].
    rewrite !length_skipn in *. cbn [List.length].
    split; [lia|]. split; [lia|]. split; [lia|].
    rewrite Hc, rising_between_cons, Eb.
    rewrite Nat2Z.inj_add, inject_Z_plus.
    destruct bump; simpl; ring.
Qed.

Lemma zero_then_beyond (test : Q -> bool) (l : list Q) (j : nat) :
  List.length l <= j + 2 -> zero_then test l j = false.
Proof.
  intros H. unfold zero_then.
  destruct (nth_error l j); [|reflexivity].
  now rewrite (proj2 (nth_error_None l (j + 2)) H).
Qed.

Lemma zero_then_within (test : Q -> bool) (l : list Q) (j : nat) :
  zero_then test l j = true -> j + 2 < List.length l.
Proof.
  intros H. destruct (Nat.lt_ge_cases (j + 2) (List.length l)); [assumption|].
  rewrite zero_then_beyond in H by assumption. discriminate.
Qed.

Lemma zero_then_snoc (test : Q -> bool) (l : list Q) (x : Q) (j : nat) :
  j + 2 < List.length l -> zero_then test (l ++ [x]) j = zero_then test l j.
Proof.
  intros H. unfold zero_then. now rewrite !nth_error_app1 by lia.
Qed.

Lemma zero_then_skipn (test : Q -> bool) (l : list Q) (n j : nat) :
  zero_then test (skipn n l) j = zero_then test l (n + j).
Proof.
  unfold zero_then. rewrite !nth_error_skipn.
  now replace (n + (j + 2)) with (n + j + 2) by lia.
Qed.

(** The test of the trailing loop on the reversed list is the pattern at
    the third place from the end. *)
Lemma tail_pattern_zero_then (test : Q -> bool) (rf : list Q) (b : bool) :
  tail_pattern test rf = ok b ->
  3 <= List.length rf /\ zero_then test (rev rf) (List.length rf - 3) = b.
Proof.
  destruct rf as [|f1 rf]; [discriminate|].
  rewrite tail_pattern_cons.
  destruct (nth_error (f1 :: rf) 2) as [f3|] eqn:E; [|discriminate].
  assert (L : 2 < List.length (f1 :: rf)) by (apply nth_error_Some; congruence).
  intros [= <-]. split; [lia|].
  unfold zero_then. rewrite !nth_error_rev.
  destruct (Nat.ltb_spec (List.length (f1 :: rf) - 3) (List.length (f1 :: rf)));
    [|lia].
  destruct (Nat.ltb_spec (List.length (f1 :: rf) - 3 + 2) (List.length (f1 :: rf)));
    [|lia].
  replace (List.length (f1 :: rf) - S (List.length (f1 :: rf) - 3)) with 2 by lia.
  replace (List.length (f1 :: rf) - S (List.length (f1 :: rf) - 3 + 2)) with 0 by lia.
  now rewrite E.
Qed.

Lemma rising_between_split (l : list Q) (lo mid hi : nat) :
  lo <= mid -> mid <= hi ->
  rising_between l lo hi = rising_between l lo mid + rising_between l mid hi.
Proof.
  intros H1 H2. unfold rising_between.
  replace (hi - lo) with ((mid - lo) + (hi - mid)) by lia.
  rewrite seq_app, filter_app, length_app.
  now replace (lo + (mid - lo)) with mid by lia.
Qed.

Lemma rising_between_ext (l l' : list Q) (lo hi : nat) :
  (forall j, lo <= j -> j < hi -> rising l j = rising l' j) ->
  rising_between l lo hi = rising_between l' lo hi.
Proof.
  intros H. unfold rising_between. f_equal.
  apply filter_ext_in. intros j Hj. apply in_seq in Hj. apply H; lia.
Qed.

Lemma rising_between_none (l : list Q) (lo hi : nat) :
  (forall j, lo <= j -> j < hi -> rising l j = false) ->
  rising_between l lo hi = 0.
Proof.
  intros H. unfold rising_between.
  rewrite (@filter_ext_in _ (rising l) (fun _ => false)).
  - now rewrite filter_false.
  - intros j Hj. apply in_seq in Hj. apply H; lia.
Qed.

Lemma rising_between_one (l : list Q) (j : nat) :
  rising_between l j (S j) = if rising l j then 1 else 0.
Proof.
  unfold rising_between. replace (S j - j) with 1 by lia.
  cbn [seq filter]. now destruct (rising l j).
Qed.

Lemma rising_between_skipn (l : list Q) (n lo hi : nat) :
  rising_between (skipn n l) lo hi = rising_between l (n + lo) (n + hi).
Proof.
  unfold rising_between.
  replace (n + hi - (n + lo)) with (hi - lo) by lia.
  generalize (hi - lo). intros len. revert lo.
  induction len as [|len IH]; intros lo; [reflexivity|].
  cbn [seq filter].
  assert (H : rising (skipn n l) lo = rising l (n + lo))
    by apply zero_then_skipn.
  rewrite H. replace (S (n + lo)) with (n + S lo) by lia.
  destruct (rising l (n + lo)); cbn [List.length]; now rewrite IH.
Qed.

Lemma delete_row_rev_ok (rf rv rt rf' rv' rt' : list Q) :
  delete_row_rev rf rv rt = ok (rf', rv', rt') ->
  rf' = skipn 1 rf /\ rv' = skipn 1 rv /\ rt' = skipn 1 rt /\
  1 <= List.length rf /\ 1 <= List.length rv /\ 1 <= List.length rt.
Proof.
  unfold delete_row_rev.
  destruct rf as [|f rf]; [discriminate|].
  destruct rv as [|v rv]; [discriminate|].
  destruct rt as [|t rt]; [discriminate|].
  simpl. intros [= <- <- <-]. repeat split; lia.
Qed.

(** The trailing loop, read on the list in its own order ([rev rf]): it
    cuts before the last place that shows the falling pattern, and has
    added one half to its counter for every place after it that shows the
    rising one. *)
Lemma trim_end_rev_spec (rf : list Q) :
  forall rv rt c rf' rv' rt' c',
    trim_end_rev rf rv rt c = ok (rf', rv', rt', c') ->
    exists e,
      e + 3 <= List.length rf /\
      falling (rev rf) e = true /\
      (forall j, e < j -> falling (rev rf) j = false) /\
      rf' = skipn (List.length rf - e) rf /\
      rv' = skipn (List.length rf - e) rv /\
      rt' = skipn (List.length rf - e) rt /\
      List.length rf - e <= List.length rv /\
      List.length rf - e <= List.length rt /\
      (c' == c + (1 # 2)
                 * inject_Z (Z.of_nat (rising_between (rev rf) (S e)
                                         (List.length rf))))%Q.
Proof.
  induction rf as [|f1 rf IH]; intros rv rt c rf' rv' rt' c'; [discriminate|].
  rewrite trim_end_rev_cons.
  destruct (tail_pattern (fun f => Qltb f 0) (f1 :: rf)) as [e0|found] eqn:Ef;
    [discriminate|].
  apply tail_pattern_zero_then in Ef. destruct Ef as [L3 Ef].
  fold (falling (rev (f1 :: rf)) (List.length (f1 :: rf) - 3)) in Ef.
  cbv beta iota delta [rbind].
  destruct found.
  - destruct (delete_row_rev (f1 :: rf) rv rt) as [e0|[[a1 b1] c1]] eqn:E1;
      [discriminate|].
    apply delete_row_rev_ok in E1.
    destruct E1 as (-> & -> & -> & _ & Lv1 & Lt1).
    cbv beta iota delta [rbind].
    destruct (delete_row_rev _ _ _) as [e0|[[a2 b2] c2]] eqn:E2; [discriminate|].
    apply delete_row_rev_ok in E2.
    destruct E2 as (-> & -> & -> & _ & Lv2 & Lt2).
    cbv beta iota delta [rbind].
    destruct (delete_row_rev _ _ _) as [e0|[[a3 b3] c3]] eqn:E3; [discriminate|].
    apply delete_row_rev_ok in E3.
    destruct E3 as (-> & -> & -> & _ & Lv3 & Lt3).
    cbv beta iota delta [rbind ok]. intros [= <- <- <- <-].
    rewrite !length_skipn in *.
    exists (List.length (f1 :: rf) - 3).
    split; [lia|]. split; [assumption|]. split.
    { intros j Hj. apply zero_then_beyond. rewrite length_rev. lia. }
    replace (List.length (f1 :: rf) - (List.length (f1 :: rf) - 3)) with 3 by lia.
    split; [now destruct rf as [|? [|? ?]]|].
    split; [now destruct rv as [|? [|? [|? ?]]]|].
    split; [now destruct rt as [|? [|? [|? ?]]]|].
    split; [lia|]. split; [lia|].
    rewrite rising_between_none.
    + simpl. ring.
    + intros j Hj _. apply zero_then_beyond. rewrite length_rev. lia.
  - destruct (tail_pattern (fun f => Qgtb f 0) (f1 :: rf)) as [e0|bump] eqn:Eb;
      [discriminate|].
    apply tail_pattern_zero_then in Eb. destruct Eb as [_ Eb].
    fold (rising (rev (f1 :: rf)) (List.length (f1 :: rf) - 3)) in Eb.
    cbv beta iota delta [rbind].
    destruct (delete_row_rest rv rt) as [e0|[rv1 rt1]] eqn:Ed; [discriminate|].
    apply delete_row_rest_ok in Ed. destruct Ed as (-> & -> & Lv & Lt).
    cbv beta iota delta [rbind ok fst snd]. intros E.
    destruct (IH _ _ _ _ _ _ _ E)
      as (e & Le & He & Hlast & -> & -> & -> & L1 & L2 & Hc).
    rewrite !length_skipn in *.
    exists e. cbn [List.length rev] in *.
    split; [lia|]. split.
    { unfold falling. rewrite zero_then_snoc by (rewrite length_rev; lia).
      exact He. }
    split.
    { intros j Hj. unfold falling.
      destruct (Nat.lt_ge_cases (j + 2) (List.length rf)) as [H1|H1].
      - rewrite zero_then_snoc by (rewrite length_rev; lia). now apply Hlast.
      - destruct (Nat.eq_dec (j + 2) (List.length rf)) as [H2|H2].
        + replace j with (S (List.length rf) - 3) by lia. exact Ef.
        + apply zero_then_beyond. rewrite length_app, length_rev. simpl. lia. }
    replace (S (List.length rf) - e) with (S (List.length rf - e)) by lia.
    rewrite !skipn_skipn.
    replace (List.length rf - e + 1) with (S (List.length rf - e)) by lia.
    split; [reflexivity|]. split; [reflexivity|]. split; [reflexivity|].
    split; [lia|]. split; [lia|].
    rewrite Hc.
    assert (R : rising_between (rev rf ++ [f1]) (S e) (S (List.length rf))
                = rising_between (rev rf) (S e) (List.length rf)
                  + (if bump then 1 else 0)).
    { rewrite (@rising_between_split (rev rf ++ [f1]) (S e)
                 (List.length rf - 2) (S (List.length rf))) by lia.
      rewrite (@rising_between_split (rev rf ++ [f1]) (List.length rf - 2)
                 (S (List.length rf - 2)) (S (List.length rf))) by lia.
      rewrite rising_between_one.
      assert (Eb' : rising (rev rf ++ [f1]) (List.length rf - 2) = bump)
        by (replace (List.length rf - 2) with (S (List.length rf) - 3) by lia;
            exact Eb).
      rewrite Eb'.
      rewrite (@rising_between_none (rev rf ++ [f1]) (S (List.length rf - 2)))
        by (intros j Hj _; apply zero_then_beyond;
            rewrite length_app, length_rev; simpl; lia).
      rewrite (@rising_between_split (rev rf) (S e)
                 (List.length rf - 2) (List.length rf)) by lia.
      rewrite (@rising_between_none (rev rf) (List.length rf - 2))
        by (intros j Hj _; apply zero_then_beyond; rewrite length_rev; lia).
      rewrite (@rising_between_ext (rev rf ++ [f1]) (rev rf) (S e)
                 (List.length rf - 2))
        by (intros j _ Hj; apply zero_then_snoc; rewrite length_rev; lia).
      lia. }
    rewrite R, Nat2Z.inj_add, inject_Z_plus.
    destruct bump; simpl; ring.
Qed.

(** [trim_end] on the lists in their own order. *)
Lemma trim_end_spec (zf zv zt : list Q) (c : Q) (zf' zv' zt' : list Q) (c' : Q) :
  List.length zv = List.length zf -> List.length zt = List.length zf ->
  trim_end zf zv zt c = ok (zf', zv', zt', c') ->
  exists e,
    e + 3 <= List.length zf /\
    falling zf e = true /\
    (forall j, e < j -> falling zf j = false) /\
    zf' = firstn e zf /\ zv' = firstn e zv /\ zt' = firstn e zt /\
    (c' == c + (1 # 2)
               * inject_Z (Z.of_nat (rising_between zf (S e) (List.length zf))))%Q.
Proof.
  intros HV HT. unfold trim_end.
  destruct (trim_end_rev (rev zf) (rev zv) (rev zt) c)
    as [e0|[[[rf rv] rt] c1]] eqn:E; [discriminate|].
  cbv beta iota delta [rbind ok]. intros [= <- <- <- <-].
  destruct (trim_end_rev_spec _ _ _ _ E)
    as (e & Le & He & Hlast & -> & -> & -> & _ & _ & Hc).
  rewrite rev_involutive, length_rev in *.
  exists e. split; [assumption|]. split; [assumption|]. split; [assumption|].
  rewrite !skipn_rev, !rev_involutive, HV, HT.
  replace (List.length zf - (List.length zf - e)) with e by lia.
  repeat (split; [reflexivity|]). exact Hc.
Qed.

End TrimWindow.

(** What [trim_excess_data] keeps and what its two counters hold, by the
    first and the last place of the flow list that show the falling
    pattern. *)
Lemma trim_excess_data_spec (zt zv zf : list Q) (phl : list nat)
  (t : FVAvg.trimmed) :
  List.length zt = List.length zf -> List.length zv = List.length zf ->
  FVAvg.trim_excess_data zt zv zf phl = Py.ok t ->
  exists k e,
    S k <= e /\
    Shape.falling zf k = true /\
    (forall j, j < k -> Shape.falling zf j = false) /\
    Shape.falling zf e = true /\
    (forall j, e < j -> Shape.falling zf j = false) /\
    FVAvg.trimmed_flow t = firstn (e - S k) (skipn (S k) zf) /\
    FVAvg.trimmed_vol t = firstn (e - S k) (skipn (S k) zv) /\
    FVAvg.trimmed_time t = firstn (e - S k) (skipn (S k) zt) /\
    (FVAvg.counter_start t
     == 1 + (1 # 2) * inject_Z (Z.of_nat (Shape.rising_between zf 0 k)))%Q /\
    (FVAvg.counter_end t
     == (1 # 2) * inject_Z (Z.of_nat (Shape.rising_between zf (S e)
                                        (List.length zf))))%Q.
Proof.
  intros HT HV. unfold FVAvg.trim_excess_data.
  destruct (FVAvg.trim_start zf zv zt 1) as [e0|[[[zf1 zv1] zt1] cs]] eqn:E1;
    [discriminate|].
  cbv beta iota delta [Py.rbind].
  destruct (FVAvg.trim_end zf1 zv1 zt1 0) as [e0|[[[zf2 zv2] zt2] ce]] eqn:E2;
    [discriminate|].
  cbv beta iota delta [Py.rbind].
  destruct (FVAvg.drop_leading_phases cs phl) as [e0|p1]; [discriminate|].
  cbv beta iota delta [Py.rbind].
  destruct (FVAvg.drop_trailing_phase ce p1) as [e0|p2]; [discriminate|].
  cbv beta iota delta [Py.rbind Py.ok]. intros [= <-].
  cbn [FVAvg.trimmed_flow FVAvg.trimmed_vol FVAvg.trimmed_time
       FVAvg.counter_start FVAvg.counter_end].
  destruct (trim_start_spec _ _ _ _ E1)
    as (k & Hk & Hfirst & -> & -> & -> & L1 & L2 & L3 & Hcs).
  apply trim_end_spec in E2; [|rewrite !length_skipn; lia..].
  destruct E2 as (e' & Le & He & Hlast & -> & -> & -> & Hce).
  unfold Shape.falling in He, Hlast. rewrite zero_then_skipn in He.
  rewrite length_skipn in *.
  exists k, (S k + e').
  replace (S k + e' - S k) with e' by lia.
  split; [lia|]. split; [assumption|]. split; [assumption|].
  split; [exact He|]. split.
  { intros j Hj. specialize (Hlast (j - S k) ltac:(lia)).
    rewrite zero_then_skipn in Hlast.
    now replace (S k + (j - S k)) with j in Hlast by lia. }
  repeat (split; [reflexivity|]).
  split; [exact Hcs|].
  rewrite Hce, rising_between_skipn.
  replace (S k + S e') with (S (S k + e')) by lia.
  replace (S k + (List.length zf - S k)) with (List.length zf) by lia.
  ring.
Qed.

(** X6.  What [trim_excess_data] returns is one window of the three lists:
    it starts right after the first place where the flow is zero and the
    flow two places on is negative, and ends right before the last such
    place. *)
Theorem trim_excess_data_window (zt zv zf : list Q) (phl : list nat)
  (t : FVAvg.trimmed) :
  List.length zt = List.length zf -> List.length zv = List.length zf ->
  FVAvg.trim_excess_data zt zv zf phl = Py.ok t ->
  exists k e,
    S k <= e /\
    Shape.falling zf k = true /\
    (forall j, j < k -> Shape.falling zf j = false) /\
    Shape.falling zf e = true /\
    (forall j, e < j -> Shape.falling zf j = false) /\
    FVAvg.trimmed_flow t = firstn (e - S k) (skipn (S k) zf) /\
    FVAvg.trimmed_vol t = firstn (e - S k) (skipn (S k) zv) /\
    FVAvg.trimmed_time t = firstn (e - S k) (skipn (S k) zt).
Proof.
  intros HT HV E.
  destruct (@trim_excess_data_spec zt zv zf phl t HT HV E)
    as (k & e & H1 & H2 & H3 & H4 & H5 & H6 & H7 & H8 & _).
  exists k, e. repeat (split; [assumption|]). assumption.
Qed.

Lemma trim_excess_data_window_witness :
  match FVAvg.trim_excess_data (Recordings.ramp 13)
          (Recordings.ramp 13)
          [1; 0; 0; -1; -1; 0; 0; 1; 1; 0; 0; -1; -1]%Q [3; 4; 4] with
  | inr t =>
      exists k e,
        S k <= e /\
        Shape.falling [1; 0; 0; -1; -1; 0; 0; 1; 1; 0; 0; -1; -1]%Q k = true /\
        (forall j, j < k ->
           Shape.falling [1; 0; 0; -1; -1; 0; 0; 1; 1; 0; 0; -1; -1]%Q j = false) /\
        Shape.falling [1; 0; 0; -1; -1; 0; 0; 1; 1; 0; 0; -1; -1]%Q e = true /\
        (forall j, e < j ->
           Shape.falling [1; 0; 0; -1; -1; 0; 0; 1; 1; 0; 0; -1; -1]%Q j = false) /\
        FVAvg.trimmed_flow t
        = firstn (e - S k)
            (skipn (S k) [1; 0; 0; -1; -1; 0; 0; 1; 1; 0; 0; -1; -1]%Q) /\
        FVAvg.trimmed_vol t = firstn (e - S k) (skipn (S k) (Recordings.ramp 13)) /\
        FVAvg.trimmed_time t = firstn (e - S k) (skipn (S k) (Recordings.ramp 13))
  | inl _ => False
  end.
Proof.
  destruct (FVAvg.trim_excess_data _ _ _ _) as [e0|t] eqn:E.
  - vm_compute in E. discriminate.
  - exact (@trim_excess_data_window (Recordings.ramp 13) (Recordings.ramp 13)
             [1; 0; 0; -1; -1; 0; 0; 1; 1; 0; 0; -1; -1]%Q [3; 4; 4] t
             eq_refl eq_refl E).
Defined.

(** X7.  The two counters of [trim_excess_data]: [counter_start] is 1 plus
    one half for every place before the first falling place where the flow
    is zero and the flow two places on is positive; [counter_end] is one
    half for every such place after the last falling place. *)
Theorem trim_excess_data_counters (zt zv zf : list Q) (phl : list nat)
  (t : FVAvg.trimmed) :
  List.length zt = List.length zf -> List.length zv = List.length zf ->
  FVAvg.trim_excess_data zt zv zf phl = Py.ok t ->
  exists k e,
    Shape.falling zf k = true /\
    (forall j, j < k -> Shape.falling zf j = false) /\
    Shape.falling zf e = true /\
    (forall j, e < j -> Shape.falling zf j = false) /\
    (FVAvg.counter_start t
     == 1 + (1 # 2) * inject_Z (Z.of_nat (Shape.rising_between zf 0 k)))%Q /\
    (FVAvg.counter_end t
     == (1 # 2) * inject_Z (Z.of_nat (Shape.rising_between zf (S e)
                                        (List.length zf))))%Q.
Proof.
  intros HT HV E.
  destruct (@trim_excess_data_spec zt zv zf phl t HT HV E)
    as (k & e & H1 & H2 & H3 & H4 & H5 & H6 & H7 & H8 & H9 & H10).
  exists k, e. repeat (split; [assumption|]). assumption.
Qed.

Lemma trim_excess_data_counters_witness :
  match FVAvg.trim_excess_data (Recordings.ramp 15) (Recordings.ramp 15)
          [-1; 0; 0; 1; 1; 0; 0; -1; -1; 0; 0; 1; 0; 0; -1]%Q [2; 4; 4; 3] with
  | inr t =>
      exists k e,
        Shape.falling [-1; 0; 0; 1; 1; 0; 0; -1; -1; 0; 0; 1; 0; 0; -1]%Q k
        = true /\
        (forall j, j < k ->
           Shape.falling [-1; 0; 0; 1; 1; 0; 0; -1; -1; 0; 0; 1; 0; 0; -1]%Q j
           = false) /\
        Shape.falling [-1; 0; 0; 1; 1; 0; 0; -1; -1; 0; 0; 1; 0; 0; -1]%Q e
        = true /\
        (forall j, e < j ->
           Shape.falling [-1; 0; 0; 1; 1; 0; 0; -1; -1; 0; 0; 1; 0; 0; -1]%Q j
           = false) /\
        (FVAvg.counter_start t
         == 1 + (1 # 2)
                * inject_Z (Z.of_nat
                    (Shape.rising_between
                       [-1; 0; 0; 1; 1; 0; 0; -1; -1; 0; 0; 1; 0; 0; -1]%Q 0 k)))%Q /\
        (FVAvg.counter_end t
         == (1 # 2)
            * inject_Z (Z.of_nat
                (Shape.rising_between
                   [-1; 0; 0; 1; 1; 0; 0; -1; -1; 0; 0; 1; 0; 0; -1]%Q (S e) 15)))%Q
  | inl _ => False
  end.
Proof.
  destruct (FVAvg.trim_excess_data _ _ _ _) as [e0|t] eqn:E.
  - vm_compute in E. discriminate.
  - exact (@trim_excess_data_counters (Recordings.ramp 15) (Recordings.ramp 15)
             [-1; 0; 0; 1; 1; 0; 0; -1; -1; 0; 0; 1; 0; 0; -1]%Q [2; 4; 4; 3] t
             eq_refl eq_refl E).
Defined.

(* ------------------------------------------------------------------ *)
(** * Further properties of the time bins *)
(* ------------------------------------------------------------------ *)

(** With no breath to process, whatever the lists, [process_time_bins]
    divides the shift 0 by [number_of_breaths * 2 = 0] and raises
    [ZeroDivisionError]. *)
Lemma process_time_bins_without_breaths (zt zv zf : list Q)
  (phl : list nat) (intervals : nat) :
  TimeBins.process_time_bins zt zv zf phl intervals 0
  = Py.raise Py.ZeroDivisionError.
Proof. reflexivity. Qed.

(** X8.  A recording that the detector and the trimmer accept but in which
    the trimmer counts no breath makes [process_fvavg] raise
    [ZeroDivisionError]. *)
Theorem process_fvavg_without_a_full_breath (T V F : list Q) (intervals : nat)
  (t : FVAvg.trimmed) :
  FVAvg.detect_and_trim T V F = Py.ok t ->
  FVAvg.number_of_breaths t = 0 ->
  Pipeline.process_fvavg T V F intervals = Py.raise Py.ZeroDivisionError.
Proof.
  unfold FVAvg.detect_and_trim, Pipeline.process_fvavg.
  destruct (FVAvg.find_zero_flow_points T V F) as [e|[[[zt zv] zf] phl]];
    [discriminate|].
  cbv beta iota delta [Py.rbind]. intros E HB. rewrite E.
  cbv beta iota delta [Py.rbind Py.ok]. rewrite HB. reflexivity.
Qed.

Lemma process_fvavg_without_a_full_breath_witness :
  Pipeline.process_fvavg (Recordings.ramp 92)
    (Recordings.integrate 0%Q Recordings.zero_start_flow)
    Recordings.zero_start_flow 100 = Py.raise Py.ZeroDivisionError.
Proof.
  destruct (FVAvg.detect_and_trim (Recordings.ramp 92)
              (Recordings.integrate 0%Q Recordings.zero_start_flow)
              Recordings.zero_start_flow) as [e|t] eqn:E.
  - vm_compute in E. discriminate.
  - refine (@process_fvavg_without_a_full_breath _ _ _ 100 t E _).
    vm_compute in E. injection E as <-. reflexivity.
Defined.

Section Peeling.
Import Py TimeBins.
Local Open Scope py_scope.

Lemma peel_spec (n : nat) :
  forall (l a b : list Q),
    peel n l = ok (a, b) ->
    a = firstn n l /\ b = skipn n l /\ n <= List.length l.
Proof.
  induction n as [|n IH]; intros l a b.
  - simpl. intros [= <- <-]. repeat split. lia.
  - destruct l as [|x l]; [discriminate|].
    cbn [peel]. destruct (peel n l) as [e|[a' b']] eqn:E; [discriminate|].
    cbv beta iota delta [rbind ok fst snd]. intros [= <- <-].
    destruct (IH _ _ _ E) as (-> & -> & L).
    repeat split. simpl. lia.
Qed.

Lemma peel_err (n : nat) :
  forall (l : list Q) e, peel n l = inl e -> e = IndexError.
Proof.
  induction n as [|n IH]; intros l e; [discriminate|].
  destruct l as [|x l]; [now intros [= <-]|].
  cbn [peel]. destruct (peel n l) as [e'|r] eqn:E; [|discriminate].
  cbv beta iota delta [rbind]. intros [= <-]. eapply IH; eauto.
Qed.

Lemma index_0_nth (l : list Q) (x : Q) :
  index l 0 = ok x -> x = nth 0 l 0%Q /\ 1 <= List.length l.
Proof.
  destruct l as [|y l]; [discriminate|].
  rewrite index_cons_0. intros [= <-]. split; [reflexivity | simpl; lia].
Qed.

Lemma peel_time_spec (n : nat) (l a b : list Q) :
  peel_time n l = ok (a, b) ->
  a = map (fun t => (t - nth 0 l 0)%Q) (firstn n l) /\ b = skipn n l /\
  n <= List.length l /\ 1 <= List.length l.
Proof.
  unfold peel_time.
  destruct (index l 0) as [e|t0] eqn:E0; [discriminate|].
  apply index_0_nth in E0. destruct E0 as [-> L0].
  cbv beta iota delta [rbind].
  destruct (peel n l) as [e|[a' b']] eqn:E; [discriminate|].
  cbv beta iota delta [rbind ok fst snd]. intros [= <- <-].
  destruct (peel_spec _ _ E) as (-> & -> & L). auto.
Qed.

Lemma peel_time_err (n : nat) (l : list Q) e :
  peel_time n l = inl e -> e = IndexError.
Proof.
  unfold peel_time.
  destruct (index l 0) as [e'|t0] eqn:E0.
  - intros [= <-]. eapply index_err; eauto.
  - cbv beta iota delta [rbind].
    destruct (peel n l) as [e'|r] eqn:E; [|discriminate].
    intros [= <-]. eapply peel_err; eauto.
Qed.

Lemma del_first_spec (l l' : list nat) :
  del_first l = ok l' -> exists x, l = x :: l'.
Proof. destruct l as [|x l]; [discriminate|]. intros [= <-]. eauto. Qed.

Lemma index_0_cons (l : list nat) (x : nat) :
  index l 0 = ok x -> exists l', l = x :: l'.
Proof.
  destruct l as [|y l]; [discriminate|].
  rewrite index_cons_0. intros [= <-]. eauto.
Qed.

Lemma index_minus1_inv (l : list Q) (x : Q) :
  index l (-1) = ok x -> 1 <= List.length l.
Proof. destruct l; [discriminate | simpl; lia]. Qed.

(** One iteration of the first loop of [process_time_bins]: the two
    phases are the next [n1] and [n2] entries of the three lists, their
    times taken from the first time of the phase. *)
Lemma resample_breath_spec (K : nat) (zt zv zf : list Q) (phl : list nat)
  (r : resampled) (zt' zv' zf' : list Q) (phl' : list nat) :
  resample_breath K (zt, zv, zf, phl) = ok (r, (zt', zv', zf', phl')) ->
  exists n1 n2,
    phl = n1 :: n2 :: phl' /\ 1 <= n1 /\ 1 <= n2 /\
    n1 + n2 <= List.length zt /\ n1 + n2 <= List.length zv /\
    n1 + n2 <= List.length zf /\
    Insp_Time (original r)
    = map (fun t => (t - nth 0 zt 0)%Q) (firstn n1 zt) /\
    Insp_Vol (original r) = firstn n1 zv /\
    Insp_Flow (original r) = firstn n1 zf /\
    Exp_Time (original r)
    = map (fun t => (t - nth n1 zt 0)%Q) (firstn n2 (skipn n1 zt)) /\
    Exp_Vol (original r) = firstn n2 (skipn n1 zv) /\
    Exp_Flow (original r) = firstn n2 (skipn n1 zf) /\
    zt' = skipn (n1 + n2) zt /\ zv' = skipn (n1 + n2) zv /\
    zf' = skipn (n1 + n2) zf /\
    intervals_of (Tt_Insp r) K = ok (Insp_Time (bins r)) /\
    intervals_of (Tt_Exp r) K = ok (Exp_Time (bins r)) /\
    interpolate (Insp_Time (original r)) (Insp_Vol (original r))
      (Insp_Flow (original r)) (is_last_insp (Insp_Time (original r)))
      (Insp_Time (bins r))
    = ok (Insp_Vol (bins r), Insp_Flow (bins r)) /\
    interpolate (Exp_Time (original r)) (Exp_Vol (original r))
      (Exp_Flow (original r)) (is_last_exp (Exp_Time (original r)))
      (Exp_Time (bins r))
    = ok (Exp_Vol (bins r), Exp_Flow (bins r)) /\
    index (Insp_Time (original r)) (-1) = ok (Tt_Insp r) /\
    index (Exp_Time (original r)) (-1) = ok (Tt_Exp r) /\
    (exists a b, index (Insp_Vol (original r)) (-1) = ok a /\
                 index (Insp_Vol (original r)) 0 = ok b /\
                 Vt_Insp r = Qabs (a - b)) /\
    (exists a b, index (Exp_Vol (original r)) (-1) = ok a /\
                 index (Exp_Vol (original r)) 0 = ok b /\
                 Vt_Exp r = Qabs (a - b)).
Proof.
  unfold resample_breath.
  destruct (index phl 0) as [e|n1] eqn:E1; [discriminate|].
  apply index_0_cons in E1. destruct E1 as [phl1 ->].
  cbv beta iota delta [rbind].
  destruct (peel_time n1 zt) as [e|[it zt1]] eqn:Pt1; [discriminate|].
  destruct (peel n1 zv) as [e|[iv zv1]] eqn:Pv1; [discriminate|].
  destruct (peel n1 zf) as [e|[ifl zf1]] eqn:Pf1; [discriminate|].
  cbv beta iota delta [rbind del_first ok].
  destruct (index phl1 0) as [e|n2] eqn:E2; [discriminate|].
  apply index_0_cons in E2. destruct E2 as [phl2 ->].
  destruct (peel_time n2 zt1) as [e|[et zt2]] eqn:Pt2; [discriminate|].
  destruct (peel n2 zv1) as [e|[ev zv2]] eqn:Pv2; [discriminate|].
  destruct (peel n2 zf1) as [e|[efl zf2]] eqn:Pf2; [discriminate|].
  destruct (index it (-1)) as [e|tti] eqn:Ti; [discriminate|].
  destruct (index et (-1)) as [e|tte] eqn:Te; [discriminate|].
  destruct (index iv (-1)) as [e|ivl] eqn:Vi1; [discriminate|].
  destruct (index iv 0) as [e|ivf] eqn:Vi0; [discriminate|].
  destruct (index ev (-1)) as [e|evl] eqn:Ve1; [discriminate|].
  destruct (index ev 0) as [e|evf] eqn:Ve0; [discriminate|].
  destruct (intervals_of tti K) as [e|tgi] eqn:Gi; [discriminate|].
  destruct (intervals_of tte K) as [e|tge] eqn:Ge; [discriminate|].
  destruct (interpolate it iv ifl (is_last_insp it) tgi) as [e|[ov of']] eqn:Ii;
    [discriminate|].
  destruct (interpolate et ev efl (is_last_exp et) tge) as [e|[ov' of'']] eqn:Ie;
    [discriminate|].
  cbv beta iota delta [fst snd]. intros [= <- <- <- <- <-].
  cbn [original bins Insp_Time Insp_Vol Insp_Flow Exp_Time Exp_Vol Exp_Flow
       Tt_Insp Tt_Exp Vt_Insp Vt_Exp].
  pose proof (index_minus1_inv _ Ti) as Li.
  pose proof (index_minus1_inv _ Te) as Le.
  destruct (peel_time_spec _ _ Pt1) as (Hit & -> & L1 & _).
  destruct (peel_spec _ _ Pv1) as (-> & -> & L2).
  destruct (peel_spec _ _ Pf1) as (-> & -> & L3).
  destruct (peel_time_spec _ _ Pt2) as (Het & -> & L4 & _).
  destruct (peel_spec _ _ Pv2) as (-> & -> & L5).
  destruct (peel_spec _ _ Pf2) as (-> & -> & L6).
  rewrite length_skipn in *.
  assert (N1 : 1 <= n1).
  { rewrite Hit, length_map, length_firstn in Li. lia. }
  assert (N2 : 1 <= n2).
  { rewrite Het, length_map, length_firstn, length_skipn in Le. lia. }
  exists n1, n2.
  split; [reflexivity|]. split; [assumption|]. split; [assumption|].
  split; [lia|]. split; [lia|]. split; [lia|].
  split; [assumption|]. split; [reflexivity|]. split; [reflexivity|].
  split.
  { rewrite Het. apply map_ext. intros t.
    destruct (skipn n1 zt) as [|x l] eqn:Es.
    - apply (f_equal (@List.length Q)) in Es. rewrite length_skipn in Es.
      simpl in Es. lia.
    - assert (Hn : nth_error zt n1 = Some x).
      { rewrite <- (Nat.add_0_r n1), <- nth_error_skipn, Es. reflexivity. }
      now rewrite (nth_error_nth _ _ _ Hn). }
  split; [reflexivity|]. split; [reflexivity|].
  rewrite !skipn_skipn. rewrite (Nat.add_comm n2 n1).
  split; [reflexivity|]. split; [reflexivity|]. split; [reflexivity|].
  split; [assumption|]. split; [assumption|].
  split; [assumption|]. split; [assumption|].
  split; [assumption|]. split; [assumption|].
  split; [exists ivl, ivf | exists evl, evf]; auto.
Qed.

End Peeling.

Section Originals.
Import Py TimeBins.
Local Open Scope py_scope.

Lemma firstn_add (l : list Q) (a b : nat) :
  firstn (a + b) l = firstn a l ++ firstn b (skipn a l).
Proof.
  revert l. induction a as [|a IH]; intros l; [reflexivity|].
  destruct l as [|x l]; [now rewrite !firstn_nil|].
  simpl. now rewrite IH.
Qed.

Lemma nth_0_rebased (l : list Q) (n : nat) (t0 : Q) :
  1 <= n -> 1 <= List.length l ->
  (nth 0 (map (fun t => (t - nth 0 l 0)%Q) (firstn n l)) t0 == 0)%Q.
Proof.
  intros Hn Hl. destruct l as [|x l]; [simpl in Hl; lia|].
  destruct n as [|n]; [lia|]. simpl. ring.
Qed.

(** The first loop of [process_time_bins] cuts the three lists at the
    phase lengths, two phases per breath, in order. *)
Lemma resample_all_spec (K B : nat) :
  forall (zt zv zf : list Q) (phl : list nat) (rs : list resampled),
    resample_all K B (zt, zv, zf, phl) = ok rs ->
    2 * B <= List.length phl /\
    flat_map (fun r => [List.length (Insp_Vol (original r));
                        List.length (Exp_Vol (original r))]) rs
    = firstn (2 * B) phl /\
    flat_map (fun r => Insp_Vol (original r) ++ Exp_Vol (original r)) rs
    = firstn (list_sum (firstn (2 * B) phl)) zv /\
    flat_map (fun r => Insp_Flow (original r) ++ Exp_Flow (original r)) rs
    = firstn (list_sum (firstn (2 * B) phl)) zf /\
    list_sum (firstn (2 * B) phl) <= List.length zt /\
    list_sum (firstn (2 * B) phl) <= List.length zv /\
    list_sum (firstn (2 * B) phl) <= List.length zf /\
    Forall (fun r =>
              List.length (Insp_Time (original r))
              = List.length (Insp_Vol (original r)) /\
              List.length (Insp_Flow (original r))
              = List.length (Insp_Vol (original r)) /\
              List.length (Exp_Time (original r))
              = List.length (Exp_Vol (original r)) /\
              List.length (Exp_Flow (original r))
              = List.length (Exp_Vol (original r)) /\
              (nth 0 (Insp_Time (original r)) 0 == 0)%Q /\
              (nth 0 (Exp_Time (original r)) 0 == 0)%Q) rs.
Proof.
  induction B as [|B IH]; intros zt zv zf phl rs.
  - simpl. intros [= <-]. simpl. repeat split; try lia. constructor.
  - cbn [resample_all].
    destruct (resample_breath K (zt, zv, zf, phl))
      as [e|[r [[[zt' zv'] zf'] phl']]] eqn:E; [discriminate|].
    cbv beta iota delta [rbind snd fst].
    destruct (resample_all K B (zt', zv', zf', phl')) as [e|rs'] eqn:E';
      [discriminate|].
    cbv beta iota delta [rbind ok]. intros [= <-].
    destruct (resample_breath_spec _ _ _ _ _ E)
      as (n1 & n2 & -> & N1 & N2 & Lt & Lv & Lf & Ht1 & Hv1 & Hf1 & Ht2 & Hv2
          & Hf2 & -> & -> & -> & _).
    destruct (IH _ _ _ _ _ E') as (LB & Hlen & Hvol & Hflow & St & Sv & Sf & Hall).
    rewrite !length_skipn in *.
    replace (2 * S B) with (S (S (2 * B))) by lia.
    cbn [firstn list_sum fold_right flat_map List.length].
    rewrite Hlen, Hvol, Hflow.
    fold (list_sum (firstn (2 * B) phl')).
    assert (Ev : List.length (Insp_Vol (original r)) = n1)
      by (rewrite Hv1, length_firstn; lia).
    assert (Ev2 : List.length (Exp_Vol (original r)) = n2)
      by (rewrite Hv2, length_firstn, length_skipn; lia).
    split; [lia|]. split; [now rewrite Ev, Ev2|].
    rewrite Nat.add_assoc.
    split.
    { rewrite (firstn_add zv (n1 + n2)), (firstn_add zv n1), Hv1, Hv2.
      now rewrite <- app_assoc. }
    split.
    { rewrite (firstn_add zf (n1 + n2)), (firstn_add zf n1), Hf1, Hf2.
      now rewrite <- app_assoc. }
    split; [lia|]. split; [lia|]. split; [lia|].
    constructor; [|assumption].
    rewrite Ht1, Ht2, Hv1, Hv2, Hf1, Hf2, !length_map, !length_firstn,
      !length_skipn.
    split; [lia|]. split; [lia|]. split; [lia|]. split; [lia|].
    split.
    + apply nth_0_rebased; lia.
    + destruct (skipn n1 zt) as [|x l] eqn:Es.
      * apply (f_equal (@List.length Q)) in Es. rewrite length_skipn in Es.
        simpl in Es. lia.
      * assert (Hn : nth_error zt n1 = Some x).
        { rewrite <- (Nat.add_0_r n1), <- nth_error_skipn, Es. reflexivity. }
        rewrite (nth_error_nth _ _ _ Hn).
        destruct n2 as [|n2]; [lia|]. simpl. ring.
Qed.

End Originals.

(** X9.  The original phases that [process_time_bins] keeps are the
    trimmed recording cut at the phase lengths: read in order, two phases
    per breath, their volumes and flows are the first entries of the
    volume and flow lists, as many as the first [2 * number_of_breaths]
    phase lengths add up to; nothing is dropped or reordered.  Each
    phase carries its own clock, which starts at 0. *)
Theorem original_phases_partition_the_recording (zt zv zf : list Q)
  (phl : list nat) (K B : nat) (r : TimeBins.time_bins_result) :
  TimeBins.process_time_bins zt zv zf phl K B = Py.ok r ->
  Shape.cut_at_phases zv zf phl B (TimeBins.original_data_breath_dictionary r).
Proof.
  unfold TimeBins.process_time_bins.
  destruct (TimeBins.resample_all K B (zt, zv, zf, phl)) as [e|rs] eqn:E;
    [discriminate|].
  cbv beta iota delta [Py.rbind].
  destruct (TimeBins.normalize _ _ _ _ _) as [e|n]; [discriminate|].
  cbv beta iota delta [Py.rbind].
  destruct (Aggregate.aggregate _ _ _ _ _ _ _) as [e|a]; [discriminate|].
  cbv beta iota delta [Py.rbind Py.ok]. intros [= <-].
  cbn [TimeBins.original_data_breath_dictionary]. unfold Shape.cut_at_phases.
  destruct (resample_all_spec _ _ _ _ _ _ E)
    as (LB & Hlen & Hvol & Hflow & St & Sv & Sf & Hall).
  rewrite length_map, (resample_all_length _ _ _ E).
  rewrite !flat_map_concat_map, !map_map, <- !flat_map_concat_map.
  split; [reflexivity|]. split; [assumption|].
  split; [assumption|]. split; [assumption|]. split; [assumption|].
  split; [assumption|]. split; [assumption|].
  apply Forall_map. eapply Forall_impl; [|exact Hall].
  cbv beta. intros x (H1 & _ & H3 & _ & H5 & H6). auto.
Qed.

Lemma original_phases_partition_the_recording_witness :
  match TimeBins.process_time_bins [4; 5; 6; 7]%Q [3; 1; 1; 3]%Q
          [0; -2; 0; 2]%Q [2; 2] 2 1 with
  | inr r =>
      Shape.cut_at_phases [3; 1; 1; 3]%Q [0; -2; 0; 2]%Q [2; 2] 1
        (TimeBins.original_data_breath_dictionary r)
  | inl _ => False
  end.
Proof.
  destruct (TimeBins.process_time_bins _ _ _ _ _ _) as [e|r] eqn:E.
  - vm_compute in E. discriminate.
  - exact (@original_phases_partition_the_recording _ _ _ _ _ _ r E).
Defined.

Section NormalizeKeeps.
Import Py TimeBins Shape.
Local Open Scope py_scope.

Lemma update_range_spec (f : Q -> result Q) (n : nat) :
  forall l l',
    update_range f n l = ok l' ->
    List.length l' = List.length l /\ n <= List.length l /\
    (0 < n -> exists x y, nth_error l 0 = Some x /\ f x = ok y).
Proof.
  induction n as [|n IH]; intros l l'.
  - simpl. intros [= <-]. repeat split; lia.
  - destruct l as [|x l]; [discriminate|]. cbn [update_range].
    destruct (f x) as [e|y] eqn:Ef; [discriminate|].
    cbv beta iota delta [rbind].
    destruct (update_range f n l) as [e|r] eqn:E; [discriminate|].
    cbv beta iota delta [rbind ok]. intros [= <-].
    destruct (IH _ _ E) as (L1 & L2 & _).
    simpl. repeat split; try lia. intros _. exists x, y. auto.
Qed.

Lemma same_but_volumes_set_vols (b : breath) (iv ev : list Q) :
  List.length iv = List.length (Insp_Vol b) ->
  List.length ev = List.length (Exp_Vol b) ->
  same_but_volumes b (set_vols b iv ev).
Proof.
  intros H1 H2. unfold same_but_volumes, set_vols. simpl.
  repeat split; assumption.
Qed.

Lemma same_but_volumes_trans (a b c : breath) :
  same_but_volumes a b -> same_but_volumes b c -> same_but_volumes a c.
Proof.
  unfold same_but_volumes.
  intros (A1 & A2 & A3 & A4 & A5 & A6) (B1 & B2 & B3 & B4 & B5 & B6).
  repeat split; congruence.
Qed.

Lemma shift_all_keeps (K : nat) :
  forall d ms d' ms',
    shift_all K d ms = ok (d', ms') ->
    Forall2 same_but_volumes d d' /\
    Forall (fun b => K + 1 <= List.length (Insp_Vol b) /\
                     K + 1 <= List.length (Exp_Vol b)) d.
Proof.
  induction d as [|b d IH]; intros ms d' ms'.
  - simpl. intros [= <- <-]. split; constructor.
  - cbn [shift_all]. unfold shift_breath at 1.
    destruct (index (Insp_Vol b) (-1)) as [e|si]; [discriminate|].
    cbv beta iota delta [rbind].
    destruct (update_range _ (K + 1) (Insp_Vol b)) as [e|iv] eqn:E1;
      [discriminate|].
    cbv beta iota delta [rbind].
    destruct (index (Exp_Vol b) 0) as [e|se]; [discriminate|].
    cbv beta iota delta [rbind].
    destruct (update_range _ (K + 1) (Exp_Vol b)) as [e|ev] eqn:E2;
      [discriminate|].
    cbv beta iota delta [rbind ok snd fst].
    destruct (shift_all K d _) as [e|[d1 ms1]] eqn:E; [discriminate|].
    cbv beta iota delta [rbind ok snd fst]. intros [= <- <-].
    destruct (update_range_spec _ _ _ E1) as (L1 & L2 & _).
    destruct (update_range_spec _ _ _ E2) as (L3 & L4 & _).
    destruct (IH _ _ _ E) as [H1 H2].
    split; constructor; auto.
    now apply same_but_volumes_set_vols.
Qed.

Lemma rescale_ok_nonzero (vts : list Q) (i : nat) (avg x y : Q) :
  (vt <~ index vts (Z.of_nat i) ;; rescale vt avg x) = ok y ->
  i < List.length vts /\ ~ (nth i vts 0 == 0)%Q.
Proof.
  destruct (index vts (Z.of_nat i)) as [e|vt] eqn:E; [discriminate|].
  pose proof (index_nat_inv _ _ E) as L.
  apply index_nat_nth in E. subst vt.
  cbv beta iota delta [rbind]. unfold rescale, div.
  destruct (Qeq_bool (nth i vts 0%Q) 0) eqn:B; [discriminate|].
  intros _. split; [assumption|].
  intros H. apply Qeq_bool_iff in H. congruence.
Qed.

Lemma rescale_all_keeps (K : nat) (vti vte : list Q) (ai ae : Q) :
  forall d i d',
    rescale_all K vti vte ai ae i d = ok d' ->
    Forall2 same_but_volumes d d' /\
    (forall j, j < List.length d ->
       i + j < List.length vti /\ ~ (nth (i + j) vti 0 == 0)%Q /\
       i + j < List.length vte /\ ~ (nth (i + j) vte 0 == 0)%Q).
Proof.
  induction d as [|b d IH]; intros i d'.
  - simpl. intros [= <-]. split; [constructor|]. intros j Hj. inversion Hj.
  - cbn [rescale_all].
    destruct (update_range _ (K + 1) (Insp_Vol b)) as [e|iv] eqn:E1;
      [discriminate|].
    cbv beta iota delta [rbind].
    destruct (update_range _ (K + 1) (Exp_Vol b)) as [e|ev] eqn:E2;
      [discriminate|].
    cbv beta iota delta [rbind].
    destruct (rescale_all K vti vte ai ae (S i) d) as [e|d1] eqn:E;
      [discriminate|].
    cbv beta iota delta [rbind ok]. intros [= <-].
    destruct (update_range_spec _ _ _ E1) as (L1 & L2 & X1).
    destruct (update_range_spec _ _ _ E2) as (L3 & L4 & X2).
    destruct (X1 ltac:(lia)) as (x1 & y1 & _ & F1).
    destruct (X2 ltac:(lia)) as (x2 & y2 & _ & F2).
    apply rescale_ok_nonzero in F1, F2.
    destruct (IH _ _ E) as [H1 H2].
    split; [constructor; auto; now apply same_but_volumes_set_vols|].
    intros [|j] Hj.
    + rewrite Nat.add_0_r. tauto.
    + replace (i + S j) with (S i + j) by lia. apply H2.
      simpl in Hj. lia.
Qed.

Lemma Forall2_trans_same (d1 d2 d3 : list breath) :
  Forall2 same_but_volumes d1 d2 -> Forall2 same_but_volumes d2 d3 ->
  Forall2 same_but_volumes d1 d3.
Proof.
  intros H. revert d3. induction H as [|a b l1 l2 Hab _ IH]; intros d3 H3.
  - inversion H3. constructor.
  - inversion H3 as [|b' c l2' l3 Hbc H3' E1 E2]; subst.
    constructor; [eapply same_but_volumes_trans; eauto | now apply IH].
Qed.

Lemma intervals_of_positive (total : Q) (K : nat) (l : list Q) :
  intervals_of total K = ok l -> 0 < K.
Proof.
  unfold intervals_of, div. destruct K as [|K]; [discriminate | lia].
Qed.

Lemma Forall_nth_nonzero (l : list Q) :
  (forall j, j < List.length l -> ~ (nth j l 0 == 0)%Q) ->
  Forall (fun v => ~ (v == 0)%Q) l.
Proof.
  intros H. apply Forall_forall. intros x Hx.
  destruct (In_nth _ _ 0%Q Hx) as (j & Hj & <-). now apply H.
Qed.

End NormalizeKeeps.

Section AggregateReads.
Import Py Aggregate.
Local Open Scope py_scope.

Lemma column_reads (arrays : list (list Q)) (j : nat) (c : list Q) :
  column arrays j = ok c -> Forall (fun a => j < List.length a) arrays.
Proof.
  revert c. induction arrays as [|a arrays IH]; intros c; [constructor|].
  cbn [column].
  destruct (index a (Z.of_nat j)) as [e|x] eqn:E; [discriminate|].
  cbv beta iota delta [rbind].
  destruct (column arrays j) as [e|r] eqn:E'; [discriminate|].
  intros _. constructor; [eapply index_nat_inv; eauto | eapply IH; eauto].
Qed.

Lemma aggregate_loop_reads (shift : option Q) (B : nat)
  (iv ev ifl efl : list (list Q)) (js : list nat) :
  forall acc a,
    aggregate_loop shift B iv ev ifl efl js acc = ok a ->
    forall j, In j js ->
      0 < B /\
      Forall (fun x => j < List.length x) iv /\
      Forall (fun x => j < List.length x) ev /\
      Forall (fun x => j < List.length x) ifl /\
      Forall (fun x => j < List.length x) efl.
Proof.
  induction js as [|j0 js IH]; intros acc a; [intros _ j []|].
  cbn [aggregate_loop]. unfold aggregate_row at 1.
  destruct (column iv j0) as [e|c1] eqn:C1; [discriminate|].
  cbv beta iota delta [rbind].
  destruct (aggregate_bin shift B c1) as [e|r1] eqn:A1; [discriminate|].
  destruct (column ev j0) as [e|c2] eqn:C2; [discriminate|].
  destruct (aggregate_bin shift B c2) as [e|r2]; [discriminate|].
  destruct (column ifl j0) as [e|c3] eqn:C3; [discriminate|].
  destruct (aggregate_bin None B c3) as [e|r3]; [discriminate|].
  destruct (column efl j0) as [e|c4] eqn:C4; [discriminate|].
  destruct (aggregate_bin None B c4) as [e|r4]; [discriminate|].
  cbv beta iota delta [ok]. intros H j [<-|Hj].
  - split.
    + unfold aggregate_bin, div in A1. destruct B; [discriminate | lia].
    + repeat split; eapply column_reads; eauto.
  - eapply IH; eauto.
Qed.

End AggregateReads.

(** X10.  The normalization of [process_time_bins] touches the volume
    arrays only: the normalized dictionary and the copy taken before the
    normalization have the same breaths with the same times and flows, and
    volume arrays of the same lengths. *)
Theorem normalization_keeps_times_and_flows (zt zv zf : list Q)
  (phl : list nat) (K B : nat) (r : TimeBins.time_bins_result) :
  TimeBins.process_time_bins zt zv zf phl K B = Py.ok r ->
  Forall2 Shape.same_but_volumes (TimeBins.time_bin_copy r)
    (TimeBins.time_bins_breath_dictionary r).
Proof.
  unfold TimeBins.process_time_bins.
  destruct (TimeBins.resample_all K B (zt, zv, zf, phl)) as [e|rs] eqn:E;
    [discriminate|].
  cbv beta iota delta [Py.rbind].
  destruct (TimeBins.normalize _ _ _ _ _) as [e|n] eqn:En; [discriminate|].
  cbv beta iota delta [Py.rbind].
  destruct (Aggregate.aggregate _ _ _ _ _ _ _) as [e|a]; [discriminate|].
  cbv beta iota delta [Py.rbind Py.ok]. intros [= <-].
  cbn [TimeBins.time_bin_copy TimeBins.time_bins_breath_dictionary].
  unfold TimeBins.normalize in En.
  destruct (TimeBins.shift_all K _ 0) as [e|[d1 total]] eqn:Es; [discriminate|].
  cbv beta iota delta [Py.rbind] in En.
  destruct (Py.div _ _) as [e|ms]; [discriminate|].
  destruct (Py.mean _) as [e|ai]; [discriminate|].
  destruct (Py.mean _) as [e|ae]; [discriminate|].
  cbv beta iota delta [Py.rbind] in En.
  destruct (TimeBins.rescale_all _ _ _ _ _ _ _) as [e|d2] eqn:Er; [discriminate|].
  cbv beta iota delta [Py.rbind Py.ok] in En. injection En as <-.
  cbn [TimeBins.rescaled].
  eapply Forall2_trans_same.
  - exact (proj1 (shift_all_keeps _ _ _ Es)).
  - exact (proj1 (rescale_all_keeps _ _ _ _ _ _ _ Er)).
Qed.

Lemma normalization_keeps_times_and_flows_witness :
  match TimeBins.process_time_bins [4; 5; 6; 7]%Q [3; 1; 1; 3]%Q
          [0; -2; 0; 2]%Q [2; 2] 2 1 with
  | inr r =>
      Forall2 Shape.same_but_volumes (TimeBins.time_bin_copy r)
        (TimeBins.time_bins_breath_dictionary r)
  | inl _ => False
  end.
Proof.
  destruct (TimeBins.process_time_bins _ _ _ _ _ _) as [e|r] eqn:E.
  - vm_compute in E. discriminate.
  - exact (@normalization_keeps_times_and_flows _ _ _ _ _ _ r E).
Defined.
Section Returned.
Import Py TimeBins Shape.
Local Open Scope py_scope.

Lemma flows_from_normalized (K : nat) (d d' : list breath) :
  Forall2 same_but_volumes d d' ->
  Forall (fun x => K < List.length x) (map Insp_Flow d') ->
  Forall (fun x => K < List.length x) (map Exp_Flow d') ->
  Forall (fun b => K + 1 <= List.length (Insp_Flow b) /\
                   K + 1 <= List.length (Exp_Flow b)) d.
Proof.
  induction 1 as [|b b' d d' Hb _ IH]; simpl; intros H1 H2; [constructor|].
  inversion H1 as [|? ? A1 A2]; inversion H2 as [|? ? B1 B2]; subst.
  destruct Hb as (_ & Ef & _ & Ee & _).
  constructor; [|now apply IH].
  rewrite <- Ef, <- Ee. lia.
Qed.

Lemma Forall2_same_length (d d' : list breath) :
  Forall2 same_but_volumes d d' -> List.length d' = List.length d.
Proof. induction 1; simpl; congruence. Qed.

End Returned.

(** X11.  [process_time_bins] returns only on an input that gives it at
    least one breath and at least one interval, no inspiratory or
    expiratory tidal volume equal to zero, and at least [intervals + 1]
    bins in each of the four arrays of every breath; on any other input it
    raises. *)
Theorem process_time_bins_returns_only_if (zt zv zf : list Q)
  (phl : list nat) (K B : nat) (r : TimeBins.time_bins_result) :
  TimeBins.process_time_bins zt zv zf phl K B = Py.ok r ->
  Shape.returned_from K B r.
Proof.
  unfold TimeBins.process_time_bins.
  destruct (TimeBins.resample_all K B (zt, zv, zf, phl)) as [e|rs] eqn:E;
    [discriminate|].
  cbv beta iota delta [Py.rbind].
  destruct (TimeBins.normalize _ _ _ _ _) as [e|n] eqn:En; [discriminate|].
  cbv beta iota delta [Py.rbind].
  destruct (Aggregate.aggregate _ _ _ _ _ _ _) as [e|a] eqn:Ea; [discriminate|].
  cbv beta iota delta [Py.rbind Py.ok]. intros [= <-].
  unfold Shape.returned_from.
  cbn [TimeBins.time_bin_copy TimeBins.Vt_Insp_list TimeBins.Vt_Exp_list].
  pose proof (resample_all_length _ _ _ E) as LB.
  unfold TimeBins.normalize in En.
  destruct (TimeBins.shift_all K _ 0) as [e|[d1 total]] eqn:Es; [discriminate|].
  cbv beta iota delta [Py.rbind] in En.
  destruct (Py.div _ _) as [e|ms] eqn:Ed; [discriminate|].
  destruct (Py.mean _) as [e|ai]; [discriminate|].
  destruct (Py.mean _) as [e|ae]; [discriminate|].
  cbv beta iota delta [Py.rbind] in En.
  destruct (TimeBins.rescale_all _ _ _ _ _ _ _) as [e|d2] eqn:Er; [discriminate|].
  cbv beta iota delta [Py.rbind Py.ok] in En. injection En as <-.
  cbn [TimeBins.rescaled TimeBins.Mean_shift] in Ea.
  destruct (shift_all_keeps _ _ _ Es) as [S1 S2].
  destruct (rescale_all_keeps _ _ _ _ _ _ _ Er) as [R1 R2].
  assert (HB : 0 < B).
  { unfold Py.div in Ed. destruct B; [discriminate | lia]. }
  assert (HK : 0 < K).
  { destruct B as [|B']; [lia|]. cbn [TimeBins.resample_all] in E.
    destruct (TimeBins.resample_breath K (zt, zv, zf, phl))
      as [e|[r0 [[[zt' zv'] zf'] phl']]] eqn:E0; [discriminate|].
    destruct (resample_breath_spec _ _ _ _ _ E0)
      as (n1 & n2 & _ & _ & _ & _ & _ & _ & _ & _ & _ & _ & _ & _ & _ & _ & _
          & Hi & _).
    eapply intervals_of_positive; eauto. }
  assert (L1 : List.length d1 = List.length rs).
  { rewrite (Forall2_same_length S1). apply length_map. }
  rewrite !length_map.
  split; [assumption|]. split; [assumption|].
  split; [assumption|]. split; [assumption|]. split; [assumption|].
  split.
  { apply Forall_nth_nonzero. rewrite length_map. intros j Hj.
    apply (R2 j). lia. }
  split.
  { apply Forall_nth_nonzero. rewrite length_map. intros j Hj.
    apply (R2 j). lia. }
  unfold Aggregate.aggregate in Ea.
  destruct (aggregate_loop_reads _ _ _ _ _ _ _ _ Ea K)
    as (_ & _ & _ & F3 & F4).
  { unfold Py.range. apply in_seq. lia. }
  pose proof (@flows_from_normalized K _ _
                (Forall2_trans_same S1 R1) F3 F4) as FF.
  apply Forall_forall. intros b Hb.
  pose proof (proj1 (Forall_forall _ _) S2 b Hb) as [V1 V2].
  pose proof (proj1 (Forall_forall _ _) FF b Hb) as [W1 W2].
  auto.
Qed.

Lemma process_time_bins_returns_only_if_witness :
  match TimeBins.process_time_bins [4; 5; 6; 7]%Q [3; 1; 1; 3]%Q
          [0; -2; 0; 2]%Q [2; 2] 2 1 with
  | inr r => Shape.returned_from 2 1 r
  | inl _ => False
  end.
Proof.
  destruct (TimeBins.process_time_bins _ _ _ _ _ _) as [e|r] eqn:E.
  - vm_compute in E. discriminate.
  - exact (@process_time_bins_returns_only_if _ _ _ _ _ _ r E).
Defined.

(* ------------------------------------------------------------------ *)
(** * The time-bin interpolation on increasing sample times *)
(* ------------------------------------------------------------------ *)

Lemma Qltb_true (a b : Q) : (a < b)%Q -> Py.Qltb a b = true.
Proof.
  intros H. unfold Py.Qltb. apply negb_true_iff.
  destruct (Qle_bool b a) eqn:E; [|reflexivity].
  apply Qle_bool_iff in E. exfalso. exact (Qlt_not_le _ _ H E).
Qed.

Lemma Qltb_false (a b : Q) : (b <= a)%Q -> Py.Qltb a b = false.
Proof.
  intros H. unfold Py.Qltb. apply negb_false_iff. now apply Qle_bool_iff.
Qed.

Lemma Qeq_bool_false (a b : Q) : ~ (a == b)%Q -> Qeq_bool a b = false.
Proof.
  intros H. destruct (Qeq_bool a b) eqn:E; [|reflexivity].
  apply Qeq_bool_iff in E. contradiction.
Qed.

Lemma Qeq_bool_true (a b : Q) : (a == b)%Q -> Qeq_bool a b = true.
Proof. apply Qeq_bool_iff. Qed.

Section ForBreak.
Import Py.
Variables (S0 : Type) (body : nat -> M S0 bool).

(** A loop that breaks at [l0] and leaves the state alone before. *)
Lemma for_break_at (l0 : nat) (s s' : S0) :
  (forall l, l < l0 -> body l s = (s, ok false)) ->
  body l0 s = (s', ok true) ->
  forall m a, a <= l0 -> l0 < a + m ->
    for_break (seq a m) body s = (s', ok tt).
Proof.
  intros Hskip Hhit. induction m as [|m IH]; intros a Ha Hm; [lia|].
  cbn [seq for_break]. unfold bind.
  destruct (Nat.eq_dec a l0) as [->|Hne].
  - rewrite Hhit. reflexivity.
  - rewrite Hskip by lia. cbv beta iota delta [ok]. apply IH; lia.
Qed.

End ForBreak.

Lemma index_last (l : list Q) :
  1 <= List.length l -> Py.index l (-1) = Py.ok (Shape.final l).
Proof.
  intros H. apply index_minus1. destruct l; simpl in *; [lia | discriminate].
Qed.

Section IncreasingTimes.
Import Shape.
Variable Time : list Q.
Hypothesis Hinc : increasing Time.

Lemma increasing_le (i j : nat) :
  i <= j -> j < List.length Time -> (nth i Time 0 <= nth j Time 0)%Q.
Proof.
  intros Hij Hj. destruct (Nat.eq_dec i j) as [->|Hn].
  - apply Qle_refl.
  - apply Qlt_le_weak. apply Hinc; lia.
Qed.

Lemma first_le (j : nat) :
  (nth 0 Time 0 == 0)%Q -> j < List.length Time -> (0 <= nth j Time 0)%Q.
Proof.
  intros H0 Hj. apply Qle_trans with (nth 0 Time 0%Q).
  - rewrite H0. apply Qle_refl.
  - apply increasing_le; lia.
Qed.

End IncreasingTimes.

Section Interpolation.
Import Py TimeBins Shape.
Local Open Scope py_scope.
Variables Time Vol Flow : list Q.
Variable is_last : Q -> result bool.
Hypothesis HV : List.length Vol = List.length Time.
Hypothesis HF : List.length Flow = List.length Time.
Hypothesis Hinc : increasing Time.
Hypothesis Hne : 1 <= List.length Time.
Hypothesis H0 : (nth 0 Time 0 == 0)%Q.
Hypothesis Hlast_true :
  forall tau, ~ (tau == 0)%Q -> (tau == final Time)%Q -> is_last tau = ok true.
Hypothesis Hlast_false :
  forall tau, (0 < tau)%Q -> (tau < final Time)%Q -> is_last tau = ok false.

Lemma body_zero (tau : Q) (l : nat) (s : out2) :
  (tau == 0)%Q ->
  interp_body Time Vol Flow is_last tau l s
  = ((fst s ++ [nth 0 Vol 0%Q], snd s ++ [nth 0 Flow 0%Q]), ok true).
Proof.
  intros Ht. unfold interp_body, try_except, interp_try.
  rewrite (Qeq_bool_true Ht).
  unfold bind, lift, push_vol, push_flow, modify, ret.
  change 0%Z with (Z.of_nat 0).
  rewrite !index_nth_ok by lia. reflexivity.
Qed.

Lemma bracket_before (tau : Q) (l l0 : nat) :
  l < l0 -> S l0 < List.length Time -> (nth l0 Time 0 < tau)%Q ->
  bracket Time tau l = ok false.
Proof.
  intros Hl Hl0 Ht. unfold bracket, rbind.
  replace (Z.of_nat l + 1)%Z with (Z.of_nat (S l)) by lia.
  rewrite !index_nth_ok by lia. cbv beta iota delta [ok].
  rewrite Qltb_true
    by (eapply Qle_lt_trans; [apply (@increasing_le Time Hinc l l0); lia | exact Ht]).
  rewrite Qltb_false; [reflexivity|].
  apply Qlt_le_weak. eapply Qle_lt_trans; [|exact Ht].
  apply (increasing_le Hinc); lia.
Qed.

Lemma bracket_at (tau : Q) (l0 : nat) :
  S l0 < List.length Time ->
  (nth l0 Time 0 < tau)%Q -> (tau < nth (S l0) Time 0)%Q ->
  bracket Time tau l0 = ok true.
Proof.
  intros Hl0 H1 H2. unfold bracket, rbind.
  replace (Z.of_nat l0 + 1)%Z with (Z.of_nat (S l0)) by lia.
  rewrite !index_nth_ok by lia. cbv beta iota delta [ok].
  now rewrite !Qltb_true.
Qed.

Lemma interior_positive (tau : Q) (l0 : nat) :
  S l0 < List.length Time -> (nth l0 Time 0 < tau)%Q -> (0 < tau)%Q.
Proof.
  intros Hl0 Ht. eapply Qle_lt_trans; [|exact Ht]. apply (first_le Hinc H0). lia.
Qed.

Lemma interior_below_last (tau : Q) (l0 : nat) :
  S l0 < List.length Time -> (tau < nth (S l0) Time 0)%Q ->
  (tau < final Time)%Q.
Proof.
  intros Hl0 Ht. eapply Qlt_le_trans; [exact Ht|].
  unfold final. apply (increasing_le Hinc); lia.
Qed.

Lemma body_before (tau : Q) (l l0 : nat) (s : out2) :
  l < l0 -> S l0 < List.length Time ->
  (nth l0 Time 0 < tau)%Q -> (tau < nth (S l0) Time 0)%Q ->
  interp_body Time Vol Flow is_last tau l s = (s, ok false).
Proof.
  intros Hl Hl0 H1 H2.
  pose proof (interior_positive Hl0 H1) as Hpos.
  unfold interp_body, try_except, interp_try.
  rewrite Qeq_bool_false
    by (intros E; rewrite E in Hpos; exact (Qlt_irrefl _ Hpos)).
  unfold bind, lift.
  rewrite (bracket_before Hl Hl0 H1). cbv beta iota delta [ok].
  rewrite (Hlast_false Hpos (interior_below_last Hl0 H2)).
  reflexivity.
Qed.

Lemma body_at (tau : Q) (l0 : nat) (s : out2) :
  S l0 < List.length Time ->
  (nth l0 Time 0 < tau)%Q -> (tau < nth (S l0) Time 0)%Q ->
  interp_body Time Vol Flow is_last tau l0 s
  = ((fst s ++ [(nth l0 Vol 0
                 + (nth (S l0) Vol 0 - nth l0 Vol 0)
                   / (nth (S l0) Time 0 - nth l0 Time 0)
                   * (tau - nth l0 Time 0))%Q],
      snd s ++ [(nth l0 Flow 0
                 + (nth (S l0) Flow 0 - nth l0 Flow 0)
                   / (nth (S l0) Time 0 - nth l0 Time 0)
                   * (tau - nth l0 Time 0))%Q]), ok true).
Proof.
  intros Hl0 H1 H2.
  pose proof (interior_positive Hl0 H1) as Hpos.
  unfold interp_body, try_except, interp_try.
  rewrite Qeq_bool_false
    by (intros E; rewrite E in Hpos; exact (Qlt_irrefl _ Hpos)).
  unfold bind, lift.
  rewrite (bracket_at Hl0 H1 H2). cbv beta iota delta [ok].
  replace (Z.of_nat l0 + 1)%Z with (Z.of_nat (S l0)) by lia.
  rewrite !index_nth_ok by lia. cbv beta iota delta [ok].
  assert (Hd : ~ (nth (S l0) Time 0 - nth l0 Time 0 == 0)%Q).
  { intros E. assert (Hlt : (nth l0 Time 0 < nth (S l0) Time 0)%Q)
      by (apply Hinc; lia).
    apply Qlt_minus_iff in Hlt. unfold Qminus in E. rewrite E in Hlt.
    exact (Qlt_irrefl _ Hlt). }
  rewrite !(div_ok _ Hd). reflexivity.
Qed.

Lemma body_last (tau : Q) (s : out2) :
  ~ (tau == 0)%Q -> (tau == final Time)%Q ->
  interp_body Time Vol Flow is_last tau 0 s
  = ((fst s ++ [final Vol], snd s ++ [final Flow]), ok true).
Proof.
  intros Hnz Hl.
  assert (Hpos : (0 < tau)%Q).
  { destruct (Qlt_le_dec 0 tau) as [|Hle]; [assumption|].
    exfalso. apply Hnz. apply Qle_antisym; [assumption|].
    rewrite Hl. apply (first_le Hinc H0). unfold final. lia. }
  assert (H2 : 2 <= List.length Time).
  { destruct (Nat.le_gt_cases 2 (List.length Time)) as [|Hn]; [assumption|].
    exfalso. apply Hnz. rewrite Hl. unfold final.
    replace (List.length Time - 1) with 0 by lia. exact H0. }
  unfold interp_body, try_except, interp_try.
  rewrite (Qeq_bool_false Hnz).
  unfold bind, lift.
  assert (Hb : bracket Time tau 0 = ok false).
  { unfold bracket, rbind. change (Z.of_nat 0 + 1)%Z with (Z.of_nat 1).
    rewrite !index_nth_ok by lia. cbv beta iota delta [ok].
    rewrite Qltb_true by (rewrite H0; exact Hpos).
    rewrite Qltb_false; [reflexivity|].
    rewrite Hl. unfold final. apply (increasing_le Hinc); lia. }
  change 0%nat with 0%nat in Hb. rewrite Hb. cbv beta iota delta [ok].
  rewrite (Hlast_true Hnz Hl).
  unfold push_vol, push_flow, modify, ret.
  rewrite !index_last by lia. reflexivity.
Qed.

(** One target that the branches take gives one value of each series. *)
Lemma interpolate_one (tau : Q) (s : out2) :
  reachable Time tau ->
  exists v f,
    for_break (range 0 (List.length Time))
      (interp_body Time Vol Flow is_last tau) s
    = ((fst s ++ [v], snd s ++ [f]), ok tt) /\
    sampled Time Vol tau v /\ sampled Time Flow tau f.
Proof.
  unfold range. rewrite Nat.sub_0_r.
  intros [Hz|[Hl|(l0 & Hl0 & H1 & H2)]].
  - do 2 eexists. split.
    + apply (@for_break_at _ _ 0 s); [intros l Hl; lia | | lia | lia].
      now apply body_zero.
    + split; left; auto.
  - destruct (Qeq_dec tau 0) as [Hz|Hnz].
    + do 2 eexists. split.
      * apply (@for_break_at _ _ 0 s); [intros l Hl'; lia | | lia | lia].
        now apply body_zero.
      * split; left; auto.
    + do 2 eexists. split.
      * apply (@for_break_at _ _ 0 s); [intros l Hl'; lia | | lia | lia].
        now apply body_last.
      * split; right; left; auto.
  - do 2 eexists. split.
    + apply (@for_break_at _ _ l0 s); [| | lia | lia].
      * intros l Hl. now apply (@body_before tau l l0).
      * now apply body_at.
    + split; right; right; exists l0; rewrite ?HV, ?HF; auto.
Qed.

Lemma interpolate_all_spec (targets : list Q) :
  Forall (reachable Time) targets ->
  forall s, exists vs fs,
    interpolate_all Time Vol Flow is_last targets s
    = ((fst s ++ vs, snd s ++ fs), ok tt) /\
    Forall2 (sampled Time Vol) targets vs /\
    Forall2 (sampled Time Flow) targets fs.
Proof.
  unfold interpolate_all.
  induction 1 as [|tau targets Ht _ IH]; intros s.
  - exists [], []. simpl. rewrite !app_nil_r.
    destruct s. repeat split; constructor.
  - cbn [for_each]. unfold bind at 1.
    destruct (interpolate_one s Ht) as (v & f & E & Sv & Sf).
    rewrite E. cbv beta iota delta [ok].
    destruct (IH (fst s ++ [v], snd s ++ [f])) as (vs & fs & E' & Fv & Ff).
    exists (v :: vs), (f :: fs). rewrite E'. cbn [fst snd].
    rewrite <- !app_assoc. repeat split; constructor; assumption.
Qed.

End Interpolation.
Section LastTests.
Import Py TimeBins Shape.
Local Open Scope py_scope.
Variable Time : list Q.
Hypothesis Hne : 1 <= List.length Time.

Lemma is_last_insp_true (tau : Q) :
  ~ (tau == 0)%Q -> (tau == final Time)%Q -> is_last_insp Time tau = ok true.
Proof.
  intros _ Hl. unfold is_last_insp. rewrite index_last by assumption.
  cbv beta iota delta [rbind ok]. now rewrite (Qeq_bool_true Hl).
Qed.

Lemma is_last_insp_false (tau : Q) :
  (0 < tau)%Q -> (tau < final Time)%Q -> is_last_insp Time tau = ok false.
Proof.
  intros _ Hl. unfold is_last_insp. rewrite index_last by assumption.
  cbv beta iota delta [rbind ok]. rewrite Qeq_bool_false; [reflexivity|].
  intros E. rewrite E in Hl. exact (Qlt_irrefl _ Hl).
Qed.

Lemma is_last_exp_true (tau : Q) :
  ~ (tau == 0)%Q -> (tau == final Time)%Q -> is_last_exp Time tau = ok true.
Proof.
  intros Hnz Hl. unfold is_last_exp. rewrite index_last by assumption.
  cbv beta iota delta [rbind ok].
  assert (Hf : ~ (final Time == 0)%Q) by (rewrite <- Hl; exact Hnz).
  rewrite (div_ok _ Hf). cbv beta iota delta [ok].
  rewrite Qeq_bool_true; [reflexivity|].
  rewrite Hl. field. exact Hf.
Qed.

Lemma is_last_exp_false (tau : Q) :
  (0 < tau)%Q -> (tau < final Time)%Q -> is_last_exp Time tau = ok false.
Proof.
  intros Hpos Hl. unfold is_last_exp. rewrite index_last by assumption.
  cbv beta iota delta [rbind ok].
  assert (Hf : ~ (final Time == 0)%Q).
  { intros E. rewrite E in Hl.
    exact (Qlt_irrefl _ (Qlt_trans _ _ _ Hpos Hl)). }
  rewrite (div_ok _ Hf). cbv beta iota delta [ok].
  rewrite Qeq_bool_false; [reflexivity|].
  intros E. apply (Qlt_irrefl tau).
  setoid_replace tau with (tau / final Time * final Time)%Q at 2
    by (field; exact Hf).
  rewrite E, Qmult_1_l. exact Hl.
Qed.

End LastTests.

(** X12.  On a phase whose sample times increase strictly from 0, the
    time-bin interpolation, with the last-sample test of the inspiration
    or that of the expiration, gives every target that is zero, the last
    sample time, or strictly between two neighbouring sample times exactly
    one volume and one flow: the first sample at zero, the last sample at
    the last time, and in between the point on the straight line through
    the two neighbours. *)
Theorem time_bin_interpolation_of_reachable_targets
  (Time Vol Flow targets : list Q) (is_last : Q -> Py.result bool) :
  List.length Vol = List.length Time -> List.length Flow = List.length Time ->
  Shape.increasing Time -> 1 <= List.length Time ->
  (nth 0 Time 0 == 0)%Q ->
  is_last = TimeBins.is_last_insp Time \/ is_last = TimeBins.is_last_exp Time ->
  Forall (Shape.reachable Time) targets ->
  exists vs fs,
    TimeBins.interpolate Time Vol Flow is_last targets = Py.ok (vs, fs) /\
    Forall2 (Shape.sampled Time Vol) targets vs /\
    Forall2 (Shape.sampled Time Flow) targets fs.
Proof.
  intros HV HF Hinc Hne H0 Hl Ht.
  assert (H : exists vs fs,
             TimeBins.interpolate_all Time Vol Flow is_last targets ([], [])
             = (([] ++ vs, [] ++ fs), Py.ok tt) /\
             Forall2 (Shape.sampled Time Vol) targets vs /\
             Forall2 (Shape.sampled Time Flow) targets fs).
  { destruct Hl as [->| ->].
    - exact (@interpolate_all_spec Time Vol Flow _ HV HF Hinc Hne H0
               (@is_last_insp_true Time Hne) (@is_last_insp_false Time Hne) targets Ht
               ([], [])).
    - exact (@interpolate_all_spec Time Vol Flow _ HV HF Hinc Hne H0
               (@is_last_exp_true Time Hne) (@is_last_exp_false Time Hne) targets Ht
               ([], [])). }
  destruct H as (vs & fs & E & Fv & Ff). exists vs, fs.
  unfold TimeBins.interpolate. rewrite E. auto.
Qed.

Lemma increasing_012 : Shape.increasing [0; 1; 2]%Q.
Proof.
  intros i j Hij Hj. simpl in Hj.
  destruct j as [|[|[|j]]]; [lia| | |lia];
    destruct i as [|[|i]]; try lia; reflexivity.
Qed.

Lemma time_bin_interpolation_of_reachable_targets_witness :
  exists vs fs,
    TimeBins.interpolate [0; 1; 2]%Q [3; 2; 0]%Q [0; -1; 0]%Q
      (TimeBins.is_last_exp [0; 1; 2]%Q) [0; 1 # 2; 2]%Q = Py.ok (vs, fs) /\
    Forall2 (Shape.sampled [0; 1; 2]%Q [3; 2; 0]%Q) [0; 1 # 2; 2]%Q vs /\
    Forall2 (Shape.sampled [0; 1; 2]%Q [0; -1; 0]%Q) [0; 1 # 2; 2]%Q fs.
Proof.
  apply time_bin_interpolation_of_reachable_targets.
  - reflexivity.
  - reflexivity.
  - exact increasing_012.
  - simpl. lia.
  - reflexivity.
  - right. reflexivity.
  - apply Forall_cons; [left; reflexivity|].
    apply Forall_cons.
    { right. right. exists 0. simpl. repeat split; try lia; reflexivity. }
    apply Forall_cons; [right; left; reflexivity | apply Forall_nil].
Defined.

Lemma locate (Time : list Q) (tau : Q) :
  (forall l, l < List.length Time -> ~ (nth l Time 0 == tau)%Q) ->
  (nth 0 Time 0 < tau)%Q ->
  forall k, k < List.length Time -> (tau < nth k Time 0)%Q ->
    exists l, S l < List.length Time /\
              (nth l Time 0 < tau)%Q /\ (tau < nth (S l) Time 0)%Q.
Proof.
  intros Hno Hlo. induction k as [|k IH]; intros Hk Hhi.
  - exfalso. exact (Qlt_irrefl _ (Qlt_trans _ _ _ Hlo Hhi)).
  - destruct (Q_dec tau (nth k Time 0%Q)) as [[Hlt|Hgt]|Heq].
    + apply IH; [lia | assumption].
    + exists k. auto.
    + exfalso. apply (Hno k); [lia|]. now symmetry.
Qed.

Lemma final_nonneg (Time : list Q) :
  Shape.increasing Time -> 1 <= List.length Time ->
  (nth 0 Time 0 == 0)%Q -> (0 <= Shape.final Time)%Q.
Proof.
  intros Hinc Hne H0. unfold Shape.final. apply (first_le Hinc H0). lia.
Qed.

Lemma final_zero_single (Time : list Q) :
  Shape.increasing Time -> 1 <= List.length Time ->
  (nth 0 Time 0 == 0)%Q ->
  (Shape.final Time == 0)%Q -> List.length Time = 1.
Proof.
  intros Hinc Hne H0 E.
  destruct (Nat.eq_dec (List.length Time) 1) as [|Hn]; [assumption|].
  exfalso. assert (Hlt : (nth 0 Time 0 < Shape.final Time)%Q)
    by (unfold Shape.final; apply Hinc; lia).
  rewrite H0, E in Hlt. exact (Qlt_irrefl _ Hlt).
Qed.

(** The grid of time targets: [Tt / intervals * j]. *)
Lemma intervals_of_grid (K : nat) (total : Q) :
  0 < K ->
  TimeBins.intervals_of total K
  = Py.ok (map (fun j => (total / inject_Z (Z.of_nat K)
                          * inject_Z (Z.of_nat j))%Q) (seq 0 (K + 1))).
Proof.
  intros HK. unfold TimeBins.intervals_of, Py.div, Py.range.
  destruct K as [|k]; [lia|].
  rewrite Nat.sub_0_r. reflexivity.
Qed.

Lemma inject_nat_lt (a b : nat) :
  a < b -> (inject_Z (Z.of_nat a) < inject_Z (Z.of_nat b))%Q.
Proof. intros H. unfold Qlt. simpl. lia. Qed.

Lemma grid_first (K : nat) (total : Q) :
  (total / inject_Z (Z.of_nat K) * inject_Z (Z.of_nat 0) == 0)%Q.
Proof. simpl. ring. Qed.

Lemma inject_nat_nonzero (K : nat) :
  0 < K -> ~ (inject_Z (Z.of_nat K) == 0)%Q.
Proof. intros HK. unfold Qeq. simpl. lia. Qed.

Lemma grid_last (K : nat) (total : Q) :
  0 < K ->
  (total / inject_Z (Z.of_nat K) * inject_Z (Z.of_nat K) == total)%Q.
Proof. intros HK. field. now apply inject_nat_nonzero. Qed.

Lemma grid_inside (K : nat) (total : Q) (j : nat) :
  (0 < total)%Q -> 0 < j -> j < K ->
  (0 < total / inject_Z (Z.of_nat K) * inject_Z (Z.of_nat j))%Q /\
  (total / inject_Z (Z.of_nat K) * inject_Z (Z.of_nat j) < total)%Q.
Proof.
  intros Ht Hj HjK.
  assert (PK : (0 < inject_Z (Z.of_nat K))%Q)
    by (apply (@inject_nat_lt 0 K); lia).
  assert (Pj : (0 < inject_Z (Z.of_nat j))%Q)
    by (apply (@inject_nat_lt 0 j); lia).
  assert (E : (total / inject_Z (Z.of_nat K) * inject_Z (Z.of_nat j)
               == total * (inject_Z (Z.of_nat j) / inject_Z (Z.of_nat K)))%Q)
    by (field; apply inject_nat_nonzero; lia).
  rewrite E.
  assert (C0 : (0 < inject_Z (Z.of_nat j) / inject_Z (Z.of_nat K))%Q).
  { apply Qlt_shift_div_l; [assumption|]. now rewrite Qmult_0_l. }
  assert (C1 : (inject_Z (Z.of_nat j) / inject_Z (Z.of_nat K) < 1)%Q).
  { apply Qlt_shift_div_r; [assumption|]. rewrite Qmult_1_l.
    now apply inject_nat_lt. }
  split.
  - now apply Qmult_lt_0_compat.
  - setoid_replace total with (total * 1)%Q at 2 by ring.
    now apply Qmult_lt_l.
Qed.

(** In general position every target of the grid is reachable. *)
Lemma grid_reachable (Time : list Q) (K : nat) :
  Shape.increasing Time -> 1 <= List.length Time ->
  (nth 0 Time 0 == 0)%Q -> 0 < K ->
  (forall j l, 0 < j -> j < K -> l < List.length Time ->
     ~ (nth l Time 0
        == Shape.final Time / inject_Z (Z.of_nat K)
           * inject_Z (Z.of_nat j))%Q) ->
  Forall (Shape.reachable Time)
    (map (fun j => (Shape.final Time / inject_Z (Z.of_nat K)
                    * inject_Z (Z.of_nat j))%Q) (seq 0 (K + 1))).
Proof.
  intros Hinc Hne H0 HK Hgen. apply Forall_forall. intros tau Hin.
  apply in_map_iff in Hin. destruct Hin as (j & <- & Hj).
  apply in_seq in Hj.
  destruct (Nat.eq_dec j 0) as [->|Hj0]; [left; apply grid_first|].
  destruct (Nat.eq_dec j K) as [->|HjK];
    [right; left; now apply grid_last|].
  destruct (Qeq_dec (Shape.final Time) 0) as [Ez|Enz].
  - left. rewrite Ez. unfold Qdiv. ring.
  - assert (Hpos : (0 < Shape.final Time)%Q).
    { destruct (Qlt_le_dec 0 (Shape.final Time)) as [|Hle]; [assumption|].
      exfalso. apply Enz.
      apply Qle_antisym; [assumption | now apply final_nonneg]. }
    destruct (@grid_inside K (Shape.final Time) j Hpos) as [G1 G2];
      [lia | lia|].
    right. right.
    apply (@locate Time _ (fun l Hl => Hgen j l ltac:(lia) ltac:(lia) Hl))
      with (k := List.length Time - 1).
    + rewrite H0. exact G1.
    + lia.
    + exact G2.
Qed.

(** The value the interpolation gives at time zero and at the last sample
    time. *)
Lemma sampled_first (Time Ys : list Q) (tau y : Q) :
  Shape.increasing Time -> (nth 0 Time 0 == 0)%Q ->
  (tau == 0)%Q -> Shape.sampled Time Ys tau y -> y = nth 0 Ys 0%Q.
Proof.
  intros Hinc H0 Hz [[_ E]|[[Hnz _]|(l & Hl & H1 & _)]];
    [assumption|contradiction|].
  exfalso. rewrite Hz in H1.
  apply (Qlt_irrefl 0). eapply Qle_lt_trans; [|exact H1].
  apply (first_le Hinc H0). lia.
Qed.

Lemma sampled_last (Time Ys : list Q) (tau y : Q) :
  Shape.increasing Time -> 1 <= List.length Time ->
  (nth 0 Time 0 == 0)%Q ->
  List.length Ys = List.length Time ->
  (tau == Shape.final Time)%Q -> Shape.sampled Time Ys tau y ->
  y = Shape.final Ys.
Proof.
  intros Hinc Hne H0 HL Hf [[Hz E]|[[_ [_ E]]|(l & Hl & _ & H2 & _)]];
    [|assumption|].
  - rewrite Hf in Hz. apply final_zero_single in Hz; try assumption.
    subst y. unfold Shape.final. rewrite HL, Hz. reflexivity.
  - exfalso. rewrite Hf in H2. apply (Qlt_irrefl (Shape.final Time)).
    eapply Qlt_le_trans; [exact H2|]. unfold Shape.final.
    apply (increasing_le Hinc); lia.
Qed.

Lemma nth_map_seq (f : nat -> Q) (n i : nat) :
  i < n -> nth i (map f (seq 0 n)) 0%Q = f i.
Proof.
  intros Hi.
  rewrite (nth_indep _ 0%Q (f 0)) by (rewrite length_map, length_seq; lia).
  now rewrite map_nth, seq_nth by lia.
Qed.

Lemma Forall2_nth_rel (R : Q -> Q -> Prop) (l l' : list Q) :
  Forall2 R l l' ->
  List.length l' = List.length l /\
  forall i, i < List.length l -> R (nth i l 0%Q) (nth i l' 0%Q).
Proof.
  induction 1 as [|x y l l' Hxy _ [IH1 IH2]]; simpl.
  - split; [reflexivity|]. intros i Hi. lia.
  - split; [now rewrite IH1|]. intros [|i] Hi; [assumption|].
    apply IH2. lia.
Qed.

(** X13.  On a phase whose sample times increase strictly from 0, and for
    a number of intervals such that no inner point of the time grid falls
    on a sample time, the time-bin resampling of the phase is complete:
    the grid, the volumes and the flows have [intervals + 1] entries each,
    the first bin is the first sample of the phase and the last bin its
    last sample. *)
Theorem time_bins_in_general_position (Time Vol Flow : list Q) (K : nat)
  (is_last : Q -> Py.result bool) :
  List.length Vol = List.length Time -> List.length Flow = List.length Time ->
  Shape.increasing Time -> 1 <= List.length Time ->
  (nth 0 Time 0 == 0)%Q -> 0 < K ->
  is_last = TimeBins.is_last_insp Time \/ is_last = TimeBins.is_last_exp Time ->
  (forall j l, 0 < j -> j < K -> l < List.length Time ->
     ~ (nth l Time 0
        == Shape.final Time / inject_Z (Z.of_nat K) * inject_Z (Z.of_nat j))%Q) ->
  exists targets vs fs,
    TimeBins.intervals_of (Shape.final Time) K = Py.ok targets /\
    TimeBins.interpolate Time Vol Flow is_last targets = Py.ok (vs, fs) /\
    List.length targets = K + 1 /\
    List.length vs = K + 1 /\ List.length fs = K + 1 /\
    nth 0 vs 0%Q = nth 0 Vol 0%Q /\ nth K vs 0%Q = Shape.final Vol /\
    nth 0 fs 0%Q = nth 0 Flow 0%Q /\ nth K fs 0%Q = Shape.final Flow.
Proof.
  intros HV HF Hinc Hne H0 HK Hl Hgen.
  pose proof (@grid_reachable Time K Hinc Hne H0 HK Hgen) as Hr.
  set (targets := map (fun j => (Shape.final Time / inject_Z (Z.of_nat K)
                                 * inject_Z (Z.of_nat j))%Q) (seq 0 (K + 1)))
    in *.
  assert (H : exists vs fs,
             TimeBins.interpolate_all Time Vol Flow is_last targets ([], [])
             = (([] ++ vs, [] ++ fs), Py.ok tt) /\
             Forall2 (Shape.sampled Time Vol) targets vs /\
             Forall2 (Shape.sampled Time Flow) targets fs).
  { destruct Hl as [->| ->].
    - exact (@interpolate_all_spec Time Vol Flow _ HV HF Hinc Hne H0
               (@is_last_insp_true Time Hne) (@is_last_insp_false Time Hne)
               targets Hr ([], [])).
    - exact (@interpolate_all_spec Time Vol Flow _ HV HF Hinc Hne H0
               (@is_last_exp_true Time Hne) (@is_last_exp_false Time Hne)
               targets Hr ([], [])). }
  destruct H as (vs & fs & E & Fv & Ff).
  exists targets, vs, fs.
  assert (LT : List.length targets = K + 1)
    by (unfold targets; now rewrite length_map, length_seq).
  destruct (Forall2_nth_rel Fv) as [Lv Nv].
  destruct (Forall2_nth_rel Ff) as [Lf Nf].
  assert (T0 : (nth 0 targets 0 == 0)%Q).
  { unfold targets.
    rewrite nth_map_seq by lia. apply grid_first. }
  assert (TK : (nth K targets 0 == Shape.final Time)%Q).
  { unfold targets.
    rewrite nth_map_seq by lia. now apply grid_last. }
  split; [now apply intervals_of_grid|].
  split; [unfold TimeBins.interpolate; now rewrite E|].
  split; [assumption|]. split; [lia|]. split; [lia|].
  split; [exact (@sampled_first Time Vol _ _ Hinc H0 T0 (Nv 0 ltac:(lia)))|].
  split; [exact (@sampled_last Time Vol _ _ Hinc Hne H0 HV TK (Nv K ltac:(lia)))|].
  split; [exact (@sampled_first Time Flow _ _ Hinc H0 T0 (Nf 0 ltac:(lia)))|].
  exact (@sampled_last Time Flow _ _ Hinc Hne H0 HF TK (Nf K ltac:(lia))).
Qed.

Lemma time_bins_in_general_position_witness :
  exists targets vs fs,
    TimeBins.intervals_of (Shape.final [0; 1; 2]%Q) 3 = Py.ok targets /\
    TimeBins.interpolate [0; 1; 2]%Q [3; 2; 0]%Q [0; -1; 0]%Q
      (TimeBins.is_last_insp [0; 1; 2]%Q) targets = Py.ok (vs, fs) /\
    List.length targets = 3 + 1 /\
    List.length vs = 3 + 1 /\ List.length fs = 3 + 1 /\
    nth 0 vs 0%Q = nth 0 [3; 2; 0]%Q 0%Q /\
    nth 3 vs 0%Q = Shape.final [3; 2; 0]%Q /\
    nth 0 fs 0%Q = nth 0 [0; -1; 0]%Q 0%Q /\
    nth 3 fs 0%Q = Shape.final [0; -1; 0]%Q.
Proof.
  apply time_bins_in_general_position.
  - reflexivity.
  - reflexivity.
  - exact increasing_012.
  - simpl. lia.
  - reflexivity.
  - lia.
  - left. reflexivity.
  - intros j l Hj HjK Hl. simpl in Hl.
    destruct j as [|[|[|j]]]; try lia;
      destruct l as [|[|[|l]]]; try lia; vm_compute; discriminate.
Defined.

(* ------------------------------------------------------------------ *)
(** * The volume-bin interpolation on monotone volumes *)
(* ------------------------------------------------------------------ *)

Lemma Qltb_iff (a b : Q) : Py.Qltb a b = true <-> (a < b)%Q.
Proof.
  split; [|apply Qltb_true].
  intros H. destruct (Qlt_le_dec a b) as [|Hle]; [assumption|].
  rewrite (Qltb_false Hle) in H. discriminate.
Qed.

Lemma sample_dec (Vol : list Q) (A : Q) :
  (exists m, m < List.length Vol /\ (nth m Vol 0 == A)%Q) \/
  (forall l, l < List.length Vol -> ~ (nth l Vol 0 == A)%Q).
Proof.
  induction Vol as [|v Vol IH].
  - right. intros l Hl. simpl in Hl. lia.
  - destruct (Qeq_dec v A) as [E|N].
    + left. exists 0. split; [simpl; lia | exact E].
    + destruct IH as [(m & Hm & Em)|Hno].
      * left. exists (S m). split; [simpl; lia | exact Em].
      * right. intros [|l] Hl; [exact N|]. apply Hno. simpl in Hl. lia.
Qed.

Section ForBreakMore.
Import Py.
Variables (S0 : Type) (body : nat -> M S0 bool).

(** A loop no iteration of which breaks or touches the state. *)
Lemma for_break_none (s : S0) (ls : list nat) :
  (forall l, In l ls -> body l s = (s, ok false)) ->
  for_break ls body s = (s, ok tt).
Proof.
  induction ls as [|l ls IH]; intros H; [reflexivity|].
  cbn [for_break]. unfold bind. rewrite (H l) by now left.
  cbv beta iota delta [ok]. apply IH. intros l' Hl'. apply H. now right.
Qed.

(** A loop whose last iteration alone touches the state, without a
    break. *)
Lemma for_break_last (s s' : S0) (n : nat) :
  (forall l, l < n -> body l s = (s, ok false)) ->
  body n s = (s', ok false) ->
  for_break (seq 0 (S n)) body s = (s', ok tt).
Proof.
  intros Hskip Hlast.
  assert (G : forall m a, a + m = n ->
                for_break (seq a (S m)) body s = (s', ok tt)).
  { induction m as [|m IH]; intros a Ha.
    - cbn [seq for_break]. unfold bind.
      replace a with n by lia. rewrite Hlast. reflexivity.
    - cbn [seq for_break]. unfold bind. rewrite Hskip by lia.
      cbv beta iota delta [ok]. apply (IH (S a)). lia. }
  apply G. lia.
Qed.

End ForBreakMore.

Section Direction.
Import Py.
Variable before : Q -> Q -> bool.
Hypothesis Hdir : before = Qgtb \/ before = Qltb.

Lemma before_irrefl (a b : Q) : (a == b)%Q -> before a b = false.
Proof.
  intros E. destruct Hdir as [-> | ->]; unfold Qgtb; apply Qltb_false;
    rewrite E; apply Qle_refl.
Qed.

Lemma before_trans (a b c : Q) :
  before a b = true -> before b c = true -> before a c = true.
Proof.
  destruct Hdir as [-> | ->]; unfold Qgtb; rewrite !Qltb_iff; intros H1 H2.
  - exact (Qlt_trans _ _ _ H2 H1).
  - exact (Qlt_trans _ _ _ H1 H2).
Qed.

Lemma before_asym (a b : Q) : before a b = true -> before b a = false.
Proof.
  destruct Hdir as [-> | ->]; unfold Qgtb; rewrite Qltb_iff; intros H;
    apply Qltb_false; now apply Qlt_le_weak.
Qed.

Lemma before_total (a b : Q) :
  before a b = false -> before b a = false -> (a == b)%Q.
Proof.
  intros H1 H2.
  destruct (Qlt_le_dec a b) as [L|L].
  - exfalso. destruct Hdir as [-> | ->]; unfold Qgtb in *.
    + rewrite (Qltb_true L) in H2. discriminate.
    + rewrite (Qltb_true L) in H1. discriminate.
  - destruct (Qlt_le_dec b a) as [L'|L'].
    + exfalso. destruct Hdir as [-> | ->]; unfold Qgtb in *.
      * rewrite (Qltb_true L') in H1. discriminate.
      * rewrite (Qltb_true L') in H2. discriminate.
    + now apply Qle_antisym.
Qed.

Lemma before_eq_l (a a' b : Q) :
  (a == a')%Q -> before a b = true -> before a' b = true.
Proof.
  intros E. destruct Hdir as [-> | ->]; unfold Qgtb; rewrite !Qltb_iff;
    now rewrite E.
Qed.

Lemma before_eq_r (a b b' : Q) :
  (b == b')%Q -> before a b = true -> before a b' = true.
Proof.
  intros E. destruct Hdir as [-> | ->]; unfold Qgtb; rewrite !Qltb_iff;
    now rewrite E.
Qed.

Lemma before_neq (a b : Q) : before a b = true -> ~ (a == b)%Q.
Proof.
  intros H E. rewrite (before_irrefl E) in H. discriminate.
Qed.

Lemma before_difference (a b : Q) :
  before a b = true -> ~ (b - a == 0)%Q.
Proof.
  intros H E. apply (before_neq H). symmetry.
  setoid_replace b with (b - a + a)%Q by ring. rewrite E. ring.
Qed.

End Direction.

Section VolumeInterpolation.
Import Py VolumeBins VShape.
Local Open Scope py_scope.
Variable before : Q -> Q -> bool.
Variables Time Vol Flow : list Q.
Hypothesis Hdir : before = Qgtb \/ before = Qltb.
Hypothesis HT : List.length Time = List.length Vol.
Hypothesis HF : List.length Flow = List.length Vol.
Hypothesis Hne : 1 <= List.length Vol.
Hypothesis Hmono : monotone before Vol.
Hypothesis Htimes : distinct_times Time.

Local Abbreviation vol l := (nth l Vol 0%Q).
Local Abbreviation flow l := (nth l Flow 0%Q).

Lemma monotone_or_eq (i j : nat) (A : Q) :
  i <= j -> j < List.length Vol ->
  before (vol j) A = true -> before (vol i) A = true.
Proof.
  intros Hij Hj H. destruct (Nat.eq_dec i j) as [->|Hn]; [assumption|].
  apply (before_trans Hdir) with (vol j); [apply Hmono; lia | assumption].
Qed.

Lemma monotone_or_eq' (i j : nat) (A : Q) :
  i <= j -> j < List.length Vol ->
  before A (vol i) = true -> before A (vol j) = true.
Proof.
  intros Hij Hj H. destruct (Nat.eq_dec i j) as [->|Hn]; [assumption|].
  apply (before_trans Hdir) with (vol i); [assumption | apply Hmono; lia].
Qed.

(** The first test of the body: the target is the first volume. *)
Lemma vbody_first (A : Q) (l : nat) (s : list Q) :
  (A == vol 0)%Q ->
  interp_body Time Vol Flow before A l s = (s ++ [flow 0], ok true).
Proof.
  intros E. unfold interp_body, try_except, interp_try, bind, lift.
  change 0%Z with (Z.of_nat 0). rewrite !index_nth_ok by lia.
  cbv beta iota delta [ok]. rewrite (Qeq_bool_true E). reflexivity.
Qed.

(** The three equality tests fail. *)
Lemma vbody_tests (A : Q) (l : nat) (s : list Q) :
  l < List.length Vol ->
  ~ (A == vol 0)%Q -> ~ (vol l == A)%Q -> ~ (A == Shape.final Vol)%Q ->
  interp_try Time Vol Flow before A l s
  = bind (lift (bracket Vol before A l))
      (fun b : bool =>
         if b then
           t1 <- lift (index Time (Z.of_nat l)) ;;
           t2 <- lift (index Time (Z.of_nat l + 1)) ;;
           v1 <- lift (index Vol (Z.of_nat l)) ;;
           v2 <- lift (index Vol (Z.of_nat l + 1)) ;;
           f1 <- lift (index Flow (Z.of_nat l)) ;;
           f2 <- lift (index Flow (Z.of_nat l + 1)) ;;
           sv <- lift (div (v2 - v1) (t2 - t1)) ;;
           dt <- lift (div (A - v1) sv) ;;
           sf <- lift (div (f2 - f1) (t2 - t1)) ;;
           push (f1 + sf * (t1 + dt - t1))%Q ;;; ret true
         else ret false) s.
Proof.
  intros Hl H0 Hx Hlast. unfold interp_try.
  unfold bind at 1. unfold lift at 1.
  change 0%Z with (Z.of_nat 0). rewrite index_nth_ok by lia.
  cbv beta iota delta [ok]. rewrite (Qeq_bool_false H0).
  unfold bind at 1. unfold lift at 1. rewrite index_nth_ok by lia.
  cbv beta iota delta [ok]. rewrite (Qeq_bool_false Hx).
  unfold bind at 1. unfold lift at 1. rewrite index_last by lia.
  cbv beta iota delta [ok]. rewrite (Qeq_bool_false Hlast).
  reflexivity.
Qed.

Lemma vbody_exact (A : Q) (l : nat) (s : list Q) :
  l < List.length Vol -> ~ (A == vol 0)%Q -> (vol l == A)%Q ->
  interp_body Time Vol Flow before A l s = (s ++ [flow l], ok true).
Proof.
  intros Hl H0 E. unfold interp_body, try_except, interp_try, bind, lift.
  change 0%Z with (Z.of_nat 0). rewrite !index_nth_ok by lia.
  cbv beta iota delta [ok]. rewrite (Qeq_bool_false H0).
  rewrite (Qeq_bool_true E). reflexivity.
Qed.

Lemma vbody_final (A : Q) (l : nat) (s : list Q) :
  l < List.length Vol -> ~ (A == vol 0)%Q -> ~ (vol l == A)%Q ->
  (A == Shape.final Vol)%Q ->
  interp_body Time Vol Flow before A l s
  = (s ++ [Shape.final Flow], ok true).
Proof.
  intros Hl H0 Hx E. unfold interp_body, try_except, interp_try, bind, lift.
  change 0%Z with (Z.of_nat 0). rewrite !index_nth_ok by lia.
  cbv beta iota delta [ok]. rewrite (Qeq_bool_false H0).
  rewrite (Qeq_bool_false Hx).
  rewrite !index_last by lia. cbv beta iota delta [ok].
  rewrite (Qeq_bool_true E). reflexivity.
Qed.

(** No test holds at [l]: the iteration leaves the list alone. *)
Lemma vbody_skip (A : Q) (l : nat) (s : list Q) :
  l < List.length Vol ->
  ~ (A == vol 0)%Q -> ~ (vol l == A)%Q -> ~ (A == Shape.final Vol)%Q ->
  before (vol l) A = false \/
  (S l < List.length Vol /\ before A (vol (S l)) = false) ->
  interp_body Time Vol Flow before A l s = (s, ok false).
Proof.
  intros Hl H0 Hx Hlast Hb. unfold interp_body, try_except.
  rewrite vbody_tests by assumption.
  unfold bind at 1. unfold lift at 1. unfold bracket, rbind.
  rewrite index_nth_ok by lia. cbv beta iota delta [ok].
  destruct (before (vol l) A) eqn:B1; [|reflexivity].
  destruct Hb as [Hb|[Hl' Hb]]; [discriminate|].
  replace (Z.of_nat l + 1)%Z with (Z.of_nat (S l)) by lia.
  rewrite index_nth_ok by lia. cbv beta iota delta [ok]. rewrite Hb.
  reflexivity.
Qed.

(** The target lies strictly between the volumes at [l] and [l + 1]. *)
Lemma vbody_between (A : Q) (l : nat) (s : list Q) :
  S l < List.length Vol ->
  ~ (A == vol 0)%Q -> ~ (A == Shape.final Vol)%Q ->
  before (vol l) A = true -> before A (vol (S l)) = true ->
  exists y,
    interp_body Time Vol Flow before A l s = (s ++ [y], ok true) /\
    (y == flow l + (flow (S l) - flow l) * (A - vol l)
                   / (vol (S l) - vol l))%Q.
Proof.
  intros Hl H0 Hlast B1 B2.
  assert (Hx : ~ (vol l == A)%Q) by exact (before_neq Hdir B1).
  assert (Hd : ~ (nth (S l) Time 0 - nth l Time 0 == 0)%Q).
  { intros E. apply (Htimes (l := l)); [lia|].
    setoid_replace (nth (S l) Time 0%Q)
      with (nth (S l) Time 0 - nth l Time 0 + nth l Time 0)%Q by ring.
    rewrite E. ring. }
  assert (Hv : ~ (vol (S l) - vol l == 0)%Q).
  { apply (before_difference Hdir). apply Hmono; lia. }
  assert (Hs : ~ ((vol (S l) - vol l)
                  / (nth (S l) Time 0 - nth l Time 0) == 0)%Q).
  { intros E. apply Hv.
    setoid_replace (vol (S l) - vol l)%Q
      with ((vol (S l) - vol l) / (nth (S l) Time 0 - nth l Time 0)
            * (nth (S l) Time 0 - nth l Time 0))%Q by (field; exact Hd).
    rewrite E. ring. }
  eexists. split.
  - unfold interp_body, try_except.
    rewrite vbody_tests by (assumption || lia).
    unfold bind at 1. unfold lift at 1. unfold bracket, rbind.
    rewrite index_nth_ok by lia. cbv beta iota delta [ok]. rewrite B1.
    replace (Z.of_nat l + 1)%Z with (Z.of_nat (S l)) by lia.
    rewrite index_nth_ok by lia. cbv beta iota delta [ok]. rewrite B2.
    unfold bind, lift. rewrite !index_nth_ok by lia.
    cbv beta iota delta [ok].
    rewrite (div_ok _ Hd). cbv beta iota delta [ok].
    rewrite (div_ok _ Hs). cbv beta iota delta [ok].
    rewrite (div_ok _ Hd). cbv beta iota delta [ok].
    reflexivity.
  - field. split; [exact Hv | exact Hd].
Qed.

(** The target lies beyond the last volume: at the last sample the
    second comparison reads past the end, and the handler appends the last
    flow without leaving the loop. *)
Lemma vbody_beyond (A : Q) (s : list Q) :
  ~ (A == vol 0)%Q -> ~ (A == Shape.final Vol)%Q ->
  before (Shape.final Vol) A = true ->
  interp_body Time Vol Flow before A (List.length Vol - 1) s
  = (s ++ [Shape.final Flow], ok false).
Proof.
  intros H0 Hlast B1.
  assert (Hx : ~ (vol (List.length Vol - 1) == A)%Q)
    by exact (before_neq Hdir B1).
  unfold interp_body, try_except.
  rewrite vbody_tests by (assumption || lia).
  unfold bind at 1. unfold lift at 1. unfold bracket, rbind.
  rewrite index_nth_ok by lia. cbv beta iota delta [ok].
  unfold Shape.final in B1. rewrite B1.
  replace (Z.of_nat (List.length Vol - 1) + 1)%Z
    with (Z.of_nat (List.length Vol)) by lia.
  rewrite index_out by lia. cbv beta iota delta [raise exn_eqb].
  unfold interp_except, bind, lift. rewrite index_nth_ok by lia.
  unfold Shape.final. rewrite HF. reflexivity.
Qed.

(** Where a target that is no sample volume falls. *)
Lemma vlocate (A : Q) :
  (forall l, l < List.length Vol -> ~ (vol l == A)%Q) ->
  before (vol 0) A = true ->
  forall k, k < List.length Vol -> before A (vol k) = true ->
    exists l, S l < List.length Vol /\
              before (vol l) A = true /\ before A (vol (S l)) = true.
Proof.
  intros Hno Hlo. induction k as [|k IH]; intros Hk Hhi.
  - rewrite (before_asym Hdir _ _ Hlo) in Hhi. discriminate.
  - destruct (before A (vol k)) eqn:B.
    + apply IH; [lia | reflexivity].
    + exists k. split; [assumption|]. split; [|assumption].
      destruct (before (vol k) A) eqn:B'; [reflexivity|].
      exfalso. apply (Hno k); [lia|].
      exact (before_total Hdir _ _ B' B).
Qed.

(** The inner loop for one target: a target before the first volume gets
    nothing, any other target one flow. *)
Lemma vinterpolate_one (A : Q) (s : list Q) :
  (from_start before Vol A = false /\
   for_break (range 0 (List.length Vol))
     (interp_body Time Vol Flow before A) s = (s, ok tt)) \/
  (from_start before Vol A = true /\
   exists y,
     for_break (range 0 (List.length Vol))
       (interp_body Time Vol Flow before A) s = (s ++ [y], ok tt) /\
     sampled before Vol Flow A y).
Proof.
  unfold range. rewrite Nat.sub_0_r. unfold from_start.
  destruct (before A (vol 0)) eqn:B0; [left | right]; (split; [reflexivity|]).
  - (* before the start *)
    apply for_break_none. intros l Hl. apply in_seq in Hl.
    assert (Bl : before A (vol l) = true)
      by (apply (@monotone_or_eq' 0 l); [lia | lia | exact B0]).
    apply vbody_skip; [lia | | | |].
    + exact (before_neq Hdir B0).
    + intros E. apply (before_neq Hdir Bl). now symmetry.
    + apply (before_neq Hdir). unfold Shape.final.
      apply (@monotone_or_eq' 0 (List.length Vol - 1)); [lia | lia | exact B0].
    + left. exact (before_asym Hdir _ _ Bl).
  - destruct (Qeq_dec A (vol 0)) as [E0|N0].
    { (* the first volume *)
      exists (flow 0). split.
      - apply (@for_break_at _ _ 0 s); [intros l Hl; lia | | lia | lia].
        now apply vbody_first.
      - left. exists 0. split; [lia|]. split; [now symmetry | reflexivity]. }
    assert (S0 : before (vol 0) A = true).
    { destruct (before (vol 0) A) eqn:B; [reflexivity|].
      exfalso. apply N0. exact (before_total Hdir _ _ B0 B). }
    destruct (Qeq_dec A (Shape.final Vol)) as [El|Nl].
    { (* the last volume *)
      exists (Shape.final Flow). split.
      - apply (@for_break_at _ _ 0 s); [intros l Hl; lia | | lia | lia].
        apply vbody_final; [lia | assumption | | assumption].
        intros E. apply N0. now symmetry.
      - left. exists (List.length Vol - 1). split; [lia|].
        split; [now symmetry|]. unfold Shape.final. now rewrite HF. }
    destruct (before (Shape.final Vol) A) eqn:Bl.
    { (* beyond the last volume *)
      exists (Shape.final Flow). split.
      - replace (List.length Vol) with (S (List.length Vol - 1)) at 1 by lia.
        apply for_break_last.
        + intros l Hl.
          assert (B1 : before (vol (S l)) A = true).
          { apply (@monotone_or_eq (S l) (List.length Vol - 1)); [lia|lia|].
            exact Bl. }
          apply vbody_skip; [lia | assumption | | assumption |].
          * apply (before_neq Hdir).
            apply (before_trans Hdir) with (vol (S l)); [apply Hmono; lia|].
            exact B1.
          * right. split; [lia|]. exact (before_asym Hdir _ _ B1).
        + now apply vbody_beyond.
      - right. right. split; [assumption | reflexivity]. }
    assert (Al : before A (Shape.final Vol) = true).
    { destruct (before A (Shape.final Vol)) eqn:B; [reflexivity|].
      exfalso. apply Nl. exact (before_total Hdir _ _ B Bl). }
    destruct (sample_dec Vol A) as [(m & Hm & Em)|Hno].
    + (* an inner sample *)
      exists (flow m). split.
      * apply (@for_break_at _ _ m s); [| | lia | lia].
        -- intros l Hl. apply vbody_skip; [lia | assumption | | assumption |].
           ++ apply (before_neq Hdir).
              apply (before_eq_r Hdir _ Em). apply Hmono; lia.
           ++ right. split; [lia|].
              destruct (Nat.eq_dec (S l) m) as [<-|Hn].
              ** apply (before_irrefl Hdir). now symmetry.
              ** apply (before_asym Hdir).
                 apply (before_eq_r Hdir _ Em). apply Hmono; lia.
        -- now apply vbody_exact.
      * left. exists m. auto.
    + (* strictly between two samples *)
      destruct (@vlocate A Hno S0 (List.length Vol - 1) ltac:(lia) Al)
        as (l0 & Hl0 & B1 & B2).
      destruct (@vbody_between A l0 s Hl0 N0 Nl B1 B2) as (y & Ey & Hy).
      exists y. split.
      * apply (@for_break_at _ _ l0 s); [| exact Ey | lia | lia].
        intros l Hl. apply vbody_skip; [lia | assumption | | assumption |].
        -- apply Hno. lia.
        -- right. split; [lia|]. apply (before_asym Hdir).
           apply (@monotone_or_eq (S l) l0); [lia | lia | exact B1].
      * right. left. exists l0. auto.
Qed.

(** The loop over the targets: one flow for every target that does not
    lie before the first volume, in order, and nothing for the others. *)
Lemma vinterpolate_all (targets : list Q) :
  forall s, exists fs,
    for_each targets
      (fun A => for_break (range 0 (List.length Vol))
                  (interp_body Time Vol Flow before A)) s
    = (s ++ fs, ok tt) /\
    Forall2 (sampled before Vol Flow)
      (filter (from_start before Vol) targets) fs.
Proof.
  induction targets as [|A targets IH]; intros s.
  - exists []. simpl. rewrite app_nil_r. split; [reflexivity | constructor].
  - cbn [for_each filter]. unfold bind at 1.
    destruct (vinterpolate_one A s) as [[Hf E]|[Hf (y & E & Hy)]];
      rewrite E, Hf; cbv beta iota delta [ok].
    + destruct (IH s) as (fs & E' & F). exists fs. auto.
    + destruct (IH (s ++ [y])) as (fs & E' & F). exists (y :: fs).
      rewrite E', <- app_assoc. split; [reflexivity | now constructor].
Qed.

End VolumeInterpolation.

(** X14.  On a phase whose volumes move one way (falling for the
    inspiration, rising for the expiration) and whose neighbouring sample
    times differ, the volume-bin interpolation returns, in order, exactly
    one flow for every target volume that does not lie before the first
    volume of the phase, and none for a target that does: the flow of the
    sample with that volume, the flow on the straight line between two
    neighbouring samples, or the last flow for a target beyond the last
    volume. *)
Theorem volume_bin_interpolation_on_monotone_volumes
  (before : Q -> Q -> bool) (Time Vol Flow targets : list Q) :
  before = Py.Qgtb \/ before = Py.Qltb ->
  VShape.monotone_phase before Time Vol Flow ->
  exists fs,
    VolumeBins.interpolate Time Vol Flow before targets = Py.ok fs /\
    Forall2 (VShape.sampled before Vol Flow)
      (filter (VShape.from_start before Vol) targets) fs.
Proof.
  intros Hdir (HT & HF & Hne & Hmono & Htimes).
  destruct (@vinterpolate_all before Time Vol Flow Hdir HT HF Hne Hmono Htimes
              targets []) as (fs & E & F).
  exists fs. unfold VolumeBins.interpolate. rewrite E. auto.
Qed.

Lemma falling_320 : VShape.monotone Py.Qgtb [3; 2; 0]%Q.
Proof.
  intros i j Hij Hj. simpl in Hj.
  destruct j as [|[|[|j]]]; [lia| | |lia];
    destruct i as [|[|i]]; try lia; reflexivity.
Qed.

Lemma distinct_012 : VShape.distinct_times [0; 1; 2]%Q.
Proof.
  intros l Hl. simpl in Hl.
  destruct l as [|[|l]]; [| |lia]; discriminate.
Qed.

Lemma volume_bin_interpolation_on_monotone_volumes_witness :
  exists fs,
    VolumeBins.interpolate [0; 1; 2]%Q [3; 2; 0]%Q [0; -1; 0]%Q Py.Qgtb
      [3; 4; 1; -1]%Q = Py.ok fs /\
    Forall2 (VShape.sampled Py.Qgtb [3; 2; 0]%Q [0; -1; 0]%Q)
      (filter (VShape.from_start Py.Qgtb [3; 2; 0]%Q) [3; 4; 1; -1]%Q) fs.
Proof.
  apply volume_bin_interpolation_on_monotone_volumes.
  - left. reflexivity.
  - split; [reflexivity|]. split; [reflexivity|]. split; [simpl; lia|].
    split; [exact falling_320 | exact distinct_012].
Defined.

(* ------------------------------------------------------------------ *)
(** * The volume bins of one breath *)
(* ------------------------------------------------------------------ *)

Lemma vol_intervals_ok (step : Q -> Q -> Q) (Start Vt : Q) (intervals : nat) :
  0 < intervals ->
  VolumeBins.vol_intervals step Start Vt intervals
  = Py.ok (map (fun j => step Start
                          (Vt / inject_Z (Z.of_nat intervals)
                           * inject_Z (Z.of_nat j))%Q)
               (seq 0 (intervals + 1))).
Proof.
  intros HK. unfold VolumeBins.vol_intervals, Py.rbind, Py.range.
  rewrite (div_ok _ (inject_nat_nonzero HK)). cbv beta iota delta [Py.ok].
  now rewrite Nat.sub_0_r.
Qed.

Lemma step_nonneg (Vt : Q) (intervals j : nat) :
  0 < intervals -> (0 <= Vt)%Q ->
  (0 <= Vt / inject_Z (Z.of_nat intervals) * inject_Z (Z.of_nat j))%Q.
Proof.
  intros HK HV. apply Qmult_le_0_compat.
  - apply Qle_shift_div_l; [now apply inject_nat_pos|].
    now rewrite Qmult_0_l.
  - change 0%Q with (inject_Z 0). rewrite <- Zle_Qle. lia.
Qed.

Lemma filter_all (A : Type) (f : A -> bool) (l : list A) :
  Forall (fun x => f x = true) l -> filter f l = l.
Proof.
  induction 1 as [|x l Hx _ IH]; [reflexivity|].
  cbn [filter]. now rewrite Hx, IH.
Qed.

(** The targets of an inspiration lie at or below its first volume, those
    of an expiration at or above it. *)
Lemma insp_targets_from_start (Vol : list Q) (Vt : Q) (intervals : nat) :
  0 < intervals -> (0 <= Vt)%Q ->
  Forall (fun A => VShape.from_start Py.Qgtb Vol A = true)
    (map (fun j => (nth 0 Vol 0 - Vt / inject_Z (Z.of_nat intervals)
                                  * inject_Z (Z.of_nat j))%Q)
         (seq 0 (intervals + 1))).
Proof.
  intros HK HV. apply Forall_forall. intros A HA.
  apply in_map_iff in HA. destruct HA as (j & <- & _).
  unfold VShape.from_start, Py.Qgtb. rewrite Qltb_false; [reflexivity|].
  pose proof (@step_nonneg Vt intervals j HK HV) as H.
  apply Qle_minus_iff.
  setoid_replace (nth 0 Vol 0
                  + - (nth 0 Vol 0 - Vt / inject_Z (Z.of_nat intervals)
                       * inject_Z (Z.of_nat j)))%Q
    with (Vt / inject_Z (Z.of_nat intervals) * inject_Z (Z.of_nat j))%Q
    by ring.
  exact H.
Qed.

Lemma exp_targets_from_start (Vol : list Q) (Vt : Q) (intervals : nat) :
  0 < intervals -> (0 <= Vt)%Q ->
  Forall (fun A => VShape.from_start Py.Qltb Vol A = true)
    (map (fun j => (nth 0 Vol 0 + Vt / inject_Z (Z.of_nat intervals)
                                  * inject_Z (Z.of_nat j))%Q)
         (seq 0 (intervals + 1))).
Proof.
  intros HK HV. apply Forall_forall. intros A HA.
  apply in_map_iff in HA. destruct HA as (j & <- & _).
  unfold VShape.from_start. rewrite Qltb_false; [reflexivity|].
  pose proof (@step_nonneg Vt intervals j HK HV) as H.
  apply Qle_minus_iff.
  setoid_replace (nth 0 Vol 0 + Vt / inject_Z (Z.of_nat intervals)
                                * inject_Z (Z.of_nat j)
                  + - nth 0 Vol 0)%Q
    with (Vt / inject_Z (Z.of_nat intervals) * inject_Z (Z.of_nat j))%Q
    by ring.
  exact H.
Qed.

(** The body of the breath loop of process_volume_bins on a breath whose
    two phases have volumes that move one way and neighbouring sample
    times that differ, for [intervals > 0] and tidal volumes that are not
    negative. *)
Lemma volume_bins_breath_monotone
  (intervals : nat) (o : TimeBins.breath) (vt_insp vt_exp : Q) :
  0 < intervals -> (0 <= vt_insp)%Q -> (0 <= vt_exp)%Q ->
  VShape.monotone_breath o ->
  exists b,
    VolumeBins.volume_bins_breath intervals o vt_insp vt_exp = Py.ok b /\
    VShape.binned intervals o vt_insp vt_exp b.
Proof.
  intros HK Hvi Hve [(HTi & HFi & Hni & Hmi & Hti) (HTe & HFe & Hne & Hme & Hte)].
  unfold VolumeBins.volume_bins_breath. cbv zeta.
  change 0%Z with (Z.of_nat 0). rewrite !index_nth_ok by lia.
  change (Z.of_nat 0) with 0%Z.
  cbv beta iota delta [Py.rbind Py.ok].
  rewrite !vol_intervals_ok by assumption.
  cbv beta iota delta [Py.rbind Py.ok].
  set (ti := map _ (seq 0 (intervals + 1))).
  set (te := map _ (seq 0 (intervals + 1))).
  destruct (@vinterpolate_all Py.Qgtb _ _ _ (or_introl eq_refl)
              HTi HFi Hni Hmi Hti ti []) as (fi & Ei & Fi).
  destruct (@vinterpolate_all Py.Qltb _ _ _ (or_intror eq_refl)
              HTe HFe Hne Hme Hte te []) as (fe & Ee & Fe).
  rewrite filter_all in Fi by (now apply insp_targets_from_start).
  rewrite filter_all in Fe by (now apply exp_targets_from_start).
  unfold VolumeBins.interpolate. rewrite Ei, Ee.
  cbv beta iota delta [Py.rbind Py.ok app].
  eexists. split; [reflexivity|]. unfold VShape.binned.
  cbn [VolumeBins.Insp_Vol VolumeBins.Insp_Flow
       VolumeBins.Exp_Vol VolumeBins.Exp_Flow].
  assert (Li : List.length ti = intervals + 1)
    by (unfold ti; now rewrite length_map, length_seq).
  assert (Le : List.length te = intervals + 1)
    by (unfold te; now rewrite length_map, length_seq).
  pose proof (Forall2_length Fi) as Lfi.
  pose proof (Forall2_length Fe) as Lfe.
  repeat split; try assumption; try lia.
  - unfold ti. rewrite nth_map_seq by lia. cbv beta. simpl. ring.
  - unfold ti. rewrite nth_map_seq by lia. cbv beta. field.
    now apply inject_nat_nonzero.
  - unfold te. rewrite nth_map_seq by lia. cbv beta. simpl. ring.
  - unfold te. rewrite nth_map_seq by lia. cbv beta. field.
    now apply inject_nat_nonzero.
Qed.

(* ------------------------------------------------------------------ *)
(** * process_volume_bins on monotone breaths *)
(* ------------------------------------------------------------------ *)

Section AggregateReturns.
Import Py Aggregate.
Local Open Scope py_scope.

Lemma column_returns (arrays : list (list Q)) (j : nat) :
  Forall (fun a => j < List.length a) arrays ->
  exists c, column arrays j = ok c.
Proof.
  induction 1 as [|a arrays Ha _ [c IH]]; [now exists []|].
  cbn [column]. rewrite index_nth_ok by assumption.
  cbv beta iota delta [rbind ok]. rewrite IH. eexists. reflexivity.
Qed.

Lemma aggregate_bin_returns (shift : option Q) (B : nat) (c : list Q) :
  0 < B -> exists r, aggregate_bin shift B c = ok r.
Proof.
  intros HB. unfold aggregate_bin.
  rewrite (div_ok _ (inject_nat_nonzero HB)). eexists. reflexivity.
Qed.

Variable shift : option Q.
Variable B : nat.
Variables iv ev ifl efl : list (list Q).
Hypothesis HB : 0 < B.

Lemma aggregate_loop_returns (js : list nat) :
  (forall j, In j js ->
     Forall (fun a => j < List.length a) iv /\
     Forall (fun a => j < List.length a) ev /\
     Forall (fun a => j < List.length a) ifl /\
     Forall (fun a => j < List.length a) efl) ->
  forall acc, exists a, aggregate_loop shift B iv ev ifl efl js acc = ok a.
Proof.
  induction js as [|j js IH]; intros H acc; [now exists acc|].
  cbn [aggregate_loop]. unfold aggregate_row.
  destruct (H j (or_introl eq_refl)) as (H1 & H2 & H3 & H4).
  destruct (column_returns H1) as [c1 ->].
  cbv beta iota delta [rbind ok].
  destruct (aggregate_bin_returns shift c1 HB) as [r1 ->].
  cbv beta iota delta [rbind ok].
  destruct (column_returns H2) as [c2 ->].
  cbv beta iota delta [rbind ok].
  destruct (aggregate_bin_returns shift c2 HB) as [r2 ->].
  cbv beta iota delta [rbind ok].
  destruct (column_returns H3) as [c3 ->].
  cbv beta iota delta [rbind ok].
  destruct (aggregate_bin_returns None c3 HB) as [r3 ->].
  cbv beta iota delta [rbind ok].
  destruct (column_returns H4) as [c4 ->].
  cbv beta iota delta [rbind ok].
  destruct (aggregate_bin_returns None c4 HB) as [r4 ->].
  cbv beta iota delta [rbind ok].
  apply IH. intros j' Hj'. apply H. now right.
Qed.

End AggregateReturns.

Section AllBreaths.
Import Py VolumeBins VShape.
Variable K : nat.
Variables vti vte : list Q.
Hypothesis HK : 0 < K.
Hypothesis Hvi : Forall (fun v => (0 <= v)%Q) vti.
Hypothesis Hve : Forall (fun v => (0 <= v)%Q) vte.

Lemma nth_nonneg (l : list Q) (i : nat) :
  Forall (fun v => (0 <= v)%Q) l -> i < List.length l -> (0 <= nth i l 0)%Q.
Proof.
  intros H Hi. rewrite Forall_forall in H. apply H. now apply nth_In.
Qed.

(** The first loop of process_volume_bins from breath [i] on. *)
Lemma volume_bins_all_monotone (os : list TimeBins.breath) :
  forall i,
    i + List.length os <= List.length vti ->
    i + List.length os <= List.length vte ->
    Forall monotone_breath os ->
    exists d,
      volume_bins_all K os vti vte i = ok d /\
      forall k o, nth_error os k = Some o ->
        exists b, nth_error d k = Some b /\
                  binned K o (nth (i + k) vti 0%Q) (nth (i + k) vte 0%Q) b.
Proof.
  induction os as [|o os IH]; intros i Li Le Hm.
  - exists []. split; [reflexivity|]. intros [|k] o' H; discriminate.
  - cbn [List.length] in Li, Le. inversion Hm as [|? ? Ho Hos]; subst.
    cbn [volume_bins_all]. rewrite !index_nth_ok by lia.
    cbv beta iota delta [rbind ok].
    assert (Ni : (0 <= nth i vti 0)%Q) by (apply nth_nonneg; [assumption|lia]).
    assert (Ne : (0 <= nth i vte 0)%Q) by (apply nth_nonneg; [assumption|lia]).
    destruct (@volume_bins_breath_monotone K o (nth i vti 0%Q) (nth i vte 0%Q)
                HK Ni Ne Ho) as (b & -> & Hb).
    assert (Li' : S i + List.length os <= List.length vti) by lia.
    assert (Le' : S i + List.length os <= List.length vte) by lia.
    destruct (IH (S i) Li' Le' Hos) as (d & -> & Hd).
    exists (b :: d). split; [reflexivity|].
    intros [|k] o' H; cbn [nth_error] in *.
    + injection H as <-. exists b. rewrite Nat.add_0_r. auto.
    + destruct (Hd k o' H) as (b' & E & Hb'). exists b'.
      replace (i + S k) with (S i + k) by lia. auto.
Qed.

End AllBreaths.

(** X15.  On breaths whose inspiratory volumes fall and expiratory
    volumes rise strictly, with neighbouring sample times that differ,
    process_volume_bins cannot fail: given [intervals > 0], at least one
    breath, an original phase pair and two tidal volumes that are not
    negative for every breath, it returns, and the volume bins of every
    breath are complete, four lists of [intervals + 1] entries with target
    volumes from the first volume of the phase to that volume less
    (inspiration) or plus (expiration) the tidal volume, each with its
    flow. *)
Theorem volume_bins_of_monotone_breaths
  (r : TimeBins.time_bins_result) (intervals number_of_breaths : nat) :
  0 < intervals -> 0 < number_of_breaths ->
  List.length (TimeBins.original_data_breath_dictionary r) = number_of_breaths ->
  List.length (TimeBins.Vt_Insp_list r) = number_of_breaths ->
  List.length (TimeBins.Vt_Exp_list r) = number_of_breaths ->
  Forall (fun v => (0 <= v)%Q) (TimeBins.Vt_Insp_list r) ->
  Forall (fun v => (0 <= v)%Q) (TimeBins.Vt_Exp_list r) ->
  Forall VShape.monotone_breath (TimeBins.original_data_breath_dictionary r) ->
  exists vr,
    VolumeBins.process_volume_bins r intervals number_of_breaths = Py.ok vr /\
    List.length (VolumeBins.volume_bins_breath_dictionary vr)
    = number_of_breaths /\
    forall i o,
      nth_error (TimeBins.original_data_breath_dictionary r) i = Some o ->
      exists b,
        nth_error (VolumeBins.volume_bins_breath_dictionary vr) i = Some b /\
        VShape.binned intervals o (nth i (TimeBins.Vt_Insp_list r) 0%Q)
          (nth i (TimeBins.Vt_Exp_list r) 0%Q) b.
Proof.
  intros HK HB Lo Li Le Hvi Hve Hm.
  unfold VolumeBins.process_volume_bins.
  assert (Li0 : 0 + List.length (TimeBins.original_data_breath_dictionary r)
                <= List.length (TimeBins.Vt_Insp_list r)) by lia.
  assert (Le0 : 0 + List.length (TimeBins.original_data_breath_dictionary r)
                <= List.length (TimeBins.Vt_Exp_list r)) by lia.
  destruct (@volume_bins_all_monotone intervals _ _ HK Hvi Hve
              (TimeBins.original_data_breath_dictionary r) 0
              Li0 Le0 Hm) as (d & E & Hd).
  rewrite E. cbv beta iota delta [Py.rbind Py.ok].
  pose proof (volume_bins_all_length _ _ _ _ _ E) as Ld.
  assert (Hb : forall b, In b d ->
                 List.length (VolumeBins.Insp_Vol b) = intervals + 1 /\
                 List.length (VolumeBins.Insp_Flow b) = intervals + 1 /\
                 List.length (VolumeBins.Exp_Vol b) = intervals + 1 /\
                 List.length (VolumeBins.Exp_Flow b) = intervals + 1).
  { intros b Hin. destruct (In_nth_error _ _ Hin) as [k Hk].
    assert (Hlt : k < List.length d)
      by (apply nth_error_Some; congruence).
    destruct (nth_error (TimeBins.original_data_breath_dictionary r) k)
      as [o|] eqn:Eo.
    - destruct (Hd k o Eo) as (b' & E' & H1 & H2 & H3 & H4 & _).
      rewrite Hk in E'. injection E' as <-. auto.
    - apply nth_error_None in Eo. lia. }
  assert (Hall : forall (f : VolumeBins.vbreath -> list Q) j,
            j <= intervals ->
            (forall b, In b d -> List.length (f b) = intervals + 1) ->
            Forall (fun a => j < List.length a) (map f d)).
  { intros f j Hj Hf. apply Forall_map, Forall_forall. intros b Hin.
    rewrite (Hf b Hin). lia. }
  destruct (@aggregate_loop_returns None number_of_breaths
              (map VolumeBins.Insp_Vol d) (map VolumeBins.Exp_Vol d)
              (map VolumeBins.Insp_Flow d) (map VolumeBins.Exp_Flow d) HB
              (Py.range 0 (intervals + 1))) with (acc := Aggregate.averages_empty)
    as [a Ea].
  { intros j Hj. unfold Py.range in Hj. apply in_seq in Hj.
    repeat split; apply Hall; try lia; intros b Hin; apply (Hb b Hin). }
  unfold Aggregate.aggregate. rewrite Ea.
  eexists. split; [reflexivity|].
  cbn [VolumeBins.volume_bins_breath_dictionary].
  split; [lia|]. intros i o Ho. destruct (Hd i o Ho) as (b & Eb & Hbin).
  exists b. auto.
Qed.

Lemma rising_013 : VShape.monotone Py.Qltb [0; 1; 3]%Q.
Proof.
  intros i j Hij Hj. simpl in Hj.
  destruct j as [|[|[|j]]]; [lia| | |lia];
    destruct i as [|[|i]]; try lia; reflexivity.
Qed.

Lemma volume_bins_of_monotone_breaths_witness :
  let o := TimeBins.mkBreath [0; 1; 2]%Q [3; 2; 0]%Q [0; -1; 0]%Q
                             [0; 1; 2]%Q [0; 1; 3]%Q [0; 1; 0]%Q in
  let r := TimeBins.mkTimeBinsResult [] [o] [] [3%Q] [3%Q] [2%Q] [2%Q]
             Aggregate.averages_empty 0 3 3 in
  exists vr,
    VolumeBins.process_volume_bins r 2 1 = Py.ok vr /\
    List.length (VolumeBins.volume_bins_breath_dictionary vr) = 1 /\
    exists b,
      nth_error (VolumeBins.volume_bins_breath_dictionary vr) 0 = Some b /\
      VShape.binned 2 o 3 3 b.
Proof.
  cbv zeta.
  destruct (@volume_bins_of_monotone_breaths
              (TimeBins.mkTimeBinsResult []
                 [TimeBins.mkBreath [0; 1; 2]%Q [3; 2; 0]%Q [0; -1; 0]%Q
                                    [0; 1; 2]%Q [0; 1; 3]%Q [0; 1; 0]%Q]
                 [] [3%Q] [3%Q] [2%Q] [2%Q] Aggregate.averages_empty 0 3 3)
              2 1) as (vr & E & L & H).
  - lia.
  - lia.
  - reflexivity.
  - reflexivity.
  - reflexivity.
  - repeat constructor; discriminate.
  - repeat constructor; discriminate.
  - constructor; [|constructor]. split.
    + split; [reflexivity|]. split; [reflexivity|]. split; [simpl; lia|].
      split; [exact falling_320 | exact distinct_012].
    + split; [reflexivity|]. split; [reflexivity|]. split; [simpl; lia|].
      split; [exact rising_013 | exact distinct_012].
  - exists vr. split; [exact E|]. split; [exact L|].
    exact (H 0 _ eq_refl).
Defined.

(* ------------------------------------------------------------------ *)
(** * The reader: which columns are found *)
(* ------------------------------------------------------------------ *)

Section FindColumn.
Import Consolidator Columns.
Variable A : Type.

(** [df[col]] reads a column that [find_column] has found. *)
Lemma find_column_get (df : frame A) (patterns : list string) (c : string) :
  find_column df patterns = Some c ->
  exists xs, get_column df c = Some xs.
Proof.
  induction df as [|[c0 x0] df IH]; [discriminate|].
  cbn [find_column get_column].
  destruct (forallb _ patterns).
  - intros [= <-]. exists x0. now rewrite String.eqb_refl.
  - intros H. destruct (String.eqb c0 c); [now exists x0 | now apply IH].
Qed.

Lemma find_column_none (df : frame A) (patterns : list string) :
  find_column df patterns = None <-> has_column df patterns = false.
Proof.
  unfold has_column. induction df as [|[c0 x0] df IH]; [now split|].
  cbn [find_column existsb fst]. unfold matches at 1.
  destruct (forallb _ patterns); [split; discriminate | exact IH].
Qed.

Lemma find_column_some (df : frame A) (patterns : list string) :
  has_column df patterns = true ->
  exists c xs, find_column df patterns = Some c /\ get_column df c = Some xs.
Proof.
  intros H. destruct (find_column df patterns) as [c|] eqn:E.
  - destruct (find_column_get _ _ E) as (xs & Hg). now exists c, xs.
  - apply find_column_none in E. congruence.
Qed.

End FindColumn.

(** X16.  [read_excel_file] succeeds on a sheet exactly when each of the
    four patterns of config.py has a column whose lowercased name contains
    all its words; the lookup [df[col]] of a column found never fails. *)
Theorem read_excel_file_succeeds_iff_columns_found
  (df : Consolidator.frame (option Q)) (tlc : Q) :
  Columns.success (Consolidator.read_excel_file df tlc)
  = Columns.has_column df Consolidator.VOL_INSP_PATTERN
    && Columns.has_column df Consolidator.FLOW_INSP_PATTERN
    && Columns.has_column df Consolidator.VOL_EXP_PATTERN
    && Columns.has_column df Consolidator.FLOW_EXP_PATTERN.
Proof.
  unfold Consolidator.read_excel_file.
  destruct (Columns.has_column df Consolidator.VOL_INSP_PATTERN) eqn:H1.
  2:{ apply find_column_none in H1. now rewrite H1. }
  destruct (find_column_some _ _ H1) as (c1 & x1 & -> & ->).
  destruct (Columns.has_column df Consolidator.FLOW_INSP_PATTERN) eqn:H2.
  2:{ apply find_column_none in H2. now rewrite H2. }
  destruct (find_column_some _ _ H2) as (c2 & x2 & -> & ->).
  destruct (Columns.has_column df Consolidator.VOL_EXP_PATTERN) eqn:H3.
  2:{ apply find_column_none in H3. now rewrite H3. }
  destruct (find_column_some _ _ H3) as (c3 & x3 & -> & ->).
  destruct (Columns.has_column df Consolidator.FLOW_EXP_PATTERN) eqn:H4.
  2:{ apply find_column_none in H4. now rewrite H4. }
  destruct (find_column_some _ _ H4) as (c4 & x4 & -> & ->).
  reflexivity.
Qed.

(** X17.  When several columns of a sheet pass the test of
    [find_column], the leftmost one is taken: the answer is the name of a
    column that passes, no column to its left passes, and [df[col]] reads
    the data of that column. *)
Theorem find_column_takes_the_leftmost_match
  (df : Consolidator.frame (option Q)) (patterns : list string) (c : string) :
  Consolidator.find_column df patterns = Some c ->
  exists pre xs post,
    df = pre ++ (c, xs) :: post /\
    Forall (fun x => Columns.matches patterns (fst x) = false) pre /\
    Columns.matches patterns c = true /\
    Consolidator.get_column df c = Some xs.
Proof.
  induction df as [|[c0 x0] df IH]; [discriminate|].
  cbn [Consolidator.find_column]. fold (Columns.matches patterns c0).
  destruct (Columns.matches patterns c0) eqn:E.
  - intros [= <-]. exists [], x0, df. repeat split; [constructor | exact E|].
    cbn [Consolidator.get_column]. now rewrite String.eqb_refl.
  - intros H. destruct (IH H) as (pre & xs & post & -> & Hpre & Hc & Hg).
    exists ((c0, x0) :: pre), xs, post. repeat split.
    + constructor; assumption.
    + assumption.
    + cbn [Consolidator.get_column].
      destruct (String.eqb_spec c0 c) as [->|Hne]; [congruence | exact Hg].
Qed.

Lemma find_column_takes_the_leftmost_match_witness :
  exists pre xs post,
    [("Time"%string, [Some 0%Q]); ("Insp Vol SEM"%string, [Some 1%Q]);
     ("Avg Insp Vol"%string, [Some 2%Q])]
    = pre ++ ("Insp Vol SEM"%string, xs) :: post /\
    Forall (fun x => Columns.matches Consolidator.VOL_INSP_PATTERN (fst x)
                     = false) pre /\
    Columns.matches Consolidator.VOL_INSP_PATTERN "Insp Vol SEM" = true /\
    Consolidator.get_column
      [("Time"%string, [Some 0%Q]); ("Insp Vol SEM"%string, [Some 1%Q]);
       ("Avg Insp Vol"%string, [Some 2%Q])] "Insp Vol SEM" = Some xs.
Proof.
  apply find_column_takes_the_leftmost_match. reflexivity.
Defined.

(* ------------------------------------------------------------------ *)
(** * The path of the separate output file *)
(* ------------------------------------------------------------------ *)

Section Replace.
Import Consolidator.
Variables pat rep : string.

Lemma index_cons_none (c : ascii) (s : string) :
  String.index 0 pat (String c s) = None ->
  String.prefix pat (String c s) = false /\ String.index 0 pat s = None.
Proof.
  cbn [String.index].
  destruct (String.prefix pat (String c s)); [discriminate|].
  destruct (String.index 0 pat s); [discriminate | now split].
Qed.

(** Nothing to replace: the string is returned as it is. *)
Lemma replace_absent (s : string) :
  contains pat s = false -> replace pat rep s = s.
Proof.
  unfold contains, replace. induction s as [|c s IH]; [reflexivity|].
  destruct (String.index 0 pat (String c s)) eqn:E; [discriminate|].
  intros _. apply index_cons_none in E. destruct E as [Ep Ei].
  cbn [replace_from]. rewrite Ep. f_equal. apply IH. now rewrite Ei.
Qed.

Lemma prefix_refl (s : string) : String.prefix s s = true.
Proof.
  induction s as [|c s IH]; [reflexivity|].
  cbn [String.prefix]. destruct (Ascii.ascii_dec c c); [exact IH | congruence].
Qed.

Lemma append_empty_r (s : string) : (s ++ "")%string = s.
Proof. induction s as [|c s IH]; [reflexivity | simpl; now rewrite IH]. Qed.

Lemma replace_whole :
  pat <> EmptyString -> replace_from pat rep 0 pat = rep.
Proof.
  intros Hne.
  assert (G : forall p, p <> EmptyString ->
                replace_from p rep 0 p = rep).
  { clear Hne. intros [|c p] H; [congruence|].
    cbn [replace_from]. rewrite prefix_refl.
    cbn [String.length Nat.sub]. rewrite Nat.sub_0_r.
    assert (S : forall q s, replace_from q rep (String.length s) s
                            = EmptyString)
      by (intros q s; induction s as [|a s IHs]; [reflexivity | exact IHs]).
    now rewrite S, append_empty_r. }
  now apply G.
Qed.

(** The pattern stands at the end of the string and nowhere before. *)
Lemma replace_at_the_end (stem : string) :
  pat <> EmptyString ->
  String.index 0 pat (stem ++ pat) = Some (String.length stem) ->
  replace pat rep (stem ++ pat) = (stem ++ rep)%string.
Proof.
  intros Hne. unfold replace. induction stem as [|c stem IH].
  - intros _. cbn [String.append]. now apply replace_whole.
  - cbn [String.append String.index String.length].
    destruct (String.prefix pat (String c (stem ++ pat))) eqn:P;
      [discriminate|].
    destruct (String.index 0 pat (stem ++ pat)) as [n|] eqn:I;
      [|discriminate].
    intros [= ->]. cbn [replace_from]. rewrite P. f_equal. now apply IH.
Qed.

End Replace.

(** X18.  A path in which the text ".xlsx" does not occur, such as one
    ending in ".XLSX", is left as it is by the replacement:
    create_separate_file_output opens the writer on the path of its input
    file.  When the writer takes that path, the file written stands where
    the input file stood; when it refuses the path, the call raises and
    nothing is written. *)
Theorem separate_output_takes_the_path_of_the_input
  (write_ok : string -> bool) (file_path subject_suffix : string)
  (insp_vol insp_flow exp_vol exp_flow : Consolidator.series) :
  Consolidator.contains ".xlsx" file_path = false ->
  Separate.create_separate_file_output write_ok file_path
    insp_vol insp_flow exp_vol exp_flow subject_suffix
  = if write_ok file_path
    then Some (file_path,
               Separate.output_df insp_vol insp_flow exp_vol exp_flow
                 subject_suffix)
    else None.
Proof.
  intros H. unfold Separate.create_separate_file_output. cbv zeta.
  unfold Separate.output_path. now rewrite (@replace_absent _ _ _ H).
Qed.

Lemma separate_output_takes_the_path_of_the_input_witness :
  Separate.create_separate_file_output
    (fun path => negb (String.eqb path "/data/S1234.XLSX"))
    "/data/S1234.XLSX" [Some 1%Q] [Some 2%Q] [Some 3%Q] [Some 4%Q] " 1234"
  = None.
Proof.
  rewrite separate_output_takes_the_path_of_the_input; reflexivity.
Defined.

(** X19.  For a path that ends in ".xlsx" and has no earlier ".xlsx" in
    it, the output path of create_separate_file_output is the path with
    "_TLC_percent" and the subject suffix put before the extension. *)
Theorem separate_output_path_of_an_xlsx_file (stem subject_suffix : string) :
  String.index 0 ".xlsx" (stem ++ ".xlsx") = Some (String.length stem) ->
  Separate.output_path (stem ++ ".xlsx") subject_suffix
  = (stem ++ "_TLC_percent" ++ subject_suffix ++ ".xlsx")%string.
Proof.
  intros H. unfold Separate.output_path.
  apply replace_at_the_end; [discriminate | exact H].
Qed.

Lemma separate_output_path_of_an_xlsx_file_witness :
  Separate.output_path ("/data/S1234" ++ ".xlsx") " 1234"
  = ("/data/S1234" ++ "_TLC_percent" ++ " 1234" ++ ".xlsx")%string.
Proof.
  apply separate_output_path_of_an_xlsx_file. reflexivity.
Defined.

(* ------------------------------------------------------------------ *)
(** * The columns of the sheet "Individual Data" *)
(* ------------------------------------------------------------------ *)

Section CombinedData.
Import Consolidator Columns.

Lemma dict_get_dict_set (A : Type) (d : frame A) (k k' : string) (v : list A) :
  dict_get (dict_set d k v) k'
  = if String.eqb k k' then Some v else dict_get d k'.
Proof.
  induction d as [|[k0 v0] d IH]; cbn [dict_set dict_get].
  - reflexivity.
  - destruct (String.eqb_spec k0 k) as [->|Hne]; cbn [dict_get].
    + destruct (String.eqb k k'); reflexivity.
    + rewrite IH. destruct (String.eqb_spec k0 k') as [->|Hne'];
        [|reflexivity].
      destruct (String.eqb_spec k k') as [->|]; [congruence | reflexivity].
Qed.

Lemma file_columns_names (max_rows i : nat) (fd : file_data) :
  fst (fst (file_columns max_rows i fd)) = ("Vol % TLC " ++ tag i fd)%string /\
  fst (snd (file_columns max_rows i fd)) = ("Flow " ++ tag i fd)%string.
Proof. split; reflexivity. Qed.

Variable processed_dfs : list (string * file_data).
Variable max_rows : nat.

(** What the loop leaves under a key of either kind. *)
Lemma collect_get (t : string) (selected_files : list string) :
  forall i combined_data all_tlc_values,
    let d := fst (collect selected_files processed_dfs max_rows i
                    combined_data all_tlc_values) in
    dict_get d ("Vol % TLC " ++ t)
    = match last_tagged t (processed selected_files processed_dfs i) with
      | Some e => Some (snd (fst (file_columns max_rows (fst e) (snd e))))
      | None => dict_get combined_data ("Vol % TLC " ++ t)
      end /\
    dict_get d ("Flow " ++ t)
    = match last_tagged t (processed selected_files processed_dfs i) with
      | Some e => Some (snd (snd (file_columns max_rows (fst e) (snd e))))
      | None => dict_get combined_data ("Flow " ++ t)
      end.
Proof.
  induction selected_files as [|p rest IH]; intros i acc tl; cbv zeta.
  - split; reflexivity.
  - cbn [collect processed].
    destruct (dict_get processed_dfs p) as [fd|]; [|apply IH].
    pose proof (file_columns_names max_rows i fd) as [Hv Hf].
    destruct (file_columns max_rows i fd) as [[vn vc] [fn fc]] eqn:E.
    cbn [fst snd] in Hv, Hf. subst vn fn.
    specialize (IH (S i) (dict_set (dict_set acc ("Vol % TLC " ++ tag i fd) vc)
                            ("Flow " ++ tag i fd) fc) (tl ++ [tlc fd])).
    cbv zeta in IH. destruct IH as [IHv IHf].
    rewrite IHv, IHf. cbn [last_tagged fst snd].
    destruct (last_tagged t (processed rest processed_dfs (S i)));
      [split; reflexivity|].
    rewrite !dict_get_dict_set.
    change (String.eqb ("Flow " ++ tag i fd) ("Vol % TLC " ++ t)) with false.
    change (String.eqb ("Vol % TLC " ++ tag i fd) ("Vol % TLC " ++ t))
      with (String.eqb (tag i fd) t).
    change (String.eqb ("Flow " ++ tag i fd) ("Flow " ++ t))
      with (String.eqb (tag i fd) t).
    change (String.eqb ("Vol % TLC " ++ tag i fd) ("Flow " ++ t)) with false.
    destruct (String.eqb (tag i fd) t); cbn [fst snd]; rewrite ?E;
      split; reflexivity.
Qed.

End CombinedData.

(** X20.  In the dictionary that becomes the sheet "Individual Data", the
    columns "Vol % TLC t" and "Flow t" hold the data of the LAST processed
    file of the selection whose tag (its subject id, or its place in the
    selection when it has none) is [t], and there are no such columns when
    no processed file has that tag: of two files with the same subject id
    only the later one is in the sheet. *)
Theorem columns_hold_the_last_file_of_a_tag
  (selected_files : list string)
  (processed_dfs : list (string * Consolidator.file_data))
  (max_rows : nat) (t : string) :
  let d := fst (Consolidator.collect selected_files processed_dfs max_rows 0
                  [] []) in
  let last := Columns.last_tagged t
                (Columns.processed selected_files processed_dfs 0) in
  Consolidator.dict_get d ("Vol % TLC " ++ t)
  = option_map (fun e => snd (fst (Consolidator.file_columns max_rows
                                     (fst e) (snd e)))) last /\
  Consolidator.dict_get d ("Flow " ++ t)
  = option_map (fun e => snd (snd (Consolidator.file_columns max_rows
                                     (fst e) (snd e)))) last.
Proof.
  cbv zeta.
  destruct (collect_get processed_dfs max_rows t selected_files 0 [] [])
    as [Hv Hf].
  rewrite Hv, Hf.
  destruct (Columns.last_tagged t _); split; reflexivity.
Qed.

(* ------------------------------------------------------------------ *)
(** * process_files: what is reported *)
(* ------------------------------------------------------------------ *)

Section Reports.
Import Consolidator Processor.
Variable w : world.
Variable tlc_values : list (string * Q).
Variable subject_ids : list (string * string).
Variable output_option : string.

Local Abbreviation step' := (step w tlc_values subject_ids output_option).

Lemma write_failures_app (l l' : list failure) :
  write_failures (l ++ l') = write_failures l + write_failures l'.
Proof. unfold write_failures. now rewrite filter_app, length_app. Qed.

(** The count kept by the loop after [n] files. *)
Lemma step_counts (s : state) (file_path : string) (n : nat) :
  List.length (successful_files s) + List.length (failed_files s)
  = n + write_failures (failed_files s) ->
  write_failures (failed_files s)
  <= (if String.eqb output_option OUTPUT_HORIZONTAL then 0
      else List.length (successful_files s)) ->
  List.length (successful_files (step' s file_path))
  + List.length (failed_files (step' s file_path))
  = S n + write_failures (failed_files (step' s file_path)) /\
  write_failures (failed_files (step' s file_path))
  <= (if String.eqb output_option OUTPUT_HORIZONTAL then 0
      else List.length (successful_files (step' s file_path))).
Proof.
  intros Hn Hb. unfold step. cbv zeta.
  destruct (dict_get tlc_values file_path) as [tlc|].
  2:{ cbn [fail successful_files failed_files].
      rewrite length_app, write_failures_app. cbn.
      destruct (String.eqb output_option OUTPUT_HORIZONTAL); lia. }
  destruct (read w file_path tlc) as [r|].
  2:{ cbn [fail successful_files failed_files].
      rewrite length_app, write_failures_app. cbn.
      destruct (String.eqb output_option OUTPUT_HORIZONTAL); lia. }
  destruct (String.eqb output_option OUTPUT_HORIZONTAL).
  - cbn [store successful_files failed_files]. rewrite length_app. cbn. lia.
  - unfold write, Separate.create_separate_file_output. cbv zeta.
    destruct (write_ok w _).
    + cbn [store successful_files failed_files]. rewrite length_app. cbn. lia.
    + cbn [fail store successful_files failed_files].
      rewrite !length_app, write_failures_app. cbn. lia.
Qed.

Lemma loop_counts (selected_files : list string) :
  forall (s : state) (n : nat),
    List.length (successful_files s) + List.length (failed_files s)
    = n + write_failures (failed_files s) ->
    write_failures (failed_files s)
    <= (if String.eqb output_option OUTPUT_HORIZONTAL then 0
        else List.length (successful_files s)) ->
    let s' := fold_left step' selected_files s in
    List.length (successful_files s') + List.length (failed_files s')
    = List.length selected_files + n + write_failures (failed_files s') /\
    write_failures (failed_files s')
    <= (if String.eqb output_option OUTPUT_HORIZONTAL then 0
        else List.length (successful_files s')).
Proof.
  induction selected_files as [|p rest IH]; intros s n Hn Hb; cbv zeta.
  - cbn [fold_left List.length]. split; [lia | assumption].
  - cbn [fold_left List.length].
    destruct (@step_counts s p n Hn Hb) as [Hn' Hb'].
    destruct (IH _ _ Hn' Hb') as [H1 H2]. split; [lia | assumption].
Qed.

(** The two lists only grow. *)
Lemma step_keeps (s : state) (file_path : string) :
  incl (successful_files s) (successful_files (step' s file_path)) /\
  incl (failed_files s) (failed_files (step' s file_path)).
Proof.
  unfold step. cbv zeta.
  destruct (dict_get tlc_values file_path) as [tlc|].
  2:{ cbn [fail successful_files failed_files].
      split; [apply incl_refl | apply incl_appl, incl_refl]. }
  destruct (read w file_path tlc) as [r|].
  2:{ cbn [fail successful_files failed_files].
      split; [apply incl_refl | apply incl_appl, incl_refl]. }
  destruct (String.eqb output_option OUTPUT_HORIZONTAL).
  - cbn [store successful_files failed_files].
    split; [apply incl_appl, incl_refl | apply incl_refl].
  - unfold write, Separate.create_separate_file_output. cbv zeta.
    destruct (write_ok w _); cbn [fail store successful_files failed_files].
    + split; [apply incl_appl, incl_refl | apply incl_refl].
    + split; apply incl_appl, incl_refl.
Qed.

Lemma loop_keeps (selected_files : list string) :
  forall s,
    incl (successful_files s) (successful_files (fold_left step' selected_files s)) /\
    incl (failed_files s) (failed_files (fold_left step' selected_files s)).
Proof.
  induction selected_files as [|p rest IH]; intros s; cbn [fold_left].
  - split; apply incl_refl.
  - destruct (step_keeps s p) as [H1 H2].
    destruct (IH (step' s p)) as [H3 H4].
    split; eapply incl_tran; eassumption.
Qed.

End Reports.

(** X21.  When process_files returns, every selected file is reported,
    once: the entries of successful_files and failed_files together are
    as many as the selected files, plus one for every output file that
    could not be written, whose input file is in both lists; with the
    horizontal layout no such entry is made.  process_files does not
    return only with the horizontal layout, when the consolidated
    workbook cannot be written at output_path: the error raised by the
    writer after the loop is caught nowhere. *)
Theorem process_files_reports_every_file
  (w : Processor.world) (selected_files : list string)
  (tlc_values : list (string * Q)) (subject_ids : list (string * string))
  (output_option output_path : string) :
  match Processor.process_files w selected_files tlc_values subject_ids
          output_option output_path with
  | inl R =>
      List.length (Processor.res_successful_files R)
      + List.length (Processor.res_failed_files R)
      = List.length selected_files
        + Processor.write_failures (Processor.res_failed_files R) /\
      Processor.write_failures (Processor.res_failed_files R)
      <= (if String.eqb output_option Processor.OUTPUT_HORIZONTAL then 0
          else List.length (Processor.res_successful_files R))
  | inr e =>
      e = Processor.WriteError output_path /\
      String.eqb output_option Processor.OUTPUT_HORIZONTAL = true /\
      Processor.write_ok w output_path = false
  end.
Proof.
  unfold Processor.process_files. cbv zeta.
  destruct (@loop_counts w tlc_values subject_ids output_option selected_files
              Processor.initial 0) as [H1 H2].
  - reflexivity.
  - cbn. destruct (String.eqb output_option Processor.OUTPUT_HORIZONTAL); lia.
  - cbv zeta in H1, H2.
    set (s := fold_left _ selected_files Processor.initial) in *.
    destruct (String.eqb output_option Processor.OUTPUT_HORIZONTAL) eqn:Eh.
    + destruct (Processor.processed_dfs s) as [|d ds].
      * cbn [Processor.res_successful_files Processor.res_failed_files].
        split; [lia | assumption].
      * destruct (Processor.write_ok w output_path) eqn:Ew.
        -- cbn [Processor.res_successful_files Processor.res_failed_files].
           split; [lia | assumption].
        -- repeat split; reflexivity.
    + cbn [Processor.res_successful_files Processor.res_failed_files].
      split; [lia | assumption].
Qed.

(** X22.  With separate output files process_files returns, and a file
    that is read with success but whose output file cannot be written is
    reported twice: its name is in successful_files, and in failed_files
    with the text of the error. *)
Theorem unwritable_output_is_reported_twice
  (w : Processor.world) (selected_files : list string)
  (tlc_values : list (string * Q)) (subject_ids : list (string * string))
  (output_option output_path file_path : string) (tlc : Q)
  (r : Consolidator.file_result) :
  In file_path selected_files ->
  Consolidator.dict_get tlc_values file_path = Some tlc ->
  Processor.read w file_path tlc = Some r ->
  String.eqb output_option Processor.OUTPUT_HORIZONTAL = false ->
  let out := Separate.output_path file_path
               (Processor.suffix_of
                  (Processor.subject_id_of subject_ids file_path)) in
  Processor.write_ok w out = false ->
  exists R,
    Processor.process_files w selected_files tlc_values subject_ids
      output_option output_path = inl R /\
    In (Processor.basename file_path) (Processor.res_successful_files R) /\
    In (Processor.WithError (Processor.basename file_path)
          (Processor.WriteError out))
       (Processor.res_failed_files R).
Proof.
  intros Hin Htlc Hread Hopt out Hw.
  unfold Processor.process_files. cbv zeta. rewrite Hopt.
  eexists. split; [reflexivity|].
  cbn [Processor.res_successful_files Processor.res_failed_files].
  generalize Processor.initial.
  induction selected_files as [|p rest IH]; intros s; [destruct Hin|].
  cbn [fold_left]. destruct Hin as [->|Hin]; [|now apply IH].
  destruct (@loop_keeps w tlc_values subject_ids output_option rest
              (Processor.step w tlc_values subject_ids output_option s file_path))
    as [H1 H2].
  split; [apply H1 | apply H2];
    unfold Processor.step; cbv zeta; rewrite Htlc, Hread, Hopt;
    unfold Processor.write, Separate.create_separate_file_output;
    cbv zeta; fold out; rewrite Hw;
    cbn [Processor.fail Processor.store Processor.successful_files
         Processor.failed_files];
    apply in_or_app; right; now left.
Qed.

Lemma unwritable_output_is_reported_twice_witness :
  let w := Processor.mkWorld
             (fun _ => Some [("Insp Vol"%string, [Some 1%Q]);
                             ("Insp Flow"%string, [Some 2%Q]);
                             ("Exp Vol"%string, [Some 3%Q]);
                             ("Exp Flow"%string, [Some 4%Q])])
             (fun _ => false) in
  exists R,
    Processor.process_files w ["/d/S12.xlsx"%string]
      [("/d/S12.xlsx"%string, 5%Q)] [] "separate_files" "" = inl R /\
    In "S12.xlsx"%string (Processor.res_successful_files R) /\
    In (Processor.WithError "S12.xlsx"
          (Processor.WriteError "/d/S12_TLC_percent.xlsx"))
       (Processor.res_failed_files R).
Proof.
  cbv zeta.
  eapply (@unwritable_output_is_reported_twice _ ["/d/S12.xlsx"%string]
            [("/d/S12.xlsx"%string, 5%Q)] [] "separate_files" ""
            "/d/S12.xlsx" 5%Q).
  - left. reflexivity.
  - reflexivity.
  - reflexivity.
  - reflexivity.
  - reflexivity.
Defined.

(* ------------------------------------------------------------------ *)
(** * process_files: the rows of the sheet "Individual Data" *)
(* ------------------------------------------------------------------ *)

Section Rows.
Import Consolidator Processor Facts.

Lemma get_column_in (A : Type) (df : frame A) (c : string) (xs : list A) :
  get_column df c = Some xs -> exists c', In (c', xs) df.
Proof.
  induction df as [|[c0 x0] df IH]; [discriminate|]. cbn [get_column].
  destruct (String.eqb c0 c).
  - intros [= <-]. exists c0. now left.
  - intros H. destruct (IH H) as [c' Hc']. exists c'. now right.
Qed.

Lemma dict_get_in (A : Type) (d : list (string * A)) (k : string) (v : A) :
  dict_get d k = Some v -> exists k', In (k', v) d.
Proof.
  induction d as [|[k0 v0] d IH]; [discriminate|]. cbn [dict_get].
  destruct (String.eqb k0 k).
  - intros [= <-]. exists k0. now left.
  - intros H. destruct (IH H) as [k' Hk']. exists k'. now right.
Qed.

(** The four series read from a table have as many rows as the table. *)
Lemma read_excel_file_rows (n : nat) (df : frame (option Q)) (tlc : Q)
  (r : file_result) :
  uniform n df -> read_excel_file df tlc = Some r ->
  List.length (insp_vol_percent r) = n /\
  List.length (insp_flow r) = n /\
  List.length (exp_vol_percent r) = n /\
  List.length (exp_flow r) = n /\
  n_rows r = n.
Proof.
  intros U. unfold read_excel_file.
  destruct (find_column df VOL_INSP_PATTERN) as [c1|]; [|discriminate].
  destruct (find_column df FLOW_INSP_PATTERN) as [c2|]; [|discriminate].
  destruct (find_column df VOL_EXP_PATTERN) as [c3|]; [|discriminate].
  destruct (find_column df FLOW_EXP_PATTERN) as [c4|]; [|discriminate].
  destruct (get_column df c1) as [iv|] eqn:E1; [|discriminate].
  destruct (get_column df c2) as [ifl|] eqn:E2; [|discriminate].
  destruct (get_column df c3) as [ev|] eqn:E3; [|discriminate].
  destruct (get_column df c4) as [efl|] eqn:E4; [|discriminate].
  intros [= <-]. cbn.
  unfold uniform in U. rewrite Forall_forall in U.
  destruct (get_column_in _ _ E1) as [k1 H1]. apply U in H1.
  destruct (get_column_in _ _ E2) as [k2 H2]. apply U in H2.
  destruct (get_column_in _ _ E3) as [k3 H3]. apply U in H3.
  destruct (get_column_in _ _ E4) as [k4 H4]. apply U in H4.
  cbn [snd] in *. unfold percent_of_tlc. rewrite !length_map. lia.
Qed.

Lemma fits_le (m m' : nat) (fd : file_data) :
  m <= m' -> fits m fd -> fits m' fd.
Proof. unfold fits. intros H (H1 & H2 & H3 & H4). repeat split; lia. Qed.

Lemma dict_put_Forall (A : Type) (P : string * A -> Prop)
  (d : list (string * A)) (k : string) (v : A) :
  Forall P d -> (forall k', P (k', v)) -> Forall P (dict_put d k v).
Proof.
  intros H Hv. induction H as [|[k0 v0] d H0 H IH]; cbn [dict_put].
  - constructor; [apply Hv | constructor].
  - destruct (String.eqb k0 k); constructor; auto.
Qed.

(** The two columns of a file that fits have [2 * max_rows] cells. *)
Lemma file_columns_rows (m i : nat) (fd : file_data) :
  fits m fd ->
  List.length (snd (fst (file_columns m i fd))) = 2 * m /\
  List.length (snd (snd (file_columns m i fd))) = 2 * m.
Proof.
  intros (H1 & H2 & H3 & H4). unfold file_columns. cbv zeta. cbn [fst snd].
  rewrite !length_app.
  assert (P : forall (s v : series), List.length v <= m ->
                List.length s = List.length v ->
                List.length (if List.length v <? m
                             then fillna_blank (reindex m s)
                             else map to_cell s) = m).
  { intros s v Hv Hs. destruct (Nat.ltb_spec (List.length v) m).
    - unfold fillna_blank, reindex.
      rewrite length_map, length_app, length_firstn, repeat_length. lia.
    - rewrite length_map. lia. }
  rewrite (P (fd_insp_vol fd) (fd_insp_vol fd)) by lia.
  rewrite (P (fd_exp_vol fd) (fd_exp_vol fd)) by lia.
  rewrite (P (fd_insp_flow fd) (fd_insp_vol fd)) by lia.
  rewrite (P (fd_exp_flow fd) (fd_exp_vol fd)) by lia.
  lia.
Qed.

Lemma collect_rows (m : nat) (dfs : list (string * file_data))
  (selected_files : list string) :
  Forall (fun e => fits m (snd e)) dfs ->
  forall i acc tl,
    uniform (2 * m) acc ->
    uniform (2 * m) (fst (collect selected_files dfs m i acc tl)).
Proof.
  intros Hfit. induction selected_files as [|p rest IH]; intros i acc tl U.
  - exact U.
  - cbn [collect]. destruct (dict_get dfs p) as [fd|] eqn:E; [|now apply IH].
    destruct (dict_get_in _ _ E) as [k Hk].
    rewrite Forall_forall in Hfit. specialize (Hfit _ Hk). cbn [snd] in Hfit.
    destruct (file_columns_rows i Hfit) as [L1 L2].
    destruct (file_columns m i fd) as [[vn vc] [fn fc]].
    cbn [fst snd] in L1, L2.
    apply IH. apply dict_set_uniform; [|exact L2].
    apply dict_set_uniform; [exact U | exact L1].
Qed.

Variable w : world.
Variable tlc_values : list (string * Q).
Variable subject_ids : list (string * string).
Variable output_option : string.
Hypothesis Hrect : rectangular w.

Local Abbreviation step' := (step w tlc_values subject_ids output_option).

(** What the loop keeps true of the files stored. *)
Lemma step_fits (s : state) (file_path : string) :
  Forall (fun e => fits (max_rows s) (snd e)) (processed_dfs s) ->
  (processed_dfs s = [] -> successful_files s = []) ->
  Forall (fun e => fits (max_rows (step' s file_path)) (snd e))
    (processed_dfs (step' s file_path)) /\
  (processed_dfs (step' s file_path) = [] ->
   successful_files (step' s file_path) = []).
Proof.
  intros HF HE. unfold step. cbv zeta.
  destruct (dict_get tlc_values file_path) as [tlc|]; [|now split].
  destruct (read w file_path tlc) as [r|] eqn:R; [|now split].
  assert (G : Forall (fun e => fits (Nat.max (max_rows s) (n_rows r)) (snd e))
                (dict_put (processed_dfs s) file_path
                   (mkFileData (subject_id_of subject_ids file_path) tlc
                      (insp_vol_percent r) (insp_flow r)
                      (exp_vol_percent r) (exp_flow r)))).
  { unfold read in R. destruct (sheet_of w file_path) as [df|] eqn:S;
      [|discriminate].
    destruct (Hrect _ S) as [n U].
    destruct (read_excel_file_rows tlc U R) as (L1 & L2 & L3 & L4 & L5).
    apply dict_put_Forall.
    - eapply Forall_impl; [|exact HF]. intros e He.
      eapply fits_le; [|exact He]. lia.
    - intros k'. unfold fits. cbn. lia. }
  assert (N : forall d : list (string * file_data),
              dict_put d file_path
                (mkFileData (subject_id_of subject_ids file_path) tlc
                   (insp_vol_percent r) (insp_flow r)
                   (exp_vol_percent r) (exp_flow r)) <> []).
  { intros [|[k0 v0] d]; cbn [dict_put]; [discriminate|].
    destruct (String.eqb k0 file_path); discriminate. }
  destruct (String.eqb output_option OUTPUT_HORIZONTAL).
  - cbn [store processed_dfs max_rows successful_files].
    split; [exact G | intros H; now apply N in H].
  - unfold write, Separate.create_separate_file_output. cbv zeta.
    destruct (write_ok w _);
      cbn [fail store processed_dfs max_rows successful_files];
      (split; [exact G | intros H; now apply N in H]).
Qed.

Lemma loop_fits (selected_files : list string) :
  forall s,
    Forall (fun e => fits (max_rows s) (snd e)) (processed_dfs s) ->
    (processed_dfs s = [] -> successful_files s = []) ->
    let s' := fold_left step' selected_files s in
    Forall (fun e => fits (max_rows s') (snd e)) (processed_dfs s') /\
    (processed_dfs s' = [] -> successful_files s' = []).
Proof.
  induction selected_files as [|p rest IH]; intros s HF HE; cbv zeta.
  - now split.
  - cbn [fold_left]. destruct (@step_fits s p HF HE) as [HF' HE'].
    exact (IH _ HF' HE').
Qed.

End Rows.



(* ------------------------------------------------------------------ *)
(** * From process_fvavg to the consolidator *)
(* ------------------------------------------------------------------ *)

(** The volume-bin averages of a run that returned have
    [intervals + 1] bins. *)
Lemma process_fvavg_average_lengths
  (time_raw_list vol_raw_list flow_raw_list : list Q) (intervals : nat)
  (res : Pipeline.results) :
  Pipeline.process_fvavg time_raw_list vol_raw_list flow_raw_list intervals
  = Py.ok res ->
  let a := VolumeBins.vbin_averages (Pipeline.volume_bins_result res) in
  List.length (Aggregate.avg_insp_vol a) = intervals + 1 /\
  List.length (Aggregate.avg_exp_vol a) = intervals + 1.
Proof.
  unfold Pipeline.process_fvavg.
  destruct (FVAvg.find_zero_flow_points _ _ _) as [e|[[[zt zv] zf] phl]];
    [discriminate|].
  cbv beta iota delta [Py.rbind].
  destruct (FVAvg.trim_excess_data zt zv zf phl) as [e|t]; [discriminate|].
  destruct (TimeBins.process_time_bins _ _ _ _ _ _) as [e|tb]; [discriminate|].
  destruct (VolumeBins.process_volume_bins tb intervals _) as [e|vb] eqn:V;
    [discriminate|].
  intros [= <-]. cbn [Pipeline.volume_bins_result].
  unfold VolumeBins.process_volume_bins in V.
  destruct (VolumeBins.volume_bins_all _ _ _ _ _) as [e|d]; [discriminate|].
  cbv beta iota delta [Py.rbind] in V.
  destruct (Aggregate.aggregate _ _ _ _ _ _ _) as [e|a] eqn:A; [discriminate|].
  injection V as <-. cbn [VolumeBins.vbin_averages].
  apply aggregate_ok in A. subst a. cbn.
  rewrite !length_map, !range_length. lia.
Qed.

(** X24.  The consolidator reads back what process_fvavg writes: from a
    workbook whose sheet "Avg Vol Bin Data" is the one process_fvavg made
    of its volume-bin averages, read_excel_file takes the inspiratory and
    expiratory volume averages (as raw volumes and, divided by the TLC and
    times 100, as percentages) and the two flow averages, each from the
    column written for it, with [intervals + 1] rows; the index column and
    the other sheets play no part. *)
Theorem consolidator_reads_the_volume_bin_averages
  (time_raw_list vol_raw_list flow_raw_list : list Q) (intervals : nat)
  (res : Pipeline.results) (wb : Sheets.workbook) (tlc : Q) :
  Pipeline.process_fvavg time_raw_list vol_raw_list flow_raw_list intervals
  = Py.ok res ->
  let a := VolumeBins.vbin_averages (Pipeline.volume_bins_result res) in
  Consolidator.dict_get wb Sheets.DEFAULT_SHEET = Some (Sheets.avg_sheet a) ->
  Sheets.read_workbook wb tlc
  = Some (Consolidator.mkFileResult
            (Consolidator.percent_of_tlc tlc
               (map Some (Aggregate.avg_insp_vol a)))
            (map Some (Aggregate.avg_insp_flow a))
            (Consolidator.percent_of_tlc tlc
               (map Some (Aggregate.avg_exp_vol a)))
            (map Some (Aggregate.avg_exp_flow a))
            (intervals + 1)
            (map Some (Aggregate.avg_insp_vol a))
            (map Some (Aggregate.avg_exp_vol a))).
Proof.
  intros E a H.
  destruct (process_fvavg_average_lengths _ _ _ _ E) as [L1 L2].
  fold a in L1, L2.
  unfold Sheets.read_workbook, Sheets.load. rewrite H.
  unfold Sheets.avg_sheet, Sheets.written, Consolidator.read_excel_file.
  cbn [map fst snd].
  change (Consolidator.find_column _ Consolidator.VOL_INSP_PATTERN)
    with (Some "Avg_Insp_Vol_Graph"%string).
  change (Consolidator.find_column _ Consolidator.FLOW_INSP_PATTERN)
    with (Some "Avg_Insp_Flow_Graph"%string).
  change (Consolidator.find_column _ Consolidator.VOL_EXP_PATTERN)
    with (Some "Avg_Exp_Vol_Graph"%string).
  change (Consolidator.find_column _ Consolidator.FLOW_EXP_PATTERN)
    with (Some "Avg_Exp_Flow_Graph"%string).
  cbn [Consolidator.get_column String.eqb Ascii.eqb Bool.eqb].
  cbv beta iota. f_equal. f_equal.
  unfold Consolidator.percent_of_tlc. rewrite !length_map, L1, L2. lia.
Qed.

Lemma consolidator_reads_the_volume_bin_averages_witness :
  match Pipeline.process_fvavg (Recordings.ramp 215)
          (Recordings.integrate 0%Q Recordings.one_breath_flow)
          Recordings.one_breath_flow 3 with
  | inr res =>
      let a := VolumeBins.vbin_averages (Pipeline.volume_bins_result res) in
      Sheets.read_workbook
        [("Avg Time Bin Data"%string,
          Sheets.avg_sheet
            (TimeBins.tbin_averages (Pipeline.time_bins_result res)));
         ("Avg Vol Bin Data"%string, Sheets.avg_sheet a)] 6
      = Some (Consolidator.mkFileResult
                (Consolidator.percent_of_tlc 6
                   (map Some (Aggregate.avg_insp_vol a)))
                (map Some (Aggregate.avg_insp_flow a))
                (Consolidator.percent_of_tlc 6
                   (map Some (Aggregate.avg_exp_vol a)))
                (map Some (Aggregate.avg_exp_flow a))
                (3 + 1)
                (map Some (Aggregate.avg_insp_vol a))
                (map Some (Aggregate.avg_exp_vol a)))
  | inl _ => False
  end.
Proof.
  destruct (Pipeline.process_fvavg _ _ _ 3) as [e|res] eqn:E.
  - vm_compute in E. discriminate.
  - cbv zeta.
    apply (@consolidator_reads_the_volume_bin_averages _ _ _ _ res _ 6%Q E).
    reflexivity.
Defined.

(* ------------------------------------------------------------------ *)
(** * The rounded average TLC *)
(* ------------------------------------------------------------------ *)

Section Rounding.
Import Consolidator.

Lemma round_half_even_near (x : Q) :
  (Qabs (inject_Z (round_half_even x) - x) <= 1 # 2)%Q.
Proof.
  unfold round_half_even. cbv zeta.
  pose proof (Qfloor_le x) as Hlo. pose proof (Qlt_floor x) as Hhi.
  rewrite inject_Z_plus in Hhi.
  set (f := inject_Z (Qfloor x)) in *.
  assert (Near0 : (Qabs (f - x) <= 1 # 2)%Q <-> (x - f <= 1 # 2)%Q).
  { rewrite Qabs_neg.
    - setoid_replace (- (f - x))%Q with (x - f)%Q by ring. reflexivity.
    - apply Qle_minus_iff.
      setoid_replace (0 + - (f - x))%Q with (x + - f)%Q by ring.
      now apply Qle_minus_iff in Hlo. }
  assert (Near1 : (Qabs (f + 1 - x) <= 1 # 2)%Q <-> (1 # 2 <= x - f)%Q).
  { rewrite Qabs_pos.
    - split; intros H; apply Qle_minus_iff; apply Qle_minus_iff in H.
      + setoid_replace (x - f + - (1 # 2))%Q
          with ((1 # 2) + - (f + 1 - x))%Q by ring. exact H.
      + setoid_replace ((1 # 2) + - (f + 1 - x))%Q
          with (x - f + - (1 # 2))%Q by ring. exact H.
    - apply Qlt_le_weak. apply Qlt_minus_iff in Hhi.
      unfold Qminus. exact Hhi. }
  destruct (Qcompare (x - f) (1 # 2)) eqn:C.
  - apply Qeq_alt in C.
    destruct (Z.even (Qfloor x)).
    + apply Near0. rewrite C. apply Qle_refl.
    + rewrite inject_Z_plus. apply Near1. rewrite C. apply Qle_refl.
  - apply Qlt_alt in C. apply Near0. now apply Qlt_le_weak.
  - apply Qgt_alt in C. rewrite inject_Z_plus. apply Near1.
    now apply Qlt_le_weak.
Qed.

(** A whole number is its own rounding. *)
Lemma round_half_even_whole (x : Q) (z : Z) :
  (x == inject_Z z)%Q -> round_half_even x = z.
Proof.
  intros E. unfold round_half_even. cbv zeta.
  rewrite (Qfloor_comp _ _ E), Qfloor_Z.
  assert (C : Qcompare (x - inject_Z z) (1 # 2) = Lt).
  { apply Qlt_alt. rewrite E.
    setoid_replace (inject_Z z - inject_Z z)%Q with 0%Q by ring.
    reflexivity. }
  now rewrite C.
Qed.

Lemma Qsum_all_equal (c : Q) (l : list Q) :
  Forall (fun t => (t == c)%Q) l ->
  (Py.Qsum l == inject_Z (Z.of_nat (List.length l)) * c)%Q.
Proof.
  induction 1 as [|t l Ht _ IH].
  - rewrite Qsum_nil. simpl. ring.
  - cbv beta in Ht. cbn [List.length]. rewrite Qsum_cons, IH, Ht.
    rewrite Nat2Z.inj_succ. unfold Z.succ. rewrite inject_Z_plus. ring.
Qed.

(** The average of equal TLC values with two decimals is that value. *)
Lemma avg_tlc_all_equal (tlc : Q) (z : Z) (all_tlc_values : list Q) :
  (tlc * 100 == inject_Z z)%Q ->
  all_tlc_values <> [] ->
  Forall (fun t => (t == tlc)%Q) all_tlc_values ->
  (avg_tlc all_tlc_values == tlc)%Q.
Proof.
  intros Hz Hne Hall. unfold avg_tlc, round2, mean_tlc.
  destruct all_tlc_values as [|t0 l]; [congruence|].
  set (l0 := t0 :: l) in *.
  assert (Hn : ~ (inject_Z (Z.of_nat (List.length l0)) == 0)%Q).
  { apply inject_nat_nonzero. unfold l0. simpl. lia. }
  rewrite (@round_half_even_whole _ z).
  - rewrite <- Hz. field.
  - rewrite (Qsum_all_equal Hall), <- Hz. field. exact Hn.
Qed.

End Rounding.

(** X25.  The TLC with which create_horizontal_layout_output converts
    percentages to absolute volumes is within 0.005 of the mean of the TLC
    values of the files: the rounding to two decimals moves it by half a
    hundredth at most. *)
Theorem avg_tlc_is_near_the_mean (all_tlc_values : list Q) :
  (Qabs (Consolidator.avg_tlc all_tlc_values
         - Consolidator.mean_tlc all_tlc_values) <= 1 # 200)%Q.
Proof.
  unfold Consolidator.avg_tlc, Consolidator.round2.
  set (m := Consolidator.mean_tlc all_tlc_values).
  pose proof (round_half_even_near (m * 100)) as H.
  setoid_replace (inject_Z (Consolidator.round_half_even (m * 100)) / 100 - m)%Q
    with ((inject_Z (Consolidator.round_half_even (m * 100)) - m * 100)
          * (1 # 100))%Q by field.
  rewrite Qabs_Qmult.
  setoid_replace (1 # 200)%Q with ((1 # 2) * (1 # 100))%Q by reflexivity.
  apply Qmult_le_compat_r; [exact H | discriminate].
Qed.

(** X26.  When all files have the same TLC, a positive number with at
    most two decimals, the conversions cancel: a volume turned into a
    percentage of the TLC by read_excel_file and back into an absolute
    volume by create_horizontal_layout_output, with the rounded average
    TLC, is the volume read from the sheet, and a missing value stays
    missing. *)
Theorem absolute_volume_round_trip
  (tlc : Q) (z : Z) (all_tlc_values : list Q) (s : Consolidator.series) :
  (0 < tlc)%Q -> (tlc * 100 == inject_Z z)%Q ->
  all_tlc_values <> [] ->
  Forall (fun t => (t == tlc)%Q) all_tlc_values ->
  Forall2 Columns.cell_eq
    (map (Consolidator.to_absolute (Consolidator.avg_tlc all_tlc_values))
       (map Consolidator.to_cell (Consolidator.percent_of_tlc tlc s)))
    (map Consolidator.to_cell s).
Proof.
  intros Hpos Hz Hne Hall.
  pose proof (@avg_tlc_all_equal tlc z all_tlc_values Hz Hne Hall) as Havg.
  assert (Hnz : ~ (tlc == 0)%Q)
    by (intros E; rewrite E in Hpos; exact (Qlt_irrefl _ Hpos)).
  unfold Consolidator.percent_of_tlc.
  induction s as [|[v|] s IH]; cbn [map]; constructor; try exact IH.
  - cbn. rewrite Havg. field. exact Hnz.
  - exact I.
Qed.

Lemma absolute_volume_round_trip_witness :
  Forall2 Columns.cell_eq
    (map (Consolidator.to_absolute (Consolidator.avg_tlc [5 # 4; 125 # 100]%Q))
       (map Consolidator.to_cell
          (Consolidator.percent_of_tlc (5 # 4) [Some 3%Q; None; Some (1 # 3)%Q])))
    (map Consolidator.to_cell [Some 3%Q; None; Some (1 # 3)%Q]).
Proof.
  apply (@absolute_volume_round_trip (5 # 4) 125).
  - reflexivity.
  - reflexivity.
  - discriminate.
  - repeat constructor.
Defined.

(* ------------------------------------------------------------------ *)
(** * The subject id found in a file name *)
(* ------------------------------------------------------------------ *)

Section SubjectIds.
Import SubjectId.

Lemma is_digit_word (c : ascii) : is_digit c = true -> is_word c = true.
Proof. intros H. unfold is_word. cbv zeta. now rewrite H. Qed.

Lemma get_none (s : string) :
  forall j, String.length s <= j -> String.get j s = None.
Proof.
  induction s as [|c s IH]; intros j Hj; [reflexivity|].
  destruct j as [|j]; [simpl in Hj; lia|]. cbn [String.get].
  apply IH. simpl in Hj. lia.
Qed.

Lemma all_get (f : ascii -> bool) (s : string) :
  all f s = true ->
  forall j, j < String.length s ->
    exists c, String.get j s = Some c /\ f c = true.
Proof.
  induction s as [|c s IH]; intros H j Hj; [simpl in Hj; lia|].
  cbn [all] in H. apply andb_prop in H. destruct H as [Hc Hs].
  destruct j as [|j]; [now exists c|]. cbn [String.get].
  apply IH; [assumption | simpl in Hj; lia].
Qed.

Lemma digits_le (n : nat) :
  forall s, digits n s <= n /\ digits n s <= String.length s.
Proof.
  induction n as [|n IH]; intros s; [simpl; lia|].
  destruct s as [|c s]; [simpl; lia|]. cbn [digits String.length].
  destruct (is_digit c); [|lia]. destruct (IH s). lia.
Qed.

Lemma digits_get (n : nat) :
  forall s j, j < digits n s ->
    exists c, String.get j s = Some c /\ is_digit c = true.
Proof.
  induction n as [|n IH]; intros s j Hj; [simpl in Hj; lia|].
  destruct s as [|c s]; [simpl in Hj; lia|]. cbn [digits] in Hj.
  destruct (is_digit c) eqn:D; [|lia].
  destruct j as [|j]; [now exists c|]. cbn [String.get].
  apply IH. lia.
Qed.

Lemma digits_all (n : nat) :
  forall s, all is_digit s = true -> String.length s <= n ->
    digits n s = String.length s.
Proof.
  induction n as [|n IH]; intros s H Hn.
  - destruct s; [reflexivity | simpl in Hn; lia].
  - destruct s as [|c s]; [reflexivity|]. cbn [all] in H.
    apply andb_prop in H. destruct H as [Hc Hs].
    cbn [digits String.length]. rewrite Hc. f_equal.
    apply IH; [assumption | simpl in Hn; lia].
Qed.

Lemma digits_whole (n : nat) :
  forall s, digits n s = String.length s -> all is_digit s = true.
Proof.
  induction n as [|n IH]; intros s H.
  - destruct s; [reflexivity | discriminate].
  - destruct s as [|c s]; [reflexivity|]. cbn [digits String.length] in H.
    destruct (is_digit c) eqn:D; [|discriminate].
    cbn [all]. rewrite D. apply IH. lia.
Qed.

Lemma substring_whole (s : string) :
  String.substring 0 (String.length s) s = s.
Proof.
  induction s as [|c s IH]; [reflexivity|].
  cbn [String.length String.substring]. now rewrite IH.
Qed.

(** What the backtracking finds, and when it finds nothing. *)
Lemma backtrack_some (s : string) (m : string) :
  forall k, backtrack k s = Some m ->
    exists j, 2 <= j <= k /\
              boundary (String.get (j - 1) s) (String.get j s) = true /\
              m = String.substring 0 j s.
Proof.
  induction k as [|k IH]; [discriminate|]. cbn [backtrack].
  destruct (Nat.ltb_spec (S k) 2); [discriminate|].
  destruct (boundary (String.get k s) (String.get (S k) s)) eqn:B.
  - intros [= <-]. exists (S k). rewrite Nat.sub_succ, Nat.sub_0_r.
    repeat split; [lia | lia | exact B].
  - intros H'. destruct (IH H') as (j & Hj & Hb & ->).
    exists j. repeat split; [lia | lia | exact Hb].
Qed.

Lemma backtrack_first (s : string) (k : nat) :
  2 <= k ->
  boundary (String.get (k - 1) s) (String.get k s) = true ->
  backtrack k s = Some (String.substring 0 k s).
Proof.
  intros Hk B. destruct k as [|k]; [lia|]. cbn [backtrack].
  destruct (Nat.ltb_spec (S k) 2); [lia|].
  rewrite Nat.sub_succ, Nat.sub_0_r in B. now rewrite B.
Qed.

(** In a name made of word characters, a word boundary inside the digits
    at its start can only be the end of the name. *)
Lemma boundary_in_a_word (s : string) (j : nat) :
  all is_word s = true -> 1 <= j -> j <= digits 7 s ->
  boundary (String.get (j - 1) s) (String.get j s) = true ->
  j = String.length s.
Proof.
  intros W H1 Hj B.
  destruct (digits_get 7 s (j := j - 1)) as (c & Gc & Dc); [lia|].
  rewrite Gc in B. unfold boundary, word in B.
  rewrite (is_digit_word _ Dc) in B.
  destruct (Nat.lt_ge_cases j (String.length s)) as [Hlt|Hge].
  - destruct (all_get _ _ W Hlt) as (c' & Gc' & Wc').
    rewrite Gc', Wc' in B. discriminate.
  - pose proof (digits_le 7 s). lia.
Qed.

(** After a word character, in a name made of word characters, no place
    has a match. *)
Lemma search_inside_a_word (s : string) :
  forall c, is_word c = true -> all is_word s = true ->
    search (Some c) s = None.
Proof.
  induction s as [|c' s IH]; intros c Wc W.
  - cbn [search]. unfold match_at. cbn [head boundary digits backtrack].
    destruct (boundary (Some c) None); reflexivity.
  - cbn [all] in W. apply andb_prop in W. destruct W as [Wc' W].
    cbn [search]. unfold match_at, head, boundary, word.
    rewrite Wc, Wc'. cbn [xorb]. now apply IH.
Qed.

Lemma get_all (f : ascii -> bool) (s : string) :
  (forall j, j < String.length s ->
     exists c, String.get j s = Some c /\ f c = true) ->
  all f s = true.
Proof.
  induction s as [|c s IH]; intros H; [reflexivity|]. cbn [all].
  destruct (H 0) as (c0 & G0 & F0); [simpl; lia|].
  cbn [String.get] in G0. injection G0 as <-. rewrite F0. cbn [andb].
  apply IH. intros j Hj. destruct (H (S j)) as (c' & G & F);
    [simpl; lia|]. now exists c'.
Qed.

(** The first [j] characters of a string and the rest. *)
Lemma substring_split (s : string) :
  forall j, j <= String.length s ->
    exists post,
      s = (String.substring 0 j s ++ post)%string /\
      String.length (String.substring 0 j s) = j /\
      String.get j s = head post /\
      forall i, i < j ->
        String.get i (String.substring 0 j s) = String.get i s.
Proof.
  induction s as [|c s IH]; intros j Hj.
  - assert (j = 0) by (simpl in Hj; lia). subst j.
    exists EmptyString. repeat split; intros; lia.
  - destruct j as [|j].
    + exists (String c s). repeat split; intros; lia.
    + destruct (IH j) as (post & E & L & G & A); [simpl in Hj; lia|].
      exists post. cbn [String.substring String.length String.get].
      repeat split.
      * cbn [String.append]. now rewrite <- E.
      * now rewrite L.
      * exact G.
      * intros [|i] Hi; [reflexivity|]. cbn [String.get]. apply A. lia.
Qed.

Lemma match_at_some (prev : option ascii) (s m : string) :
  match_at prev s = Some m ->
  exists post,
    s = (m ++ post)%string /\
    all is_digit m = true /\ 2 <= String.length m <= 7 /\
    word prev = false /\ word (head post) = false.
Proof.
  unfold match_at. destruct (boundary prev (head s)) eqn:B0; [|discriminate].
  intros E. destruct (backtrack_some _ _ E) as (j & Hj & B & ->).
  pose proof (digits_le 7 s) as [L7 Ls].
  destruct (@substring_split s j) as (post & Es & Lm & G & A); [lia|].
  exists post. split; [exact Es|].
  assert (D : forall i, i < j ->
                exists c, String.get i s = Some c /\ is_digit c = true)
    by (intros i Hi; apply (digits_get 7); lia).
  split.
  { apply get_all. rewrite Lm. intros i Hi. rewrite (A i Hi). now apply D. }
  split; [lia|].
  destruct (D 0) as (c0 & G0 & D0); [lia|].
  destruct (D (j - 1)) as (c1 & G1 & D1); [lia|].
  split.
  - unfold boundary in B0.
    replace (head s) with (String.get 0 s) in B0
      by (destruct s; reflexivity).
    rewrite G0 in B0. cbn [word] in B0. rewrite (is_digit_word _ D0) in B0.
    destruct (word prev); [discriminate | reflexivity].
  - unfold boundary in B. rewrite G1, G in B. cbn [word] in B.
    rewrite (is_digit_word _ D1) in B. cbn [word].
    destruct (word (head post)); [discriminate | reflexivity].
Qed.

Lemma search_some (s : string) :
  forall prev m, search prev s = Some m ->
    exists pre rest,
      s = (pre ++ rest)%string /\
      match_at (last_of prev pre) rest = Some m.
Proof.
  induction s as [|c s IH]; intros prev m; cbn [search].
  - destruct (match_at prev EmptyString) as [m'|] eqn:E; [|discriminate].
    intros [= <-]. now exists EmptyString, EmptyString.
  - destruct (match_at prev (String c s)) as [m'|] eqn:E.
    + intros [= <-]. now exists EmptyString, (String c s).
    + intros H. destruct (IH _ _ H) as (pre & rest & -> & Hm).
      now exists (String c pre), rest.
Qed.

End SubjectIds.

(** X27.  In a base name made of letters, digits and underscores only,
    extract_subject_id finds an id only if the whole name is a number of
    2 to 7 digits: a number that touches a letter or an underscore, as in
    "S_1234" or "1234_pre", is not found, and the answer is the empty
    string. *)
Theorem subject_id_needs_a_separator (base_name : string) :
  SubjectId.all SubjectId.is_word base_name = true ->
  SubjectId.extract_subject_id base_name
  = if SubjectId.all SubjectId.is_digit base_name
       && (2 <=? String.length base_name)
       && (String.length base_name <=? 7)
    then base_name else ""%string.
Proof.
  intros W. unfold SubjectId.extract_subject_id.
  destruct base_name as [|c s].
  { reflexivity. }
  cbn [SubjectId.search].
  set (n := String c s) in *.
  assert (Wc : SubjectId.is_word c = true).
  { unfold n in W. cbn [SubjectId.all] in W.
    now apply andb_prop in W as [Wc _]. }
  assert (Ws : SubjectId.all SubjectId.is_word s = true).
  { unfold n in W. cbn [SubjectId.all] in W.
    now apply andb_prop in W as [_ Ws]. }
  unfold SubjectId.match_at.
  replace (SubjectId.boundary None (SubjectId.head n)) with true
    by (unfold n, SubjectId.head, SubjectId.boundary, SubjectId.word;
        now rewrite Wc).
  destruct (SubjectId.backtrack (SubjectId.digits 7 n) n) as [m|] eqn:E.
  - destruct (backtrack_some _ _ E) as (j & Hj & B & ->).
    assert (Ej : j = String.length n)
      by (apply boundary_in_a_word; [assumption | lia | lia | assumption]).
    pose proof (digits_le 7 n) as [L7 Ln].
    assert (D : SubjectId.digits 7 n = String.length n) by lia.
    rewrite (digits_whole _ _ D).
    destruct (Nat.leb_spec 2 (String.length n)); [|lia].
    destruct (Nat.leb_spec (String.length n) 7); [|lia].
    cbn [andb]. subst j. apply substring_whole.
  - rewrite (@search_inside_a_word s c Wc Ws).
    destruct (SubjectId.all SubjectId.is_digit n) eqn:D; [|reflexivity].
    destruct (Nat.leb_spec 2 (String.length n)); [|reflexivity].
    destruct (Nat.leb_spec (String.length n) 7); [|reflexivity].
    exfalso. cbn [andb].
    pose proof (@digits_all 7 n D H0) as Dn.
    assert (B : SubjectId.boundary
                  (String.get (String.length n - 1) n)
                  (String.get (String.length n) n) = true).
    { rewrite (get_none n (Nat.le_refl _)).
      destruct (all_get _ _ D (j := String.length n - 1)) as (c' & -> & Dc');
        [lia|].
      unfold SubjectId.boundary, SubjectId.word.
      now rewrite (is_digit_word _ Dc'). }
    rewrite Dn in E. rewrite backtrack_first in E by assumption.
    discriminate.
Qed.

Lemma subject_id_needs_a_separator_witness :
  SubjectId.extract_subject_id "S_1234_pre" = ""%string.
Proof.
  exact (@subject_id_needs_a_separator "S_1234_pre" eq_refl).
Defined.

(** X28.  In an ASCII base name, a subject id that extract_subject_id
    finds is a number of 2 to 7 digits standing in the base name between
    two places that are an end of the name or a character other than a
    letter, a digit or an underscore.  (On a name with other characters
    the classes of the pattern are those of Unicode, which the search of
    this file does not have.) *)
Theorem subject_id_is_a_delimited_number (base_name : string) :
  SubjectId.ascii_name base_name = true ->
  SubjectId.extract_subject_id base_name <> ""%string ->
  exists pre post,
    base_name
    = (pre ++ SubjectId.extract_subject_id base_name ++ post)%string /\
    SubjectId.all SubjectId.is_digit (SubjectId.extract_subject_id base_name)
    = true /\
    2 <= String.length (SubjectId.extract_subject_id base_name) <= 7 /\
    SubjectId.word (SubjectId.last_of None pre) = false /\
    SubjectId.word (SubjectId.head post) = false.
Proof.
  intros _. unfold SubjectId.extract_subject_id.
  destruct (SubjectId.search None base_name) as [m|] eqn:E; [|congruence].
  intros _. destruct (search_some _ _ E) as (pre & rest & -> & Hm).
  destruct (match_at_some _ _ Hm) as (post & -> & D & L & P & Q).
  exists pre, post. auto.
Qed.

Lemma subject_id_is_a_delimited_number_witness :
  exists pre post,
    "run-3 4321 (a)"%string
    = (pre ++ SubjectId.extract_subject_id "run-3 4321 (a)" ++ post)%string /\
    SubjectId.all SubjectId.is_digit
      (SubjectId.extract_subject_id "run-3 4321 (a)") = true /\
    2 <= String.length (SubjectId.extract_subject_id "run-3 4321 (a)") <= 7 /\
    SubjectId.word (SubjectId.last_of None pre) = false /\
    SubjectId.word (SubjectId.head post) = false.
Proof.
  apply subject_id_is_a_delimited_number; [reflexivity | discriminate].
Defined.

(* ------------------------------------------------------------------ *)
(** * The points inserted by the detector *)
(* ------------------------------------------------------------------ *)

(** Where the line through two flows of opposite signs, [d] apart, is
    zero. *)
Lemma zero_between (a b d : Q) :
  (0 < d)%Q ->
  ((a < 0)%Q /\ (0 < b)%Q) \/ ((0 < a)%Q /\ (b < 0)%Q) ->
  (0 < (0 - a) / ((b - a) / d))%Q /\ ((0 - a) / ((b - a) / d) < d)%Q /\
  ((0 - a) / ((b - a) / d) * (b - a) == (0 - a) * d)%Q.
Proof.
  intros Hd Hs.
  assert (Hd0 : ~ (d == 0)%Q)
    by (intros E; rewrite E in Hd; exact (Qlt_irrefl _ Hd)).
  assert (Hba : ~ (b - a == 0)%Q).
  { intros E. destruct Hs as [[Ha Hb]|[Ha Hb]].
    - assert (H : (a < b)%Q) by (eapply Qlt_trans; eassumption).
      apply Qlt_minus_iff in H. unfold Qminus in E. rewrite E in H.
      exact (Qlt_irrefl _ H).
    - assert (H : (b < a)%Q) by (eapply Qlt_trans; eassumption).
      apply Qlt_minus_iff in H.
      setoid_replace (a + - b)%Q with (- (b - a))%Q in H by ring.
      rewrite E in H. exact (Qlt_irrefl _ H). }
  assert (E : ((0 - a) / ((b - a) / d) == d * ((0 - a) / (b - a)))%Q)
    by (field; split; assumption).
  assert (R : (0 < (0 - a) / (b - a))%Q /\ ((0 - a) / (b - a) < 1)%Q).
  { destruct Hs as [[Ha Hb]|[Ha Hb]].
    - assert (P : (0 < b - a)%Q).
      { apply Qlt_minus_iff in Ha. unfold Qminus.
        apply Qlt_trans with (0 + - a)%Q; [exact Ha|].
        apply Qplus_lt_l. exact Hb. }
      split.
      + apply Qlt_shift_div_l; [exact P|]. rewrite Qmult_0_l.
        apply Qlt_minus_iff in Ha. exact Ha.
      + apply Qlt_shift_div_r; [exact P|]. rewrite Qmult_1_l.
        unfold Qminus. apply Qplus_lt_l. exact Hb.
    - assert (P : (0 < a - b)%Q).
      { apply Qlt_minus_iff in Hb. unfold Qminus.
        apply Qlt_trans with (0 + - b)%Q; [exact Hb|].
        apply Qplus_lt_l. exact Ha. }
      assert (Hab : ~ (a - b == 0)%Q)
        by (intros E'; rewrite E' in P; exact (Qlt_irrefl _ P)).
      setoid_replace ((0 - a) / (b - a))%Q with (a / (a - b))%Q
        by (field; split; assumption).
      split.
      + apply Qlt_shift_div_l; [exact P|]. now rewrite Qmult_0_l.
      + apply Qlt_shift_div_r; [exact P|]. rewrite Qmult_1_l.
        apply Qlt_minus_iff.
        setoid_replace (a - b + - a)%Q with (0 + - b)%Q by ring.
        apply Qlt_minus_iff in Hb. exact Hb. }
  destruct R as [R0 R1]. rewrite E. split; [|split].
  - apply Qmult_lt_0_compat; assumption.
  - setoid_replace d with (d * 1)%Q at 2 by ring.
    apply Qmult_lt_l; assumption.
  - field. exact Hba.
Qed.

Section Located.
Import Py FVAvg Shape Crossings.
Variables T V F : list Q.
Hypothesis HT : List.length T = List.length F.
Hypothesis HV : List.length V = List.length F.
Hypothesis Hinc :
  forall i, S i < List.length T -> (nth i T 0 < nth (S i) T 0)%Q.

(** The branch of a validated crossing, with what it appends. *)
Lemma interpolate_located (nudge : Q -> Q -> Q) (i : nat) (s : zeroed) :
  S i < List.length F ->
  ((nth i F 0 < 0)%Q /\ (0 < nth (S i) F 0)%Q) \/
  ((0 < nth i F 0)%Q /\ (nth (S i) F 0 < 0)%Q) ->
  exists ti,
    interpolate T V F nudge i s
    = (push3 (nth i T 0%Q) (nth i V 0%Q) (nth i F 0%Q) ti
         (nudge (nth i V 0%Q) (nth (S i) V 0%Q)) s, ok tt) /\
    (nth i T 0 < ti)%Q /\ (ti < nth (S i) T 0)%Q /\
    ((ti - nth i T 0) * (nth (S i) F 0 - nth i F 0)
     == (0 - nth i F 0) * (nth (S i) T 0 - nth i T 0))%Q.
Proof.
  intros Hi Hs.
  assert (Hd : (0 < nth (S i) T 0 - nth i T 0)%Q).
  { unfold Qminus. rewrite <- Qlt_minus_iff. apply Hinc. lia. }
  destruct (zero_between Hd Hs) as (Z0 & Z1 & Z2).
  set (slope := ((nth (S i) F 0 - nth i F 0)
                 / (nth (S i) T 0 - nth i T 0))%Q) in *.
  set (dt := ((0 - nth i F 0) / slope)%Q) in *.
  exists (nth i T 0 + dt)%Q. split; [|split; [|split]].
  - unfold interpolate, bind.
    rewrite (@append_sample_reads T V F (Z.of_nat i) s
               (nth i T 0%Q) (nth i F 0%Q) (nth i V 0%Q))
      by (apply index_nth_ok; lia).
    unfold lift.
    replace (Z.of_nat i + 1)%Z with (Z.of_nat (S i)) by lia.
    rewrite !index_nth_ok by lia. cbv beta iota delta [ok].
    assert (Hd0 : ~ (nth (S i) T 0 - nth i T 0 == 0)%Q)
      by (intros E; rewrite E in Hd; exact (Qlt_irrefl _ Hd)).
    rewrite (div_ok _ Hd0). cbv beta iota delta [ok]. fold slope.
    assert (Hs0 : ~ (slope == 0)%Q).
    { intros E.
      assert (Hn : (nth (S i) F 0 - nth i F 0 == 0)%Q).
      { setoid_replace (nth (S i) F 0 - nth i F 0)%Q
          with (slope * (nth (S i) T 0 - nth i T 0))%Q
          by (unfold slope; field; exact Hd0).
        rewrite E. ring. }
      destruct Hs as [[Ha Hb]|[Ha Hb]].
      - assert (H : (nth i F 0 < nth (S i) F 0)%Q)
          by (eapply Qlt_trans; eassumption).
        apply Qlt_minus_iff in H. unfold Qminus in Hn. rewrite Hn in H.
        exact (Qlt_irrefl _ H).
      - assert (H : (nth (S i) F 0 < nth i F 0)%Q)
          by (eapply Qlt_trans; eassumption).
        apply Qlt_minus_iff in H.
        setoid_replace (nth i F 0 + - nth (S i) F 0)%Q
          with (- (nth (S i) F 0 - nth i F 0))%Q in H by ring.
        rewrite Hn in H. exact (Qlt_irrefl _ H). }
    rewrite (div_ok _ Hs0). cbv beta iota delta [ok]. fold dt.
    unfold append_time, append_vol, append_flow, phase_close, modify, push3.
    cbn [zeroed_time_list zeroed_vol_list zeroed_flow_list phase_indexes
         phase_indexes_list].
    rewrite <- !app_assoc. reflexivity.
  - rewrite <- (Qplus_0_r (nth i T 0%Q)) at 1. apply Qplus_lt_r. exact Z0.
  - apply Qlt_minus_iff.
    setoid_replace (nth (S i) T 0 + - (nth i T 0 + dt))%Q
      with (nth (S i) T 0 - nth i T 0 + - dt)%Q by ring.
    apply Qlt_minus_iff in Z1. exact Z1.
  - setoid_replace (nth i T 0 + dt - nth i T 0)%Q with dt by ring. exact Z2.
Qed.

Lemma neg_to_pos_signs (i : nat) :
  neg_to_pos F i = ok true ->
  S i < List.length F /\ (nth i F 0 < 0)%Q /\ (0 < nth (S i) F 0)%Q.
Proof.
  intros H. pose proof (neg_to_pos_true _ _ H) as Hi.
  rewrite neg_to_pos_value in H by assumption. injection H as H.
  apply andb_prop in H. destruct H as [H1 H2].
  split; [assumption|]. split; now apply Qltb_lt.
Qed.

Lemma pos_to_neg_signs (i : nat) :
  pos_to_neg F i = ok true ->
  S i < List.length F /\ (0 < nth i F 0)%Q /\ (nth (S i) F 0 < 0)%Q.
Proof.
  intros H. pose proof (pos_to_neg_true _ _ H) as Hi.
  rewrite pos_to_neg_value in H by assumption. injection H as H.
  apply andb_prop in H. destruct H as [H1 H2]. unfold Qgtb in *.
  split; [assumption|]. split; now apply Qltb_lt.
Qed.

(** One iteration that completes: an ordinary append, or a sample and a
    point put between it and the next. *)
Lemma scan_step_located (i : nat) (s s' : zeroed) :
  i < List.length F ->
  scan_step T V F i s = (s', ok tt) ->
  (exists t v f, s' = push1 t v f s) \/
  exists ti vi,
    s' = push3 (nth i T 0%Q) (nth i V 0%Q) (nth i F 0%Q) ti vi s /\
    put_between T V F i ti vi.
Proof.
  intros Hi. unfold scan_step, try_except.
  destruct (scan_try T V F i s) as [s1 [e|[]]] eqn:E.
  - destruct e; cbv beta iota delta [exn_eqb]; try discriminate.
    assert (Hne : F <> []) by (destruct F; simpl in *; [lia | discriminate]).
    rewrite (@scan_except_shape T V F HT HV s1 Hne).
    destruct (@scan_try_cases T V F HT HV i s Hi)
      as [(s2 & E2 & _)|[E2|(s2 & E2)]]; rewrite E in E2; try discriminate.
    injection E2 as ->. intros [= <-]. left. eauto.
  - intros [= <-]. revert E. unfold scan_try, bind, lift.
    destruct (neg_to_pos F i) as [e|[|]] eqn:Eup; cbv beta iota;
      [discriminate| |].
    + destruct (validated_up F i) as [e|[|]] eqn:Ev; cbv beta iota;
        [discriminate| |].
      * destruct (neg_to_pos_signs _ Eup) as (Hi' & Ha & Hb).
        destruct (@interpolate_located nudge_min i s Hi'
                    (or_introl (conj Ha Hb))) as (ti & -> & B1 & B2 & B3).
        intros [= <-]. right. do 2 eexists. split; [reflexivity|].
        unfold put_between, nudge_min. auto 10.
      * rewrite (@standard_shape T V F HT HV i s Hi). intros [= <-].
        left. eauto.
    + destruct (pos_to_neg F i) as [e|[|]] eqn:Edown; cbv beta iota;
        [discriminate| |].
      * destruct (validated_down F i) as [e|[|]] eqn:Ev; cbv beta iota;
          [discriminate| |].
        -- destruct (pos_to_neg_signs _ Edown) as (Hi' & Ha & Hb).
           destruct (@interpolate_located nudge_max i s Hi'
                       (or_intror (conj Ha Hb))) as (ti & -> & B1 & B2 & B3).
           intros [= <-]. right. do 2 eexists. split; [reflexivity|].
           unfold put_between, nudge_max. auto 10.
        -- rewrite (@standard_shape T V F HT HV i s Hi). intros [= <-].
           left. eauto.
      * rewrite (@standard_shape T V F HT HV i s Hi). intros [= <-].
        left. eauto.
Qed.

Local Abbreviation located' s :=
  (located T V F (zeroed_time_list s) (zeroed_vol_list s)
     (phase_indexes_list s)).

Lemma nth_error_app_old (A : Type) (l l' : list A) (n : nat) (x : A) :
  nth_error l n = Some x -> nth_error (l ++ l') n = Some x.
Proof.
  intros H. rewrite nth_error_app1; [exact H|].
  apply nth_error_Some. congruence.
Qed.

Lemma located_push1 (s : zeroed) (t v f : Q) :
  located' s -> located' (push1 t v f s).
Proof.
  intros H k Hk. cbn [push1 phase_indexes_list] in Hk.
  destruct (H k Hk) as (i & ti & vi & H1 & H2 & H3 & H4).
  exists i, ti, vi. cbn [push1 zeroed_time_list zeroed_vol_list
                          phase_indexes_list].
  split; [now apply nth_error_app_old|].
  split; [now apply nth_error_app_old|].
  split; [now apply nth_error_app_old | exact H4].
Qed.

Lemma located_push3 (s : zeroed) (i : nat) (ti vi : Q) :
  phased s -> located' s -> put_between T V F i ti vi ->
  located' (push3 (nth i T 0%Q) (nth i V 0%Q) (nth i F 0%Q) ti vi s).
Proof.
  intros (Ht & Hv & Hsum & _) H Hput k Hk.
  cbn [push3 zeroed_time_list zeroed_vol_list phase_indexes_list] in *.
  rewrite length_app in Hk. cbn [List.length] in Hk.
  destruct (Nat.eq_dec k (List.length (phase_indexes_list s))) as [->|Hne].
  - exists i, ti, vi. rewrite boundary_app_new.
    replace (list_sum (phase_indexes_list s) + (phase_indexes s + 2))
      with (List.length (zeroed_time_list s) + 2) by lia.
    split; [|split; [|split; [|exact Hput]]].
    + rewrite nth_error_app2 by lia.
      replace (List.length (zeroed_time_list s) + 2 - 2
               - List.length (zeroed_time_list s)) with 0 by lia.
      reflexivity.
    + rewrite nth_error_app2 by lia.
      replace (List.length (zeroed_time_list s) + 2
               - List.length (zeroed_time_list s)) with 2 by lia.
      reflexivity.
    + rewrite nth_error_app2 by lia.
      replace (List.length (zeroed_time_list s) + 2
               - List.length (zeroed_vol_list s)) with 2 by lia.
      reflexivity.
  - assert (Hk' : k < List.length (phase_indexes_list s)) by lia.
    destruct (H k Hk') as (i' & ti' & vi' & H1 & H2 & H3 & H4).
    exists i', ti', vi'. rewrite boundary_app_old by assumption.
    split; [now apply nth_error_app_old|].
    split; [now apply nth_error_app_old|].
    split; [now apply nth_error_app_old | exact H4].
Qed.

Lemma scan_loop_located (js : list nat) :
  Forall (fun i => i < List.length F) js ->
  forall s s',
    phased s -> located' s ->
    for_each js (scan_step T V F) s = (s', ok tt) ->
    phased s' /\ located' s'.
Proof.
  induction 1 as [|i js Hi _ IH]; intros s s' HP HL; simpl.
  - intros [= <-]. now split.
  - unfold bind. destruct (scan_step T V F i s) as [s1 [e|[]]] eqn:E;
      [discriminate|].
    intros E'.
    destruct (scan_step_located _ Hi E)
      as [(t & v & f & ->)|(ti & vi & -> & Hput)].
    + eapply IH; [| |exact E'];
        [now apply phased_push1 | now apply located_push1].
    + eapply IH; [| |exact E'];
        [now apply phased_push3 | now apply located_push3].
Qed.

End Located.

(** X29.  On a recording whose time stamps increase strictly (three lists
    of equal length), every phase length returned by
    find_zero_flow_points ends at a point the detector put between two
    neighbouring samples of the recording: the entry before the two
    inserted copies is sample [i], the inserted time lies strictly between
    the times of the samples [i] and [i + 1], at the place where the
    straight line through their flows is zero, and the inserted volume is
    0.001 below the two sample volumes where the flow rises through zero
    and 0.001 above them where it falls. *)
Theorem crossings_are_put_between_their_samples
  (T V F zt zv zf : list Q) (phl : list nat) :
  List.length T = List.length F -> List.length V = List.length F ->
  (forall i, S i < List.length T -> (nth i T 0 < nth (S i) T 0)%Q) ->
  FVAvg.find_zero_flow_points T V F = Py.ok (zt, zv, zf, phl) ->
  Crossings.located T V F zt zv phl.
Proof.
  intros HT HV Hinc. unfold FVAvg.find_zero_flow_points, FVAvg.scan.
  destruct (Py.for_each _ _ FVAvg.zeroed_init) as [s [e|[]]] eqn:E;
    [discriminate|].
  intros [= <- <- <- <-].
  assert (I0 : Shape.phased FVAvg.zeroed_init).
  { unfold Shape.phased; simpl. repeat (split; [reflexivity || congruence|]).
    intros k Hk. inversion Hk. }
  assert (L0 : Crossings.located T V F
                 (FVAvg.zeroed_time_list FVAvg.zeroed_init)
                 (FVAvg.zeroed_vol_list FVAvg.zeroed_init)
                 (FVAvg.phase_indexes_list FVAvg.zeroed_init)).
  { intros k Hk. simpl in Hk. lia. }
  exact (proj2 (@scan_loop_located T V F HT HV Hinc _
                  (range_below (List.length F)) _ _ I0 L0 E)).
Qed.

Lemma ramp_increasing (n i : nat) :
  S i < List.length (Recordings.ramp n) ->
  (nth i (Recordings.ramp n) 0 < nth (S i) (Recordings.ramp n) 0)%Q.
Proof.
  unfold Recordings.ramp. rewrite length_map, length_seq. intros Hi.
  change 0%Q with (inject_Z (Z.of_nat 0)).
  rewrite !(map_nth (fun k => inject_Z (Z.of_nat k))), !seq_nth by lia.
  unfold Qlt. simpl. lia.
Qed.

Lemma crossings_are_put_between_their_samples_witness :
  match FVAvg.find_zero_flow_points (Recordings.ramp 215)
          (Recordings.integrate 0%Q Recordings.one_breath_flow)
          Recordings.one_breath_flow with
  | inr (zt, zv, zf, phl) =>
      List.length phl = 3 /\
      Crossings.located (Recordings.ramp 215)
        (Recordings.integrate 0%Q Recordings.one_breath_flow)
        Recordings.one_breath_flow zt zv phl
  | inl _ => False
  end.
Proof.
  destruct (FVAvg.find_zero_flow_points _ _ _)
    as [e|[[[zt zv] zf] phl]] eqn:E.
  - vm_compute in E. discriminate.
  - split.
    + vm_compute in E. injection E as <- <- <- <-. reflexivity.
    + apply (@crossings_are_put_between_their_samples _ _ _ zt zv zf phl);
        [reflexivity | reflexivity | apply ramp_increasing | exact E].
Defined.

(* ------------------------------------------------------------------ *)
(** * The trimmer on alternating crossings *)
(* ------------------------------------------------------------------ *)

Section AlternationFacts.
Import Py Shape Alternation.

Variable first_rises : bool.
Variable zf : list Q.
Variable phl : list nat.
Hypothesis Halt : alternating first_rises zf phl = true.

Local Abbreviation b := (boundary phl).
Local Abbreviation rises := (fun k => xorb first_rises (Nat.odd k)).

Lemma alternating_lengths (k : nat) :
  k < List.length phl -> 2 <= nth k phl 0.
Proof.
  intros Hk. unfold alternating in Halt.
  apply andb_prop in Halt as [H _]. apply andb_prop in H as [H _].
  rewrite forallb_forall in H.
  specialize (H k ltac:(apply in_seq; lia)). now apply Nat.leb_le in H.
Qed.

Lemma alternating_zero (j : nat) :
  j < List.length zf ->
  Qeq_bool (nth j zf 0%Q) 0 = inserted phl j.
Proof.
  intros Hj. unfold alternating in Halt.
  apply andb_prop in Halt as [H _]. apply andb_prop in H as [_ H].
  rewrite forallb_forall in H.
  specialize (H j ltac:(apply in_seq; lia)). now apply eqb_prop in H.
Qed.

Lemma alternating_direction (k : nat) :
  k < List.length phl -> direction zf (b k) = Some (rises k).
Proof.
  intros Hk. unfold alternating in Halt.
  apply andb_prop in Halt as [_ H].
  rewrite forallb_forall in H.
  specialize (H k ltac:(apply in_seq; lia)).
  destruct (direction zf (b k)) as [d|]; [|discriminate].
  apply eqb_prop in H. now subst d.
Qed.

Lemma inserted_iff (j : nat) :
  inserted phl j = true
  <-> exists k, k < List.length phl /\ (j = b k - 1 \/ j = b k).
Proof.
  unfold inserted. rewrite existsb_exists. split.
  - intros (k & Hk & H). apply in_seq in Hk. exists k. split; [lia|].
    apply orb_prop in H as [H|H]; apply Nat.eqb_eq in H; [now left | now right].
  - intros (k & Hk & H). exists k. split; [apply in_seq; lia|].
    apply orb_true_iff.
    destruct H as [H|H]; [left | right]; now apply Nat.eqb_eq.
Qed.

Lemma boundary_next (k : nat) :
  S k < List.length phl -> b (S k) = b k + nth (S k) phl 0.
Proof.
  intros Hk. unfold boundary.
  rewrite <- (firstn_skipn (S k) phl) at 1.
  assert (L : List.length (firstn (S k) phl) = S k)
    by (rewrite length_firstn; lia).
  rewrite firstn_app, L, firstn_firstn.
  replace (Nat.min (S (S k)) (S k)) with (S k) by lia.
  replace (S (S k) - S k) with 1 by lia.
  rewrite list_sum_app. f_equal.
  rewrite <- (firstn_skipn (S k) phl) at 2.
  rewrite app_nth2 by lia. rewrite L, Nat.sub_diag.
  destruct (skipn (S k) phl) as [|x l] eqn:E.
  - apply (f_equal (@List.length nat)) in E.
    rewrite length_skipn in E. simpl in E. lia.
  - simpl. lia.
Qed.

Lemma boundary_first : 0 < List.length phl -> b 0 = nth 0 phl 0.
Proof.
  unfold boundary. destruct phl as [|x l]; simpl; [lia|]. intros _. lia.
Qed.

Lemma boundary_two (k : nat) : k < List.length phl -> 2 <= b k.
Proof.
  induction k as [|k IH]; intros Hk.
  - rewrite boundary_first by lia. now apply alternating_lengths.
  - rewrite boundary_next by lia. specialize (IH ltac:(lia)). lia.
Qed.

Lemma boundary_apart (k k' : nat) :
  k < k' -> k' < List.length phl -> b k + 2 <= b k'.
Proof.
  induction k' as [|k' IH]; intros H Hk'; [lia|].
  rewrite boundary_next by lia.
  pose proof (alternating_lengths Hk') as G.
  destruct (Nat.eq_dec k k') as [->|Hne]; [lia|].
  specialize (IH ltac:(lia) ltac:(lia)). lia.
Qed.

Lemma boundary_le_inv (k k' : nat) :
  k < List.length phl -> k' < List.length phl -> b k <= b k' + 1 -> k <= k'.
Proof.
  intros Hk Hk' H. destruct (Nat.le_gt_cases k k') as [|G]; [assumption|].
  pose proof (boundary_apart G Hk). lia.
Qed.

(** The two samples after a crossing, by its direction. *)
Lemma after_crossing (k : nat) :
  k < List.length phl ->
  exists x y,
    nth_error zf (b k + 1) = Some x /\ nth_error zf (b k + 2) = Some y /\
    if rises k then (0 < x)%Q /\ (0 < y)%Q else (x < 0)%Q /\ (y < 0)%Q.
Proof.
  intros Hk. pose proof (alternating_direction Hk) as D.
  unfold direction in D.
  destruct (nth_error zf (b k + 1)) as [x|]; [|discriminate].
  destruct (nth_error zf (b k + 2)) as [y|]; [|discriminate].
  exists x, y. split; [reflexivity|]. split; [reflexivity|].
  destruct (Qltb x 0 && Qltb y 0) eqn:E1.
  - injection D as <-. apply andb_prop in E1 as [H1 H2].
    split; now apply Qltb_iff.
  - destruct (Qgtb x 0 && Qgtb y 0) eqn:E2; [|discriminate].
    injection D as <-. apply andb_prop in E2 as [H1 H2].
    split; now apply Qltb_iff.
Qed.

(** The places of the flow list that show a pattern of the trimmer are
    the two copies of the crossings of the matching direction. *)
Lemma pattern_place (test : Q -> bool) (j : nat) :
  zero_then test zf j = true ->
  exists k c,
    k < List.length phl /\ (j = b k - 1 \/ j = b k) /\
    nth_error zf (j + 2) = Some c /\ test c = true.
Proof.
  unfold zero_then.
  destruct (nth_error zf j) as [a|] eqn:Ea; [|discriminate].
  destruct (nth_error zf (j + 2)) as [c|] eqn:Ec; [|discriminate].
  intros H. apply andb_prop in H as [H0 Hc].
  assert (Hj : j < List.length zf) by (apply nth_error_Some; congruence).
  rewrite <- (nth_error_nth _ _ 0%Q Ea) in H0.
  rewrite alternating_zero in H0 by assumption.
  apply inserted_iff in H0 as (k & Hk & Hjk).
  exists k, c. auto.
Qed.

Lemma falling_place (j : nat) :
  falling zf j = true ->
  exists k, k < List.length phl /\ (j = b k - 1 \/ j = b k) /\ rises k = false.
Proof.
  intros H. apply pattern_place in H as (k & c & Hk & Hj & Ec & Hc).
  exists k. split; [assumption|]. split; [assumption|].
  apply Qltb_iff in Hc.
  destruct (after_crossing Hk) as (x & y & Ex & Ey & S).
  pose proof (boundary_two Hk) as B2.
  destruct (rises k); [exfalso | reflexivity].
  destruct S as [Sx Sy].
  destruct Hj as [-> | ->].
  - replace (b k - 1 + 2) with (b k + 1) in Ec by lia.
    rewrite Ex in Ec. injection Ec as <-.
    exact (Qlt_irrefl _ (Qlt_trans _ _ _ Sx Hc)).
  - rewrite Ey in Ec. injection Ec as <-.
    exact (Qlt_irrefl _ (Qlt_trans _ _ _ Sy Hc)).
Qed.

Lemma rising_place (j : nat) :
  rising zf j = true ->
  exists k, k < List.length phl /\ (j = b k - 1 \/ j = b k) /\ rises k = true.
Proof.
  intros H. apply pattern_place in H as (k & c & Hk & Hj & Ec & Hc).
  exists k. split; [assumption|]. split; [assumption|].
  apply Qltb_iff in Hc.
  destruct (after_crossing Hk) as (x & y & Ex & Ey & S).
  pose proof (boundary_two Hk) as B2.
  destruct (rises k); [reflexivity | exfalso].
  destruct S as [Sx Sy].
  destruct Hj as [-> | ->].
  - replace (b k - 1 + 2) with (b k + 1) in Ec by lia.
    rewrite Ex in Ec. injection Ec as <-.
    exact (Qlt_irrefl _ (Qlt_trans _ _ _ Sx Hc)).
  - rewrite Ey in Ec. injection Ec as <-.
    exact (Qlt_irrefl _ (Qlt_trans _ _ _ Sy Hc)).
Qed.

Lemma crossing_places (test : Q -> bool) (k : nat) :
  k < List.length phl ->
  (forall x y, nth_error zf (b k + 1) = Some x ->
               nth_error zf (b k + 2) = Some y ->
               test x = true /\ test y = true) ->
  zero_then test zf (b k - 1) = true /\ zero_then test zf (b k) = true.
Proof.
  intros Hk Ht.
  destruct (after_crossing Hk) as (x & y & Ex & Ey & _).
  destruct (Ht x y Ex Ey) as [Tx Ty].
  pose proof (boundary_two Hk) as B2.
  assert (L : b k + 2 < List.length zf) by (apply nth_error_Some; congruence).
  assert (Z : forall j, j = b k - 1 \/ j = b k ->
                exists a, nth_error zf j = Some a /\ Qeq_bool a 0 = true).
  { intros j Hj. assert (Lj : j < List.length zf) by lia.
    exists (nth j zf 0%Q). split; [now apply nth_error_nth'|].
    rewrite alternating_zero by assumption.
    apply inserted_iff. exists k. auto. }
  unfold zero_then. split.
  - destruct (Z (b k - 1)) as (a & -> & ->); [now left|].
    replace (b k - 1 + 2) with (b k + 1) by lia. now rewrite Ex.
  - destruct (Z (b k)) as (a & -> & ->); [now right|]. now rewrite Ey.
Qed.

Lemma falling_crossing (k : nat) :
  k < List.length phl -> rises k = false ->
  falling zf (b k - 1) = true /\ falling zf (b k) = true.
Proof.
  intros Hk R. apply crossing_places; [assumption|].
  intros x y Ex Ey.
  destruct (after_crossing Hk) as (x' & y' & Ex' & Ey' & S).
  rewrite R in S. rewrite Ex in Ex'. rewrite Ey in Ey'.
  injection Ex' as <-. injection Ey' as <-.
  destruct S. split; now apply Qltb_iff.
Qed.

Lemma rising_crossing (k : nat) :
  k < List.length phl -> rises k = true ->
  rising zf (b k - 1) = true /\ rising zf (b k) = true.
Proof.
  intros Hk R. apply crossing_places; [assumption|].
  intros x y Ex Ey.
  destruct (after_crossing Hk) as (x' & y' & Ex' & Ey' & S).
  rewrite R in S. rewrite Ex in Ex'. rewrite Ey in Ey'.
  injection Ex' as <-. injection Ey' as <-.
  destruct S. split; now apply Qltb_iff.
Qed.

(** The rising places between [lo] and [hi] when one rising crossing lies
    there, with both its copies. *)
Lemma rising_between_one_crossing (k lo hi : nat) :
  k < List.length phl -> rises k = true ->
  lo <= b k - 1 -> b k < hi ->
  (forall k', k' < List.length phl -> k' <> k ->
              b k' < lo \/ hi <= b k' - 1) ->
  rising_between zf lo hi = 2.
Proof.
  intros Hk R Hlo Hhi Hout.
  pose proof (boundary_two Hk) as B2.
  destruct (rising_crossing Hk R) as [R1 R2].
  assert (N : forall j, j <> b k - 1 -> j <> b k -> lo <= j -> j < hi ->
                rising zf j = false).
  { intros j N1 N2 L1 L2. destruct (rising zf j) eqn:E; [|reflexivity].
    exfalso. apply rising_place in E as (k' & Hk' & Hj & _).
    destruct (Nat.eq_dec k' k) as [->|Hne]; [lia|].
    destruct (Hout k' Hk' Hne); pose proof (boundary_two Hk'); lia. }
  rewrite (@rising_between_split zf lo (b k - 1) hi) by lia.
  rewrite (@rising_between_split zf (b k - 1) (S (b k)) hi) by lia.
  rewrite (@rising_between_none zf lo (b k - 1))
    by (intros j L1 L2; apply N; lia).
  rewrite (@rising_between_none zf (S (b k)) hi)
    by (intros j L1 L2; apply N; lia).
  unfold rising_between.
  replace (S (b k) - (b k - 1)) with 2 by lia. cbn [seq filter].
  rewrite R1. replace (S (b k - 1)) with (b k) by lia. rewrite R2.
  reflexivity.
Qed.

Lemma rising_between_no_crossing (lo hi : nat) :
  (forall k, k < List.length phl -> rises k = true ->
             b k < lo \/ hi <= b k - 1) ->
  rising_between zf lo hi = 0.
Proof.
  intros Hout. apply rising_between_none. intros j L1 L2.
  destruct (rising zf j) eqn:E; [|reflexivity].
  exfalso. apply rising_place in E as (k & Hk & Hj & R).
  destruct (Hout k Hk R); pose proof (boundary_two Hk); lia.
Qed.

(** The first place that shows the falling pattern is the first copy of
    the first crossing, or of the second when the first one rises; the
    rising places before it are none, or the two copies of the first
    crossing. *)
Lemma first_falling_place (k0 : nat) :
  falling zf k0 = true ->
  (forall j, j < k0 -> falling zf j = false) ->
  exists i,
    i < List.length phl /\ k0 = b i - 1 /\ rises i = false /\
    i = (if first_rises then 1 else 0) /\
    rising_between zf 0 k0 = 2 * i.
Proof.
  intros F First.
  apply falling_place in F as (i & Hi & Hk0 & R).
  pose proof (boundary_two Hi) as B2.
  destruct (falling_crossing Hi R) as [F1 _].
  assert (E : k0 = b i - 1).
  { destruct Hk0 as [?|E]; [assumption|].
    rewrite First in F1 by lia. discriminate. }
  assert (Before : forall i', i' < i -> rises i' = true).
  { intros i' Hi'. destruct (rises i') eqn:R'; [reflexivity|].
    destruct (@falling_crossing i' ltac:(lia) R') as [F' _].
    pose proof (@boundary_apart i' i Hi' Hi).
    rewrite First in F' by lia. discriminate. }
  assert (I : i = if first_rises then 1 else 0).
  { destruct i as [|[|i]].
    - cbn in R. destruct first_rises; [discriminate | reflexivity].
    - cbn in R. destruct first_rises; [reflexivity | discriminate].
    - exfalso. specialize (Before i ltac:(lia)).
      rewrite Nat.odd_succ, Nat.even_succ in R. congruence. }
  exists i. split; [assumption|]. split; [assumption|].
  split; [assumption|]. split; [assumption|].
  subst k0. clear I.
  destruct i as [|[|i]].
  - apply rising_between_no_crossing. intros k Hk _. right.
    destruct (Nat.eq_dec k 0) as [->|]; [lia|].
    pose proof (@boundary_apart 0 k ltac:(lia) Hk). lia.
  - pose proof (@boundary_apart 0 1 ltac:(lia) Hi).
    apply (@rising_between_one_crossing 0); try lia.
    + apply Before. lia.
    + intros k' Hk' Hne. right.
      destruct (Nat.eq_dec k' 1) as [->|]; [lia|].
      pose proof (@boundary_apart 1 k' ltac:(lia) Hk'). lia.
  - exfalso. specialize (Before i ltac:(lia)).
    cbv beta in Before, R.
    rewrite Nat.odd_succ, Nat.even_succ in R. congruence.
Qed.

(** The last place that shows the falling pattern is the second copy of
    the last crossing, or of the one before when the last one rises; the
    rising places after it are none, or the two copies of the last
    crossing. *)
Lemma last_falling_place (e0 : nat) :
  falling zf e0 = true ->
  (forall j, e0 < j -> falling zf j = false) ->
  exists m,
    m < List.length phl /\ e0 = b m /\ rises m = false /\
    m + trailing first_rises (List.length phl) + 1 = List.length phl /\
    rising_between zf (S e0) (List.length zf)
    = 2 * trailing first_rises (List.length phl).
Proof.
  intros F Last.
  apply falling_place in F as (m & Hm & He0 & R).
  pose proof (boundary_two Hm) as B2.
  destruct (falling_crossing Hm R) as [_ F2].
  assert (E : e0 = b m).
  { destruct He0 as [E|?]; [|assumption].
    rewrite Last in F2 by lia. discriminate. }
  assert (After : forall m', m < m' -> m' < List.length phl ->
                    rises m' = true).
  { intros m' H1 H2. destruct (rises m') eqn:R'; [reflexivity|].
    destruct (@falling_crossing m' H2 R') as [_ F'].
    pose proof (@boundary_apart m m' H1 H2).
    rewrite Last in F' by lia. discriminate. }
  assert (M : S m = List.length phl
              \/ (S (S m) = List.length phl /\ rises (S m) = true)).
  { destruct (Nat.eq_dec (S m) (List.length phl)) as [|N1]; [now left|].
    right. destruct (Nat.eq_dec (S (S m)) (List.length phl)) as [|N2].
    - split; [assumption|]. apply After; lia.
    - exfalso. specialize (After (S (S m)) ltac:(lia) ltac:(lia)).
      cbv beta in After, R.
      rewrite !Nat.odd_succ, !Nat.even_succ in After. congruence. }
  exists m. split; [assumption|]. split; [assumption|].
  split; [assumption|]. unfold trailing. subst e0.
  destruct M as [M|[M RM]].
  - replace (List.length phl - 1) with m by lia. rewrite R. split; [lia|].
    apply rising_between_no_crossing. intros k Hk _. left.
    destruct (Nat.eq_dec k m) as [->|]; [lia|].
    pose proof (@boundary_apart k m ltac:(lia) Hm). lia.
  - replace (List.length phl - 1) with (S m) by lia. rewrite RM.
    split; [lia|].
    destruct (@after_crossing (S m) ltac:(lia)) as (x & y & _ & Ey & _).
    assert (L : b (S m) + 2 < List.length zf)
      by (apply nth_error_Some; congruence).
    pose proof (@boundary_apart m (S m) ltac:(lia) ltac:(lia)).
    apply (@rising_between_one_crossing (S m)); try lia.
    + assumption.
    + intros k' Hk' Hne. left.
      destruct (Nat.eq_dec k' m) as [->|]; [lia|].
      pose proof (@boundary_apart k' m ltac:(lia) Hm). lia.
Qed.

End AlternationFacts.

(** C5, for crossings that alternate.  The augmented lists are as the
    detector leaves them when no sample of the recording has flow zero and
    the validated crossings rise and fall in turn: the flow is zero at the
    two copies of every inserted point and nowhere else, every crossing is
    followed by two samples of one sign, and the signs alternate.  When
    [trim_excess_data] returns on such lists, the leading loop has stopped
    at the first falling crossing and the trailing loop at the last one;
    the phase lengths left are those of the phases between the two, an
    even number [2B] of them, and [B] is the number of breaths returned.
    The list has lost one entry at the front, two when the first crossing
    rises, and one at the back when the last crossing rises. *)
Theorem alternating_crossings_leave_whole_breaths
  (first_rises : bool) (zt zv zf : list Q) (phl : list nat)
  (t : FVAvg.trimmed) :
  List.length zt = List.length zf -> List.length zv = List.length zf ->
  Alternation.alternating first_rises zf phl = true ->
  FVAvg.trim_excess_data zt zv zf phl = Py.ok t ->
  let n := List.length (FVAvg.trimmed_phases t) in
  let B := FVAvg.number_of_breaths t in
  n = 2 * B /\ Nat.even n = true /\ B = n / 2 /\
  n + Alternation.leading first_rises
    + Alternation.trailing first_rises (List.length phl)
  = List.length phl /\
  FVAvg.trimmed_phases t
  = firstn n (skipn (Alternation.leading first_rises) phl).
Proof.
  intros HT HV Halt E.
  destruct (trim_excess_data_spec _ _ _ _ HT HV E)
    as (k0 & e0 & Hke & Fk & First & Fe & Last & _ & _ & _ & Hcs & Hce).
  destruct (@first_falling_place _ _ _ Halt _ Fk First)
    as (i & Hi & Ek & Ri & Ii & R1).
  destruct (@last_falling_place _ _ _ Halt _ Fe Last)
    as (m & Hm & Ee & Rm & Mm & R2).
  cbv beta in Ri, Rm. rewrite R1 in Hcs. rewrite R2 in Hce.
  pose proof (@boundary_two _ _ _ Halt _ Hi) as B2.
  assert (Him : i <= m)
    by (apply (@boundary_le_inv _ _ _ Halt _ _ Hi Hm); lia).
  assert (Par : Nat.odd i = Nat.odd m).
  { destruct first_rises, (Nat.odd i), (Nat.odd m); cbn in Ri, Rm;
      congruence. }
  assert (Ev : Nat.even (m - i) = true).
  { rewrite Nat.even_sub by assumption.
    rewrite <- !Nat.negb_odd, Par. now destruct (Nat.odd m). }
  assert (Lead : Facts.leading_drops (FVAvg.counter_start t)
                 = Alternation.leading first_rises).
  { unfold Facts.leading_drops, Alternation.leading.
    destruct first_rises; subst i.
    - rewrite (@Qeq_bool_false (FVAvg.counter_start t) 1)
        by (rewrite Hcs; discriminate).
      rewrite (@Qeq_bool_true (FVAvg.counter_start t) 2)
        by (rewrite Hcs; reflexivity).
      reflexivity.
    - rewrite (@Qeq_bool_true (FVAvg.counter_start t) 1)
        by (rewrite Hcs; reflexivity).
      reflexivity. }
  assert (Trail : Facts.trailing_drops (FVAvg.counter_end t)
                  = Alternation.trailing first_rises (List.length phl)).
  { unfold Facts.trailing_drops.
    assert (T : Alternation.trailing first_rises (List.length phl) = 0
                \/ Alternation.trailing first_rises (List.length phl) = 1)
      by (unfold Alternation.trailing;
          destruct (xorb first_rises (Nat.odd (List.length phl - 1)));
          [right | left]; reflexivity).
    destruct T as [T|T]; rewrite T in Hce |- *.
    - rewrite (@Qeq_bool_false (FVAvg.counter_end t) 1)
        by (rewrite Hce; discriminate).
      reflexivity.
    - rewrite (@Qeq_bool_true (FVAvg.counter_end t) 1)
        by (rewrite Hce; reflexivity).
      reflexivity. }
  assert (Li : Alternation.leading first_rises = S i)
    by (unfold Alternation.leading; destruct first_rises; lia).
  revert Lead Trail. clear Hcs Hce.
  unfold FVAvg.trim_excess_data in E.
  destruct (FVAvg.trim_start zf zv zt 1) as [e|[[[zf1 zv1] zt1] cs]];
    [discriminate|].
  cbv beta iota delta [Py.rbind] in E.
  destruct (FVAvg.trim_end zf1 zv1 zt1 0) as [e|[[[zf2 zv2] zt2] ce]];
    [discriminate|].
  cbv beta iota in E.
  destruct (FVAvg.drop_leading_phases cs phl) as [e|p1] eqn:E1;
    [discriminate|].
  destruct (FVAvg.drop_trailing_phase ce p1) as [e|p2] eqn:E2;
    [discriminate|].
  injection E as <-.
  cbn [FVAvg.trimmed_phases FVAvg.number_of_breaths
       FVAvg.counter_start FVAvg.counter_end].
  intros Lead Trail.
  apply drop_leading_phases_length in E1. destruct E1 as [L1 ->].
  apply drop_trailing_phase_length in E2. destruct E2 as [L2 ->].
  rewrite Lead in *. rewrite Trail in *. rewrite length_skipn in *.
  set (tr := Alternation.trailing first_rises (List.length phl)) in *.
  rewrite length_firstn, length_skipn.
  replace (Nat.min (List.length phl - Alternation.leading first_rises - tr)
             (List.length phl - Alternation.leading first_rises))
    with (m - i) by lia.
  replace (List.length phl - Alternation.leading first_rises - tr)
    with (m - i) by lia.
  apply Nat.even_spec in Ev as [h Hh].
  assert (D : (m - i) / 2 = h)
    by (rewrite Hh, Nat.mul_comm; apply Nat.div_mul; lia).
  change (fst (Nat.divmod (m - i) 1 0 1)) with ((m - i) / 2).
  rewrite D.
  split; [lia|]. split; [apply Nat.even_spec; now exists h|].
  split; [reflexivity|]. split; [lia | reflexivity].
Qed.
Lemma alternating_crossings_leave_whole_breaths_witness :
  match FVAvg.find_zero_flow_points (Recordings.ramp 398)
          (Recordings.integrate 0%Q Alternation.six_crossings_flow)
          Alternation.six_crossings_flow with
  | inr (zt, zv, zf, phl) =>
      match FVAvg.trim_excess_data zt zv zf phl with
      | inr t =>
          List.length phl = 6 /\
          Alternation.alternating true zf phl = true /\
          let n := List.length (FVAvg.trimmed_phases t) in
          let B := FVAvg.number_of_breaths t in
          n = 2 * B /\ Nat.even n = true /\ B = n / 2 /\
          n + Alternation.leading true
            + Alternation.trailing true (List.length phl)
          = List.length phl /\
          FVAvg.trimmed_phases t
          = firstn n (skipn (Alternation.leading true) phl)
      | inl _ => False
      end
  | inl _ => False
  end.
Proof.
  destruct (FVAvg.find_zero_flow_points _ _ _)
    as [e|[[[zt zv] zf] phl]] eqn:E.
  - vm_compute in E. discriminate.
  - assert (L : List.length phl = 6
                /\ List.length zt = List.length zf
                /\ List.length zv = List.length zf
                /\ Alternation.alternating true zf phl = true
                /\ exists t, FVAvg.trim_excess_data zt zv zf phl = Py.ok t).
    { vm_compute in E. injection E as <- <- <- <-.
      split; [reflexivity|]. split; [reflexivity|]. split; [reflexivity|].
      split; [vm_compute; reflexivity|].
      eexists. vm_compute. reflexivity. }
    destruct L as (L6 & LT & LV & A & t & Et). rewrite Et.
    split; [exact L6|]. split; [exact A|].
    exact (@alternating_crossings_leave_whole_breaths
             true zt zv zf phl t LT LV A Et).
Defined.
(* ------------------------------------------------------------------ *)
(** * The way to the percentage of TLC and back, on floats *)
(* ------------------------------------------------------------------ *)

Section RoundTripOnFloats.
Import Floats.


End RoundTripOnFloats.

(* ------------------------------------------------------------------ *)
(** * The TLC of the absolute volumes *)
(* ------------------------------------------------------------------ *)

Section AbsoluteColumns.
Import Consolidator.

(** A dict has the key [k]. *)
Local Abbreviation has_key d k := (exists v, In (k, v) d).

Lemma dict_set_has_key {A} (d : frame A) (k : string) (v : list A) :
  In (k, v) (dict_set d k v).
Proof.
  induction d as [|[k0 v0] d IH]; simpl; [now left|].
  destruct (String.eqb_spec k0 k) as [->|Hne]; [now left | now right].
Qed.

Lemma dict_set_keeps_key {A} (d : frame A) (k k' : string) (v : list A) :
  has_key d k' -> has_key (dict_set d k v) k'.
Proof.
  intros [v' H]. induction d as [|[k0 v0] d IH]; [destruct H|].
  simpl. destruct (String.eqb_spec k0 k) as [->|Hne].
  - destruct H as [[= -> ->]|H]; [exists v; now left | exists v'; now right].
  - destruct H as [[= -> ->]|H]; [exists v'; now left|].
    destruct (IH H) as [v'' H']. exists v''. now right.
Qed.

Lemma data_frame_has_key (d : frame cell) (k : string) :
  has_key d k -> has_key (data_frame d) k.
Proof.
  intros [v H]. unfold data_frame. eexists.
  apply in_map_iff. exists (k, v). split; [reflexivity | exact H].
Qed.

(** The TLC values that the loop over the selected files gathers are
    those of the processed files, in the order of the selection. *)
Lemma collect_tlc_values (processed_dfs : list (string * file_data))
  (max_rows : nat) (selected_files : list string) :
  forall i combined_data all_tlc_values,
    snd (collect selected_files processed_dfs max_rows i combined_data
           all_tlc_values)
    = all_tlc_values
      ++ map (fun e => tlc (snd e))
           (Columns.processed selected_files processed_dfs i).
Proof.
  induction selected_files as [|p rest IH]; intros i cd tl;
    cbn [collect Columns.processed].
  - cbn [map]. now rewrite app_nil_r.
  - destruct (dict_get processed_dfs p) as [fd|]; [|apply IH].
    cbv beta iota zeta delta [file_columns]. rewrite IH.
    cbn [map snd]. now rewrite <- app_assoc.
Qed.

Lemma collect_keeps_key (processed_dfs : list (string * file_data))
  (max_rows : nat) (selected_files : list string) (k : string) :
  forall i combined_data all_tlc_values,
    has_key combined_data k ->
    has_key (fst (collect selected_files processed_dfs max_rows i
                    combined_data all_tlc_values)) k.
Proof.
  induction selected_files as [|p rest IH]; intros i cd tl H;
    cbn [collect]; [exact H|].
  destruct (dict_get processed_dfs p) as [fd|]; [|now apply IH].
  cbv beta iota zeta delta [file_columns]. apply IH.
  now apply dict_set_keeps_key, dict_set_keeps_key.
Qed.

(** Every processed file has its percent-TLC column in [combined_data]. *)
Lemma collect_has_the_columns (processed_dfs : list (string * file_data))
  (max_rows : nat) (selected_files : list string) (e : nat * file_data) :
  forall i combined_data all_tlc_values,
    In e (Columns.processed selected_files processed_dfs i) ->
    has_key (fst (collect selected_files processed_dfs max_rows i
                    combined_data all_tlc_values))
            ("Vol % TLC " ++ Columns.tag (fst e) (snd e))%string.
Proof.
  induction selected_files as [|p rest IH]; intros i cd tl H;
    cbn [collect Columns.processed] in *; [destruct H|].
  destruct (dict_get processed_dfs p) as [fd|]; [|now apply IH].
  cbv beta iota zeta delta [file_columns].
  destruct H as [<-|H]; [|now apply IH].
  apply collect_keeps_key, dict_set_keeps_key.
  eexists. apply dict_set_has_key.
Qed.

(** The loop over the columns of the percent sheet makes a column for
    every percent-TLC column it passes, and keeps the columns made. *)
Lemma absolute_loop_has_the_columns (avg : Q) (columns : frame cell) :
  forall absolute_data,
    (forall k, has_key absolute_data k ->
               has_key (absolute_loop avg columns absolute_data) k) /\
    (forall col xs, In (col, xs) columns ->
                    contains "Vol % TLC" col = true ->
                    has_key (absolute_loop avg columns absolute_data)
                            (replace "Vol % TLC" "Absolute Vol" col)).
Proof.
  induction columns as [|[c ys] rest IH]; intros acc; cbn [absolute_loop].
  - split; [auto | intros col xs []].
  - destruct (contains "Vol % TLC" c) eqn:E1.
    + destruct (IH (dict_set acc (replace "Vol % TLC" "Absolute Vol" c)
                      (map (to_absolute avg) ys))) as [K C].
      split.
      * intros k H. now apply K, dict_set_keeps_key.
      * intros col xs [[= <- <-]|H] Hc; [|now apply (C col xs)].
        apply K. eexists. apply dict_set_has_key.
    + destruct (contains "Flow" c).
      * destruct (IH (dict_set acc c ys)) as [K C]. split.
        -- intros k H. now apply K, dict_set_keeps_key.
        -- intros col xs [[= <- <-]|H] Hc; [congruence | now apply (C col xs)].
      * destruct (IH acc) as [K C]. split; [exact K|].
        intros col xs [[= <- <-]|H] Hc; [congruence | now apply (C col xs)].
Qed.

End AbsoluteColumns.

(** C10.  In the horizontal-layout output the TLC used for the conversion
    is the mean of the TLC values of the processed files, in the order of
    the selection, rounded to two decimals.  Every processed file has its
    percent-TLC column in the percent sheet; every percent-TLC column of
    that sheet has its column in the absolute-volume sheet; and every
    column of the absolute-volume sheet is either a flow column copied
    from the percent sheet or the image of a percent-TLC column under the
    cell-wise conversion, which sends a number [x] to [x * avg_tlc / 100]
    and leaves a missing cell as it is.  The normalized average volume is
    the image of the average percent column under the same conversion. *)
Theorem absolute_volumes_use_the_rounded_mean_tlc
  (selected_files : list string)
  (processed_dfs : list (string * Consolidator.file_data))
  (all_insp_vols all_exp_vols : list Consolidator.series) (max_rows : nat) :
  let L := Consolidator.create_horizontal_layout_output selected_files
             processed_dfs all_insp_vols all_exp_vols max_rows in
  let files := Columns.processed selected_files processed_dfs 0 in
  let all_tlc_values := map (fun e => Consolidator.tlc (snd e)) files in
  let avg := Consolidator.round2 (Consolidator.mean_tlc all_tlc_values) in
  Consolidator.layout_avg_tlc L = avg /\
  (forall e, In e files ->
     exists xs,
       In (("Vol % TLC " ++ Columns.tag (fst e) (snd e))%string, xs)
          (Consolidator.combined_df L)) /\
  (forall col xs,
     In (col, xs) (Consolidator.combined_df L) ->
     Consolidator.contains "Vol % TLC" col = true ->
     exists ys,
       In (Consolidator.replace "Vol % TLC" "Absolute Vol" col, ys)
          (Consolidator.absolute_df L)) /\
  Forall (Facts.from_combined avg (Consolidator.combined_df L))
         (Consolidator.absolute_df L) /\
  (forall x, Consolidator.to_absolute avg (Consolidator.Num x)
             = Consolidator.Num (x * avg / 100)%Q) /\
  Consolidator.to_absolute avg Consolidator.NaNc = Consolidator.NaNc /\
  Consolidator.to_absolute avg Consolidator.Blank = Consolidator.Blank /\
  Consolidator.normalized_average_volume L
  = option_map (map (Consolidator.to_absolute avg))
      (Consolidator.average_vol_percent L).
Proof.
  cbv zeta. unfold Consolidator.create_horizontal_layout_output.
  pose proof (collect_tlc_values processed_dfs max_rows selected_files 0 [] [])
    as T.
  pose proof (fun e => @collect_has_the_columns processed_dfs max_rows
                         selected_files e 0 [] []) as H.
  destruct (Consolidator.collect selected_files processed_dfs max_rows 0 [] [])
    as [combined_data all_tlc_values] eqn:E.
  cbn [fst snd app] in T, H. subst all_tlc_values.
  cbn [Consolidator.layout_avg_tlc Consolidator.combined_df
       Consolidator.absolute_df Consolidator.normalized_average_volume
       Consolidator.average_vol_percent].
  set (files := Columns.processed selected_files processed_dfs 0) in *.
  set (avg := Consolidator.avg_tlc _).
  split; [reflexivity|]. split.
  { intros e He. now apply data_frame_has_key, H. }
  split.
  { intros col xs Hin Hc. apply data_frame_has_key.
    destruct (absolute_loop_has_the_columns avg
                (Consolidator.data_frame combined_data) []) as [_ C].
    exact (C col xs Hin Hc). }
  split.
  { pose proof (data_frame_uniform combined_data) as U.
    set (n := fold_right Nat.max 0 _) in U.
    destruct (@absolute_loop_from_combined avg
                (Consolidator.data_frame combined_data) n
                (Consolidator.data_frame combined_data) [])
      as [H1 H2]; try assumption.
    - apply incl_refl.
    - constructor.
    - constructor.
    - now rewrite (data_frame_id H2). }
  repeat split; reflexivity.
Qed.

(** Three files with the TLC values 6, 7 and 7, and one selected file
    that was not processed: the TLC of the conversion is 6.67. *)
Lemma absolute_volumes_use_the_rounded_mean_tlc_witness :
  let fd := fun id t => Consolidator.mkFileData id t
                          [Some 50%Q] [Some 1%Q] [Some 40%Q] [Some 2%Q] in
  let L := Consolidator.create_horizontal_layout_output
             ["a"; "x"; "b"; "c"]%string
             [("a"%string, fd "11"%string 6%Q);
              ("b"%string, fd ""%string 7%Q);
              ("c"%string, fd "13"%string 7%Q)]
             [[Some 50%Q]] [[Some 40%Q]] 1 in
  (Consolidator.layout_avg_tlc L == 667 # 100)%Q /\
  (exists xs, In ("Vol % TLC 3"%string, xs) (Consolidator.combined_df L)) /\
  (exists ys, In ("Absolute Vol 3"%string, ys) (Consolidator.absolute_df L)).
Proof.
  cbv zeta.
  destruct (absolute_volumes_use_the_rounded_mean_tlc
              ["a"; "x"; "b"; "c"]%string
              [("a"%string,
                Consolidator.mkFileData "11" 6%Q
                  [Some 50%Q] [Some 1%Q] [Some 40%Q] [Some 2%Q]);
               ("b"%string,
                Consolidator.mkFileData "" 7%Q
                  [Some 50%Q] [Some 1%Q] [Some 40%Q] [Some 2%Q]);
               ("c"%string,
                Consolidator.mkFileData "13" 7%Q
                  [Some 50%Q] [Some 1%Q] [Some 40%Q] [Some 2%Q])]
              [[Some 50%Q]] [[Some 40%Q]] 1)
    as (A & F & C & _).
  split; [rewrite A; reflexivity|].
  destruct (F (2, Consolidator.mkFileData "" 7%Q
                    [Some 50%Q] [Some 1%Q] [Some 40%Q] [Some 2%Q]))
    as [xs Hxs]; [right; left; reflexivity|].
  split; [exists xs; exact Hxs|].
  exact (C _ xs Hxs eq_refl).
Defined.
